(* ===== verification/_CoqProject ===== *)
-Q . S2P
Prelude.v
Decimal.v
F64.v
F64Exact.v
Wire.v
ToyCodec.v
Frames.v
Product.v
Pricing.v
Session.v
SessionFacts.v
SessionProps.v
SessionTypes.v
SessionIso.v
Delivery.v
Charger.v
External.v
Wallet.v
Consume.v
NetDriver.v
NetDriverFacts.v
Config.v
Status.v
Bootstrap.v
NodeSpec.v
Races.v
Market.v
Json.v
IpAdapter.v
LnQuotes.v
Shell.v
Text.v
Serde.v
Control.v
Uci.v
Ubus.v
NetMonitor.v
WifiScan.v
WifiConnect.v
Tasks.v
V1Nostr.v
V1Merchant.v
V1Client.v
V1Gateways.v
V1Recovery.v
V1Crowsnest.v
V1Server.v
V1Http.v
V1Wallet.v
StatusText.v
WebUi.v
Ssl.v
Startup.v
Spilman.v
Commands.v
