(* ===== verification/Prelude.v ===== *)
(** * TollGate: a verification development for tollgate-rs

    TollGate sells network access and other metered resources for Cashu tokens,
    peer to peer. This library models the Rust workspace under [src/crates] and
    proves what makes it correct. It is a shallow embedding: each Rust function is
    a Rocq function, a mutable structure is a record passed and returned, an effect
    is a value in a list of actions, a failure is an [option] or a [result].

    ** The program and its model

    - [tollgate-protocol] is the wire format. [Wire.v] has the message types of
      [message.rs], one Module per struct; [Frames.v] the length-prefixed framing of
      [codec.rs]; [Product.v] the canonical product and option fingerprints of
      [product.rs]. The CBOR bytes are made by code that the [minicbor] crate
      derives, so the codec is a class, [Wire.Minicbor], with the laws the program
      relies on, [Wire.MinicborLaws]; [ToyCodec.v] is an instance that satisfies
      them, used to evaluate examples. SHA-256 is the class [Product.Sha256],
      without laws: the fingerprint theorems exhibit a collision instead.
    - [tollgate-core] is the pure engine. [Pricing.v] models [pricing.rs],
      [metering.rs], [time.rs] and [access.rs], with [F64.v] for the few uses of
      doubles and [F64Exact.v] for where their results are exact; [Session.v] the state machine of [session.rs] with its events and
      actions ([SessionFacts.v], [SessionProps.v], [SessionTypes.v] and
      [SessionIso.v] hold its theory); [Delivery.v] the grant and settlement engine
      of [delivery.rs]. [Session.handle] is one function with an arm per event; each
      arm is a definition [on_*], and a peer's own state changes through [with_peer].
    - [tollgate-charger-host] drives real deliveries with that engine.
      [Charger.v] models the device driver of [driver.rs] and the simulated device
      of [sim.rs]; [External.v] the provider driver of [external.rs], against the
      class [ProviderPort] of the four calls a provider must answer.
    - [tollgate-net] is the node. [Wallet.v] models the token verification of
      [wallet.rs]; [Consume.v] the buying side, [client.rs]; [NetDriver.v] the
      shared driver of [driver.rs] and the exchange handler of [server.rs];
      [Tasks.v] the tasks that call the driver, the consumer's exchange over HTTP
      and the routes of the server; [Config.v] the offer built by [config.rs];
      [Status.v] the status view of [driver.rs] and [status.rs]; [IpAdapter.v] the
      nftables adapter of [adapter.rs], with [Json.v] for the JSON the tools print.
      [Bootstrap.v] puts the two ends of a purchase together and [NodeSpec.v] is
      the abstract node that [NetDriver.v] refines. [Races.v] takes the operations of
      the driver apart, one step per section under a lock, and lets them interleave.
      [Market.v] sets the buyer's account beside the seller's and runs the consumer's
      loop against the driver.
    - What an operator sees of the node: [Control.v] models the control socket of
      [control_server.rs] with its client [control.rs] and the JSON handlers of
      [web_ui.rs], over the trees that [serde] derives, [Serde.v]; [StatusText.v]
      the tables of [status.rs] and the program [tolltop]; [WebUi.v] the script of
      the admin page, from the JSON it fetches to the HTML it assigns; [Ssl.v] the
      wrapper of [certbot], [ssl.rs], over a tree of files.
    - Starting: [Startup.v] models what [config.rs] does with files, the
      configuration's and the key's, the seeds and the mints of the wallets and what
      [serve] in [main.rs] starts the tasks with; [Commands.v] the choice of a
      command and the commands of the older protocol from end to end. [Spilman.v]
      models [spilman/]: funding proofs, the calls to a mint, the service over the
      class [SpilmanClientBridge] of the [cdk-spilman] crate, and its payment loop.
    - [tollgate-net/src/v1_compat] serves and speaks the older V1 protocol.
      [V1Nostr.v] has the events and their tags; [V1Merchant.v] the configuration,
      the allotments and the mint health tracker; [V1Client.v] the buyer's option
      selection and its run against a gateway; [V1Gateways.v] the usage trackers
      and the session manager; [V1Recovery.v] the recovery of tokens;
      [V1Crowsnest.v] the discovery of gateways; [LnQuotes.v] the Lightning quotes;
      [V1Server.v] the HTTP handlers over the V2 session; [V1Http.v] the requests,
      the text of the answers and the headers between the two; [V1Wallet.v] the
      wallet over the class [Cdk] of the [cdk] crate's calls.
    - [tollgate-net/src/openwrt] configures a router. [Text.v] has the standard
      library's functions on text; [Shell.v] specifies how a
      POSIX shell splits a line into words; [Uci.v] the UCI operations and their
      rendering; [Ubus.v] the JSON-RPC client; [NetMonitor.v] the netlink monitor;
      [WifiScan.v] and [WifiConnect.v] the scanner and the connector, against the
      classes [CommandExecutor], which the system's processes implement, and
      [ClockLaws].

    An exchange runs through most of it: [http_exchange] splits the body with
    [decode_frames], establishes the peer from its announcement, hands each other
    message to [Session.handle], executes the actions it returns (firewall calls,
    the outbox, the set of metered peers), calls [BootstrapWallet.verify] for a
    token and feeds the verdict back as an event, and answers with what is queued.
    [Consume.v] is the other end of the same conversation. The V1 server reaches
    the same session: it feeds a V1 payment to [Session.handle] as a received token.

    ** What is proved

    - Framing and ids: what is framed is read back; the decoder terminates on every
      buffer, and its errors point at the first byte that is not a whole frame; an id
      binds everything it covers, and does not depend on declaration order.
    - Prices: the cost is the ideal cost, saturated, within bounds that are exact;
      billing in pieces falls short by less than one unit a piece; dynamic
      adjustment stays within the configured bounds whatever the doubles do.
    - The session: every state and every action keeps to the machine types; access
      follows payment in every reachable state; the balances add up over every run;
      usage is billed exactly; peers do not affect each other; a metered sample is
      described on every branch; a top-up after a cut charges nothing for the gap;
      the snapshot shows the state.
    - Deliveries: a settlement and its refund are the deposit; an engine settles at
      most once unless progress revives it; a lapsed lease is settled; a delivery not
      yet settled is recovered from its journal as if nothing had happened; the two
      drivers pay out at most once whatever the host, the device or the provider does.
    - The node: a payment that a client sends buys access at a node, end to end, with
      nothing in the client's queue that would be read for its verdict; no proof is
      credited twice by calls that do not overlap, and by none after a restart if the
      record of spent proofs was written and is read; the driver refines the abstract
      node; a queue never holds two metering reports and loses nothing else; the reaper
      takes the idle peers that have not paid and no other; an exchange answers with
      what was queued; the status view merges both sides of a peering; the rates
      advertised, the session's and the buyer's are the configured ones, digit by digit,
      and none of them is divided by the scale; a consumer that tops up by at least what
      a poll costs never runs dry; the sets of the firewall hold nobody who was not
      admitted, and exactly the peers admitted when the tool serves the calls; whatever
      runs besides, an upstream's entry is what its own loop makes of it. In whatever
      order the steps of its operations interleave, the accounts hold, what they hold
      was accepted by this node's wallet and mint, and an address is let in for its
      peer's payment only; access follows payment once the events of one peer are
      handled one after another. Within a metering session the
      buyer's account and the seller's agree to one scaled unit per event.
    - The operator's view: a client of the control socket reads the status that the
      node shows; a byte count is rounded to the hundredth it shows; no name of a
      peer or a mint brings markup into the admin page; removing a certificate
      touches no other domain's.
    - Starting: the identity that a node makes is the one it keeps; the first
      configuration file there is counts. No funding proofs are asked of a mint
      before its quote is paid; a channel is opened on the terms read, and the
      payments end.
    - V1: what is advertised is read back with the price charged; a client buys
      whole steps of options in its unit on one of its mints, and its run ends; an answer's text is read back; the tracker's
      renewals, the manager's tasks, the quotes' single mint, the calendar of the
      recovery file, the admission by a V1 payment, the sum of allotments.
    - OpenWrt: a rendered operation is one shell command with exactly the intended
      words; one shell runs per operation until one fails; the ubus requests are the
      operations in order; a scan's networks are its cells, field by field; a connection
      reported was verified; the throttle spaces events, reconnections included; the
      guessed gateway is on the link it is guessed for; a scan ends in time, even
      when the tool hangs.
    - Departures: theorems on concrete or general traces where the code does not do
      what its comments say, such as a session that rides free, a top-up that
      restarts metering, a revocation that failed and is not repeated, a lost record of
      spent proofs, a verdict read for another, a steady honest buyer that is cut off for drift, a double credit by overlapping calls, a second settlement
      after the end, a cut character that panics the V1 wallet, a wallet on a seed
      of zeros, a buyer that refuses every price, a channel that is never closed.

    ** Conventions

    Machine integers are [Z] with the width's arithmetic written out; no profile of
    the workspace enables overflow checks, so plain arithmetic wraps. [Decimal.v]
    has the integers as decimal text, printing and parsing. Strings are
    byte strings; [BTreeMap]s are [gmap]s, iterated in key order by [btree_iter].
    Clocks, counters and answers of the outside world are arguments. Handlers are
    atomic steps, except where the code awaits in the middle and the interleaving
    matters: the wallet's [verify] and the Lightning quote's monitor are step
    relations between their awaits, and [Races.v] has the driver's operations as
    threads, with what holds in every order, what in an orderly one, and three orders
    in which a paid peer is shut out, an unpaid one let in or a payment lost. [run] folds a handler over a list of inputs; a
    theorem over "any run" quantifies over that list.

    Fuel: the frame loop [decode_loop] gets the length of the buffer, enough by
    [decode_frames_exact]; the loops over text get the text's length; the calendar's
    year loop one step per 365 days and one more; the quote monitor [LN_FUEL], one
    more than its polls, enough for any polls that take a second ([run_buys_own_offers],
    [lightning_wait_terminates]); the connector's wait [WAIT_FUEL], a poll a second over its
    timeout, enough by [wait_total]; the payment loop of a channel [PAYMENT_FUEL], its
    cap and one more, enough by [payments_end]; the page's printer of doubles tries up
    to 17 digits, which are enough for any double, and else takes the value. Bounds of the code itself
    are kept as numbers: 120 polls of a funding quote, 3 probes of a gateway, 5
    divisions of a byte count.

    The Modules named [*Demo] hold the concrete inputs of the witnesses, lemmas
    named [<theorem>_witness] that apply a theorem where its hypotheses hold.

    ** What is not modelled

    The parsing of the command line, logging, the transports themselves (HTTP, TLS,
    sockets, netlink, processes), the style sheet and the static markup of the admin
    page, the cells and the colours that [ratatui] draws, YAML, and the code of
    third-party crates, which are classes or arguments with the behaviour relied on
    as named laws. A test token for the consumer is built by the [cashu] crate.
    Names of fields that [serde] derives are written out where the JSON is modelled.

    ** This file

    The shared vocabulary: machine integers, byte strings and the lines of a text, the
    standard library's options and results, ordered maps, runs of handlers, and their lemmas and
    automation. *)

From Stdlib Require Export ZArith Lia.
From Stdlib Require Import Strings.Byte.
From stdpp Require Export base decidable list gmap strings countable sorting fin_maps.

Open Scope Z_scope.

Declare Scope tollgate_scope.
Delimit Scope tollgate_scope with tg.

(** ** Machine integers

    Rust's fixed-width integers are [Z] together with the width's wrap-around.
    The workspace sets no [overflow-checks] in any Cargo profile, so in the
    release build that is shipped a plain [+], [-], [*] wraps; [saturating_*]
    clamps; [as] casts reinterpret the low bits. *)

Definition U8_MAX : Z := 2 ^ 8 - 1.
Definition U16_MAX : Z := 2 ^ 16 - 1.
Definition U32_MAX : Z := 2 ^ 32 - 1.
Definition U64_MAX : Z := 2 ^ 64 - 1.
Definition I64_MIN : Z := - 2 ^ 63.
Definition I64_MAX : Z := 2 ^ 63 - 1.

Abbreviation is_u8 z := (0 <= z <= U8_MAX).
Abbreviation is_u32 z := (0 <= z <= U32_MAX).
Abbreviation is_u64 z := (0 <= z <= U64_MAX).
Abbreviation is_i64 z := (I64_MIN <= z <= I64_MAX).

(** [a op b] at width [w], the release-profile arithmetic. *)
Definition wrap_u (w z : Z) : Z := z mod 2 ^ w.
Definition wrap_i (w z : Z) : Z := (z + 2 ^ (w - 1)) mod 2 ^ w - 2 ^ (w - 1).

Abbreviation wrap_u32 := (wrap_u 32).
Abbreviation wrap_u64 := (wrap_u 64).
Abbreviation wrap_i64 := (wrap_i 64).
Abbreviation wrap_i128 := (wrap_i 128).

(** [u64::saturating_add], [saturating_sub], [saturating_mul], [u8::saturating_add]. *)
Definition sat_add_u64 (a b : Z) : Z := Z.min U64_MAX (a + b).
Definition sat_sub_u64 (a b : Z) : Z := Z.max 0 (a - b).
Definition sat_mul_u64 (a b : Z) : Z := Z.min U64_MAX (a * b).
Definition sat_add_u8 (a b : Z) : Z := Z.min U8_MAX (a + b).
(** [i64::saturating_sub]. *)
Definition sat_sub_i64 (a b : Z) : Z := Z.max I64_MIN (Z.min I64_MAX (a - b)).
(** [u64::abs_diff]. *)
Definition abs_diff (a b : Z) : Z := Z.abs (a - b).
(** [u64::checked_div]. *)
Definition checked_div (a b : Z) : option Z := if b =? 0 then None else Some (a / b).
(** [as i64] on a [u64]; [as u64] on a non-negative [i64] is the identity. *)
Definition as_i64 (z : Z) : Z := wrap_i 64 z.

Notation "a +| b" := (sat_add_u64 a b) (at level 50, left associativity) : tollgate_scope.
Notation "a -| b" := (sat_sub_u64 a b) (at level 50, left associativity) : tollgate_scope.

(** ** Option helpers of the Rust standard library *)

Definition is_some_and {A} (o : option A) (p : A -> bool) : bool :=
  match o with Some a => p a | None => false end.
Definition unwrap_or {A} (o : option A) (d : A) : A :=
  match o with Some a => a | None => d end.
Definition map_or {A B} (o : option A) (d : B) (f : A -> B) : B :=
  match o with Some a => f a | None => d end.
Definition opt_or {A} (o1 o2 : option A) : option A :=
  match o1 with Some a => Some a | None => o2 end.
Definition is_some {A} (o : option A) : bool :=
  match o with Some _ => true | None => false end.

(** [Result<T, E>]. *)
Inductive result (T E : Type) : Type :=
| Ok (t : T)
| Err (e : E).
Arguments Ok {_ _} _.
Arguments Err {_ _} _.

Definition res_bind {T U E} (r : result T E) (k : T -> result U E) : result U E :=
  match r with Ok t => k t | Err e => Err e end.

(** Rust's [?] on a [Result]. *)
Notation "x '<-?' r ; k" := (res_bind r (fun x => k))
  (at level 100, r at next level, k at level 200, right associativity) : tollgate_scope.

Definition ok {T E} (r : result T E) : option T :=
  match r with Ok t => Some t | Err _ => None end.
Definition is_ok {T E} (r : result T E) : bool :=
  match r with Ok _ => true | Err _ => false end.
Definition ok_or {T E} (o : option T) (e : E) : result T E :=
  match o with Some t => Ok t | None => Err e end.

(** ** Bytes *)

Abbreviation byte := Byte.byte.
Abbreviation bytes := (list Byte.byte).

#[export] Instance byte_eq_dec : EqDecision byte := Byte.byte_eq_dec.
#[export] Program Instance byte_countable : Countable byte :=
  inj_countable Byte.to_N Byte.of_N _.
Next Obligation. exact Byte.of_to_N. Qed.

Definition byte_val (b : byte) : Z := Z.of_N (Byte.to_N b).
(** The low eight bits of [z], as a byte. *)
Definition byte_of_Z (z : Z) : byte :=
  match Byte.of_N (Z.to_N (z mod 256)) with Some b => b | None => "000"%byte end.

(** [to_le_bytes] / [to_be_bytes] of an [n]-byte integer, and [from_le_bytes]. *)
Fixpoint le_bytes (n : nat) (z : Z) : bytes :=
  match n with
  | O => []
  | S n => byte_of_Z z :: le_bytes n (z / 256)
  end.
Definition be_bytes (n : nat) (z : Z) : bytes := rev (le_bytes n z).
#[global] Arguments be_bytes : simpl never.
Fixpoint from_le_bytes (bs : bytes) : Z :=
  match bs with
  | [] => 0
  | b :: bs => byte_val b + 256 * from_le_bytes bs
  end.

(** The bytes of a Rust [str]. *)
Definition as_bytes (s : string) : bytes := String.list_byte_of_string s.

(** The characters of a string, as bytes, and the lines of a text. *)
Definition chars : string -> list Ascii.ascii := String.list_ascii_of_string.
Definition of_chars : list Ascii.ascii -> string := String.string_of_list_ascii.

Definition newline : Ascii.ascii := Ascii.ascii_of_N 10.
Definition carriage_return : Ascii.ascii := Ascii.ascii_of_N 13.

(** [contents.lines()]: split at newlines, each without its carriage return; nothing
    after the last newline. *)
Fixpoint line_chars (l : list Ascii.ascii) : list (list Ascii.ascii) :=
  match l with
  | [] => []
  | c :: l =>
      if decide (c = newline) then [] :: line_chars l
      else match line_chars l with
           | [] => [[c]]
           | w :: ws => (c :: w) :: ws
           end
  end.
Definition strip_cr (l : list Ascii.ascii) : list Ascii.ascii :=
  match rev l with c :: r => if decide (c = carriage_return) then rev r else l | [] => l end.
Definition lines (contents : string) : list string :=
  (fun l => of_chars (strip_cr l)) <$> line_chars (chars contents).

(** [b.len()]. *)
Definition zlen (b : bytes) : Z := Z.of_nat (length b).

(** Rust's [Ord] on byte slices: lexicographic. *)
Fixpoint bytes_leb (a b : bytes) : bool :=
  match a, b with
  | [], _ => true
  | _ :: _, [] => false
  | x :: a, y :: b =>
      if byte_val x <? byte_val y then true
      else if byte_val x =? byte_val y then bytes_leb a b else false
  end.
Definition bytes_le (a b : bytes) : Prop := bytes_leb a b = true.
#[export] Instance bytes_le_dec a b : Decision (bytes_le a b) := decide (bytes_leb a b = true).

(** Rust's [Ord] on [String]. *)
Definition str_le (a b : string) : Prop := bytes_le (as_bytes a) (as_bytes b).
#[export] Instance str_le_dec : RelDecision str_le.
Proof. intros a b. unfold str_le. apply _. Defined.

(** ** Ordered maps: iteration order of a [BTreeMap] *)

Section btree.
Context {K V : Type} `{Countable K} (key_le : K -> K -> Prop) `{!RelDecision key_le}.

Definition entry_le (p q : K * V) : Prop := key_le p.1 q.1.
#[export] Instance entry_le_dec p q : Decision (entry_le p q) := decide (key_le p.1 q.1).

(** [map.iter()] of a [BTreeMap]: the entries in ascending key order. *)
Definition btree_iter (m : gmap K V) : list (K * V) :=
  merge_sort entry_le (map_to_list m).
End btree.

(** ** Event loops: folding a handler over a list of inputs *)

Section run.
Context {S I O : Type} (step : S -> I -> S * list O).

Fixpoint run (s : S) (ins : list I) : S * list O :=
  match ins with
  | [] => (s, [])
  | i :: ins =>
      let '(s1, o1) := step s i in
      let '(s2, o2) := run s1 ins in
      (s2, o1 ++ o2)
  end.
End run.

(** ** Lemmas *)

Create HintDb tollgate.

Lemma wrap_u_range w z : 0 <= w -> 0 <= wrap_u w z < 2 ^ w.
Proof. intros. unfold wrap_u. apply Z.mod_pos_bound. lia. Qed.

Lemma wrap_u_id w z : 0 <= z < 2 ^ w -> wrap_u w z = z.
Proof. intros. unfold wrap_u. by apply Z.mod_small. Qed.

Lemma wrap_u64_range z : is_u64 (wrap_u64 z).
Proof. pose proof (wrap_u_range 64 z). unfold U64_MAX. lia. Qed.

Lemma wrap_u64_id z : is_u64 z -> wrap_u64 z = z.
Proof. intros. apply wrap_u_id. unfold U64_MAX in *. lia. Qed.

Lemma wrap_i_range w z : 0 < w -> - 2 ^ (w - 1) <= wrap_i w z < 2 ^ (w - 1).
Proof.
  intros Hw. unfold wrap_i.
  assert (2 ^ w = 2 * 2 ^ (w - 1)) as E by (rewrite <- Z.pow_succ_r by lia; f_equal; lia).
  pose proof (Z.mod_pos_bound (z + 2 ^ (w - 1)) (2 ^ w)). lia.
Qed.

Lemma wrap_i_id w z : 0 < w -> - 2 ^ (w - 1) <= z < 2 ^ (w - 1) -> wrap_i w z = z.
Proof.
  intros Hw Hz. unfold wrap_i.
  assert (2 ^ w = 2 * 2 ^ (w - 1)) as E by (rewrite <- Z.pow_succ_r by lia; f_equal; lia).
  rewrite Z.mod_small; lia.
Qed.

Lemma as_i64_range z : is_i64 (as_i64 z).
Proof. pose proof (wrap_i_range 64 z). unfold as_i64, I64_MIN, I64_MAX. simpl in *. lia. Qed.

Lemma as_i64_id z : is_i64 z -> as_i64 z = z.
Proof. intros. apply wrap_i_id; unfold I64_MIN, I64_MAX in *; simpl in *; lia. Qed.

(** The unfolding tactic behind most range goals: open every bounded operation
    and leave linear arithmetic. *)
Ltac ints :=
  unfold sat_add_u64, sat_sub_u64, sat_mul_u64, sat_add_u8, sat_sub_i64, abs_diff,
    U8_MAX, U16_MAX, U32_MAX, U64_MAX, I64_MIN, I64_MAX in *;
  try lia.

Lemma sat_add_u64_range a b : 0 <= a -> 0 <= b -> is_u64 (sat_add_u64 a b).
Proof. ints. Qed.

Lemma sat_sub_u64_range a b : is_u64 a -> 0 <= b -> is_u64 (sat_sub_u64 a b).
Proof. ints. Qed.

Lemma sat_add_u8_range a : is_u8 a -> is_u8 (sat_add_u8 a 1).
Proof. ints. Qed.

#[export] Hint Resolve wrap_u64_range as_i64_range sat_add_u64_range sat_sub_u64_range
  sat_add_u8_range : tollgate.

Lemma chars_app a b : chars (a +:+ b) = chars a ++ chars b.
Proof.
  induction a as [|c a IH]; [done|].
  change (chars (String c a +:+ b)) with (c :: chars (a +:+ b)). by rewrite IH.
Qed.

Lemma of_chars_chars s : of_chars (chars s) = s.
Proof. apply String.string_of_list_ascii_of_string. Qed.

Lemma chars_of_chars l : chars (of_chars l) = l.
Proof. apply String.list_ascii_of_string_of_list_ascii. Qed.

Lemma line_chars_cons l rest :
  newline ∉ l -> line_chars (l ++ newline :: rest) = l :: line_chars rest.
Proof.
  induction l as [|c l IH]; intros Hl; [done|]. apply not_elem_of_cons in Hl as [Hc Hl].
  cbn [app line_chars]. rewrite decide_False by congruence. by rewrite IH.
Qed.

Lemma strip_cr_none l : head (rev l) <> Some carriage_return -> strip_cr l = l.
Proof.
  unfold strip_cr. destruct (rev l) as [|c r]; [done|]. cbn. intros Hc. by rewrite decide_False by congruence.
Qed.

Lemma byte_val_range b : 0 <= byte_val b < 256.
Proof.
  unfold byte_val. pose proof (Byte.to_N_bounded b) as H.
  apply N2Z.inj_le in H. change (Z.of_N 255) with 255 in H. lia.
Qed.

Lemma byte_val_of_Z z : byte_val (byte_of_Z z) = z mod 256.
Proof.
  unfold byte_of_Z, byte_val.
  pose proof (Z.mod_pos_bound z 256).
  destruct (Byte.of_N _) as [b|] eqn:E.
  - apply Byte.to_of_N in E. rewrite E. rewrite Z2N.id; lia.
  - apply Byte.of_N_None_iff in E. lia.
Qed.

Lemma byte_val_inj b1 b2 : byte_val b1 = byte_val b2 -> b1 = b2.
Proof.
  unfold byte_val. intros H%N2Z.inj. by apply (f_equal Byte.of_N) in H;
  rewrite !Byte.of_to_N in H; simplify_eq.
Qed.

Lemma byte_of_val b : byte_of_Z (byte_val b) = b.
Proof.
  apply byte_val_inj. rewrite byte_val_of_Z. apply Z.mod_small, byte_val_range.
Qed.

Lemma length_le_bytes n z : length (le_bytes n z) = n.
Proof. revert z. induction n; intros; simpl; auto. Qed.

Lemma length_be_bytes n z : length (be_bytes n z) = n.
Proof. unfold be_bytes. by rewrite length_rev, length_le_bytes. Qed.

Lemma from_le_bytes_of n z :
  0 <= z < 256 ^ Z.of_nat n -> from_le_bytes (le_bytes n z) = z.
Proof.
  revert z. induction n as [|n IH]; intros z Hz.
  - simpl in *. lia.
  - rewrite Nat2Z.inj_succ, Z.pow_succ_r in Hz by lia. simpl.
    rewrite byte_val_of_Z, IH.
    + pose proof (Z.div_mod z 256). lia.
    + split; [apply Z.div_pos; lia | apply Z.div_lt_upper_bound; lia].
Qed.

Lemma from_le_bytes_range bs :
  0 <= from_le_bytes bs < 256 ^ Z.of_nat (length bs).
Proof.
  induction bs as [|b bs IH]; simpl length; [simpl; lia|].
  rewrite Nat2Z.inj_succ, Z.pow_succ_r by lia. cbn [from_le_bytes].
  pose proof (byte_val_range b). lia.
Qed.

Lemma le_bytes_of bs : le_bytes (length bs) (from_le_bytes bs) = bs.
Proof.
  induction bs as [|b bs IH]; simpl; [done|].
  pose proof (byte_val_range b) as Hb. f_equal.
  - apply byte_val_inj. rewrite byte_val_of_Z.
    rewrite Z.mul_comm, Z.mod_add, Z.mod_small; lia.
  - rewrite Z.mul_comm, Z.div_add, Z.div_small by lia. by rewrite Z.add_0_l.
Qed.

Lemma le_bytes_inj n z1 z2 :
  0 <= z1 < 256 ^ Z.of_nat n -> 0 <= z2 < 256 ^ Z.of_nat n ->
  le_bytes n z1 = le_bytes n z2 -> z1 = z2.
Proof.
  intros H1 H2 E. rewrite <- (from_le_bytes_of n z1), <- (from_le_bytes_of n z2) by done.
  by rewrite E.
Qed.

Lemma be_bytes_inj n z1 z2 :
  0 <= z1 < 256 ^ Z.of_nat n -> 0 <= z2 < 256 ^ Z.of_nat n ->
  be_bytes n z1 = be_bytes n z2 -> z1 = z2.
Proof.
  intros H1 H2 E%(f_equal (@rev byte)). unfold be_bytes in E.
  rewrite !rev_involutive in E. by eapply le_bytes_inj.
Qed.

(** Two's complement: the bytes of [z] are those of [z mod 256^n]. *)
Lemma le_bytes_mod n z : le_bytes n (z mod 256 ^ Z.of_nat n) = le_bytes n z.
Proof.
  revert z. induction n as [|n IH]; intros z; [done|].
  rewrite Nat2Z.inj_succ, Z.pow_succ_r by lia. cbn [le_bytes].
  set (m := 256 ^ Z.of_nat n) in *. assert (0 < m) by (unfold m; lia).
  rewrite Z.rem_mul_r by lia. f_equal.
  - apply byte_val_inj. rewrite !byte_val_of_Z.
    by rewrite Z.mul_comm, Z.mod_add, Z.mod_mod by lia.
  - rewrite <- (IH (z / 256)). f_equal.
    pose proof (Z.mod_pos_bound z 256). rewrite Z.mul_comm, Z.div_add by lia.
    by rewrite Z.div_small by lia.
Qed.

Lemma be_bytes_inj_i64 z1 z2 :
  is_i64 z1 -> is_i64 z2 -> be_bytes 8 z1 = be_bytes 8 z2 -> z1 = z2.
Proof.
  intros H1 H2 E%(f_equal (@rev byte)). unfold be_bytes in E.
  rewrite !rev_involutive, <- (le_bytes_mod 8 z1), <- (le_bytes_mod 8 z2) in E.
  change (256 ^ Z.of_nat 8) with (2 ^ 64) in E.
  apply le_bytes_inj in E; [|change (256 ^ Z.of_nat 8) with (2 ^ 64);
    apply Z.mod_pos_bound; lia..].
  unfold I64_MIN, I64_MAX in *. Z.div_mod_to_equations. lia.
Qed.

Lemma as_bytes_inj s1 s2 : as_bytes s1 = as_bytes s2 -> s1 = s2.
Proof.
  intros E%(f_equal String.string_of_list_byte). unfold as_bytes in E.
  by rewrite !String.string_of_list_byte_of_string in E.
Qed.

#[export] Instance bytes_le_total : Total bytes_le.
Proof.
  unfold bytes_le. intros a. induction a as [|x a IH]; intros [|y b]; simpl; auto.
  destruct (Z.ltb_spec (byte_val x) (byte_val y)); [auto|].
  destruct (Z.eqb_spec (byte_val x) (byte_val y)) as [E|E].
  - rewrite E, Z.ltb_irrefl, Z.eqb_refl. apply IH.
  - right. destruct (Z.ltb_spec (byte_val y) (byte_val x)); [done|lia].
Qed.

#[export] Instance bytes_le_trans : Transitive bytes_le.
Proof.
  unfold bytes_le. intros a. induction a as [|x a IH]; intros [|y b] [|z c]; simpl; try done.
  repeat match goal with
  | |- context [?p <? ?q] => destruct (Z.ltb_spec p q)
  | |- context [?p =? ?q] => destruct (Z.eqb_spec p q)
  end; try lia; try done; eauto.
Qed.

#[export] Instance bytes_le_antisymm : AntiSymm (=) bytes_le.
Proof.
  unfold bytes_le. intros a. induction a as [|x a IH]; intros [|y b]; simpl; try done.
  repeat match goal with
  | |- context [?p <? ?q] => destruct (Z.ltb_spec p q)
  | |- context [?p =? ?q] => destruct (Z.eqb_spec p q)
  end; try lia; try done.
  intros. f_equal; [by apply byte_val_inj | by apply IH].
Qed.

#[export] Instance str_le_total : Total str_le.
Proof. intros a b. apply bytes_le_total. Qed.
#[export] Instance str_le_trans : Transitive str_le.
Proof. intros a b c. apply bytes_le_trans. Qed.
#[export] Instance str_le_antisymm : AntiSymm (=) str_le.
Proof.
  intros a b Hab Hba. rewrite <- (String.string_of_list_byte_of_string a), <- (String.string_of_list_byte_of_string b).
  f_equal. by apply (anti_symm bytes_le).
Qed.

Section btree_lemmas.
Context {K V : Type} `{Countable K} (key_le : K -> K -> Prop) `{!RelDecision key_le}.

Lemma elem_of_btree_iter (m : gmap K V) k v :
  (k, v) ∈ btree_iter key_le m <-> m !! k = Some v.
Proof.
  unfold btree_iter. rewrite (merge_sort_Permutation (entry_le key_le)).
  apply elem_of_map_to_list.
Qed.

Lemma length_btree_iter (m : gmap K V) : length (btree_iter key_le m) = size m.
Proof.
  unfold btree_iter. rewrite (merge_sort_Permutation (entry_le key_le)).
  by rewrite length_map_to_list.
Qed.
End btree_lemmas.

Lemma run_app {S I O} (step : S -> I -> S * list O) s ins1 ins2 :
  run step s (ins1 ++ ins2) =
  let '(s1, o1) := run step s ins1 in
  let '(s2, o2) := run step s1 ins2 in (s2, o1 ++ o2).
Proof.
  revert s. induction ins1 as [|i ins1 IH]; intros s; simpl.
  - by destruct (run step s ins2).
  - destruct (step s i) as [s1 o1]. rewrite IH.
    destruct (run step s1 ins1) as [s2 o2].
    destruct (run step s2 ins2) as [s3 o3]. by rewrite (assoc_L (++)).
Qed.

(** Induction along a run: an invariant of every step is an invariant of the
    run, and a property of each step's outputs holds of all of them. *)
Lemma run_invariant {S I O} (step : S -> I -> S * list O) (P : S -> Prop) s ins s' os :
  (forall s i, P s -> P (step s i).1) ->
  P s -> run step s ins = (s', os) -> P s'.
Proof.
  intros Hstep. revert s s' os. induction ins as [|i ins IH]; intros s s' os Hs; simpl.
  - by intros [= <- <-].
  - specialize (Hstep s i Hs). destruct (step s i) as [s1 o1].
    destruct (run step s1 ins) as [s2 o2] eqn:E. intros [= <- <-]. eapply IH; [exact Hstep|exact E].
Qed.

Lemma run_keeps {S I O} (step : S -> I -> S * list O) (P : S -> Prop) s ins :
  (forall s i, P s -> P (step s i).1) -> P s -> P (run step s ins).1.
Proof.
  intros Hstep Hs. destruct (run step s ins) as [s' os] eqn:E. exact (run_invariant step P _ _ _ _ Hstep Hs E).
Qed.

Lemma run_outputs {S I O} (step : S -> I -> S * list O) (P : S -> Prop) (Q : O -> Prop) s ins :
  (forall s i, P s -> P (step s i).1 /\ Forall Q (step s i).2) ->
  P s -> Forall Q (run step s ins).2.
Proof.
  intros Hstep. revert s. induction ins as [|i ins IH]; intros s Hs; simpl; [done|].
  destruct (Hstep s i Hs) as [Hs1 Ho]. destruct (step s i) as [s1 o1].
  specialize (IH s1 Hs1). destruct (run step s1 ins) as [s2 o2]. simpl in *.
  by apply Forall_app.
Qed.

(** Case analysis on every [match]/[if] scrutinee of the goal. *)
Ltac cases :=
  repeat (case_match; simplify_eq/=; try done).
