(* ===== verification/Decimal.v ===== *)
(** * Decimal text

    The standard library's integers as text: [to_string], [str::parse] with the checks
    of each width, and padding; and that what is printed is read back. *)

From stdpp Require Import pretty.
From S2P Require Import Prelude.

(** [to_string] of an integer type. *)
Definition to_string (z : Z) : string := pretty z.

Definition digit_val (c : Ascii.ascii) : option Z :=
  let n := Z.of_N (Ascii.N_of_ascii c) in
  if (48 <=? n) && (n <=? 57) then Some (n - 48) else None.

(** The digit loop of [from_str]: [checked_mul] and [checked_add] towards [hi], or,
    after a minus sign, [checked_sub] towards [lo]. *)
Fixpoint parse_digits (lo hi sign acc : Z) (l : list Ascii.ascii) : option Z :=
  match l with
  | [] => Some acc
  | c :: l =>
      d ← digit_val c;
      let acc := 10 * acc + sign * d in
      if (lo <=? acc) && (acc <=? hi) then parse_digits lo hi sign acc l else None
  end.

Definition plus_char : Ascii.ascii := Ascii.ascii_of_N 43.
Definition minus_char : Ascii.ascii := Ascii.ascii_of_N 45.

(** [s.parse()] at an integer type with bounds [lo] and [hi]. *)
Definition parse_int (lo hi : Z) (s : string) : option Z :=
  match String.list_ascii_of_string s with
  | [] => None
  | [c] => parse_digits lo hi 1 0 [c]
  | c :: l =>
      if decide (c = plus_char) then parse_digits lo hi 1 0 l
      else if decide (c = minus_char /\ lo < 0) then parse_digits lo hi (-1) 0 l
      else parse_digits lo hi 1 0 (c :: l)
  end.
Definition parse_u32 : string -> option Z := parse_int 0 U32_MAX.
Definition parse_u64 : string -> option Z := parse_int 0 U64_MAX.
Definition parse_i64 : string -> option Z := parse_int I64_MIN I64_MAX.
Definition parse_i32 : string -> option Z := parse_int (- 2 ^ 31) (2 ^ 31 - 1).

(** [{n:0width}]. *)
Definition pad (width : nat) (n : Z) : string :=
  let s := to_string n in
  String.string_of_list_ascii (replicate (width - String.length s) (Ascii.ascii_of_N 48)) +:+ s.

(** ** Lemmas *)

Lemma digit_val_pretty n : (n < 10)%N -> digit_val (pretty_N_char n) = Some (Z.of_N n).
Proof.
  intros Hn.
  assert (Forall (fun k => digit_val (pretty_N_char (N.of_nat k)) = Some (Z.of_nat k)) (seq 0 10)) as Hd
    by repeat constructor.
  rewrite Forall_forall in Hd. specialize (Hd (N.to_nat n)).
  rewrite N2Nat.id, N_nat_Z in Hd. apply Hd, elem_of_seq. lia.
Qed.

(** Parsing the digits of [x] before [s] is parsing [s] from [x]. *)
Lemma parse_digits_pretty lo hi x s :
  lo <= 0 -> Z.of_N x <= hi ->
  parse_digits lo hi 1 0 (String.list_ascii_of_string (pretty_N_go x s)) =
    parse_digits lo hi 1 (Z.of_N x) (String.list_ascii_of_string s).
Proof.
  intros Hlo. revert s. induction (N.lt_wf_0 x) as [x _ IH]; intros s Hx.
  destruct (decide (x = 0)%N) as [->|Hn]; [done|].
  rewrite pretty_N_go_step by lia.
  pose proof (N.div_mod x 10 ltac:(lia)) as Hdiv. pose proof (N.mod_lt x 10 ltac:(lia)) as Hmod.
  revert Hdiv Hmod IH. generalize (x `div` 10)%N as q, (x `mod` 10)%N as r. intros q r Hdiv Hmod IH.
  rewrite IH by lia. cbn [String.list_ascii_of_string parse_digits]. rewrite digit_val_pretty by lia. cbn [mbind option_bind].
  rewrite Z.mul_1_l. replace (10 * Z.of_N q + Z.of_N r) with (Z.of_N x) by lia.
  rewrite (proj2 (Z.leb_le _ _)), (proj2 (Z.leb_le _ _)) by lia. done.
Qed.

Lemma pretty_N_go_head x s :
  (0 < x)%N -> exists d l, (d < 10)%N /\ pretty_N_go x s = String (pretty_N_char d) l.
Proof.
  revert s. induction (N.lt_wf_0 x) as [x _ IH]; intros s Hx.
  rewrite pretty_N_go_step by done. pose proof (N.mod_lt x 10 ltac:(lia)) as Hmod.
  destruct (decide (x `div` 10 = 0)%N) as [->|Hn].
  - rewrite pretty_N_go_0. by eexists _, _.
  - apply IH; [by apply N.div_lt|]. by apply N.neq_0_lt_0.
Qed.

(** After a minus sign, the digits are read the other way. *)
Lemma parse_digits_opp lo hi acc l :
  parse_digits lo hi (-1) (- acc) l = Z.opp <$> parse_digits (- hi) (- lo) 1 acc l.
Proof.
  revert acc. induction l as [|c l IH]; intros acc; [done|]. cbn [parse_digits].
  destruct (digit_val c) as [d|]; [|done]. cbn [mbind option_bind].
  replace (10 * - acc + -1 * d) with (- (10 * acc + 1 * d)) by ring. rewrite IH.
  replace (lo <=? - (10 * acc + 1 * d)) with (10 * acc + 1 * d <=? - lo) by (apply eq_true_iff_eq; lia).
  replace (- (10 * acc + 1 * d) <=? hi) with (- hi <=? 10 * acc + 1 * d) by (apply eq_true_iff_eq; lia).
  rewrite andb_comm. by destruct (_ && _).
Qed.

(** The text of a positive number: at least one digit, and its value. *)
Lemma pretty_pos_digits lo hi p :
  lo <= 0 -> Z.pos p <= hi ->
  exists d l, (d < 10)%N /\ String.list_ascii_of_string (pretty p) = pretty_N_char d :: l /\
    parse_digits lo hi 1 0 (pretty_N_char d :: l) = Some (Z.pos p).
Proof.
  intros Hlo Hp. change (pretty p) with (pretty_N_go (N.pos p) "").
  destruct (pretty_N_go_head (N.pos p) "" ltac:(lia)) as (d & l & Hd & E).
  pose proof (parse_digits_pretty lo hi (N.pos p) "" Hlo ltac:(lia)) as Hd'. rewrite E in *.
  exists d, (String.list_ascii_of_string l). done.
Qed.

Lemma digit_not_sign d : (d < 10)%N -> pretty_N_char d <> plus_char /\ pretty_N_char d <> minus_char.
Proof. intros Hd. split; intros Ec%(f_equal digit_val); by rewrite digit_val_pretty in Ec. Qed.

(** What is printed is read back, if it fits. *)
Lemma parse_int_to_string lo hi z :
  lo <= 0 <= hi -> lo <= z <= hi -> parse_int lo hi (to_string z) = Some z.
Proof.
  intros Hw Hz. unfold to_string, parse_int.
  destruct z as [|p|p].
  - change ((if (lo <=? 0) && (0 <=? hi) then Some 0 else None) = Some 0).
    by rewrite !(proj2 (Z.leb_le _ _)) by lia.
  - cbn [pretty pretty_Z pretty_positive pretty_N].
    destruct (pretty_pos_digits lo hi p ltac:(lia) ltac:(lia)) as (d & l & Hd & E & Hp).
    change (pretty_N (N.pos p)) with (pretty p). rewrite E.
    pose proof (digit_not_sign d Hd) as [? ?]. destruct l; [done|].
    rewrite !decide_False; [done|tauto|done].
  - change (pretty (Z.neg p)) with (String minus_char (pretty p)).
    cbn [String.list_ascii_of_string].
    destruct (pretty_pos_digits (- hi) (- lo) p ltac:(lia) ltac:(lia)) as (d & l & Hd & E & Hp).
    rewrite E, decide_False, decide_True by (done || (split; [done|lia])).
    change 0 with (- 0) at 1. by rewrite parse_digits_opp, Hp.
Qed.

Lemma parse_u64_to_string z : is_u64 z -> parse_u64 (to_string z) = Some z.
Proof. by apply parse_int_to_string. Qed.

Lemma parse_u32_to_string z : is_u32 z -> parse_u32 (to_string z) = Some z.
Proof. by apply parse_int_to_string. Qed.

Lemma parse_i32_to_string z : - 2 ^ 31 <= z < 2 ^ 31 -> parse_i32 (to_string z) = Some z.
Proof. intros Hz. apply parse_int_to_string; lia. Qed.

(** Printed numbers are digits, after a minus sign if need be. *)
Definition number_char (c : Ascii.ascii) : bool :=
  match digit_val c with Some _ => true | None => bool_decide (c = minus_char) end.

Lemma pretty_N_go_digits x s :
  Forall (fun c => number_char c = true) (String.list_ascii_of_string s) ->
  Forall (fun c => number_char c = true) (String.list_ascii_of_string (pretty_N_go x s)).
Proof.
  revert s. induction (N.lt_wf_0 x) as [x _ IH]; intros s Hs.
  destruct (decide (x = 0)%N) as [->|Hn]; [done|]. rewrite pretty_N_go_step by lia.
  apply IH; [apply N.div_lt; lia|]. cbn [String.list_ascii_of_string]. constructor; [|done].
  unfold number_char. by rewrite digit_val_pretty by (apply N.mod_lt; lia).
Qed.

Lemma to_string_chars z :
  Forall (fun c => number_char c = true) (String.list_ascii_of_string (to_string z)).
Proof.
  unfold to_string. destruct z as [|p|p].
  - by repeat constructor.
  - exact (pretty_N_go_digits (N.pos p) "" (Forall_nil_2 _)).
  - change (pretty (Z.neg p)) with (String minus_char (pretty_N_go (N.pos p) "")).
    cbn [String.list_ascii_of_string]. constructor; [done|apply pretty_N_go_digits; constructor].
Qed.

Lemma to_string_nonempty z : to_string z <> EmptyString.
Proof.
  unfold to_string. destruct z as [|p|p]; [done| |done].
  change (pretty (Z.pos p)) with (pretty_N_go (N.pos p) "").
  destruct (pretty_N_go_head (N.pos p) "" ltac:(lia)) as (d & l & _ & ->). done.
Qed.
