(* ===== verification/F64.v ===== *)
(** * IEEE-754 binary64, as Rust's [f64]

    The few places where the program computes with [f64] (price multipliers,
    metering drift, price-per-unit budgets) use this file: the Standard Library's
    executable specification of floating-point arithmetic at precision 53 and
    maximal exponent 1024, with Rust's casts. The one property of rounding that is
    used downstream is proved here: the ratio of two positive 64-bit counters is
    positive, for it never underflows. *)

From Stdlib Require Import Floats.SpecFloat.
From S2P Require Import Prelude.

Definition f64 : Set := spec_float.

Definition f64_prec : Z := 53.
Definition f64_emax : Z := 1024.

(** [z as f64] for an integer [z]: round to nearest, ties to even. *)
Definition f64_of_Z (z : Z) : f64 := binary_normalize f64_prec f64_emax z 0 false.

Definition f64_add (x y : f64) : f64 := SFadd f64_prec f64_emax x y.
Definition f64_mul (x y : f64) : f64 := SFmul f64_prec f64_emax x y.
Definition f64_div (x y : f64) : f64 := SFdiv f64_prec f64_emax x y.
(** [x > y] and [x >= y]; every comparison with a NaN is false. *)
Definition f64_gt (x y : f64) : bool := SFltb y x.
Definition f64_ge (x y : f64) : bool := SFleb y x.

(** The integer part, rounding towards zero. *)
Definition f64_trunc (s : bool) (m : positive) (e : Z) : Z :=
  let a := if 0 <=? e then Z.pos m * 2 ^ e else Z.pos m / 2 ^ (- e) in
  if s then - a else a.

(** [x as i64]: truncation, saturating at the type's bounds; NaN becomes 0. *)
Definition f64_to_i64 (x : f64) : Z :=
  match x with
  | S754_nan => 0
  | S754_zero _ => 0
  | S754_infinity s => if s then I64_MIN else I64_MAX
  | S754_finite s m e => Z.max I64_MIN (Z.min I64_MAX (f64_trunc s m e))
  end.

Lemma f64_to_i64_range x : is_i64 (f64_to_i64 x).
Proof. destruct x as [s|s| |s m e]; simpl; [..|ints]; try destruct s; ints. Qed.

#[export] Hint Resolve f64_to_i64_range : tollgate.

(** [n as f64 / d as f64], the ratio of two counters. *)
Definition f64_ratio (n d : Z) : f64 := f64_div (f64_of_Z n) (f64_of_Z d).

(** ** The ratio of positive counters is positive *)

(** [SpecFloat] is written with the constants of the core library. *)
Ltac core_ints :=
  change IntDef.Z.sub with Z.sub in *; change IntDef.Z.add with Z.add in *;
  change IntDef.Z.max with Z.max in *; change IntDef.Z.min with Z.min in *;
  change IntDef.Z.div_eucl with Z.div_eucl in *; change IntDef.Z.shiftl with Z.shiftl in *.

(** The number of bits of [m]; a value [m * 2^e] lies between [2^(top m e - 1)] and
    [2^(top m e)]. *)
Abbreviation digits := Zdigits2.
Abbreviation f64_fexp := (fexp f64_prec f64_emax).
Definition f64_emin : Z := emin f64_prec f64_emax.

Lemma digits_bounds m : 0 < m -> 0 < digits m /\ 2 ^ (digits m - 1) <= m < 2 ^ digits m.
Proof.
  destruct m as [|p|p]; try lia. intros _. cbn [Zdigits2].
  induction p as [p IH|p IH|]; cbn [digits2_pos]; [| |by vm_compute].
  all: rewrite Pos2Z.inj_succ; destruct IH as [Hd [Hl Hu]]; split; [lia|].
  all: replace (Z.succ (Z.pos (digits2_pos p)) - 1) with (Z.succ (Z.pos (digits2_pos p) - 1)) by lia.
  all: rewrite !Z.pow_succ_r by lia; lia.
Qed.

Lemma digits_mono a b : 0 < a <= b -> digits a <= digits b.
Proof.
  intros Hab. destruct (digits_bounds a) as (Ha & Hla & _); [lia|].
  destruct (digits_bounds b) as (Hb & _ & Hub); [lia|].
  assert (2 ^ (digits a - 1) < 2 ^ digits b) as Hp by lia. apply Z.pow_lt_mono_r_iff in Hp; lia.
Qed.

(** Shifting right drops bits. *)
Lemma shr_1_half r : 0 <= shr_m r -> shr_m (shr_1 r) = shr_m r / 2.
Proof.
  destruct r as [m r s]. destruct m as [|[p|p|]|p]; cbn [shr_1 shr_m]; intros Hm; try lia; try done.
  - rewrite (Pos2Z.inj_xI p), Z.mul_comm, Z.div_add_l by lia. change (1 / 2) with 0. lia.
  - rewrite (Pos2Z.inj_xO p), Z.mul_comm, Z.div_mul by lia. done.
Qed.

Lemma iter_shr n r : 0 <= shr_m r -> shr_m (SpecFloat.iter_pos shr_1 n r) = shr_m r / 2 ^ Z.pos n.
Proof.
  revert r. induction n as [n IH|n IH|]; intros r Hr; cbn [SpecFloat.iter_pos];
    try pose proof (Z.pow_pos_nonneg 2 (Z.pos n) ltac:(lia) ltac:(lia)) as Hp.
  - assert (0 <= shr_m (shr_1 r)) as H1 by (rewrite shr_1_half by done; apply Z.div_pos; lia).
    assert (0 <= shr_m (SpecFloat.iter_pos shr_1 n (shr_1 r))) as H2 by (rewrite IH by done; apply Z.div_pos; lia).
    rewrite !IH, shr_1_half, !Z.div_div by (done || lia). f_equal.
    replace (Z.pos n~1) with (1 + (Z.pos n + Z.pos n)) by lia. rewrite !Z.pow_add_r by lia. lia.
  - assert (0 <= shr_m (SpecFloat.iter_pos shr_1 n r)) as H2 by (rewrite IH by done; apply Z.div_pos; lia).
    rewrite !IH, !Z.div_div by (done || lia). f_equal.
    replace (Z.pos n~0) with (Z.pos n + Z.pos n) by lia. rewrite Z.pow_add_r by lia. lia.
  - by rewrite shr_1_half.
Qed.

(** A mantissa whose leading bit is above the smallest exponent survives the shift to
    its final exponent, and its leading bit stays where it is. *)
Lemma shr_fexp_top m e l mrs e' :
  0 < m -> f64_emin < e + digits m ->
  shr_fexp f64_prec f64_emax m e l = (mrs, e') ->
  0 < shr_m mrs /\ e' + digits (shr_m mrs) = e + digits m.
Proof.
  intros Hm He. destruct (digits_bounds m Hm) as (Hd & Hl & Hu). unfold shr_fexp, shr.
  assert (shr_m (shr_record_of_loc m l) = m) as Er by (by destruct l as [|[]]).
  destruct (f64_fexp (digits m + e) - e) as [|n|n] eqn:En; try (intros [= <- <-]; rewrite Er; split; [done|lia]).
  intros [= <- <-]. rewrite iter_shr, Er by lia.
  assert (Z.pos n <= digits m - 1) as Hn.
  { unfold fexp in En. fold f64_emin in En. unfold f64_prec in En. lia. }
  assert (2 ^ (digits m - 1 - Z.pos n) <= m / 2 ^ Z.pos n < 2 ^ (digits m - Z.pos n)) as [Hlo Hhi].
  { split; [apply Z.div_le_lower_bound|apply Z.div_lt_upper_bound]; try lia;
      rewrite <- Z.pow_add_r by lia.
    - by replace (Z.pos n + (digits m - 1 - Z.pos n)) with (digits m - 1) by lia.
    - by replace (Z.pos n + (digits m - Z.pos n)) with (digits m) by lia. }
  assert (0 < m / 2 ^ Z.pos n) as Hq by (pose proof (Z.pow_pos_nonneg 2 (digits m - 1 - Z.pos n)); lia).
  split; [done|]. destruct (digits_bounds _ Hq) as (Hd' & Hl' & Hu').
  assert (2 ^ (digits m - 1 - Z.pos n) < 2 ^ digits (m / 2 ^ Z.pos n)) as H1 by lia.
  assert (2 ^ (digits (m / 2 ^ Z.pos n) - 1) < 2 ^ (digits m - Z.pos n)) as H2 by lia.
  apply Z.pow_lt_mono_r_iff in H1; [|lia..]. apply Z.pow_lt_mono_r_iff in H2; lia.
Qed.

(** Rounding moves the leading bit by one place at most, and never to nothing. *)
Lemma round_top sx m e l :
  0 < m -> f64_emin < e + digits m ->
  (exists p e', binary_round_aux f64_prec f64_emax sx m e l = S754_finite sx p e' /\
     e + digits m <= e' + digits (Z.pos p) <= e + digits m + 1) \/
  (binary_round_aux f64_prec f64_emax sx m e l = S754_infinity sx /\ f64_emax - f64_prec < e + digits m + 1).
Proof.
  intros Hm He. unfold binary_round_aux.
  destruct (shr_fexp f64_prec f64_emax m e l) as [r e1] eqn:E1.
  destruct (shr_fexp_top m e l r e1 Hm He E1) as [Hr H1].
  set (m1 := round_nearest_even _ _).
  assert (shr_m r <= m1 <= shr_m r + 1) as Hm1.
  { unfold m1, round_nearest_even. destruct (loc_of_shr_record r) as [|[]]; [lia| |lia|lia].
    destruct (Z.even _); lia. }
  assert (digits (shr_m r) <= digits m1 <= digits (shr_m r) + 1) as Hd1.
  { split; [apply digits_mono; lia|].
    destruct (digits_bounds (shr_m r) Hr) as (Ha & _ & Hu). destruct (digits_bounds m1) as (Hb & Hl & _); [lia|].
    assert (2 ^ (digits m1 - 1) < 2 ^ (digits (shr_m r) + 1)) as Hp.
    { rewrite Z.pow_add_r by lia. lia. }
    apply Z.pow_lt_mono_r_iff in Hp; lia. }
  destruct (shr_fexp f64_prec f64_emax m1 e1 loc_Exact) as [r2 e2] eqn:E2.
  destruct (shr_fexp_top m1 e1 loc_Exact r2 e2 ltac:(lia) ltac:(lia) E2) as [Hr2 H2].
  destruct (shr_m r2) as [|p|p] eqn:Ep; try lia.
  destruct (digits_bounds (Z.pos p)) as (Hdp & _); [lia|].
  destruct (Z.leb_spec e2 (f64_emax - f64_prec)); [left; exists p, e2; split; [done|lia]|right; split; [done|lia]].
Qed.

(** A positive 64-bit integer as a double. *)
Lemma f64_of_Z_pos n :
  0 < n <= U64_MAX ->
  exists p e, f64_of_Z n = S754_finite false p e /\ 1 <= e + digits (Z.pos p) <= 65.
Proof.
  intros Hn. destruct n as [|p|p]; try lia. unfold f64_of_Z, binary_normalize, binary_round.
  assert (digits (Z.pos p) <= 64) as H64.
  { transitivity (digits U64_MAX); [apply digits_mono; lia|by vm_compute]. }
  destruct (digits_bounds (Z.pos p)) as (Hd & _); [lia|].
  destruct (shl_align p 0 (f64_fexp (Z.pos (digits2_pos p) + 0))) as [mz ez] eqn:Es.
  assert (ez + digits (Z.pos mz) = digits (Z.pos p)) as Htop.
  { unfold shl_align in Es. rewrite Z.sub_0_r in Es.
    destruct (f64_fexp (Z.pos (digits2_pos p) + 0)) as [|k|k] eqn:Ek; injection Es as <- <-; try lia.
    cut (digits (Z.pos (Pos.iter xO p k)) = digits (Z.pos p) + Z.pos k); [lia|].
    clear. induction k as [|k IH] using Pos.peano_ind; [cbn; lia|].
    rewrite Pos.iter_succ. cbn [Zdigits2 digits2_pos] in *. lia. }
  destruct (round_top false (Z.pos mz) ez loc_Exact) as [(q & e' & -> & Ht)|[_ Hbig]];
    [lia|rewrite Htop; change f64_emin with (-1074); lia| |].
  - exists q, e'. split; [done|lia].
  - exfalso. revert Hbig. change (f64_emax - f64_prec) with 971. lia.
Qed.

Lemma f64_ratio_pos n d :
  0 < n <= U64_MAX -> 0 < d <= U64_MAX ->
  f64_ratio n d = S754_infinity false \/ exists p e, f64_ratio n d = S754_finite false p e.
Proof.
  intros Hn Hd. unfold f64_ratio, f64_div.
  destruct (f64_of_Z_pos n Hn) as (p1 & e1 & -> & H1). destruct (f64_of_Z_pos d Hd) as (p2 & e2 & -> & H2).
  cbn [SFdiv xorb]. unfold SFdiv_core_binary.
  destruct (digits_bounds (Z.pos p1)) as (Hd1 & Hl1 & _); [lia|].
  destruct (digits_bounds (Z.pos p2)) as (Hd2 & _ & Hu2); [lia|].
  core_ints. set (e := Z.min _ _). set (s := e1 - e2 - e).
  assert (e <= e1 - e2 /\ e <= digits (Z.pos p1) + e1 - (digits (Z.pos p2) + e2) - 53) as He.
  { unfold e, fexp, emin, f64_prec, f64_emax. core_ints. lia. }
  assert (match s with Z0 => Z.pos p1 | Z.pos _ => Z.shiftl (Z.pos p1) s | Z.neg _ => 0 end
    = Z.pos p1 * 2 ^ s) as ->.
  { destruct s as [|k|k] eqn:Es; [lia|by rewrite Z.shiftl_mul_pow2 by lia|lia]. }
  pose proof (Z_div_mod (Z.pos p1 * 2 ^ s) (Z.pos p2) ltac:(lia)) as Hq.
  destruct (Z.div_eucl _ _) as [q r]. destruct Hq as [Hq Hr].
  set (k := digits (Z.pos p1) - 1 + s - digits (Z.pos p2)).
  assert (2 ^ k < q + 1) as Hk.
  { apply (Z.mul_lt_mono_pos_l (Z.pos p2)); [lia|].
    apply Z.lt_le_trans with (Z.pos p1 * 2 ^ s + 1); [|lia].
    apply Z.lt_succ_r. transitivity (2 ^ digits (Z.pos p2) * 2 ^ k); [apply Z.mul_le_mono_nonneg_r; lia|].
    rewrite <- Z.pow_add_r by lia.
    replace (digits (Z.pos p2) + k) with (digits (Z.pos p1) - 1 + s) by lia.
    rewrite Z.pow_add_r by lia. apply Z.mul_le_mono_nonneg_r; lia. }
  assert (0 < 2 ^ k) as Hk0 by (apply Z.pow_pos_nonneg; lia).
  destruct (digits_bounds q) as (Hdq & _ & Hu); [lia|].
  assert (2 ^ k < 2 ^ digits q) as Hkq by lia. apply Z.pow_lt_mono_r_iff in Hkq; [|lia..].
  destruct (round_top false q e (new_location (Z.pos p2) r)) as [(p & e' & -> & _)|[-> _]];
    [lia|change f64_emin with (-1074); lia|right; by exists p, e'|by left].
Qed.

Lemma f64_ratio_gt_zero n d :
  0 < n <= U64_MAX -> 0 < d <= U64_MAX -> f64_gt (f64_ratio n d) (f64_of_Z 0) = true.
Proof.
  intros Hn Hd. destruct (f64_ratio_pos n d Hn Hd) as [->|(p & e & ->)]; reflexivity.
Qed.

Example f64_half : f64_to_i64 (f64_mul (f64_of_Z 101) (f64_ratio 1 2)) = 50.
Proof. reflexivity. Qed.

Example f64_div_by_zero : f64_ratio 1 0 = S754_infinity false /\ f64_ratio 0 0 = S754_nan.
Proof. split; reflexivity. Qed.
