(* ===== verification/F64Exact.v ===== *)
(** * Doubles that are exact

    Integers below [2 ^ 53] are doubles as they are, and dividing a double by 1024
    only lowers its exponent: what the display of byte counts relies on. *)

From Stdlib Require Import Floats.SpecFloat.
From S2P Require Import Prelude F64.

(** A mantissa of 53 bits at an exponent in range is its own rounding. *)
Lemma shr_fexp_none m e l :
  digits m = 53 -> -1074 <= e ->
  shr_fexp f64_prec f64_emax m e l = (shr_record_of_loc m l, e).
Proof.
  intros Hd He. unfold shr_fexp, shr. rewrite Hd. unfold fexp, emin, f64_prec, f64_emax. core_ints.
  replace (Z.max (53 + e - 53) (3 - 1024 - 53) - e) with 0 by lia. done.
Qed.

Lemma round_exact s p e :
  digits (Z.pos p) = 53 -> -1074 <= e <= 971 ->
  binary_round_aux f64_prec f64_emax s (Z.pos p) e loc_Exact = S754_finite s p e.
Proof.
  intros Hd He. unfold binary_round_aux. rewrite shr_fexp_none by (done || lia).
  cbn [shr_record_of_loc shr_m loc_of_shr_record round_nearest_even].
  rewrite shr_fexp_none by (done || lia). cbn [shr_record_of_loc shr_m].
  change (f64_emax - f64_prec) with 971. by rewrite (proj2 (Z.leb_le _ _)) by lia.
Qed.

Lemma iter_xO p k : Z.pos (Pos.iter xO p k) = Z.pos p * 2 ^ Z.pos k.
Proof.
  induction k as [|k IH] using Pos.peano_ind; [cbn; lia|].
  rewrite Pos.iter_succ, Pos2Z.inj_xO, IH, Pos2Z.inj_succ, Z.pow_succ_r by lia. lia.
Qed.

Lemma digits_shift p k : digits (Z.pos (Pos.iter xO p k)) = digits (Z.pos p) + Z.pos k.
Proof.
  induction k as [|k IH] using Pos.peano_ind; [cbn; lia|].
  rewrite Pos.iter_succ. cbn [Zdigits2 digits2_pos] in *. lia.
Qed.

(** An integer below [2 ^ 53]. *)
Lemma f64_of_Z_exact n :
  0 < n < 2 ^ 53 ->
  exists p e, f64_of_Z n = S754_finite false p e /\ digits (Z.pos p) = 53 /\
    e = digits n - 53 /\ e <= 0 /\ Z.pos p = n * 2 ^ (- e).
Proof.
  intros Hn. destruct n as [|p|p]; try lia. destruct (digits_bounds (Z.pos p)) as (Hd & Hl & _); [lia|].
  assert (digits (Z.pos p) <= 53) as H53.
  { assert (2 ^ (digits (Z.pos p) - 1) < 2 ^ 53) as Hp by lia. apply Z.pow_lt_mono_r_iff in Hp; lia. }
  unfold f64_of_Z, binary_normalize, binary_round, shl_align. cbn [Zdigits2] in *.
  assert (f64_fexp (Z.pos (digits2_pos p) + 0) - 0 = Z.pos (digits2_pos p) - 53) as E.
  { unfold fexp, emin, f64_prec, f64_emax. core_ints. lia. }
  core_ints. change (@PosDef.Pos.iter positive) with (@Pos.iter positive). rewrite E. destruct (Z.pos (digits2_pos p) - 53) as [|k|k] eqn:Ek; [|lia|].
  - rewrite round_exact by (cbn; lia). exists p, 0.
    split_and!; cbn [Zdigits2]; [done|lia|lia|lia|]. change (2 ^ (- 0)) with 1. lia.
  - assert (f64_fexp (Z.pos (digits2_pos p) + 0) = Z.neg k) as -> by (core_ints; lia).
    pose proof (digits_shift p k) as Hs. cbn [Zdigits2] in Hs.
    rewrite round_exact by (cbn; lia). exists (Pos.iter xO p k), (Z.neg k).
    split_and!; [done|cbn; lia|lia|lia|apply iter_xO].
Qed.

Lemma f64_1024 : f64_of_Z 1024 = S754_finite false 4503599627370496 (-42).
Proof. reflexivity. Qed.

Lemma f64_div_1024 s p e :
  digits (Z.pos p) = 53 -> -1000 <= e <= 971 ->
  f64_div (S754_finite s p e) (f64_of_Z 1024) = S754_finite s p (e - 10).
Proof.
  intros Hd He. rewrite f64_1024. unfold f64_div. cbn [SFdiv]. unfold SFdiv_core_binary. rewrite Hd.
  change (Zdigits2 (Z.pos 4503599627370496)) with 53. core_ints.
  replace (Z.min (f64_fexp (53 + e - (53 + -42))) (e - -42)) with (e - 11)
    by (unfold fexp, emin, f64_prec, f64_emax; core_ints; lia).
  replace (e - -42 - (e - 11)) with 53 by lia. cbn [Z.sub].
  assert (Z.div_eucl (Z.shiftl (Z.pos p) 53) (Z.pos 4503599627370496) = (2 * Z.pos p, 0)) as ->.
  { rewrite Z.shiftl_mul_pow2 by lia. rewrite (surjective_pairing (Z.div_eucl _ _)).
    change (Z.div_eucl ?a ?b).1 with (a / b). change (Z.div_eucl ?a ?b).2 with (a mod b).
    replace (Z.pos p * 2 ^ 53) with (2 * Z.pos p * Z.pos 4503599627370496) by lia.
    by rewrite Z.div_mul, Z.mod_mul by lia. }
  change (new_location (Z.pos 4503599627370496) 0) with loc_Exact.
  rewrite xorb_false_r. unfold binary_round_aux.
  assert (shr_fexp f64_prec f64_emax (2 * Z.pos p) (e - 11) loc_Exact =
    (Build_shr_record (Z.pos p) false false, e - 10)) as ->.
  { unfold shr_fexp, shr. change (2 * Z.pos p) with (Z.pos (xO p)).
    assert (digits (Z.pos (xO p)) = 54) as -> by (cbn [Zdigits2 digits2_pos] in *; lia).
    assert (f64_fexp (54 + (e - 11)) - (e - 11) = 1) as E by (unfold fexp, emin, f64_prec, f64_emax; core_ints; lia).
    core_ints. rewrite E. cbn [SpecFloat.iter_pos shr_record_of_loc shr_1 orb]. f_equal. lia. }
  cbn [shr_m loc_of_shr_record round_nearest_even]. rewrite shr_fexp_none by (done || lia).
  cbn [shr_record_of_loc shr_m]. change (f64_emax - f64_prec) with 971.
  by rewrite (proj2 (Z.leb_le _ _)) by lia.
Qed.

(** A double with a full mantissa is at least 1024 when its leading bit is. *)
Lemma f64_ge_1024 p e :
  digits (Z.pos p) = 53 -> f64_ge (S754_finite false p e) (f64_of_Z 1024) = (-42 <=? e).
Proof.
  intros Hd. rewrite f64_1024. unfold f64_ge, SFleb. cbn [SFcompare].
  destruct (digits_bounds (Z.pos p)) as (_ & Hl & _); [lia|]. rewrite Hd in Hl.
  change (IntDef.Z.compare (-42) e) with (Z.compare (-42) e).
  destruct (Z.compare_spec (-42) e) as [<-|Hlt|Hgt].
  - change (2 ^ (53 - 1)) with 4503599627370496 in Hl. change (-42 <=? -42) with true.
    assert (Pos.compare_cont Eq 4503599627370496 p <> Gt) as Hc.
    { change (Pos.compare 4503599627370496 p <> Gt). rewrite Pos.compare_gt_iff. intros Hlt%Pos2Z.pos_lt_pos.
      exact (Z.lt_irrefl _ (Z.lt_le_trans _ _ _ Hlt Hl)). }
    revert Hc. generalize (Pos.compare_cont Eq 4503599627370496 p). by intros [].
  - by rewrite (proj2 (Z.leb_le _ _)) by lia.
  - by rewrite (proj2 (Z.leb_gt _ _)) by lia.
Qed.
