(* ===== verification/Wire.v ===== *)
(** * The wire protocol: message types and their fields

    Models [crates/tollgate-protocol/src/message.rs] and the type peek of
    [codec.rs]: one Module per message struct (a Record [t] with the struct's
    fields, its constructors and predicates). The CBOR bytes themselves are
    produced by code derived by the [minicbor] crate; that codec is the class
    [Minicbor], and what the program relies on is [MinicborLaws]. *)

From S2P Require Import Prelude.

(** ** The derived CBOR codec, a parameter *)

(** [minicbor::to_vec] and [minicbor::decode] at one derived type. A decoding
    error carries no information the program uses: [None]. *)
Class Cbor (T : Type) : Type := {
  to_vec : T -> bytes;
  from_slice : bytes -> option T
}.

(** ** Peer identity *)

(** [PublicKey([u8; 33])]; its order is the lexicographic order of the bytes. *)
Module PublicKey.
Record t : Set := from_bytes { as_bytes : bytes }.
Definition LEN : nat := 33.

#[export] Instance eq_dec : EqDecision t.
Proof. solve_decision. Defined.
#[export] Program Instance countable : Countable t :=
  inj_countable' as_bytes from_bytes _.
Next Obligation. by intros []. Qed.

Definition wf (k : t) : Prop := length (as_bytes k) = LEN.
Definition le (a b : t) : Prop := bytes_le (as_bytes a) (as_bytes b).
#[export] Instance le_dec : RelDecision le.
Proof. intros a b. unfold le. apply _. Defined.
End PublicKey.
Export (hints) PublicKey.

(** ** Message types *)

Module MessageType.
Inductive t : Set :=
| Announce | PriceSheet | Accept | ChannelReady | MeteringReport
| BalanceUpdate | BalanceAck | BootstrapToken | BootstrapAck | RolloverInit
| RolloverReady | ChannelClose | CloseAck | Reject | Disconnect.

#[export] Instance eq_dec : EqDecision t.
Proof. solve_decision. Defined.

Definition as_u8 (m : t) : Z :=
  match m with
  | Announce => 0x00 | PriceSheet => 0x01 | Accept => 0x02
  | ChannelReady => 0x03 | MeteringReport => 0x04 | BalanceUpdate => 0x05
  | BalanceAck => 0x06 | BootstrapToken => 0x07 | BootstrapAck => 0x08
  | RolloverInit => 0x09 | RolloverReady => 0x0A | ChannelClose => 0x0B
  | CloseAck => 0x0C | Reject => 0x0D | Disconnect => 0x0E
  end.

Definition from_u8 (value : Z) : option t :=
  match value with
  | 0x00 => Some Announce | 0x01 => Some PriceSheet | 0x02 => Some Accept
  | 0x03 => Some ChannelReady | 0x04 => Some MeteringReport
  | 0x05 => Some BalanceUpdate | 0x06 => Some BalanceAck
  | 0x07 => Some BootstrapToken | 0x08 => Some BootstrapAck
  | 0x09 => Some RolloverInit | 0x0A => Some RolloverReady
  | 0x0B => Some ChannelClose | 0x0C => Some CloseAck
  | 0x0D => Some Reject | 0x0E => Some Disconnect
  | _ => None
  end.
End MessageType.
Export (hints) MessageType.

Module RejectReason.
Inductive t : Set :=
| PriceTooHigh | MintNotAccepted | UnitNotAccepted | MeteringIntervalOutOfRange
| ChannelFundingInvalid | BalanceVerificationFailed
| TransitLossToleranceExceeded | ProductChangedRenegotiationRequired
| ProtocolVersionUnsupported | Other.

#[export] Instance eq_dec : EqDecision t.
Proof. solve_decision. Defined.

Definition as_u8 (r : t) : Z :=
  match r with
  | PriceTooHigh => 0x01 | MintNotAccepted => 0x02 | UnitNotAccepted => 0x03
  | MeteringIntervalOutOfRange => 0x04 | ChannelFundingInvalid => 0x05
  | BalanceVerificationFailed => 0x06 | TransitLossToleranceExceeded => 0x07
  | ProductChangedRenegotiationRequired => 0x08
  | ProtocolVersionUnsupported => 0x09 | Other => 0xFF
  end.

Definition from_u8 (value : Z) : option t :=
  match value with
  | 0x01 => Some PriceTooHigh | 0x02 => Some MintNotAccepted
  | 0x03 => Some UnitNotAccepted | 0x04 => Some MeteringIntervalOutOfRange
  | 0x05 => Some ChannelFundingInvalid | 0x06 => Some BalanceVerificationFailed
  | 0x07 => Some TransitLossToleranceExceeded
  | 0x08 => Some ProductChangedRenegotiationRequired
  | 0x09 => Some ProtocolVersionUnsupported | 0xFF => Some Other
  | _ => None
  end.
End RejectReason.
Export (hints) RejectReason.

(** ** Messages *)

(** Field invariants shared by the messages: the string holds ASCII (a Rust
    [String] holds UTF-8; ASCII is what the program itself sends). *)
Definition ascii (s : string) : Prop :=
  Forall (fun b => byte_val b < 128) (as_bytes s).
#[export] Instance ascii_dec s : Decision (ascii s).
Proof. unfold ascii. apply _. Defined.

Module MeteringReport.
Record t : Set := mk {
  type_tag : Z;
  elapsed_ms : Z;
  delivered : Z;
  received : Z;
  new_product_id : option bytes
}.
#[export] Instance eq_dec : EqDecision t.
Proof. solve_decision. Defined.
#[export] Program Instance countable : Countable t :=
  inj_countable'
    (fun r => (type_tag r, elapsed_ms r, delivered r, received r, new_product_id r))
    (fun '(a, b, c, d, e) => mk a b c d e) _.
Next Obligation. by intros []. Qed.

Definition new (elapsed_ms delivered received : Z) : t :=
  mk (MessageType.as_u8 MessageType.MeteringReport) elapsed_ms delivered received None.

Definition wf (r : t) : Prop :=
  is_u8 (type_tag r) /\ is_u64 (elapsed_ms r) /\ is_u64 (delivered r) /\
  is_u64 (received r) /\
  match new_product_id r with Some p => length p = 32%nat | None => True end.

Definition encode `{Cbor t} (r : t) : bytes := to_vec r.
Definition decode `{Cbor t} (b : bytes) : option t := from_slice b.
End MeteringReport.
Export (hints) MeteringReport.

Definition PROTOCOL_VERSION : Z := 1.
Definition CAP_SPILMAN : Z := 0x01.

Module Announce.
Record t : Set := mk {
  type_tag : Z;
  version : Z;
  pubkey : bytes;
  unit : string;
  capabilities : Z
}.
#[export] Instance eq_dec : EqDecision t.
Proof. solve_decision. Defined.
#[export] Program Instance countable : Countable t :=
  inj_countable'
    (fun r => (type_tag r, version r, pubkey r, unit r, capabilities r))
    (fun '(a, b, c, d, e) => mk a b c d e) _.
Next Obligation. by intros []. Qed.

Definition new (version : Z) (pubkey : PublicKey.t) (unit : string) (capabilities : Z) : t :=
  mk (MessageType.as_u8 MessageType.Announce) version (PublicKey.as_bytes pubkey)
    unit capabilities.
Definition public_key (a : t) : PublicKey.t := PublicKey.from_bytes (pubkey a).
Definition supports_spilman (a : t) : bool :=
  negb (Z.land (capabilities a) CAP_SPILMAN =? 0).

Definition wf (a : t) : Prop :=
  is_u8 (type_tag a) /\ is_u8 (version a) /\ length (pubkey a) = PublicKey.LEN /\
  ascii (unit a) /\ is_u32 (capabilities a).

Definition encode `{Cbor t} (a : t) : bytes := to_vec a.
Definition decode `{Cbor t} (b : bytes) : option t := from_slice b.
End Announce.
Export (hints) Announce.

Module BootstrapToken.
Record t : Set := mk { type_tag : Z; token : bytes }.
#[export] Instance eq_dec : EqDecision t.
Proof. solve_decision. Defined.
#[export] Program Instance countable : Countable t :=
  inj_countable' (fun r => (type_tag r, token r)) (fun '(a, b) => mk a b) _.
Next Obligation. by intros []. Qed.

Definition new (token : bytes) : t :=
  mk (MessageType.as_u8 MessageType.BootstrapToken) token.
Definition token_bytes (m : t) : bytes := token m.
Definition wf (m : t) : Prop := is_u8 (type_tag m).

Definition encode `{Cbor t} (m : t) : bytes := to_vec m.
Definition decode `{Cbor t} (b : bytes) : option t := from_slice b.
End BootstrapToken.
Export (hints) BootstrapToken.

Module BootstrapAck.
Record t : Set := mk { type_tag : Z; status : Z; reason : option string }.
#[export] Instance eq_dec : EqDecision t.
Proof. solve_decision. Defined.
#[export] Program Instance countable : Countable t :=
  inj_countable' (fun r => (type_tag r, status r, reason r)) (fun '(a, b, c) => mk a b c) _.
Next Obligation. by intros []. Qed.

Definition STATUS_ACCEPTED : Z := 0.
Definition STATUS_REJECTED : Z := 1.
Definition accepted : t :=
  mk (MessageType.as_u8 MessageType.BootstrapAck) STATUS_ACCEPTED None.
Definition rejected (reason : string) : t :=
  mk (MessageType.as_u8 MessageType.BootstrapAck) STATUS_REJECTED (Some reason).
Definition is_accepted (m : t) : bool := status m =? STATUS_ACCEPTED.
Definition wf (m : t) : Prop :=
  is_u8 (type_tag m) /\ is_u8 (status m) /\
  match reason m with Some s => ascii s | None => True end.

Definition encode `{Cbor t} (m : t) : bytes := to_vec m.
Definition decode `{Cbor t} (b : bytes) : option t := from_slice b.
End BootstrapAck.
Export (hints) BootstrapAck.

Module Reject.
Record t : Set := mk {
  type_tag : Z;
  rejected_type : Z;
  reason_code : Z;
  reason_text : option string
}.
#[export] Instance eq_dec : EqDecision t.
Proof. solve_decision. Defined.
#[export] Program Instance countable : Countable t :=
  inj_countable'
    (fun r => (type_tag r, rejected_type r, reason_code r, reason_text r))
    (fun '(a, b, c, d) => mk a b c d) _.
Next Obligation. by intros []. Qed.

Definition new (rejected_type : MessageType.t) (reason : RejectReason.t) : t :=
  mk (MessageType.as_u8 MessageType.Reject) (MessageType.as_u8 rejected_type)
    (RejectReason.as_u8 reason) None.
Definition with_reason_text (m : t) (text : string) : t :=
  mk (type_tag m) (rejected_type m) (reason_code m) (Some text).
Definition reason (m : t) : option RejectReason.t := RejectReason.from_u8 (reason_code m).
Definition is_transit_loss (m : t) : bool :=
  bool_decide (reason m = Some RejectReason.TransitLossToleranceExceeded).
Definition is_balance_exhausted (m : t) : bool :=
  bool_decide (reason m = Some RejectReason.BalanceVerificationFailed).
Definition wf (m : t) : Prop :=
  is_u8 (type_tag m) /\ is_u8 (rejected_type m) /\ is_u8 (reason_code m) /\
  match reason_text m with Some s => ascii s | None => True end.

Definition encode `{Cbor t} (m : t) : bytes := to_vec m.
Definition decode `{Cbor t} (b : bytes) : option t := from_slice b.
End Reject.
Export (hints) Reject.

Module Disconnect.
Record t : Set := mk { type_tag : Z; reason_code : Z }.
#[export] Instance eq_dec : EqDecision t.
Proof. solve_decision. Defined.
#[export] Program Instance countable : Countable t :=
  inj_countable' (fun r => (type_tag r, reason_code r)) (fun '(a, b) => mk a b) _.
Next Obligation. by intros []. Qed.

Definition new (reason : RejectReason.t) : t :=
  mk (MessageType.as_u8 MessageType.Disconnect) (RejectReason.as_u8 reason).
Definition reason (m : t) : option RejectReason.t := RejectReason.from_u8 (reason_code m).
Definition wf (m : t) : Prop := is_u8 (type_tag m) /\ is_u8 (reason_code m).

Definition encode `{Cbor t} (m : t) : bytes := to_vec m.
Definition decode `{Cbor t} (b : bytes) : option t := from_slice b.
End Disconnect.
Export (hints) Disconnect.

Module IntervalRange.
Record t : Set := new { min_ms : Z; max_ms : Z }.
#[export] Instance eq_dec : EqDecision t.
Proof. solve_decision. Defined.
#[export] Program Instance countable : Countable t :=
  inj_countable' (fun r => (min_ms r, max_ms r)) (fun '(a, b) => new a b) _.
Next Obligation. by intros []. Qed.

Definition contains (r : t) (ms : Z) : bool := (min_ms r <=? ms) && (ms <=? max_ms r).
Definition wf (r : t) : Prop := is_u32 (min_ms r) /\ is_u32 (max_ms r).
End IntervalRange.
Export (hints) IntervalRange.

Module MintOption.
Record t : Set := new {
  option_id : bytes;
  mint_url : string;
  price_per_second : Z;
  price_per_unit : Z;
  mint_unit : string
}.
#[export] Instance eq_dec : EqDecision t.
Proof. solve_decision. Defined.
#[export] Program Instance countable : Countable t :=
  inj_countable'
    (fun r => (option_id r, mint_url r, price_per_second r, price_per_unit r, mint_unit r))
    (fun '(a, b, c, d, e) => new a b c d e) _.
Next Obligation. by intros []. Qed.

Definition wf (m : t) : Prop :=
  length (option_id m) = 32%nat /\ ascii (mint_url m) /\
  is_i64 (price_per_second m) /\ is_i64 (price_per_unit m) /\ ascii (mint_unit m).
End MintOption.
Export (hints) MintOption.

Module ProductEntry.
Record t : Set := new {
  product_id : bytes;
  extensions : bytes;
  pricing_scale : Z;
  mint_options : list MintOption.t
}.
#[export] Instance eq_dec : EqDecision t.
Proof. solve_decision. Defined.
#[export] Program Instance countable : Countable t :=
  inj_countable'
    (fun r => (product_id r, extensions r, pricing_scale r, mint_options r))
    (fun '(a, b, c, d) => new a b c d) _.
Next Obligation. by intros []. Qed.

Definition wf (p : t) : Prop :=
  length (product_id p) = 32%nat /\ is_u32 (pricing_scale p) /\
  Forall MintOption.wf (mint_options p).
End ProductEntry.
Export (hints) ProductEntry.

Module PriceSheet.
Record t : Set := mk {
  type_tag : Z;
  products : list ProductEntry.t;
  interval : IntervalRange.t
}.
#[export] Instance eq_dec : EqDecision t.
Proof. solve_decision. Defined.
#[export] Program Instance countable : Countable t :=
  inj_countable' (fun r => (type_tag r, products r, interval r))
    (fun '(a, b, c) => mk a b c) _.
Next Obligation. by intros []. Qed.

Definition new (products : list ProductEntry.t) (interval : IntervalRange.t) : t :=
  mk (MessageType.as_u8 MessageType.PriceSheet) products interval.
Definition wf (s : t) : Prop :=
  is_u8 (type_tag s) /\ Forall ProductEntry.wf (products s) /\ IntervalRange.wf (interval s).

Definition encode `{Cbor t} (m : t) : bytes := to_vec m.
Definition decode `{Cbor t} (b : bytes) : option t := from_slice b.
End PriceSheet.
Export (hints) PriceSheet.

Module Accept.
Record t : Set := mk {
  type_tag : Z;
  product_id : bytes;
  option_id : bytes;
  interval : IntervalRange.t;
  channel_funding : bytes
}.
#[export] Instance eq_dec : EqDecision t.
Proof. solve_decision. Defined.
#[export] Program Instance countable : Countable t :=
  inj_countable'
    (fun r => (type_tag r, product_id r, option_id r, interval r, channel_funding r))
    (fun '(a, b, c, d, e) => mk a b c d e) _.
Next Obligation. by intros []. Qed.

Definition new (product_id option_id : bytes) (interval : IntervalRange.t)
    (channel_funding : bytes) : t :=
  mk (MessageType.as_u8 MessageType.Accept) product_id option_id interval channel_funding.
Definition wf (m : t) : Prop :=
  is_u8 (type_tag m) /\ length (product_id m) = 32%nat /\ length (option_id m) = 32%nat /\
  IntervalRange.wf (interval m).

Definition encode `{Cbor t} (m : t) : bytes := to_vec m.
Definition decode `{Cbor t} (b : bytes) : option t := from_slice b.
End Accept.
Export (hints) Accept.

(** ** Peeking at the type *)

(** [codec.rs]'s minimal view of a message: field key 0 alone. *)
Module Header.
Record t : Set := mk { type_tag : Z }.
End Header.

(** The codec of every message type, bundled. *)
Class Minicbor : Type := {
  mc_header :: Cbor Header.t;
  mc_report :: Cbor MeteringReport.t;
  mc_announce :: Cbor Announce.t;
  mc_token :: Cbor BootstrapToken.t;
  mc_ack :: Cbor BootstrapAck.t;
  mc_reject :: Cbor Reject.t;
  mc_disconnect :: Cbor Disconnect.t;
  mc_sheet :: Cbor PriceSheet.t;
  mc_accept :: Cbor Accept.t
}.

Definition peek_type `{Minicbor} (message : bytes) : option MessageType.t :=
  header ← from_slice (T := Header.t) message;
  MessageType.from_u8 (Header.type_tag header).

(** What the program relies on of the derived codec: a message within its field
    types decodes to itself, and a [Header] is decoded from any message's map by
    skipping the other keys. *)
Class CborLaws `{Minicbor} (T : Type) `{Cbor T} (wf : T -> Prop) (tag : T -> Z) : Prop := {
  cbor_roundtrip m : wf m -> from_slice (to_vec m) = Some m;
  cbor_header m : wf m -> from_slice (to_vec m) = Some (Header.mk (tag m))
}.

Class MinicborLaws `{Minicbor} : Prop := {
  ml_report :: CborLaws MeteringReport.t MeteringReport.wf MeteringReport.type_tag;
  ml_announce :: CborLaws Announce.t Announce.wf Announce.type_tag;
  ml_token :: CborLaws BootstrapToken.t BootstrapToken.wf BootstrapToken.type_tag;
  ml_ack :: CborLaws BootstrapAck.t BootstrapAck.wf BootstrapAck.type_tag;
  ml_reject :: CborLaws Reject.t Reject.wf Reject.type_tag;
  ml_disconnect :: CborLaws Disconnect.t Disconnect.wf Disconnect.type_tag;
  ml_sheet :: CborLaws PriceSheet.t PriceSheet.wf PriceSheet.type_tag;
  ml_accept :: CborLaws Accept.t Accept.wf Accept.type_tag
}.

(** ** Lemmas *)

Lemma peek_type_to_vec `{MinicborLaws} {T} `{Cbor T} {wf tag} `{!CborLaws T wf tag} (m : T) :
  wf m -> peek_type (to_vec m) = MessageType.from_u8 (tag m).
Proof. intros Hm. unfold peek_type. by rewrite (cbor_header m Hm). Qed.

Lemma message_type_from_as t : MessageType.from_u8 (MessageType.as_u8 t) = Some t.
Proof. by destruct t. Qed.

Lemma message_type_u8 t : is_u8 (MessageType.as_u8 t).
Proof. destruct t; simpl; ints. Qed.

Lemma reject_reason_u8 r : is_u8 (RejectReason.as_u8 r).
Proof. destruct r; simpl; ints. Qed.

Lemma report_new_wf e d r :
  is_u64 e -> is_u64 d -> is_u64 r -> MeteringReport.wf (MeteringReport.new e d r).
Proof. intros. repeat split; try (simpl; ints). Qed.

Lemma reject_new_wf t r : Reject.wf (Reject.new t r).
Proof.
  pose proof (message_type_u8 t). pose proof (reject_reason_u8 r).
  repeat split; simpl; ints.
Qed.

Lemma token_new_wf b : BootstrapToken.wf (BootstrapToken.new b).
Proof. split; simpl; ints. Qed.

Lemma disconnect_new_wf r : Disconnect.wf (Disconnect.new r).
Proof. pose proof (reject_reason_u8 r). repeat split; simpl; ints. Qed.

#[export] Hint Resolve report_new_wf reject_new_wf token_new_wf disconnect_new_wf : tollgate.

(** The discriminant tables: decoding a wire byte and
    encoding it again is the identity, for every byte. *)
Lemma message_type_as_from v t : MessageType.from_u8 v = Some t -> MessageType.as_u8 t = v.
Proof.
  unfold MessageType.from_u8. intros. by cases.
Qed.

Lemma reject_reason_as_from v r : RejectReason.from_u8 v = Some r -> RejectReason.as_u8 r = v.
Proof.
  unfold RejectReason.from_u8. intros. by cases.
Qed.
