(* ===== verification/ToyCodec.v ===== *)
(** * A concrete codec

    One codec that satisfies [MinicborLaws], so that the laws are known to be
    consistent and concrete runs of the message-driven components can be
    evaluated. Each message is its type byte followed by the bits of its index in
    the countable enumeration of its type, one bit per byte. It is not CBOR and
    stands for no code of the program. *)

From Stdlib Require Import Strings.Byte.
From S2P Require Import Prelude Wire.

Module Toy.
Fixpoint bits (p : positive) : bytes :=
  match p with
  | xH => []
  | xO p => Byte.x00 :: bits p
  | xI p => Byte.x01 :: bits p
  end.

Fixpoint unbits (b : bytes) : option positive :=
  match b with
  | [] => Some xH
  | x :: b =>
      p ← unbits b;
      if decide (x = Byte.x00) then Some (xO p)
      else if decide (x = Byte.x01) then Some (xI p) else None
  end.

Definition put {T} `{Countable T} (tag : T -> Z) (m : T) : bytes :=
  byte_of_Z (tag m) :: bits (encode m).
Definition get {T} `{Countable T} (b : bytes) : option T :=
  match b with
  | [] => None
  | _ :: b => p ← unbits b; decode p
  end.
Definition codec {T} `{Countable T} (tag : T -> Z) : Cbor T :=
  {| to_vec := put tag; from_slice := get |}.

Definition header_codec : Cbor Header.t := {|
  to_vec h := [byte_of_Z (Header.type_tag h)];
  from_slice b := match b with [] => None | x :: _ => Some (Header.mk (byte_val x)) end
|}.

Definition toy : Minicbor := {|
  mc_header := header_codec;
  mc_report := codec MeteringReport.type_tag;
  mc_announce := codec Announce.type_tag;
  mc_token := codec BootstrapToken.type_tag;
  mc_ack := codec BootstrapAck.type_tag;
  mc_reject := codec Reject.type_tag;
  mc_disconnect := codec Disconnect.type_tag;
  mc_sheet := codec PriceSheet.type_tag;
  mc_accept := codec Accept.type_tag
|}.

Lemma unbits_bits p : unbits (bits p) = Some p.
Proof. induction p as [p IH|p IH|]; simpl; rewrite ?IH; done. Qed.

Lemma get_put {T} `{Countable T} (tag : T -> Z) m : get (put tag m) = Some m.
Proof. unfold get, put. rewrite unbits_bits. simpl. apply decode_encode. Qed.

Lemma toy_laws_at {T} `{Countable T} (wf : T -> Prop) (tag : T -> Z) :
  (forall m, wf m -> is_u8 (tag m)) ->
  @CborLaws toy T (codec tag) wf tag.
Proof.
  intros Htag. split; intros m Hm.
  - apply get_put.
  - cbn. rewrite byte_val_of_Z, Z.mod_small; [done|]. specialize (Htag m Hm). ints.
Qed.

#[export] Instance toy_laws : @MinicborLaws toy.
Proof.
  constructor; apply toy_laws_at; intros m Hm; apply Hm.
Qed.
End Toy.
