(* ===== verification/Frames.v ===== *)
(** * Transport framing

    Models [encode_frame], [frame] and [decode_frames] of
    [crates/tollgate-protocol/src/codec.rs]: messages on the HTTP transport are
    length-prefixed with two little-endian bytes. [out: &mut Vec<u8>] is
    explicit state; the decoder's loop runs on fuel, one unit per iteration, and
    [decode_frames_total] proves that the fuel given always suffices. *)

From S2P Require Import Prelude.

Definition MAX_FRAME_LEN : Z := U16_MAX.

Inductive FrameError : Set :=
| TooLong
| Truncated (offset : nat).

#[export] Instance frame_error_eq_dec : EqDecision FrameError.
Proof. solve_decision. Defined.

(** The new contents of [out], and the result. *)
Definition encode_frame (body out : bytes) : bytes * result () FrameError :=
  if MAX_FRAME_LEN <? zlen body then (out, Err TooLong)
  else (out ++ le_bytes 2 (zlen body mod 2 ^ 16) ++ body, Ok ()).

Definition frame (body : bytes) : result bytes FrameError :=
  match encode_frame body [] with
  | (out, Ok _) => Ok out
  | (_, Err e) => Err e
  end.

(** One pass of the [while] loop of [decode_frames] per unit of fuel; [None] is
    a loop that did not finish. *)
Fixpoint decode_loop (fuel : nat) (buf : bytes) (offset : nat) (frames : list bytes)
    : option (result (list bytes) FrameError) :=
  if (offset <? length buf)%nat then
    match fuel with
    | O => None
    | S fuel =>
        if (length buf - offset <? 2)%nat then Some (Err (Truncated offset))
        else
          let len := Z.to_nat (from_le_bytes (take 2 (drop offset buf))) in
          let stop := (offset + 2 + len)%nat in
          if (length buf <? stop)%nat then Some (Err (Truncated offset))
          else decode_loop fuel buf stop (frames ++ [take len (drop (offset + 2) buf)])
    end
  else Some (Ok frames).

Definition decode_frames (buf : bytes) : option (result (list bytes) FrameError) :=
  decode_loop (length buf) buf 0 [].

(** ** The wire grammar: what a buffer of frames is *)

(** The two-byte prefix and the body, for a body that fits. *)
Definition framed (body : bytes) : bytes := le_bytes 2 (zlen body) ++ body.
#[global] Arguments framed : simpl never.
Definition fits (body : bytes) : Prop := zlen body <= MAX_FRAME_LEN.

(** A sender writing several messages to one buffer, stopping at the first error. *)
Fixpoint encode_frames (bodies : list bytes) (out : bytes) : bytes * result () FrameError :=
  match bodies with
  | [] => (out, Ok ())
  | b :: bodies =>
      match encode_frame b out with
      | (out, Ok _) => encode_frames bodies out
      | (out, Err e) => (out, Err e)
      end
  end.

(** [rest] does not begin with a whole frame. *)
Definition cut_short (rest : bytes) : Prop :=
  rest <> [] /\ forall body tl, fits body -> rest <> framed body ++ tl.

(** ** Lemmas *)

Lemma encode_frame_fits b out :
  fits b -> encode_frame b out = (out ++ framed b, Ok ()).
Proof.
  unfold fits, encode_frame, MAX_FRAME_LEN, framed, zlen. intros H.
  rewrite (proj2 (Z.ltb_ge _ _)) by lia. rewrite Z.mod_small by (ints; lia). done.
Qed.

Lemma encode_frames_fits bs out :
  Forall fits bs -> encode_frames bs out = (out ++ concat (map framed bs), Ok ()).
Proof.
  intros H. revert out. induction H as [|b bs Hb _ IH]; intros out; simpl.
  - by rewrite app_nil_r.
  - by rewrite encode_frame_fits, IH, <- (assoc_L (++)).
Qed.

Lemma framed_length b : length (framed b) = (2 + length b)%nat.
Proof. unfold framed. by rewrite length_app, length_le_bytes. Qed.

(** The length field of a frame whose body fits. *)
Lemma framed_prefix b tl :
  fits b -> Z.to_nat (from_le_bytes (take 2 (framed b ++ tl))) = length b.
Proof.
  intros H. unfold framed. rewrite <- (assoc_L (++)), take_app_length'.
  - rewrite from_le_bytes_of; unfold fits, MAX_FRAME_LEN, zlen in *; ints; lia.
  - by rewrite length_le_bytes.
Qed.

Lemma decode_loop_S fuel pre b tl frames :
  fits b ->
  decode_loop (S fuel) (pre ++ framed b ++ tl) (length pre) frames =
  decode_loop fuel ((pre ++ framed b) ++ tl) (length (pre ++ framed b)) (frames ++ [b]).
Proof.
  intros H. cbn [decode_loop].
  rewrite drop_app_length, framed_prefix by done.
  rewrite !length_app, framed_length.
  rewrite (proj2 (Nat.ltb_lt _ _)) by lia.
  rewrite (proj2 (Nat.ltb_ge _ 2)) by lia.
  rewrite (proj2 (Nat.ltb_ge _ (length pre + 2 + length b))) by lia.
  rewrite drop_app_ge by lia.
  replace (length pre + 2 - length pre)%nat with 2%nat by lia.
  unfold framed at 2. rewrite <- !(assoc_L (++)).
  rewrite (drop_app_length' _ _ 2) by by rewrite length_le_bytes.
  rewrite take_app_length. f_equal. lia.
Qed.

(** Decoding from the middle of a buffer that holds whole frames and a tail. *)
Lemma decode_loop_frames fuel bs pre tl frames :
  Forall fits bs -> (length bs <= fuel)%nat ->
  decode_loop fuel (pre ++ concat (map framed bs) ++ tl) (length pre) frames =
  decode_loop (fuel - length bs) ((pre ++ concat (map framed bs)) ++ tl)
    (length (pre ++ concat (map framed bs))) (frames ++ bs).
Proof.
  intros H. revert fuel pre frames. induction H as [|b bs Hb _ IH]; intros fuel pre frames Hf.
  - simpl. by rewrite Nat.sub_0_r, !app_nil_r.
  - destruct fuel as [|fuel]; simpl in Hf; [lia|]. cbn [map concat].
    rewrite <- (assoc_L (++)), (decode_loop_S fuel pre b _ frames Hb).
    rewrite IH by lia. rewrite <- !(assoc_L (++)). reflexivity.
Qed.

(** Splitting the head frame off a buffer whose prefix announces no more bytes
    than there are. *)
Lemma split_frame rest :
  (2 <= length rest)%nat ->
  (2 + Z.to_nat (from_le_bytes (take 2 rest)) <= length rest)%nat ->
  exists body tl, fits body /\ rest = framed body ++ tl.
Proof.
  intros H2 Hlen. set (n := Z.to_nat _) in *.
  pose proof (from_le_bytes_range (take 2 rest)) as R.
  assert (length (take 2 rest) = 2%nat) as L2 by (rewrite length_take; lia).
  rewrite L2 in R. change (256 ^ Z.of_nat 2) with 65536 in R.
  exists (take n (drop 2 rest)), (drop n (drop 2 rest)).
  assert (zlen (take n (drop 2 rest)) = from_le_bytes (take 2 rest)) as Z2.
  { unfold zlen. rewrite length_take, length_drop. lia. }
  split.
  - unfold fits, MAX_FRAME_LEN. rewrite Z2. ints.
  - unfold framed. rewrite Z2. rewrite <- L2 at 1. rewrite le_bytes_of.
    by rewrite <- (assoc_L (++)), take_drop, take_drop.
Qed.

Lemma cut_short_spec rest :
  rest <> [] ->
  (length rest < 2)%nat \/
  (length rest < 2 + Z.to_nat (from_le_bytes (take 2 rest)))%nat ->
  cut_short rest.
Proof.
  intros H0 H. split; [done|]. intros body tl Hf ->.
  rewrite framed_prefix, length_app, framed_length in H by done. lia.
Qed.

Lemma cut_short_inv rest :
  cut_short rest ->
  (length rest < 2)%nat \/
  (length rest < 2 + Z.to_nat (from_le_bytes (take 2 rest)))%nat.
Proof.
  intros [_ H]. destruct (decide (length rest < 2)%nat); [auto|].
  destruct (decide (2 + Z.to_nat (from_le_bytes (take 2 rest)) <= length rest)%nat); [|lia].
  destruct (split_frame rest) as (b & tl & Hb & E); [lia..|]. by destruct (H b tl Hb).
Qed.

(** Every buffer is a sequence of whole frames and then nothing, or a frame cut short. *)
Lemma frames_split buf :
  exists bs tl, Forall fits bs /\ buf = concat (map framed bs) ++ tl /\
    (tl = [] \/ cut_short tl).
Proof.
  induction buf as [buf IH] using (well_founded_induction (well_founded_ltof _ (@length byte))).
  destruct (decide (buf = [])) as [->|Hne]; [by exists [], []; split_and!; auto|].
  destruct (decide (length buf < 2)%nat); [exists [], buf; split_and!; auto using cut_short_spec|].
  destruct (decide (length buf < 2 + Z.to_nat (from_le_bytes (take 2 buf)))%nat);
    [exists [], buf; split_and!; auto using cut_short_spec|].
  destruct (split_frame buf) as (b & tl & Hb & ->); [lia..|].
  destruct (IH tl) as (bs & tl' & Hbs & -> & Htl).
  { unfold ltof. rewrite length_app, framed_length. lia. }
  exists (b :: bs), tl'. split_and!; [by constructor| |done].
  cbn [map concat]. by rewrite <- (assoc_L (++)).
Qed.

Lemma decode_loop_nil fuel buf frames :
  decode_loop fuel buf (length buf) frames = Some (Ok frames).
Proof. destruct fuel; cbn [decode_loop]; by rewrite Nat.ltb_irrefl. Qed.

Lemma decode_loop_cut fuel pre tl frames :
  cut_short tl ->
  decode_loop (S fuel) (pre ++ tl) (length pre) frames = Some (Err (Truncated (length pre))).
Proof.
  intros Hc. pose proof (cut_short_inv tl Hc) as Hl. destruct Hc as [Hne _].
  assert (0 < length tl)%nat by (destruct tl; [done|simpl; lia]).
  cbn [decode_loop]. rewrite drop_app_length, length_app.
  rewrite (proj2 (Nat.ltb_lt _ _)) by lia.
  destruct (Nat.ltb_spec (length pre + length tl - length pre) 2); [done|].
  by rewrite (proj2 (Nat.ltb_lt _ _)) by lia.
Qed.

(** Enough fuel for any buffer: each frame takes at least two bytes. *)
Lemma concat_framed_length bs :
  (2 * length bs <= length (concat (map framed bs)))%nat.
Proof.
  induction bs as [|b bs IH]; cbn [map concat length]; [lia|].
  rewrite length_app, framed_length. lia.
Qed.

(** The decoder's result on every buffer, from the buffer's split. *)
Lemma decode_frames_split bs tl :
  Forall fits bs -> (tl = [] \/ cut_short tl) ->
  decode_frames (concat (map framed bs) ++ tl) =
  Some (if decide (tl = []) then Ok bs
        else Err (Truncated (length (concat (map framed bs))))).
Proof.
  intros Hbs Htl. unfold decode_frames. pose proof (concat_framed_length bs) as Hl.
  set (fuel := length (_ ++ _)). assert (length bs + length tl <= fuel)%nat.
  { unfold fuel. rewrite length_app. lia. }
  pose proof (decode_loop_frames fuel bs [] tl [] Hbs) as E. simpl in E.
  rewrite E by lia. clear E.
  destruct Htl as [->|Hc].
  - rewrite app_nil_r, decode_loop_nil, decide_True by done. done.
  - pose proof Hc as [Hne _]. rewrite decide_False by done.
    destruct tl as [|x tl]; [done|]. simpl in *.
    replace (fuel - length bs)%nat with (S (fuel - length bs - 1)) by lia.
    by rewrite decode_loop_cut.
Qed.

(** ** Properties *)

(** C28: framing round-trips. Whatever list of bodies of at most 65,535 bytes a
    sender frames into one buffer, the receiver's loop splits the buffer into
    exactly those bodies. *)
Theorem frames_roundtrip (bodies : list bytes) :
  Forall fits bodies ->
  exists buf, encode_frames bodies [] = (buf, Ok ()) /\ decode_frames buf = Some (Ok bodies).
Proof.
  intros H. exists (concat (map framed bodies)).
  rewrite encode_frames_fits by done. split; [done|].
  rewrite <- (app_nil_r (concat _)), decode_frames_split by auto. done.
Qed.

Definition demo_bodies : list bytes := [as_bytes "hello"; []; as_bytes "world!"].

Lemma frames_roundtrip_witness :
  Forall fits demo_bodies /\
  exists buf, encode_frames demo_bodies [] = (buf, Ok ()) /\
    decode_frames buf = Some (Ok demo_bodies).
Proof.
  assert (Forall fits demo_bodies) as H by (repeat constructor; vm_compute; congruence).
  split; [exact H|]. apply (frames_roundtrip demo_bodies H).
Defined.

(** C33: the decoder terminates on every buffer and is exact. On success the
    buffer is byte for byte the framing of the frames returned; on failure the
    error is [Truncated] at the length of the longest prefix made of whole frames,
    and what follows does not begin with a whole frame. *)
Theorem decode_frames_exact (buf : bytes) :
  exists bs tl, Forall fits bs /\ buf = (encode_frames bs []).1 ++ tl /\
    ((tl = [] /\ decode_frames buf = Some (Ok bs)) \/
     (cut_short tl /\ decode_frames buf = Some (Err (Truncated (length buf - length tl))))).
Proof.
  destruct (frames_split buf) as (bs & tl & Hbs & -> & Htl).
  exists bs, tl. rewrite encode_frames_fits, decode_frames_split by done.
  split_and!; [done..|]. rewrite length_app, Nat.add_sub.
  destruct Htl as [->|Hc]; [left|right]; (split; [done|]).
  - done.
  - by rewrite decide_False by apply Hc.
Qed.

(** [encode_frame] refuses exactly the bodies over 65,535 bytes, and then
    leaves the output buffer untouched; otherwise it appends two bytes of length
    and the body. *)
Theorem encode_frame_spec (body out : bytes) :
  encode_frame body out =
    if decide (fits body)
    then (out ++ le_bytes 2 (zlen body) ++ body, Ok ())
    else (out, Err TooLong).
Proof.
  case_decide as H; [by rewrite encode_frame_fits|].
  unfold encode_frame, fits in *. by rewrite (proj2 (Z.ltb_lt _ _)) by lia.
Qed.
