(* ===== verification/Product.v ===== *)
(** * Product fingerprints

    Models [crates/tollgate-protocol/src/product.rs]: the canonical byte layouts
    that [product_id] and [option_id] hash. SHA-256 comes from the [sha2] crate and
    is a parameter; nothing is assumed of it. The uniqueness theorems are
    therefore stated as reductions: two different products with one id exhibit a
    collision of the hash. *)

From S2P Require Import Prelude.

(** [sha2::Sha256::digest]: the concatenation of every [update]. *)
Class Sha256 : Type := sha256 : bytes -> bytes.

Definition DEFAULT_PRICING_SCALE : Z := 1000.

Module MintPrice.
Record t : Set := mk {
  mint_url : string;
  price_per_second : Z;
  price_per_unit : Z;
  mint_unit : string
}.

#[export] Instance eq_dec : EqDecision t.
Proof. solve_decision. Defined.

(** [a.mint_url.as_bytes().cmp(b.mint_url.as_bytes())]. *)
Definition le (a b : t) : Prop := bytes_le (as_bytes (mint_url a)) (as_bytes (mint_url b)).
#[export] Instance le_dec : RelDecision le.
Proof. intros a b. unfold le. apply _. Defined.

Definition wf (p : t) : Prop :=
  zlen (as_bytes (mint_url p)) <= U32_MAX /\ zlen (as_bytes (mint_unit p)) <= U32_MAX /\
  is_i64 (price_per_second p) /\ is_i64 (price_per_unit p).
#[export] Instance wf_dec p : Decision (wf p).
Proof. unfold wf. apply _. Defined.
End MintPrice.
Export (hints) MintPrice.

Record ProductId : Set := mkProductId { pid_bytes : bytes }.
#[export] Instance product_id_eq_dec : EqDecision ProductId.
Proof. solve_decision. Defined.

(** [(bytes.len() as u32).to_be_bytes()] followed by the bytes. *)
Definition len_prefixed (b : bytes) : bytes := be_bytes 4 (zlen b) ++ b.

Definition price_layout (price : MintPrice.t) : bytes :=
  len_prefixed (as_bytes (MintPrice.mint_url price)) ++
  be_bytes 8 (MintPrice.price_per_second price) ++
  be_bytes 8 (MintPrice.price_per_unit price) ++
  len_prefixed (as_bytes (MintPrice.mint_unit price)).

Definition product_tag : bytes := as_bytes "tollgate/product-id/v1".
Definition option_tag : bytes := as_bytes "tollgate/option-id/v1".

(** What is fed to the hasher, for a given order of the prices. *)
Definition product_layout (pricing_scale : Z) (sorted : list MintPrice.t) (extensions : bytes)
    : bytes :=
  product_tag ++ be_bytes 4 pricing_scale ++ be_bytes 4 (Z.of_nat (length sorted)) ++
  concat (map price_layout sorted) ++ len_prefixed extensions.

(** [sort_unstable_by] leaves the order of equal elements unspecified; the model
    uses a stable sort, and [sorted_unique] below shows that the choice is
    immaterial when the URLs are distinct. *)
Definition sort_prices (prices : list MintPrice.t) : list MintPrice.t :=
  merge_sort MintPrice.le prices.

Definition product_id `{Sha256} (pricing_scale : Z) (prices : list MintPrice.t)
    (extensions : bytes) : ProductId :=
  mkProductId (sha256 (product_layout pricing_scale (sort_prices prices) extensions)).

Definition option_layout (mint_url mint_unit : string) : bytes :=
  option_tag ++ len_prefixed (as_bytes mint_url) ++ len_prefixed (as_bytes mint_unit).

Definition option_id `{Sha256} (mint_url mint_unit : string) : bytes :=
  sha256 (option_layout mint_url mint_unit).

(** Two inputs the hash does not tell apart. *)
Definition collision `{Sha256} : Prop := exists x y, x <> y /\ sha256 x = sha256 y.

(** ** Lemmas *)

#[local] Opaque be_bytes.

Lemma len_prefixed_inj a b r s :
  zlen a <= U32_MAX -> zlen b <= U32_MAX ->
  len_prefixed a ++ r = len_prefixed b ++ s -> a = b /\ r = s.
Proof.
  unfold len_prefixed. rewrite <- !(assoc_L (++)). intros Ha Hb E.
  apply app_inj_1 in E as [E1 E2]; [|by rewrite !length_be_bytes].
  assert (zlen a = zlen b) as El.
  { apply (be_bytes_inj 4); [..|done]; change (256 ^ Z.of_nat 4) with (2 ^ 32);
    unfold zlen in *; ints. }
  apply app_inj_1 in E2; [done|]. unfold zlen in El. lia.
Qed.

Lemma price_layout_inj p q r s :
  MintPrice.wf p -> MintPrice.wf q ->
  price_layout p ++ r = price_layout q ++ s -> p = q /\ r = s.
Proof.
  destruct p as [u1 s1 n1 m1], q as [u2 s2 n2 m2].
  intros (? & ? & ? & ?) (? & ? & ? & ?). unfold price_layout; simpl in *.
  rewrite <- !(assoc_L (++)). intros E.
  apply len_prefixed_inj in E as [E1%as_bytes_inj E]; [|done..].
  apply app_inj_1 in E as [E2 E]; [|by rewrite !length_be_bytes].
  apply app_inj_1 in E as [E3 E]; [|by rewrite !length_be_bytes].
  apply len_prefixed_inj in E as [E4%as_bytes_inj E]; [|done..].
  apply be_bytes_inj_i64 in E2; [|done..]. apply be_bytes_inj_i64 in E3; [|done..].
  by subst.
Qed.

Lemma prices_layout_inj ps qs r s :
  Forall MintPrice.wf ps -> Forall MintPrice.wf qs -> length ps = length qs ->
  concat (map price_layout ps) ++ r = concat (map price_layout qs) ++ s ->
  ps = qs /\ r = s.
Proof.
  intros Hp. revert qs. induction Hp as [|p ps Hp _ IH]; intros [|q qs] Hq El E; try done.
  apply Forall_cons in Hq as [Hq Hqs]. cbn [map concat] in E.
  rewrite <- !(assoc_L (++)) in E. apply price_layout_inj in E as [-> E]; [|done..].
  apply IH in E as [-> ->]; [done..|]. by injection El.
Qed.

(** The layout determines every field of the product. *)
Lemma product_layout_inj c1 ps1 x1 c2 ps2 x2 :
  is_u32 c1 -> is_u32 c2 -> Forall MintPrice.wf ps1 -> Forall MintPrice.wf ps2 ->
  Z.of_nat (length ps1) <= U32_MAX -> Z.of_nat (length ps2) <= U32_MAX ->
  zlen x1 <= U32_MAX -> zlen x2 <= U32_MAX ->
  product_layout c1 ps1 x1 = product_layout c2 ps2 x2 -> c1 = c2 /\ ps1 = ps2 /\ x1 = x2.
Proof.
  intros Hc1 Hc2 Hp1 Hp2 Hl1 Hl2 Hx1 Hx2 E. unfold product_layout in E.
  apply app_inv_head in E.
  apply app_inj_1 in E as [E1 E]; [|by rewrite !length_be_bytes].
  apply app_inj_1 in E as [E2 E]; [|by rewrite !length_be_bytes].
  apply be_bytes_inj in E1; [|change (256 ^ Z.of_nat 4) with (2 ^ 32); ints..].
  apply be_bytes_inj in E2; [|change (256 ^ Z.of_nat 4) with (2 ^ 32); ints..].
  apply prices_layout_inj in E as [-> E]; [|done|done|lia].
  rewrite <- (app_nil_r (len_prefixed x1)), <- (app_nil_r (len_prefixed x2)) in E.
  by apply len_prefixed_inj in E as [-> _].
Qed.

Lemma sort_prices_perm ps : sort_prices ps ≡ₚ ps.
Proof. apply merge_sort_Permutation. Qed.

#[export] Instance price_le_total : Total MintPrice.le.
Proof. intros a b. apply bytes_le_total. Qed.
#[export] Instance price_le_trans : Transitive MintPrice.le.
Proof. intros a b c. unfold MintPrice.le. apply transitivity. Qed.

Lemma sort_prices_sorted ps : StronglySorted MintPrice.le (sort_prices ps).
Proof. apply (StronglySorted_merge_sort _). Qed.

(** With distinct URLs there is exactly one sorted arrangement, so any sort,
    stable or not, computes the same list. *)
Lemma sorted_unique ps qs :
  NoDup (MintPrice.mint_url <$> ps) -> ps ≡ₚ qs ->
  StronglySorted MintPrice.le ps -> StronglySorted MintPrice.le qs -> ps = qs.
Proof.
  intros Hnd Hperm Hs. revert qs Hperm.
  induction Hs as [|p ps _ IH Hall]; intros qs Hperm Hsq.
  { by apply Permutation_nil in Hperm. }
  apply NoDup_cons in Hnd as [Hp Hnd].
  destruct Hsq as [|q qs Hsq Hqall].
  { by apply Permutation_sym, Permutation_nil in Hperm. }
  assert (p = q) as ->.
  { assert (p ∈ q :: qs) as Hin by (rewrite <- Hperm; left).
    assert (q ∈ p :: ps) as Hin' by (rewrite Hperm; left).
    apply elem_of_cons in Hin as [->|Hin]; [done|].
    apply elem_of_cons in Hin' as [->|Hin']; [done|].
    rewrite Forall_forall in Hall, Hqall.
    assert (MintPrice.mint_url p = MintPrice.mint_url q) as E.
    { apply as_bytes_inj, (anti_symm bytes_le); [by apply Hall|by apply Hqall]. }
    destruct Hp. rewrite E. by apply list_elem_of_fmap_2. }
  f_equal. apply IH; [done| |done]. by apply Permutation_cons_inv in Hperm.
Qed.

Lemma sort_prices_NoDup ps qs :
  NoDup (MintPrice.mint_url <$> ps) -> ps ≡ₚ qs -> sort_prices ps = sort_prices qs.
Proof.
  intros Hnd Hperm. apply sorted_unique; auto using sort_prices_sorted.
  - by rewrite sort_prices_perm.
  - by rewrite !sort_prices_perm.
Qed.

(** A product as the node publishes it: every length fits its [u32] field. *)
Definition product_wf (pricing_scale : Z) (prices : list MintPrice.t) (extensions : bytes) : Prop :=
  is_u32 pricing_scale /\ Forall MintPrice.wf prices /\
  Z.of_nat (length prices) <= U32_MAX /\ zlen extensions <= U32_MAX.
#[export] Instance product_wf_dec c ps x : Decision (product_wf c ps x).
Proof. unfold product_wf. apply _. Defined.

(** Two prices with one URL: the sort key leaves their order open. *)
Definition twin_sat : MintPrice.t := MintPrice.mk "https://mint.example" 5 1 "sat".
Definition twin_usd : MintPrice.t := MintPrice.mk "https://mint.example" 7 2 "usd".

(** ** Properties *)

(** The product id does not depend on the order in which prices are declared,
    as long as no two of them name the same mint URL; and then the arrangement that
    is hashed is the only sorted one, whatever sorting algorithm is used. *)
Theorem product_id_order_independent `{Sha256} scale prices prices' extensions :
  NoDup (MintPrice.mint_url <$> prices) -> prices ≡ₚ prices' ->
  product_id scale prices extensions = product_id scale prices' extensions /\
  (forall arranged, arranged ≡ₚ prices' -> StronglySorted MintPrice.le arranged ->
    product_id scale prices extensions =
      mkProductId (sha256 (product_layout scale arranged extensions))).
Proof.
  intros Hnd Hperm. unfold product_id.
  split; [by rewrite (sort_prices_NoDup prices prices')|].
  intros arranged Harr Hs. do 3 f_equal. apply sorted_unique.
  - by rewrite sort_prices_perm.
  - by rewrite sort_prices_perm, Harr.
  - apply sort_prices_sorted.
  - done.
Qed.

Definition demo_prices : list MintPrice.t :=
  [MintPrice.mk "https://b.example" 10 3 "sat"; MintPrice.mk "https://a.example" (-4) 0 "msat"].

Lemma product_id_order_independent_witness (S := (fun b => b) : Sha256) :
  (NoDup (MintPrice.mint_url <$> demo_prices) /\ demo_prices ≡ₚ rev demo_prices) /\
  product_id 1000 demo_prices [] = product_id 1000 (rev demo_prices) [].
Proof.
  assert (NoDup (MintPrice.mint_url <$> demo_prices)) as H1
    by (apply (bool_decide_unpack _); vm_compute; exact I).
  assert (demo_prices ≡ₚ rev demo_prices) as H2 by apply Permutation_rev.
  split; [by split|]. exact (proj1 (product_id_order_independent 1000 demo_prices (rev demo_prices) [] H1 H2)).
Defined.

(** A product id binds the whole product. Two well-formed products with the
    same id have the same pricing scale, the same extension bytes and the same
    prices up to order, or else they exhibit a SHA-256 collision. *)
Theorem product_id_binding `{Sha256} c1 ps1 x1 c2 ps2 x2 :
  product_wf c1 ps1 x1 -> product_wf c2 ps2 x2 ->
  product_id c1 ps1 x1 = product_id c2 ps2 x2 ->
  (c1 = c2 /\ ps1 ≡ₚ ps2 /\ x1 = x2) \/ collision.
Proof.
  intros (? & ? & ? & ?) (? & ? & ? & ?) E. injection E as E.
  destruct (decide (product_layout c1 (sort_prices ps1) x1 =
    product_layout c2 (sort_prices ps2) x2)) as [El|Hne]; [left|right; red; eauto].
  apply product_layout_inj in El as (-> & El & ->); rewrite ?sort_prices_perm; try done.
  by rewrite <- (sort_prices_perm ps1), El, sort_prices_perm.
Qed.

Lemma product_id_binding_witness (S := (fun b => b) : Sha256) :
  (product_wf 1000 demo_prices [] /\ product_wf 1000 (rev demo_prices) [] /\
   product_id 1000 demo_prices [] = product_id 1000 (rev demo_prices) []) /\
  ((1000 = 1000 /\ demo_prices ≡ₚ rev demo_prices /\ ([] : bytes) = []) \/ collision).
Proof.
  assert (forall ps, ps = demo_prices \/ ps = rev demo_prices -> product_wf 1000 ps []) as W.
  { intros ps [-> | ->]; apply (bool_decide_unpack _); vm_compute; exact I. }
  assert (product_id 1000 demo_prices [] = product_id 1000 (rev demo_prices) []) as E
    by (vm_compute; reflexivity).
  split; [auto|].
  apply (product_id_binding 1000 demo_prices [] 1000 (rev demo_prices) []); auto.
Defined.

(** an option id binds the mint URL and unit with no ambiguity about where
    one ends and the other begins, and no option id is the id of a product: either
    coincidence exhibits a SHA-256 collision. *)
Theorem option_id_binding `{Sha256} u1 m1 u2 m2 scale prices extensions :
  zlen (as_bytes u1) <= U32_MAX -> zlen (as_bytes m1) <= U32_MAX ->
  zlen (as_bytes u2) <= U32_MAX -> zlen (as_bytes m2) <= U32_MAX ->
  (option_id u1 m1 = option_id u2 m2 -> (u1 = u2 /\ m1 = m2) \/ collision) /\
  (option_id u1 m1 = pid_bytes (product_id scale prices extensions) -> collision).
Proof.
  intros ????. split; intros E.
  - destruct (decide (option_layout u1 m1 = option_layout u2 m2)) as [El|Hne];
      [left|right; red; eauto].
    unfold option_layout in El. apply app_inv_head in El.
    rewrite <- (app_nil_r (len_prefixed (as_bytes m1))),
      <- (app_nil_r (len_prefixed (as_bytes m2))) in El.
    apply len_prefixed_inj in El as [->%as_bytes_inj El]; [|done..].
    by apply len_prefixed_inj in El as [->%as_bytes_inj _].
  - do 2 eexists. split; [|exact E]. unfold option_layout, product_layout.
    intros [El _]%app_inj_1; [|done]. by vm_compute in El.
Qed.

Lemma option_id_binding_witness (S := (fun b => b) : Sha256) :
  (option_id "https://a.example" "sat" = option_id "https://a.example" "sat" ->
   ("https://a.example"%string = "https://a.example"%string /\ "sat"%string = "sat"%string)
   \/ collision) /\
  (option_id "https://a.example" "sat" = pid_bytes (product_id 1000 [] []) -> collision).
Proof. apply (option_id_binding "https://a.example" "sat" "https://a.example" "sat" 1000 [] []); by vm_compute. Defined.

(** The sort key is the URL alone, so two prices of one mint are hashed in an
    order the sort leaves open, and the two orders are different layouts. *)
Lemma twin_prices_open :
  MintPrice.le twin_sat twin_usd /\ MintPrice.le twin_usd twin_sat /\
  product_layout 1000 [twin_sat; twin_usd] [] <> product_layout 1000 [twin_usd; twin_sat] [].
Proof. split_and!; [by vm_compute..|]. intros E. by vm_compute in E. Qed.
