(* ===== verification/Pricing.v ===== *)
(** * Prices, counters, time and access levels

    Models [crates/tollgate-core/src/]{[pricing.rs], [metering.rs], [time.rs],
    [access.rs]}: the signed rate a node charges, its cost function in 128-bit
    intermediate arithmetic, dynamic adjustment and clamping, counter
    reconciliation, timestamps, and what each access level allows. *)

From S2P Require Import Prelude F64 Product.

(** ** Time *)

Module Millis.
(** [self.since(earlier)]: saturates at zero when the clock went backwards. *)
Definition since (self earlier : Z) : Z := sat_sub_u64 self earlier.
End Millis.

(** ** Counters *)

Module Counters.
Record t : Set := mk { delivered : Z; received : Z }.
#[export] Instance eq_dec : EqDecision t.
Proof. solve_decision. Defined.
Definition default : t := mk 0 0.
Definition wf (c : t) : Prop := is_u64 (delivered c) /\ is_u64 (received c).
End Counters.
Export (hints) Counters.

Definition reconcile (local remote : Z) : Z := if remote <? local then local else remote.

(** ** Access levels *)

Module AccessLevel.
Inductive t : Set := None | Active | ZeroPrice | Suspended.
#[export] Instance eq_dec : EqDecision t.
Proof. solve_decision. Defined.
Definition default : t := None.
Definition allows_delivery (l : t) : bool :=
  match l with Active | ZeroPrice => true | _ => false end.
Definition is_metered (l : t) : bool := match l with Active => true | _ => false end.
Definition is_visible (l : t) : bool := allows_delivery l.
End AccessLevel.
Export (hints) AccessLevel.

(** ** Prices *)

Module PriceBounds.
Record t : Set := mk {
  per_second_floor : option Z;
  per_second_ceiling : option Z;
  per_unit_floor : option Z;
  per_unit_ceiling : option Z
}.
Definition default : t := mk None None None None.
End PriceBounds.

Definition clamp_val (val : Z) (floor ceiling : option Z) : Z :=
  let v := map_or floor val (fun f => Z.max val f) in
  map_or ceiling v (fun c => Z.min v c).

Module Price.
Record t : Set := mk { per_second : Z; per_unit : Z }.
#[export] Instance eq_dec : EqDecision t.
Proof. solve_decision. Defined.
Definition default : t := mk 0 0.
Definition wf (p : t) : Prop := is_i64 (per_second p) /\ is_i64 (per_unit p).

(** [i128] arithmetic; the division truncates towards zero. *)
Definition cost_scaled (p : t) (elapsed_ms units : Z) : Z :=
  let time := Z.quot (wrap_i128 (elapsed_ms * per_second p)) 1000 in
  let unit := wrap_i128 (units * per_unit p) in
  let total := wrap_i128 (time + unit) in
  if (I64_MIN <=? total) && (total <=? I64_MAX) then total
  else if 0 <? total then I64_MAX else I64_MIN.

Definition clamp (p : t) (b : PriceBounds.t) : t :=
  mk (clamp_val (per_second p) (PriceBounds.per_second_floor b) (PriceBounds.per_second_ceiling b))
     (clamp_val (per_unit p) (PriceBounds.per_unit_floor b) (PriceBounds.per_unit_ceiling b)).

Definition apply_multiplier (p : t) (multiplier : f64) : t :=
  mk (f64_to_i64 (f64_mul (f64_of_Z (per_second p)) multiplier))
     (f64_to_i64 (f64_mul (f64_of_Z (per_unit p)) multiplier)).

Definition adjust (p : t) (bounds : PriceBounds.t)
    (peer_multiplier active_peer_factor : option f64) : t :=
  let price := p in
  let price :=
    match active_peer_factor with
    | Some factor =>
        let boost := f64_add (f64_of_Z 1) factor in
        mk (f64_to_i64 (f64_mul (f64_of_Z (per_second price)) boost))
           (f64_to_i64 (f64_mul (f64_of_Z (per_unit price)) boost))
    | None => price
    end in
  let price := match peer_multiplier with Some mult => apply_multiplier price mult | None => price end in
  clamp price bounds.
End Price.
Export (hints) Price.

(** A priced offer across one or more mints. *)
Module OfferedProduct.
Record t : Set := mk {
  pricing_scale : Z;
  prices : list MintPrice.t;
  extensions : bytes
}.
Definition id `{Sha256} (p : t) : ProductId :=
  product_id (pricing_scale p) (prices p) (extensions p).
End OfferedProduct.

(** ** The cost function, as mathematics *)

(** Saturation into [i64]. *)
Definition clamp_i64 (z : Z) : Z := Z.max I64_MIN (Z.min I64_MAX z).

(** The cost of an interval with no machine arithmetic. *)
Definition ideal_cost (p : Price.t) (elapsed_ms units : Z) : Z :=
  Z.quot (elapsed_ms * Price.per_second p) 1000 + units * Price.per_unit p.

(** The unit part leaves room for the time part in [i128]. *)
Definition units_fit (p : Price.t) (units : Z) : Prop :=
  Z.abs (units * Price.per_unit p) <= 2 ^ 126.

(** ** Lemmas *)

Lemma clamp_i64_range z : is_i64 (clamp_i64 z).
Proof. unfold clamp_i64. ints. Qed.

Lemma cost_scaled_range p e u : is_i64 (Price.cost_scaled p e u).
Proof.
  unfold Price.cost_scaled. set (t := wrap_i128 _).
  destruct (Z.leb_spec I64_MIN t), (Z.leb_spec t I64_MAX); simpl;
    try destruct (0 <? t); ints.
Qed.

#[export] Hint Resolve clamp_i64_range cost_scaled_range : tollgate.

Lemma reconcile_max a b : reconcile a b = Z.max a b.
Proof. unfold reconcile. destruct (Z.ltb_spec b a); lia. Qed.

Lemma time_part_range p e :
  is_u64 e -> Price.wf p -> Z.abs (e * Price.per_second p) < 2 ^ 127.
Proof.
  intros He [Hp _]. rewrite Z.abs_mul. unfold U64_MAX, I64_MIN, I64_MAX in *.
  assert (Z.abs e * Z.abs (Price.per_second p) <= (2 ^ 64 - 1) * 2 ^ 63); [|lia].
  apply Z.mul_le_mono_nonneg; lia.
Qed.

(** No intermediate value of the cost wraps as long as the unit part is within
    2^126, and the result is the ideal cost saturated into [i64]. *)
Lemma cost_scaled_ideal p e u :
  is_u64 e -> Price.wf p -> units_fit p u ->
  Price.cost_scaled p e u = clamp_i64 (ideal_cost p e u).
Proof.
  intros He Hp Hu. pose proof (time_part_range p e He Hp) as Ht.
  unfold units_fit in Hu. unfold Price.cost_scaled, ideal_cost.
  change (2 ^ 126) with 85070591730234615865843651857942052864 in *.
  change (2 ^ 127) with 170141183460469231731687303715884105728 in *.
  rewrite !(wrap_i_id 128 (_ * _)) by (change (2 ^ (128 - 1)) with
    170141183460469231731687303715884105728; lia).
  assert (Z.abs (Z.quot (e * Price.per_second p) 1000) <= 170141183460469231731687303715884105728 / 1000) as Hq.
  { rewrite <- Z.quot_abs by lia. rewrite Z.quot_div_nonneg by lia.
    apply Z.div_le_mono; lia. }
  change (170141183460469231731687303715884105728 / 1000) with 170141183460469231731687303715884105 in Hq.
  rewrite (wrap_i_id 128) by (change (2 ^ (128 - 1)) with
    170141183460469231731687303715884105728; lia).
  set (t := _ + _). unfold clamp_i64.
  destruct (Z.leb_spec I64_MIN t), (Z.leb_spec t I64_MAX); simpl;
    try destruct (Z.ltb_spec 0 t); ints.
Qed.

Lemma clamp_val_within v f c :
  (forall x, f = Some x -> is_i64 x) -> (forall x, c = Some x -> is_i64 x) -> is_i64 v ->
  is_i64 (clamp_val v f c) /\
  (forall x, c = Some x -> clamp_val v f c <= x) /\
  (forall x, f = Some x -> (forall y, c = Some y -> x <= y) -> x <= clamp_val v f c).
Proof.
  intros Hf Hc Hv. unfold clamp_val, map_or.
  destruct f as [x|], c as [y|]; try specialize (Hf x eq_refl); try specialize (Hc y eq_refl);
    split_and!; try ints; intros; simplify_eq; try lia.
  match goal with H : forall y, _ -> _ |- _ => specialize (H y eq_refl) end. lia.
Qed.

(** ** Billing in intervals *)

(** The total of a list of [(elapsed_ms, units)] intervals, and what is charged
    when each is billed on its own. *)
Definition total_elapsed (ivs : list (Z * Z)) : Z := foldr (fun i t => i.1 + t) 0 ivs.
Definition total_units (ivs : list (Z * Z)) : Z := foldr (fun i t => i.2 + t) 0 ivs.
Definition billed_separately (p : Price.t) (ivs : list (Z * Z)) : Z :=
  foldr (fun i t => Price.cost_scaled p i.1 i.2 + t) 0 ivs.

(** A non-negative rate whose cost over the interval fits [i64]. *)
Definition payable (p : Price.t) (e u : Z) : Prop :=
  0 <= Price.per_second p /\ 0 <= Price.per_unit p /\ Price.wf p /\
  ideal_cost p e u <= I64_MAX.

Lemma cost_scaled_payable p e u :
  is_u64 e -> 0 <= u -> payable p e u ->
  Price.cost_scaled p e u = e * Price.per_second p / 1000 + u * Price.per_unit p.
Proof.
  intros He Hu (Hs & Hp & Hw & Hmax).
  assert (0 <= e * Price.per_second p) by (apply Z.mul_nonneg_nonneg; lia).
  assert (0 <= u * Price.per_unit p) by (apply Z.mul_nonneg_nonneg; lia).
  assert (0 <= e * Price.per_second p / 1000) by (apply Z.div_pos; lia).
  unfold ideal_cost in Hmax. rewrite Z.quot_div_nonneg in Hmax by lia.
  rewrite cost_scaled_ideal; [|done..|].
  - unfold ideal_cost. rewrite Z.quot_div_nonneg by lia. unfold clamp_i64. ints.
  - unfold units_fit. rewrite Z.abs_eq by lia. unfold I64_MAX in *. lia.
Qed.

Lemma payable_mono p e u e' u' :
  0 <= e' <= e -> 0 <= u' <= u -> payable p e u -> payable p e' u'.
Proof.
  intros He Hu (Hs & Hp & Hw & Hmax). split_and!; [done..|].
  etransitivity; [|exact Hmax]. unfold ideal_cost.
  rewrite !Z.quot_div_nonneg by (try apply Z.mul_nonneg_nonneg; lia).
  apply Z.add_le_mono.
  - apply Z.div_le_mono; [lia|]. apply Z.mul_le_mono_nonneg_r; lia.
  - apply Z.mul_le_mono_nonneg_r; lia.
Qed.

Lemma totals_nonneg ivs :
  Forall (fun i : Z * Z => 0 <= i.1 /\ 0 <= i.2) ivs ->
  0 <= total_elapsed ivs /\ 0 <= total_units ivs.
Proof. induction 1 as [|i ivs [??] _ [??]]; simpl; lia. Qed.

(** The price of an [i64::MAX] unit rate over [u64::MAX] units and milliseconds. *)
Definition extreme_price : Price.t := Price.mk I64_MAX I64_MAX.

(** ** Properties *)

(** C39: the cost function computes the ideal cost, time truncated to whole scaled
    units plus units delivered, saturated into [i64], as long as the unit part is
    within 2^126; outside that bound the 128-bit sum can wrap, and the largest
    positive price over the largest usage comes out as the most negative cost. *)
Theorem cost_scaled_exact (p : Price.t) (elapsed_ms units : Z) :
  (is_u64 elapsed_ms -> Price.wf p -> units_fit p units ->
   Price.cost_scaled p elapsed_ms units =
     clamp_i64 (Z.quot (elapsed_ms * Price.per_second p) 1000 + units * Price.per_unit p)) /\
  Price.cost_scaled extreme_price U64_MAX U64_MAX = I64_MIN.
Proof. split; [by apply cost_scaled_ideal|by vm_compute]. Qed.

Lemma cost_scaled_exact_witness :
  (is_u64 1500 /\ Price.wf (Price.mk 10 (-3)) /\ units_fit (Price.mk 10 (-3)) 7) /\
  Price.cost_scaled (Price.mk 10 (-3)) 1500 7 = clamp_i64 (Z.quot (1500 * 10) 1000 + 7 * -3).
Proof.
  assert (is_u64 1500) as H1 by ints.
  assert (Price.wf (Price.mk 10 (-3))) as H2 by (split; simpl; ints).
  assert (units_fit (Price.mk 10 (-3)) 7) as H3 by (unfold units_fit; simpl; lia).
  split; [done|]. exact (proj1 (cost_scaled_exact (Price.mk 10 (-3)) 1500 7) H1 H2 H3).
Defined.

(** billing often never overcharges. Whatever way a period is cut into
    sampling intervals, the sum billed interval by interval is at most the cost of
    the whole period, and falls short of it by less than one scaled unit per
    interval, the truncated time of each. *)
Theorem cost_split_bounds (p : Price.t) (ivs : list (Z * Z)) :
  ivs <> [] -> Forall (fun i => 0 <= i.1 /\ 0 <= i.2) ivs ->
  is_u64 (total_elapsed ivs) -> payable p (total_elapsed ivs) (total_units ivs) ->
  billed_separately p ivs <= Price.cost_scaled p (total_elapsed ivs) (total_units ivs) /\
  Price.cost_scaled p (total_elapsed ivs) (total_units ivs) - billed_separately p ivs
    < Z.of_nat (length ivs).
Proof.
  intros Hne His. induction His as [|i ivs [Hi1 Hi2] His IH]; [done|].
  destruct (totals_nonneg ivs His). intros Ht Hpay.
  destruct i as [e u]. simpl in *.
  assert (payable p e u) by (eapply payable_mono; [..|exact Hpay]; lia).
  rewrite (cost_scaled_payable p (e + _)) by (done || lia).
  rewrite (cost_scaled_payable p e u) by (done || ints).
  destruct ivs as [|j ivs].
  { simpl. rewrite !Z.add_0_r. lia. }
  destruct IH as [IH1 IH2]; [done|ints|eapply payable_mono; [..|exact Hpay]; lia|].
  set (r := j :: ivs) in *. rewrite cost_scaled_payable in IH1, IH2
    by (try (eapply payable_mono; [..|exact Hpay]; lia); ints).
  rewrite !Z.mul_add_distr_r.
  set (a := e * _) in *. set (b := total_elapsed r * _) in *.
  change (length r) with (S (length ivs)) in *.
  Z.div_mod_to_equations. lia.
Qed.

Lemma cost_split_bounds_witness :
  (payable (Price.mk 1 2) 1500 9) /\
  billed_separately (Price.mk 1 2) [(500, 3); (500, 3); (500, 3)] = 18 /\
  Price.cost_scaled (Price.mk 1 2) 1500 9 - 18 < 3.
Proof.
  assert (payable (Price.mk 1 2) 1500 9) as H.
  { split_and!; try (simpl; lia); [split; simpl; ints|by vm_compute]. }
  split; [exact H|]. split; [reflexivity|].
  refine (proj2 (cost_split_bounds (Price.mk 1 2) [(500, 3); (500, 3); (500, 3)] _ _ _ _)).
  - discriminate.
  - repeat constructor; simpl; lia.
  - simpl. ints.
  - exact H.
Defined.

(** Dynamic adjustment respects the configured bounds. Whatever the load
    factor and peer multiplier (NaN and infinities included), the adjusted rates
    are 64-bit integers, never above a configured ceiling, and never below a
    configured floor that does not exceed the ceiling. *)
Theorem adjust_within_bounds (p : Price.t) (b : PriceBounds.t) (mult factor : option f64) :
  Price.wf p ->
  (forall x, In (Some x) [PriceBounds.per_second_floor b; PriceBounds.per_second_ceiling b;
     PriceBounds.per_unit_floor b; PriceBounds.per_unit_ceiling b] -> is_i64 x) ->
  let q := Price.adjust p b mult factor in
  Price.wf q /\
  (forall c, PriceBounds.per_second_ceiling b = Some c -> Price.per_second q <= c) /\
  (forall c, PriceBounds.per_unit_ceiling b = Some c -> Price.per_unit q <= c) /\
  (forall f, PriceBounds.per_second_floor b = Some f ->
     (forall c, PriceBounds.per_second_ceiling b = Some c -> f <= c) -> f <= Price.per_second q) /\
  (forall f, PriceBounds.per_unit_floor b = Some f ->
     (forall c, PriceBounds.per_unit_ceiling b = Some c -> f <= c) -> f <= Price.per_unit q).
Proof.
  intros [Hps Hpu] Hb. destruct b as [sf sc uf uc]. simpl in *.
  assert (forall v w, is_i64 v -> is_i64 w -> let q := Price.clamp (Price.mk v w)
      (PriceBounds.mk sf sc uf uc) in Price.wf q /\
      (forall c, sc = Some c -> Price.per_second q <= c) /\
      (forall c, uc = Some c -> Price.per_unit q <= c) /\
      (forall f, sf = Some f -> (forall c, sc = Some c -> f <= c) -> f <= Price.per_second q) /\
      (forall f, uf = Some f -> (forall c, uc = Some c -> f <= c) -> f <= Price.per_unit q)) as K.
  { intros v w Hv Hw. simpl.
    destruct (clamp_val_within v sf sc) as (? & ? & ?); [intros ? ->; apply Hb; auto..|done|].
    destruct (clamp_val_within w uf uc) as (? & ? & ?); [intros ? ->; apply Hb; auto..|done|].
    split_and!; auto. by split. }
  unfold Price.adjust, Price.apply_multiplier.
  destruct factor, mult; simpl; apply K; auto using f64_to_i64_range.
Qed.

Definition demo_bounds : PriceBounds.t := PriceBounds.mk (Some 5) (Some 20) None (Some 9).

Lemma adjust_within_bounds_witness :
  let q := Price.adjust (Price.mk 10 3) demo_bounds (Some (f64_ratio 5 2)) (Some (f64_ratio 1 2)) in
  q = Price.mk 20 9 /\ Price.wf q /\ Price.per_second q <= 20.
Proof.
  split; [by vm_compute|].
  destruct (adjust_within_bounds (Price.mk 10 3) demo_bounds
    (Some (f64_ratio 5 2)) (Some (f64_ratio 1 2))) as (W & C & _).
  - split; simpl; ints.
  - intros x Hx. simpl in Hx. repeat destruct Hx as [Hx|Hx]; simplify_eq; try done; ints.
  - split; [exact W|exact (C 20 eq_refl)].
Defined.
