(* ===== verification/Session.v ===== *)
(** * The per-node session state machine

    Models [crates/tollgate-core/src/]{[session.rs], [event.rs], [action.rs],
    [peer.rs]}. [Session::handle] is one function of an event, a timestamp and the
    node's state; its arms are the definitions [on_*] below, each a whole arm,
    composed by [handle] as the [match] composes them. Only definitions live
    here; the theorems are in [SessionFacts.v]. *)

From S2P Require Import Prelude F64 Wire Pricing.

(** [PeerId(pub PublicKey)]. *)
Abbreviation PeerId := PublicKey.t.

(** ** Inputs and outputs *)

Module Event.
Inductive t : Set :=
| PeerConnected (peer : PeerId)
| PeerDisconnected (peer : PeerId)
| MessageReceived (peer : PeerId) (msg : bytes)
| MeterSample (peer : PeerId) (counters : Counters.t)
| BootstrapVerified (peer : PeerId) (amount : Z) (verified : bool)
| Tick.
End Event.

Module Action.
Inductive t : Set :=
| Send (peer : PeerId) (msg : bytes)
| SetAccess (peer : PeerId) (level : AccessLevel.t)
| VerifyBootstrapToken (peer : PeerId) (token : bytes)
| StartMetering (peer : PeerId)
| StopMetering (peer : PeerId)
| Disconnect (peer : PeerId).
#[export] Instance eq_dec : EqDecision t.
Proof. solve_decision. Defined.
End Action.
Export (hints) Action.

(** ** State *)

Module PeerPhase.
Inductive t : Set := New | BootstrapPending | Active | Suspended | Closed.
#[export] Instance eq_dec : EqDecision t.
Proof. solve_decision. Defined.
End PeerPhase.
Export (hints) PeerPhase.

Module PeerSession.
Record t : Set := mk {
  phase : PeerPhase.t;
  balance : Z;
  last_counters : option Counters.t;
  last_meter_at : Z;
  metering_baseline : Counters.t;
  metering_start : Z;
  peer_report : option Counters.t;
  billed_units : Z;
  over_tolerance_streak : Z;
  last_price_sheet : option PriceSheet.t;
  accepted_product : option bytes
}.

Definition new : t :=
  mk PeerPhase.New 0 None 0 Counters.default 0 None 0 0 None None.

Definition set_phase (ph : PeerPhase.t) (s : t) : t :=
  mk ph (balance s) (last_counters s) (last_meter_at s) (metering_baseline s)
    (metering_start s) (peer_report s) (billed_units s) (over_tolerance_streak s)
    (last_price_sheet s) (accepted_product s).
Definition set_balance (b : Z) (s : t) : t :=
  mk (phase s) b (last_counters s) (last_meter_at s) (metering_baseline s)
    (metering_start s) (peer_report s) (billed_units s) (over_tolerance_streak s)
    (last_price_sheet s) (accepted_product s).
(** [last_counters] and [last_meter_at], always assigned together. *)
Definition set_last (c : option Counters.t) (at_ : Z) (s : t) : t :=
  mk (phase s) (balance s) c at_ (metering_baseline s)
    (metering_start s) (peer_report s) (billed_units s) (over_tolerance_streak s)
    (last_price_sheet s) (accepted_product s).
Definition set_report (r : option Counters.t) (s : t) : t :=
  mk (phase s) (balance s) (last_counters s) (last_meter_at s) (metering_baseline s)
    (metering_start s) r (billed_units s) (over_tolerance_streak s)
    (last_price_sheet s) (accepted_product s).
Definition set_billed (u : Z) (s : t) : t :=
  mk (phase s) (balance s) (last_counters s) (last_meter_at s) (metering_baseline s)
    (metering_start s) (peer_report s) u (over_tolerance_streak s)
    (last_price_sheet s) (accepted_product s).
Definition set_streak (k : Z) (s : t) : t :=
  mk (phase s) (balance s) (last_counters s) (last_meter_at s) (metering_baseline s)
    (metering_start s) (peer_report s) (billed_units s) k
    (last_price_sheet s) (accepted_product s).
Definition set_sheet (sh : option PriceSheet.t) (s : t) : t :=
  mk (phase s) (balance s) (last_counters s) (last_meter_at s) (metering_baseline s)
    (metering_start s) (peer_report s) (billed_units s) (over_tolerance_streak s)
    sh (accepted_product s).
Definition set_accepted (a : option bytes) (s : t) : t :=
  mk (phase s) (balance s) (last_counters s) (last_meter_at s) (metering_baseline s)
    (metering_start s) (peer_report s) (billed_units s) (over_tolerance_streak s)
    (last_price_sheet s) a.

Definition reset_metering (counters : Counters.t) (now : Z) (s : t) : t :=
  mk (phase s) (balance s) (Some counters) now counters now None 0 0
    (last_price_sheet s) (accepted_product s).
End PeerSession.

Module PeerSnapshot.
Record t : Set := mk {
  peer : PeerId;
  phase : PeerPhase.t;
  balance : Z;
  delivered : Z;
  received : Z;
  metering_start : option Z;
  drift : option f64
}.
End PeerSnapshot.

Module MeteringPolicy.
Record t : Set := mk { tolerance_bps : Z; max_streak : Z }.
Definition default : t := mk 500 3.
Definition wf (p : t) : Prop := is_u32 (tolerance_bps p) /\ is_u8 (max_streak p).
End MeteringPolicy.

Module Session.
Record t : Set := mk {
  peers : gmap PeerId PeerSession.t;
  price : Price.t;
  policy : MeteringPolicy.t
}.

Definition new : t := mk ∅ Price.default MeteringPolicy.default.
Definition set_price (p : Price.t) (s : t) : t := mk (peers s) p (policy s).
Definition set_metering_policy (p : MeteringPolicy.t) (s : t) : t := mk (peers s) (price s) p.
Definition set_peers (m : gmap PeerId PeerSession.t) (s : t) : t := mk m (price s) (policy s).

(** [if let Some(s) = self.peers.get_mut(&peer)]: run [f] on the peer's own
    session, which may emit actions; an unknown peer is a no-op. *)
Definition with_peer (peer : PeerId) (f : PeerSession.t -> PeerSession.t * list Action.t)
    (s : t) : t * list Action.t :=
  match peers s !! peer with
  | Some ps => let '(ps', acts) := f ps in (set_peers (<[peer := ps']> (peers s)) s, acts)
  | None => (s, [])
  end.

Section handle.
Context `{Minicbor}.

Definition on_peer_connected (peer : PeerId) (s : t) : t * list Action.t :=
  match peers s !! peer with
  | None =>
      (set_peers (<[peer := PeerSession.new]> (peers s)) s,
       [Action.SetAccess peer AccessLevel.None])
  | Some _ => (s, [])
  end.

Definition on_bootstrap_token (peer : PeerId) (msg : bytes) (s : t) : t * list Action.t :=
  match BootstrapToken.decode msg with
  | Some m =>
      with_peer peer (fun ps =>
        (PeerSession.set_phase PeerPhase.BootstrapPending ps,
         [Action.VerifyBootstrapToken peer (BootstrapToken.token_bytes m)])) s
  | None => (s, [])
  end.

Definition on_reject (peer : PeerId) (msg : bytes) (s : t) : t * list Action.t :=
  match Reject.decode msg with
  | Some _ =>
      with_peer peer (fun ps =>
        if decide (PeerSession.phase ps <> PeerPhase.Closed) then
          let was_active := bool_decide (PeerSession.phase ps = PeerPhase.Active) in
          (PeerSession.set_phase PeerPhase.New ps,
           if was_active
           then [Action.SetAccess peer AccessLevel.None; Action.StopMetering peer]
           else [])
        else (ps, [])) s
  | None => (s, [])
  end.

(** Shared by the [Disconnect] message and [PeerDisconnected]: the phase set just
    before [remove] is never observable. *)
Definition tear_down (peer : PeerId) (s : t) : t * list Action.t :=
  let s := (with_peer peer (fun ps => (PeerSession.set_phase PeerPhase.Closed ps, [])) s).1 in
  (set_peers (delete peer (peers s)) s,
   [Action.SetAccess peer AccessLevel.None; Action.StopMetering peer]).

Definition on_disconnect (peer : PeerId) (msg : bytes) (s : t) : t * list Action.t :=
  match Disconnect.decode msg with
  | Some _ => tear_down peer s
  | None => (s, [])
  end.

Definition on_price_sheet (peer : PeerId) (msg : bytes) (s : t) : t * list Action.t :=
  match PriceSheet.decode msg with
  | Some sheet => with_peer peer (fun ps => (PeerSession.set_sheet (Some sheet) ps, [])) s
  | None => (s, [])
  end.

(** [accept.product_id.as_slice().try_into().ok()]: 32 bytes or nothing. *)
Definition to_array32 (b : bytes) : option bytes :=
  if decide (length b = 32%nat) then Some b else None.

Definition on_accept (peer : PeerId) (msg : bytes) (s : t) : t * list Action.t :=
  match Accept.decode msg with
  | Some accept =>
      with_peer peer (fun ps =>
        (PeerSession.set_accepted (to_array32 (Accept.product_id accept)) ps, [])) s
  | None => (s, [])
  end.

Definition on_metering_report (peer : PeerId) (msg : bytes) (s : t) : t * list Action.t :=
  match MeteringReport.decode msg with
  | Some report =>
      with_peer peer (fun ps =>
        (PeerSession.set_report
           (Some (Counters.mk (MeteringReport.delivered report) (MeteringReport.received report)))
           ps, [])) s
  | None => (s, [])
  end.

Definition on_message (peer : PeerId) (msg : bytes) (s : t) : t * list Action.t :=
  match peek_type msg with
  | Some MessageType.BootstrapToken => on_bootstrap_token peer msg s
  | Some MessageType.Reject => on_reject peer msg s
  | Some MessageType.Disconnect => on_disconnect peer msg s
  | Some MessageType.PriceSheet => on_price_sheet peer msg s
  | Some MessageType.Accept => on_accept peer msg s
  | Some MessageType.MeteringReport => on_metering_report peer msg s
  | _ => (s, [])
  end.

Definition verified_ok (peer : PeerId) (amount now : Z) (ps : PeerSession.t)
    : PeerSession.t * list Action.t :=
  let was_active := bool_decide (PeerSession.phase ps = PeerPhase.Active) in
  let ps := PeerSession.set_balance (sat_add_u64 (PeerSession.balance ps) amount) ps in
  let ps := PeerSession.set_phase PeerPhase.Active ps in
  let ps := if negb was_active then PeerSession.set_last None now ps else ps in
  (ps, [Action.Send peer (BootstrapAck.encode BootstrapAck.accepted);
        Action.SetAccess peer AccessLevel.Active;
        Action.StartMetering peer]).

Definition verified_err (peer : PeerId) (ps : PeerSession.t)
    : PeerSession.t * list Action.t :=
  (PeerSession.set_phase PeerPhase.New ps,
   [Action.Send peer
      (BootstrapAck.encode (BootstrapAck.rejected "token verification failed"));
    Action.SetAccess peer AccessLevel.None]).

Definition on_bootstrap_verified (peer : PeerId) (amount : Z) (verified : bool) (now : Z)
    (s : t) : t * list Action.t :=
  with_peer peer (fun ps =>
    if verified then verified_ok peer amount now ps else verified_err peer ps) s.

(** *** One metering interval *)

Definition our_delivered (ps : PeerSession.t) (counters : Counters.t) : Z :=
  sat_sub_u64 (Counters.delivered counters) (Counters.delivered (PeerSession.metering_baseline ps)).
Definition our_received (ps : PeerSession.t) (counters : Counters.t) : Z :=
  sat_sub_u64 (Counters.received counters) (Counters.received (PeerSession.metering_baseline ps)).
Definition peer_received (ps : PeerSession.t) : option Z :=
  Counters.received <$> PeerSession.peer_report ps.

(** The higher of the two tallies of what we delivered. *)
Definition billable (ps : PeerSession.t) (counters : Counters.t) : Z :=
  match peer_received ps with
  | Some r => reconcile (our_delivered ps counters) r
  | None => our_delivered ps counters
  end.
Definition new_units (ps : PeerSession.t) (counters : Counters.t) : Z :=
  sat_sub_u64 (billable ps counters) (PeerSession.billed_units ps).
Definition interval_cost (price : Price.t) (ps : PeerSession.t) (counters : Counters.t) (now : Z)
    : Z :=
  Price.cost_scaled price (Millis.since now (PeerSession.last_meter_at ps))
    (new_units ps counters).

(** Integer comparison of the drift against the tolerance, in [u128]. *)
Definition drift_over (policy : MeteringPolicy.t) (ours r : Z) : bool :=
  (0 <? ours) && (ours * MeteringPolicy.tolerance_bps policy <? abs_diff ours r * 10000).

(** Bill the increment and record the reading. *)
Definition charge_interval (price : Price.t) (counters : Counters.t) (now : Z)
    (ps : PeerSession.t) : PeerSession.t :=
  let cost := interval_cost price ps counters now in
  let bill := billable ps counters in
  let ps := PeerSession.set_billed bill ps in
  let ps := PeerSession.set_last (Some counters) now ps in
  PeerSession.set_balance (sat_sub_u64 (PeerSession.balance ps) (Z.max cost 0)) ps.

(** The drift streak and its warning. *)
Definition check_drift (policy : MeteringPolicy.t) (peer : PeerId) (ours : Z)
    (ps : PeerSession.t) : PeerSession.t * list Action.t :=
  match peer_received ps with
  | Some r =>
      if drift_over policy ours r then
        (PeerSession.set_streak (sat_add_u8 (PeerSession.over_tolerance_streak ps) 1) ps,
         [Action.Send peer (Reject.encode
            (Reject.new MessageType.MeteringReport RejectReason.TransitLossToleranceExceeded))])
      else (PeerSession.set_streak 0 ps, [])
  | None => (ps, [])
  end.

(** Suspension after exhaustion or persistent drift. *)
Definition cut_off (policy : MeteringPolicy.t) (peer : PeerId) (charging : bool)
    (ps : PeerSession.t) : PeerSession.t * list Action.t :=
  let exhausted := charging && (PeerSession.balance ps =? 0) in
  let drift_persisted :=
    MeteringPolicy.max_streak policy <=? PeerSession.over_tolerance_streak ps in
  if exhausted || drift_persisted then
    (PeerSession.set_phase PeerPhase.Suspended ps,
     (if exhausted then
        [Action.Send peer (Reject.encode
           (Reject.new MessageType.MeteringReport RejectReason.BalanceVerificationFailed))]
      else []) ++
     [Action.SetAccess peer AccessLevel.Suspended; Action.StopMetering peer])
  else (ps, []).

Definition meter_interval (price : Price.t) (policy : MeteringPolicy.t) (peer : PeerId)
    (counters : Counters.t) (now : Z) (ps : PeerSession.t)
    : PeerSession.t * list Action.t :=
  let delivered := our_delivered ps counters in
  let received := our_received ps counters in
  let charging := 0 <? interval_cost price ps counters now in
  let ps := charge_interval price counters now ps in
  let '(ps, warn) := check_drift policy peer delivered ps in
  let report :=
    Action.Send peer (MeteringReport.encode
      (MeteringReport.new (Millis.since now (PeerSession.metering_start ps)) delivered received)) in
  let '(ps, cut) := cut_off policy peer charging ps in
  (ps, warn ++ [report] ++ cut).

Definition on_meter_sample (peer : PeerId) (counters : Counters.t) (now : Z) (s : t)
    : t * list Action.t :=
  with_peer peer (fun ps =>
    if decide (PeerSession.phase ps = PeerPhase.Active) then
      match PeerSession.last_counters ps with
      | None => (PeerSession.reset_metering counters now ps, [])
      | Some _ => meter_interval (price s) (policy s) peer counters now ps
      end
    else (ps, [])) s.

Definition handle (event : Event.t) (now : Z) (s : t) : t * list Action.t :=
  match event with
  | Event.PeerConnected peer => on_peer_connected peer s
  | Event.MessageReceived peer msg => on_message peer msg s
  | Event.BootstrapVerified peer amount verified => on_bootstrap_verified peer amount verified now s
  | Event.MeterSample peer counters => on_meter_sample peer counters now s
  | Event.PeerDisconnected peer => tear_down peer s
  | Event.Tick => (s, [])
  end.
End handle.

(** ** Inspection *)

Definition peer_count (s : t) : nat := size (peers s).
Definition peer_phase (s : t) (peer : PeerId) : option PeerPhase.t :=
  PeerSession.phase <$> (peers s !! peer).

Definition snapshot_peer (peer : PeerId) (s : PeerSession.t) : PeerSnapshot.t :=
  let '(delivered, received, metering_start) :=
    match PeerSession.last_counters s with
    | Some c => (our_delivered s c, our_received s c, Some (PeerSession.metering_start s))
    | None => (0, 0, None)
    end in
  let drift :=
    match PeerSession.peer_report s with
    | Some r => if 0 <? delivered
                then Some (f64_ratio (abs_diff delivered (Counters.received r)) delivered)
                else None
    | None => None
    end in
  PeerSnapshot.mk peer (PeerSession.phase s) (as_i64 (PeerSession.balance s))
    delivered received metering_start drift.

Definition snapshot (s : t) : list PeerSnapshot.t :=
  (fun '(peer, ps) => snapshot_peer peer ps) <$> btree_iter PublicKey.le (peers s).
End Session.
