(* ===== verification/SessionFacts.v ===== *)
(** * Theorems about the session state machine

    The definitions are those of [Session.v]. This file adds the host's view of
    the actions (which access rule is installed, who is metered), reachability
    over event traces, the ledgers the accounting theorems are stated with, and
    the properties themselves. *)

From S2P Require Import Prelude F64 Wire Pricing Session.
Import Session.

(** ** Whom an event is about *)

Definition event_peer (e : Event.t) : option PeerId :=
  match e with
  | Event.PeerConnected p | Event.PeerDisconnected p | Event.MessageReceived p _
  | Event.MeterSample p _ | Event.BootstrapVerified p _ _ => Some p
  | Event.Tick => None
  end.

Definition action_peer (a : Action.t) : PeerId :=
  match a with
  | Action.Send p _ | Action.SetAccess p _ | Action.VerifyBootstrapToken p _
  | Action.StartMetering p | Action.StopMetering p | Action.Disconnect p => p
  end.

(** ** The host's view: what the emitted actions leave installed *)

Module Host.
Record t : Set := mk { access : gmap PeerId AccessLevel.t; metered : gset PeerId }.
Definition new : t := mk ∅ ∅.

Definition apply (h : t) (a : Action.t) : t :=
  match a with
  | Action.SetAccess p l => mk (<[p := l]> (access h)) (metered h)
  | Action.StartMetering p => mk (access h) ({[p]} ∪ metered h)
  | Action.StopMetering p => mk (access h) (metered h ∖ {[p]})
  | _ => h
  end.
Definition apply_all (h : t) (acts : list Action.t) : t := foldl apply h acts.
End Host.

(** An event with the host's timestamp. *)
Abbreviation stamped := (Event.t * Z)%type.

Section facts.
Context `{Minicbor}.

Definition step (s : t) (i : stamped) : t * list Action.t := handle i.1 i.2 s.

(** The states a node and its host reach, with the trace that led there. *)
Inductive reachable (price : Price.t) (policy : MeteringPolicy.t)
    : list stamped -> t -> Host.t -> Prop :=
| reach_new : reachable price policy [] (mk ∅ price policy) Host.new
| reach_step evs s h e now :
    reachable price policy evs s h ->
    reachable price policy (evs ++ [(e, now)]) (handle e now s).1
      (Host.apply_all h (handle e now s).2).

(** The session restricted to one peer. *)
Definition alone (p : PeerId) (s : t) : t :=
  mk (match peers s !! p with Some ps => {[p := ps]} | None => ∅ end) (price s) (policy s).

(** ** Structure of the handlers *)

Lemma with_peer_some p f s ps :
  peers s !! p = Some ps ->
  with_peer p f s = (set_peers (<[p := (f ps).1]> (peers s)) s, (f ps).2).
Proof. intros E. unfold with_peer. rewrite E. by destruct (f ps). Qed.

Lemma with_peer_none p f s : peers s !! p = None -> with_peer p f s = (s, []).
Proof. intros E. unfold with_peer. by rewrite E. Qed.

(** Two functions of the session that agree on peer [p]'s entry and on nothing
    else: [handle] factors through them. *)
Definition local_at (p : PeerId) (f : t -> t * list Action.t) : Prop :=
  forall s, f s =
    let g := f (alone p s) in
    (mk (partial_alter (fun _ => peers g.1 !! p) p (peers s)) (price s) (policy s), g.2).

Lemma alone_lookup p s : peers (alone p s) !! p = peers s !! p.
Proof. unfold alone. simpl. destruct (peers s !! p); by simplify_map_eq. Qed.

Lemma session_eta s : mk (peers s) (price s) (policy s) = s.
Proof. by destruct s. Qed.

Lemma local_id p : local_at p (fun s => (s, [])).
Proof.
  intros s. cbn -[alone]. rewrite alone_lookup, partial_alter_self. by rewrite session_eta.
Qed.

Lemma local_with_peer p F :
  local_at p (fun s => with_peer p (F (price s) (policy s)) s).
Proof.
  intros s. destruct (peers s !! p) as [ps|] eqn:E.
  - rewrite (with_peer_some _ _ (alone p s) ps), (with_peer_some _ _ s ps)
      by (by rewrite ?alone_lookup). cbn. by rewrite lookup_insert_eq.
  - rewrite (with_peer_none _ _ (alone p s)), (with_peer_none _ _ s)
      by (by rewrite ?alone_lookup).
    cbn -[alone]. by rewrite alone_lookup, partial_alter_self, session_eta.
Qed.

Lemma tear_down_eq p s :
  tear_down p s = (set_peers (delete p (peers s)) s,
    [Action.SetAccess p AccessLevel.None; Action.StopMetering p]).
Proof.
  unfold tear_down, with_peer, set_peers.
  destruct (peers s !! p); simpl; [by rewrite delete_insert_eq|done].
Qed.

Lemma local_tear_down p : local_at p (tear_down p).
Proof.
  intros s. rewrite !tear_down_eq. cbn -[alone]. by rewrite lookup_delete_eq.
Qed.

Lemma local_connected p : local_at p (on_peer_connected p).
Proof.
  intros s. unfold on_peer_connected. rewrite alone_lookup.
  destruct (peers s !! p) as [ps|] eqn:E; cbn -[alone].
  - by rewrite alone_lookup, partial_alter_self, session_eta.
  - by rewrite lookup_insert_eq.
Qed.

(** Every event is local to its peer. *)
Lemma handle_local e now p : event_peer e = Some p -> local_at p (handle e now).
Proof.
  destruct e as [q|q|q m|q c|q a v|]; simpl; intros [= ->].
  - apply local_connected.
  - apply local_tear_down.
  - unfold handle, on_message.
    destruct (peek_type m) as [[]|]; try apply local_id;
      unfold on_bootstrap_token, on_reject, on_disconnect, on_price_sheet, on_accept,
        on_metering_report; case_match; try apply local_id; try apply local_tear_down;
      apply (local_with_peer p (fun _ _ => _)).
  - apply (local_with_peer p (fun pr po ps =>
      if decide (PeerSession.phase ps = PeerPhase.Active) then
        match PeerSession.last_counters ps with
        | None => (PeerSession.reset_metering c now ps, [])
        | Some _ => meter_interval pr po p c now ps
        end
      else (ps, []))).
  - apply (local_with_peer p (fun _ _ => _)).
Qed.

Lemma handle_lookup_ne e now p q s :
  event_peer e = Some p -> q <> p -> peers (handle e now s).1 !! q = peers s !! q.
Proof.
  intros He Hne. rewrite (handle_local e now p He s). cbn.
  by rewrite lookup_partial_alter_ne.
Qed.

Lemma handle_config e now s :
  price (handle e now s).1 = price s /\ policy (handle e now s).1 = policy s.
Proof.
  destruct (event_peer e) as [p|] eqn:E.
  - by rewrite (handle_local e now p E s).
  - by destruct e.
Qed.

(** Two sessions that agree on peer [p] react alike to an event about [p]. *)
Lemma handle_agree e now p s1 s2 :
  event_peer e = Some p -> price s1 = price s2 -> policy s1 = policy s2 ->
  peers s1 !! p = peers s2 !! p ->
  peers (handle e now s1).1 !! p = peers (handle e now s2).1 !! p /\
  (handle e now s1).2 = (handle e now s2).2.
Proof.
  intros He Hpr Hpo El.
  rewrite (handle_local e now p He s1), (handle_local e now p He s2). cbn.
  rewrite !lookup_partial_alter_eq.
  assert (alone p s1 = alone p s2) as -> by (unfold alone; by rewrite Hpr, Hpo, El).
  done.
Qed.

(** ** The shape of each arm at its own peer *)

Lemma handle_unknown e now p s :
  event_peer e = Some p -> peers s !! p = None ->
  match e with
  | Event.PeerConnected _ =>
      handle e now s = (set_peers (<[p := PeerSession.new]> (peers s)) s,
                        [Action.SetAccess p AccessLevel.None])
  | Event.PeerDisconnected _ | Event.MessageReceived _ _ =>
      (handle e now s).1 = s /\
      ((handle e now s).2 = [] \/
       (handle e now s).2 = [Action.SetAccess p AccessLevel.None; Action.StopMetering p])
  | _ => handle e now s = (s, [])
  end.
Proof.
  intros He El.
  assert (tear_down p s = (s, [Action.SetAccess p AccessLevel.None; Action.StopMetering p])) as Ht.
  { rewrite tear_down_eq, delete_id by done. unfold set_peers. by rewrite session_eta. }
  destruct e as [q|q|q m|q c|q a v|]; simpl in He; try discriminate; injection He as ->;
    cbn [handle].
  - unfold on_peer_connected. by rewrite El.
  - rewrite Ht. auto.
  - unfold on_message.
    destruct (peek_type m) as [[]|]; auto;
      unfold on_bootstrap_token, on_reject, on_disconnect, on_price_sheet, on_accept,
        on_metering_report; case_match; auto; rewrite ?Ht, ?(with_peer_none p) by done; auto.
  - apply with_peer_none; done.
  - apply with_peer_none; done.
Qed.

(** What an event may do to a known peer's session: the lifecycle as a step
    relation. [tr_quiet] touches nothing that access or billing depends on. *)
Definition inert (ps ps' : PeerSession.t) : Prop :=
  PeerSession.phase ps' = PeerSession.phase ps /\
  PeerSession.balance ps' = PeerSession.balance ps /\
  PeerSession.last_counters ps' = PeerSession.last_counters ps /\
  PeerSession.last_meter_at ps' = PeerSession.last_meter_at ps /\
  PeerSession.metering_baseline ps' = PeerSession.metering_baseline ps /\
  PeerSession.billed_units ps' = PeerSession.billed_units ps /\
  PeerSession.over_tolerance_streak ps' = PeerSession.over_tolerance_streak ps.

Inductive peer_tr (price : Price.t) (policy : MeteringPolicy.t) (p : PeerId) (now : Z)
    (ps : PeerSession.t) : Event.t -> option PeerSession.t -> list Action.t -> Prop :=
| tr_quiet e ps' :
    (forall c, e <> Event.MeterSample p c) \/ PeerSession.phase ps <> PeerPhase.Active ->
    (forall a v, e <> Event.BootstrapVerified p a v) -> e <> Event.PeerDisconnected p ->
    inert ps ps' -> peer_tr price policy p now ps e (Some ps') []
| tr_token msg token :
    peer_tr price policy p now ps (Event.MessageReceived p msg)
      (Some (PeerSession.set_phase PeerPhase.BootstrapPending ps))
      [Action.VerifyBootstrapToken p token]
| tr_reject msg :
    PeerSession.phase ps <> PeerPhase.Closed ->
    peer_tr price policy p now ps (Event.MessageReceived p msg)
      (Some (PeerSession.set_phase PeerPhase.New ps))
      (if bool_decide (PeerSession.phase ps = PeerPhase.Active)
       then [Action.SetAccess p AccessLevel.None; Action.StopMetering p] else [])
| tr_close e :
    (forall c, e <> Event.MeterSample p c) -> (forall a v, e <> Event.BootstrapVerified p a v) ->
    peer_tr price policy p now ps e None
      [Action.SetAccess p AccessLevel.None; Action.StopMetering p]
| tr_ok amount :
    peer_tr price policy p now ps (Event.BootstrapVerified p amount true)
      (Some (verified_ok p amount now ps).1) (verified_ok p amount now ps).2
| tr_err amount :
    peer_tr price policy p now ps (Event.BootstrapVerified p amount false)
      (Some (verified_err p ps).1) (verified_err p ps).2
| tr_baseline c :
    PeerSession.phase ps = PeerPhase.Active -> PeerSession.last_counters ps = None ->
    peer_tr price policy p now ps (Event.MeterSample p c)
      (Some (PeerSession.reset_metering c now ps)) []
| tr_meter c last :
    PeerSession.phase ps = PeerPhase.Active -> PeerSession.last_counters ps = Some last ->
    peer_tr price policy p now ps (Event.MeterSample p c)
      (Some (meter_interval price policy p c now ps).1)
      (meter_interval price policy p c now ps).2.

Lemma handle_message_tr p msg now s ps :
  peers s !! p = Some ps ->
  peer_tr (price s) (policy s) p now ps (Event.MessageReceived p msg)
    (peers (on_message p msg s).1 !! p) (on_message p msg s).2.
Proof.
  intros El.
  assert (peer_tr (price s) (policy s) p now ps (Event.MessageReceived p msg)
    (peers s !! p) []) as Hq.
  { rewrite El. apply tr_quiet; [by left|done|done|done]. }
  unfold on_message. destruct (peek_type msg) as [[]|]; try exact Hq;
    unfold on_bootstrap_token, on_reject, on_disconnect, on_price_sheet, on_accept,
      on_metering_report; case_match; try exact Hq;
    rewrite ?tear_down_eq, ?(with_peer_some _ _ _ _ El); cbn;
    rewrite ?lookup_delete_eq, ?lookup_insert_eq;
    try (apply tr_quiet; [by left|done|done|by repeat split]).
  - apply tr_token.
  - case_decide; cbn; [by apply tr_reject|]. apply tr_quiet; [by left|done|done|by repeat split].
  - by apply tr_close.
Qed.

(** Every event about a known peer is one of the steps above. *)
Lemma handle_known e now p s ps :
  event_peer e = Some p -> peers s !! p = Some ps ->
  peer_tr (price s) (policy s) p now ps e
    (peers (handle e now s).1 !! p) (handle e now s).2.
Proof.
  intros He El.
  destruct e as [q|q|q m|q c|q a v|]; simpl in He; try discriminate; injection He as ->;
    cbn [handle].
  - unfold on_peer_connected. rewrite El. cbn. rewrite El. apply tr_quiet; [by left|done|done|done].
  - rewrite tear_down_eq. cbn. rewrite lookup_delete_eq. by apply tr_close.
  - by apply handle_message_tr.
  - unfold on_meter_sample. rewrite (with_peer_some _ _ _ _ El). cbn.
    rewrite lookup_insert_eq. case_decide as Ha.
    + destruct (PeerSession.last_counters ps) eqn:Hl; cbn;
        [by eapply tr_meter|by apply tr_baseline].
    + apply tr_quiet; [by right|done|done|done].
  - unfold on_bootstrap_verified. rewrite (with_peer_some _ _ _ _ El). cbn.
    rewrite lookup_insert_eq. destruct v; constructor.
Qed.

(** The phase one metered interval leaves, and the access decision it sends. *)
Lemma meter_interval_phase pr po p c now ps :
  PeerSession.phase ps = PeerPhase.Active ->
  let r := meter_interval pr po p c now ps in
  (PeerSession.phase r.1 = PeerPhase.Active /\
     exists sent, r.2 = sent /\ Forall (fun a => exists m, a = Action.Send p m) sent) \/
  (PeerSession.phase r.1 = PeerPhase.Suspended /\
     exists sent, r.2 = sent ++ [Action.SetAccess p AccessLevel.Suspended; Action.StopMetering p] /\
       Forall (fun a => exists m, a = Action.Send p m) sent).
Proof.
  intros Ha r. subst r. unfold meter_interval, check_drift.
  set (ps1 := charge_interval _ _ _ _).
  assert (PeerSession.phase ps1 = PeerPhase.Active) as H1 by done.
  assert (forall warn ps2, PeerSession.phase ps2 = PeerPhase.Active ->
    Forall (fun a => exists m, a = Action.Send p m) warn ->
    forall rep ch, let r := let '(ps3, cut) := cut_off po p ch ps2 in
      (ps3, warn ++ [Action.Send p rep] ++ cut) in
    (PeerSession.phase r.1 = PeerPhase.Active /\
       exists sent, r.2 = sent /\ Forall (fun a => exists m, a = Action.Send p m) sent) \/
    (PeerSession.phase r.1 = PeerPhase.Suspended /\
       exists sent, r.2 = sent ++ [Action.SetAccess p AccessLevel.Suspended; Action.StopMetering p] /\
         Forall (fun a => exists m, a = Action.Send p m) sent)) as K.
  { intros warn ps2 H2 Hw rep ch. unfold cut_off.
    destruct (ch && _) eqn:Ex; simpl; [|destruct (_ <=? _); simpl].
    - right. split; [done|].
      exists (warn ++ [Action.Send p rep] ++ [Action.Send p (Reject.encode
        (Reject.new MessageType.MeteringReport RejectReason.BalanceVerificationFailed))]).
      rewrite <- !(assoc_L (++)). split; [done|].
      apply Forall_app. split; [done|]. repeat constructor; eauto.
    - right. split; [done|]. exists (warn ++ [Action.Send p rep]).
      rewrite <- !(assoc_L (++)). split; [done|].
      apply Forall_app. split; [done|]. repeat constructor; eauto.
    - left. split; [done|]. eexists. split; [done|].
      apply Forall_app. split; [done|]. repeat constructor; eauto. }
  destruct (peer_received ps1); [destruct (drift_over _ _ _)|]; apply K;
    repeat constructor; eauto.
Qed.

(** ** The access invariant *)

(** A verified payment for [p] with no disconnect and no failed verification since. *)
Definition paid_since (evs : list stamped) (p : PeerId) : Prop :=
  exists pre amount t post,
    evs = pre ++ (Event.BootstrapVerified p amount true, t) :: post /\
    Forall (fun i : stamped => i.1 <> Event.PeerDisconnected p /\
      forall a, i.1 <> Event.BootstrapVerified p a false) post.

Definition access_inv (evs : list stamped) (p : PeerId) (o : option PeerSession.t) (h : Host.t)
    : Prop :=
  (Host.access h !! p = Some AccessLevel.Active -> paid_since evs p) /\
  Host.access h !! p <> Some AccessLevel.ZeroPrice /\
  match o with
  | None =>
      (Host.access h !! p = None \/ Host.access h !! p = Some AccessLevel.None) /\
      p ∉ Host.metered h
  | Some ps =>
      PeerSession.phase ps <> PeerPhase.Closed /\
      (PeerSession.phase ps = PeerPhase.Active ->
         Host.access h !! p = Some AccessLevel.Active /\ p ∈ Host.metered h) /\
      (PeerSession.phase ps = PeerPhase.Suspended ->
         Host.access h !! p = Some AccessLevel.Suspended /\ p ∉ Host.metered h)
  end.

Lemma paid_since_extend evs p e now :
  paid_since evs p -> e <> Event.PeerDisconnected p ->
  (forall a, e <> Event.BootstrapVerified p a false) ->
  paid_since (evs ++ [(e, now)]) p.
Proof.
  intros (pre & a & t & post & -> & Hp) H1 H2. exists pre, a, t, (post ++ [(e, now)]).
  rewrite <- (assoc_L (++)). split; [done|]. apply Forall_app. split; [done|].
  by repeat constructor.
Qed.

Lemma paid_now evs p amount now :
  paid_since (evs ++ [(Event.BootstrapVerified p amount true, now)]) p.
Proof. by exists evs, amount, now, []. Qed.

Lemma apply_sends p sent h :
  Forall (fun a => exists m, a = Action.Send p m) sent -> Host.apply_all h sent = h.
Proof. induction 1 as [|a sent [m ->] _ IH]; [done|exact IH]. Qed.

Lemma apply_all_app h a1 a2 :
  Host.apply_all h (a1 ++ a2) = Host.apply_all (Host.apply_all h a1) a2.
Proof. apply foldl_app. Qed.

(** Actions on other peers leave [p]'s rule and meter alone. *)
Lemma apply_all_ne p acts h :
  Forall (fun a => action_peer a <> p) acts ->
  Host.access (Host.apply_all h acts) !! p = Host.access h !! p /\
  (p ∈ Host.metered (Host.apply_all h acts) <-> p ∈ Host.metered h).
Proof.
  intros Ha. revert h. induction Ha as [|a acts Hne _ IH]; intros h; [done|].
  change (Host.apply_all h (a :: acts)) with (Host.apply_all (Host.apply h a) acts).
  destruct (IH (Host.apply h a)) as [-> ->].
  destruct a; simpl in *; rewrite ?lookup_insert_ne by done; clear IH; set_solver.
Qed.

(** The actions of an event are all about the event's peer. *)
Lemma handle_targets e now p s :
  event_peer e = Some p -> Forall (fun a => action_peer a = p) (handle e now s).2.
Proof.
  intros He. destruct (peers s !! p) as [ps|] eqn:El.
  - destruct (handle_known e now p s ps He El) as
      [| | |? | | | |? ? Ha]; try (repeat constructor; fail);
      try (case_match; repeat constructor; fail).
    destruct (meter_interval_phase (price s) (policy s) p c now ps Ha)
      as [(_ & sent & -> & Hs)|(_ & sent & -> & Hs)];
      rewrite ?Forall_app; split_and?; try (eapply Forall_impl; [exact Hs|]; by intros ? [? ->]);
      repeat constructor.
  - pose proof (handle_unknown e now p s He El) as Hu.
    destruct e; try (rewrite Hu; repeat constructor; fail);
      try (destruct Hu as [_ [-> | ->]]; repeat constructor; fail).
Qed.

Lemma verified_ok_phase p amount now ps :
  PeerSession.phase (verified_ok p amount now ps).1 = PeerPhase.Active.
Proof. unfold verified_ok. cbn. by destruct (negb _). Qed.

Lemma access_inv_other evs e now p q s h :
  event_peer e = Some q -> q <> p ->
  access_inv evs p (peers s !! p) h ->
  access_inv (evs ++ [(e, now)]) p (peers (handle e now s).1 !! p)
    (Host.apply_all h (handle e now s).2).
Proof.
  intros He Hne (I1 & I2 & I3).
  assert (Forall (fun a => action_peer a <> p) (handle e now s).2) as Ht.
  { eapply Forall_impl; [by apply (handle_targets e now q)|]. by intros a ->. }
  destruct (apply_all_ne p _ h Ht) as [Ea Em].
  rewrite (handle_lookup_ne e now q) by done. unfold access_inv. rewrite Ea.
  split_and!; [|done|].
  - intros Hx. apply paid_since_extend; [auto|..]; intros; destruct e; simpl in *; congruence.
  - destruct (peers s !! p); by rewrite Em.
Qed.

(** The invariant's step at the event's own peer, known peer. *)
Lemma access_inv_known pr po evs e now p ps o acts h :
  peer_tr pr po p now ps e o acts -> access_inv evs p (Some ps) h ->
  access_inv (evs ++ [(e, now)]) p o (Host.apply_all h acts).
Proof.
  intros Htr (I1 & I2 & I3 & I4 & I5).
  assert ((forall a, e <> Event.BootstrapVerified p a false) -> e <> Event.PeerDisconnected p ->
    Host.access h !! p = Some AccessLevel.Active -> paid_since (evs ++ [(e, now)]) p) as Hext
    by (intros; apply paid_since_extend; auto).
  unfold access_inv.
  destruct Htr as [e ps' _ Hv Hd (Eph & _)|msg tok|msg|e Hv|amount|amount|c Ha Hl|c l Ha Hl].
  - split_and!; [intros; apply Hext; auto|done|rewrite Eph; auto..].
  - cbn. split_and!; [intros; apply Hext; auto|done|done|done|done].
  - case_bool_decide; cbn; [|split_and!; [intros; apply Hext; auto|done..]].
    rewrite !lookup_insert_eq. by split_and!.
  - cbn. rewrite lookup_insert_eq. split_and!; [done|done|by right|set_solver].
  - pose proof (verified_ok_phase p amount now ps) as Eph.
    set (ps' := (verified_ok p amount now ps).1) in *. clearbody ps'. cbn.
    rewrite lookup_insert_eq, Eph. split_and!; [intros _; apply paid_now|done|done| |done].
    intros _. split; [done|set_solver].
  - cbn. rewrite lookup_insert_eq. by split_and!.
  - cbn. split_and!; [intros; apply Hext; auto|done|by rewrite Ha|auto|by rewrite Ha].
  - destruct (meter_interval_phase pr po p c now ps Ha)
      as [(Eph & sent & -> & Hs)|(Eph & sent & -> & Hs)]; rewrite ?apply_all_app;
      rewrite (apply_sends p sent h Hs); unfold access_inv; rewrite Eph.
    + split_and!; [intros; apply Hext; auto|done|done|auto|done].
    + cbn. rewrite lookup_insert_eq. split_and!; [done|done|done|done|].
      intros _. split; [done|set_solver].
Qed.

Lemma access_inv_unknown evs e now p s h :
  event_peer e = Some p -> peers s !! p = None -> access_inv evs p None h ->
  access_inv (evs ++ [(e, now)]) p (peers (handle e now s).1 !! p)
    (Host.apply_all h (handle e now s).2).
Proof.
  intros He El (I1 & I2 & I3 & I4). pose proof (handle_unknown e now p s He El) as Hu.
  assert (Host.access h !! p <> Some AccessLevel.Active) as Hna by (destruct I3 as [-> | ->]; done).
  assert (access_inv (evs ++ [(e, now)]) p None h) as K by (by split_and!).
  assert (access_inv (evs ++ [(e, now)]) p None (Host.apply_all h
    [Action.SetAccess p AccessLevel.None; Action.StopMetering p])) as K'.
  { cbn. unfold access_inv. cbn. rewrite lookup_insert_eq. split_and!; [done|done|auto|set_solver]. }
  destruct e; try discriminate;
    try (destruct Hu as [-> [-> | ->]]; rewrite El; done);
    try (rewrite Hu; cbn; rewrite El; done).
  rewrite Hu. simpl in He. injection He as ->. cbn. rewrite lookup_insert_eq.
  unfold access_inv. cbn. rewrite lookup_insert_eq. by split_and!.
Qed.

Lemma reachable_access_inv pr po evs s h p :
  reachable pr po evs s h -> access_inv evs p (peers s !! p) h.
Proof.
  induction 1 as [|evs s h e now _ IH].
  - unfold access_inv; cbn. rewrite !lookup_empty. split_and!; [done|done|by left|set_solver].
  - destruct (event_peer e) as [q|] eqn:He; [destruct (decide (q = p)) as [->|Hne]|].
    + destruct (peers s !! p) as [ps|] eqn:El.
      * eapply access_inv_known; [by apply handle_known|done].
      * by apply access_inv_unknown.
    + by apply (access_inv_other evs e now p q).
    + destruct e; try discriminate. cbn. destruct IH as (I1 & I2 & I3).
      split_and!; [|done..]. intros Hx. apply paid_since_extend; auto.
Qed.
End facts.
