(* ===== verification/SessionProps.v ===== *)
(** * Properties of the session state machine

    Access control, accounting and isolation, for every trace of events. The
    ledgers are functions of the trace: what was credited, debited and forfeited,
    how many units were billed. *)

From S2P Require Import Prelude F64 Wire ToyCodec Pricing Session SessionFacts.
Import Session.

Section ledgers.
Context `{Minicbor}.

(** [f] summed along a run, evaluated in the state each event meets. *)
Fixpoint sum_over (f : t -> stamped -> Z) (s : t) (evs : list stamped) : Z :=
  match evs with
  | [] => 0
  | i :: evs => f s i + sum_over f (step s i).1 evs
  end.

Definition balance_of (p : PeerId) (s : t) : Z :=
  map_or (peers s !! p) 0 PeerSession.balance.
Definition billed_of (p : PeerId) (s : t) : Z :=
  map_or (peers s !! p) 0 PeerSession.billed_units.
Definition metered_at (p : PeerId) (s : t) : Z :=
  map_or (peers s !! p) 0 PeerSession.last_meter_at.

(** [p] is [Active] with a baseline: its next sample is billed. *)
Definition metering (ps : PeerSession.t) : bool :=
  bool_decide (PeerSession.phase ps = PeerPhase.Active) && is_some (PeerSession.last_counters ps).

(** [f] of the session a sample is billed against, for samples of [p] only. *)
Definition at_sample (f : Price.t -> PeerSession.t -> Counters.t -> Z -> Z) (p : PeerId)
    (s : t) (i : stamped) : Z :=
  match i.1, peers s !! p with
  | Event.MeterSample q c, Some ps =>
      if bool_decide (q = p) && metering ps then f (price s) ps c i.2 else 0
  | _, _ => 0
  end.

(** Top-up: the verified amount, less what saturates at the top of [u64]. *)
Definition credit (p : PeerId) (s : t) (i : stamped) : Z :=
  match i.1, peers s !! p with
  | Event.BootstrapVerified q a true, Some ps =>
      if bool_decide (q = p) then Z.min a (U64_MAX - PeerSession.balance ps) else 0
  | _, _ => 0
  end.
Definition verified_amount (p : PeerId) (s : t) (i : stamped) : Z :=
  match i.1 with
  | Event.BootstrapVerified q a true => if bool_decide (q = p) then a else 0
  | _ => 0
  end.

(** Charge: the cost of the interval, when positive, as far as the balance goes. *)
Definition debit : PeerId -> t -> stamped -> Z :=
  at_sample (fun pr ps c now =>
    Z.min (PeerSession.balance ps) (Z.max 0 (interval_cost pr ps c now))).

(** The balance dropped when the peer is torn down. *)
Definition forfeit (p : PeerId) (s : t) (i : stamped) : Z :=
  if is_some (peers (step s i).1 !! p) then 0 else balance_of p s.

(** Units billed by a sample, and units the sample un-bills because the billable
    total went down. *)
Definition units_billed : PeerId -> t -> stamped -> Z :=
  at_sample (fun _ ps c _ => new_units ps c).
Definition units_regressed : PeerId -> t -> stamped -> Z :=
  at_sample (fun _ ps c _ => Z.max 0 (PeerSession.billed_units ps - billable ps c)).
Definition time_billed : PeerId -> t -> stamped -> Z :=
  at_sample (fun _ ps _ now => Millis.since now (PeerSession.last_meter_at ps)).
Definition time_regressed : PeerId -> t -> stamped -> Z :=
  at_sample (fun _ ps _ now => Z.max 0 (PeerSession.last_meter_at ps - now)).

(** Every event of the run meets [p] metered. *)
Fixpoint metered_run (p : PeerId) (s : t) (evs : list stamped) : bool :=
  match evs with
  | [] => true
  | i :: evs => map_or (peers s !! p) false metering && metered_run p (step s i).1 evs
  end.

Definition about (p : PeerId) (i : stamped) : bool := bool_decide (event_peer i.1 = Some p).
Definition targets (p : PeerId) (a : Action.t) : bool := bool_decide (action_peer a = p).

(** ** Lemmas *)

Lemma sum_over_ext (f g : t -> stamped -> Z) s evs :
  (forall s i, f s i = g s i) -> sum_over f s evs = sum_over g s evs.
Proof. intros E. revert s. induction evs as [|i evs IH]; intros s; simpl; [done|by rewrite E, IH]. Qed.

Lemma sum_over_le (f g : t -> stamped -> Z) s evs :
  (forall s i, In i evs -> f s i <= g s i) -> sum_over f s evs <= sum_over g s evs.
Proof.
  revert s. induction evs as [|i evs IH]; intros s Hle; simpl; [lia|].
  pose proof (Hle s i (or_introl eq_refl)). pose proof (IH (step s i).1 (fun s i Hi => Hle s i (or_intror Hi))).
  lia.
Qed.

Lemma run_cons_fst s i evs : (run step s (i :: evs)).1 = (run step (step s i).1 evs).1.
Proof. simpl. destruct (step s i) as [s1 o1]. simpl. by destruct (run step s1 evs). Qed.

Lemma run_cons_snd s i evs :
  (run step s (i :: evs)).2 = (step s i).2 ++ (run step (step s i).1 evs).2.
Proof. simpl. destruct (step s i) as [s1 o1]. simpl. by destruct (run step s1 evs). Qed.

(** A quantity that each step changes by [f] changes by the sum of [f] over a run. *)
Lemma sum_over_telescope (m : t -> Z) (f : t -> stamped -> Z) s evs :
  (forall s i, m (step s i).1 = m s + f s i) ->
  m (run step s evs).1 = m s + sum_over f s evs.
Proof.
  intros Hstep. revert s. induction evs as [|i evs IH]; intros s; [simpl; lia|].
  rewrite run_cons_fst, IH, Hstep. simpl. lia.
Qed.

(** What one metered interval does to the accounting fields. *)
Lemma meter_interval_fields pr po p c now ps :
  let ps' := (meter_interval pr po p c now ps).1 in
  PeerSession.balance ps' =
    PeerSession.balance ps - Z.min (PeerSession.balance ps) (Z.max 0 (interval_cost pr ps c now)) /\
  PeerSession.billed_units ps' = billable ps c /\
  PeerSession.last_meter_at ps' = now /\
  PeerSession.last_counters ps' = Some c.
Proof.
  cbv zeta. unfold meter_interval.
  assert (forall ps1, PeerSession.billed_units ps1 = billable ps c ->
    PeerSession.last_meter_at ps1 = now -> PeerSession.last_counters ps1 = Some c ->
    forall b, PeerSession.balance ps1 = b -> forall warn rep ch,
    let ps2 := (let '(ps3, cut) := cut_off po p ch ps1 in (ps3, warn ++ rep ++ cut)).1 in
    PeerSession.balance ps2 = b /\ PeerSession.billed_units ps2 = billable ps c /\
    PeerSession.last_meter_at ps2 = now /\ PeerSession.last_counters ps2 = Some c) as K.
  { intros ps1 H1 H2 H3 b H4 warn rep ch. unfold cut_off. by destruct (_ || _). }
  set (b := PeerSession.balance ps - _).
  assert (PeerSession.balance (charge_interval pr c now ps) = b) as Eb.
  { unfold b. cbn. ints. }
  unfold check_drift.
  destruct (peer_received _); [destruct (drift_over _ _ _)|]; by apply K.
Qed.

Lemma at_sample_unknown f p s i : peers s !! p = None -> at_sample f p s i = 0.
Proof. intros E. unfold at_sample. rewrite E. by destruct i as [[] ?]. Qed.

Lemma at_sample_other f p s i : event_peer i.1 <> Some p -> at_sample f p s i = 0.
Proof.
  intros He. unfold at_sample. destruct i as [[] ?]; simpl in *; try done.
  destruct (peers s !! p); [|done]. by rewrite bool_decide_eq_false_2 by congruence.
Qed.

(** An event that is not about [p] leaves [p]'s entry alone. *)
Lemma step_other p s i :
  event_peer i.1 <> Some p -> peers (step s i).1 !! p = peers s !! p.
Proof.
  intros He. unfold step. destruct (event_peer i.1) as [q|] eqn:E.
  - eapply handle_lookup_ne; [exact E|]. congruence.
  - by destruct i as [[] ?].
Qed.

Lemma balance_step p s i :
  balance_of p (step s i).1 = balance_of p s + (credit p s i - debit p s i - forfeit p s i).
Proof.
  unfold debit, forfeit. destruct (decide (event_peer i.1 = Some p)) as [He|He]; cycle 1.
  { rewrite at_sample_other by done. unfold balance_of, credit. rewrite step_other by done.
    destruct i as [[] ?]; simpl in *; try (destruct (peers s !! p); simpl; lia).
    destruct verified; destruct (peers s !! p); simpl; try lia.
    rewrite bool_decide_eq_false_2 by congruence. lia. }
  destruct i as [e now]. cbn [fst] in He. unfold step. cbn [fst snd].
  destruct (peers s !! p) as [ps|] eqn:El; cycle 1.
  { unfold credit, balance_of. rewrite at_sample_unknown, El by done.
    pose proof (handle_unknown e now p s He El) as Hu.
    assert (map_or (peers (handle e now s).1 !! p) 0 PeerSession.balance = 0) as ->.
    { destruct e; simpl in He; try discriminate; injection He as ->;
        try (rewrite Hu; cbn; rewrite ?El, ?lookup_insert_eq; done);
        try (destruct Hu as [-> _]; by rewrite El). }
    simpl. destruct (is_some _); destruct e; try destruct verified; simpl; lia. }
  unfold balance_of, credit, at_sample, metering. rewrite El. cbn [map_or].
  destruct (handle_known e now p s ps He El) as
    [e ps' Hq Hv _ (Eph & Eb & _)|msg tok|msg|e Hm Hv|amount|amount|c Ha Hl|c l Ha Hl];
    cbn [map_or is_some fst snd].
  - destruct e; cbn; try lia; try (by destruct (Hv peer amount)).
    + destruct Hq as [Hq|Hq]; simpl in He; injection He as ->; [by destruct (Hq counters)|].
      rewrite (bool_decide_eq_false_2 (PeerSession.phase ps = _)) by done.
      rewrite andb_false_r. lia.
    + simpl in He. injection He as ->. by destruct (Hv amount verified).
  - cbn. lia.
  - cbn. lia.
  - destruct e; cbn; try lia; simpl in He; injection He as ->;
      [by destruct (Hm counters)|by destruct (Hv amount verified)].
  - rewrite bool_decide_eq_true_2 by done. unfold verified_ok.
    destruct (negb _); cbn; ints.
  - cbn. lia.
  - rewrite Hl, andb_false_r, andb_false_r. cbn. lia.
  - rewrite !bool_decide_eq_true_2, Hl by done. cbn [andb is_some].
    destruct (meter_interval_fields (price s) (policy s) p c now ps) as (-> & _). lia.
Qed.

(** One event met by a metered peer that it does not tear down. *)
Lemma metered_step p s i ps :
  peers s !! p = Some ps -> metering ps = true -> is_Some (peers (step s i).1 !! p) ->
  billed_of p (step s i).1 = billed_of p s + (units_billed p s i - units_regressed p s i) /\
  metered_at p (step s i).1 = metered_at p s + (time_billed p s i - time_regressed p s i).
Proof.
  intros El Hm [ps' El'].
  unfold units_billed, units_regressed, time_billed, time_regressed.
  destruct (decide (event_peer i.1 = Some p)) as [He|He]; cycle 1.
  { rewrite !at_sample_other by done. unfold billed_of, metered_at.
    rewrite step_other by done. lia. }
  destruct i as [e now]. cbn [fst] in He. unfold step in *. cbn [fst snd] in *.
  unfold billed_of, metered_at, at_sample. rewrite El', El. cbn [map_or fst snd].
  rewrite Hm. unfold metering in Hm.
  apply andb_prop in Hm as [Ha%bool_decide_eq_true_1 Hl].
  pose proof (handle_known e now p s ps He El) as Htr. rewrite El' in Htr.
  remember (Some ps') as o eqn:Eo.
  destruct Htr as [e ps'' Hq Hv _ (Eph & Eb & El1 & El2 & _ & Ebu & _)|msg tok|msg|e Hm Hv|amount|amount
    |c _ Hl'|c l _ Hl']; simplify_eq.
  - rewrite Ebu, El2. destruct Hq as [Hq|Hq]; [|done].
    destruct e; try lia. simpl in He. injection He as ->. by destruct (Hq counters).
  - cbn. lia.
  - cbn. lia.
  - unfold verified_ok. rewrite bool_decide_eq_true_2 by done. cbn. lia.
  - cbn. lia.
  - by rewrite Hl' in Hl.
  - rewrite bool_decide_eq_true_2 by done. cbn [andb].
    destruct (meter_interval_fields (price s) (policy s) p c now ps) as (_ & -> & -> & _).
    unfold new_units, Millis.since. ints.
Qed.

Lemma metered_run_cons p s i evs :
  metered_run p s (i :: evs) = true ->
  exists ps, peers s !! p = Some ps /\ metering ps = true /\
    metered_run p (step s i).1 evs = true.
Proof.
  simpl. intros [H1 H2]%andb_prop. destruct (peers s !! p) as [ps|]; [|done]. by exists ps.
Qed.
End ledgers.

(** ** A concrete node, for the witnesses *)

Definition key (n : Z) : PeerId := PublicKey.from_bytes (replicate 33 (byte_of_Z n)).
Definition alice : PeerId := key 2.
Definition bob : PeerId := key 3.

Module Demo.
#[export] Instance codec : Minicbor := Toy.toy.

Definition price1 : Price.t := Price.mk 0 1.
Definition token_msg : bytes := BootstrapToken.encode (BootstrapToken.new (as_bytes "cashuA")).
Definition report (d r : Z) : bytes := MeteringReport.encode (MeteringReport.new 1000 d r).
Definition reject_msg : bytes :=
  Reject.encode (Reject.new MessageType.PriceSheet RejectReason.PriceTooHigh).
Definition node : t := mk ∅ price1 MeteringPolicy.default.

(** Connect, pay 100, take a baseline, use 40 units, then 60 more: exhausted. *)
Definition usage : list stamped := [
  (Event.PeerConnected alice, 0);
  (Event.MessageReceived alice token_msg, 10);
  (Event.BootstrapVerified alice 100 true, 20);
  (Event.MeterSample alice (Counters.mk 1000 0), 30);
  (Event.PeerConnected bob, 35);
  (Event.MeterSample alice (Counters.mk 1040 5), 40);
  (Event.MessageReceived alice (report 5 38), 45);
  (Event.MeterSample alice (Counters.mk 1100 9), 50)].

Lemma reachable_run evs evs' s h :
  reachable price1 MeteringPolicy.default evs s h ->
  reachable price1 MeteringPolicy.default (evs ++ evs') (run step s evs').1
    (Host.apply_all h (run step s evs').2).
Proof.
  revert evs s h. induction evs' as [|[e now] evs' IH]; intros evs s h Hr.
  - by rewrite app_nil_r.
  - apply (reach_step _ _ evs s h e now) in Hr. apply IH in Hr.
    rewrite <- (assoc_L (++)) in Hr. rewrite run_cons_fst, run_cons_snd, apply_all_app.
    exact Hr.
Qed.
End Demo.

(** ** Properties *)

(** C1: access follows payment. In every state reachable from a fresh node, by any
    interleaving of events on any number of peers: an [Active] peer has an [Active]
    rule and a running meter; a [Suspended] peer is blocked and unmetered; an
    unknown peer has no rule, or a blocking one, and no meter; no peer is ever left
    [Closed] or given free access; and a peer has an [Active] rule only if one of
    its payments was verified, with no disconnect and no failed verification since. *)
Theorem access_follows_payment `{Minicbor} price policy evs s h p :
  reachable price policy evs s h ->
  match peer_phase s p with
  | None =>
      (Host.access h !! p = None \/ Host.access h !! p = Some AccessLevel.None) /\
      p ∉ Host.metered h
  | Some PeerPhase.Active =>
      Host.access h !! p = Some AccessLevel.Active /\ p ∈ Host.metered h
  | Some PeerPhase.Suspended =>
      Host.access h !! p = Some AccessLevel.Suspended /\ p ∉ Host.metered h
  | Some PeerPhase.Closed => False
  | Some _ => True
  end /\
  Host.access h !! p <> Some AccessLevel.ZeroPrice /\
  (Host.access h !! p = Some AccessLevel.Active -> paid_since evs p).
Proof.
  intros Hr. destruct (reachable_access_inv price policy evs s h p Hr) as (I1 & I2 & I3).
  split; [|by split]. unfold peer_phase. destruct (peers s !! p) as [ps|]; cbn; [|done].
  destruct I3 as (I3 & I4 & I5). destruct (PeerSession.phase ps); auto.
Qed.

Lemma access_follows_payment_witness :
  exists s h, reachable (H := Demo.codec) Demo.price1 MeteringPolicy.default Demo.usage s h /\
    peer_phase s alice = Some PeerPhase.Suspended /\ alice ∉ Host.metered h.
Proof.
  set (r := run (step (H := Demo.codec)) Demo.node Demo.usage).
  assert (reachable (H := Demo.codec) Demo.price1 MeteringPolicy.default Demo.usage r.1
    (Host.apply_all Host.new r.2)) as Hr.
  { apply (Demo.reachable_run [] Demo.usage Demo.node Host.new). constructor. }
  assert (peer_phase r.1 alice = Some PeerPhase.Suspended) as Hp by (vm_compute; reflexivity).
  exists r.1, (Host.apply_all Host.new r.2). split; [exact Hr|]. split; [exact Hp|].
  pose proof (access_follows_payment (H := Demo.codec) _ _ _ _ _ alice Hr) as [K _].
  rewrite Hp in K. exact (proj2 K).
Defined.

(** C2: the accounts balance. Over any run, from any state, a peer's final balance
    is its initial balance plus what its verified payments credited, minus what its
    samples debited, minus what was dropped when it was torn down; nothing else
    creates or destroys credit. Each credit is at most the verified amount, and each
    debit at most the balance and the interval's cost. *)
Theorem balance_conserved `{Minicbor} p s evs :
  balance_of p (run step s evs).1 =
    balance_of p s + (sum_over (credit p) s evs - sum_over (debit p) s evs
                      - sum_over (forfeit p) s evs) /\
  ((forall i, In i evs -> 0 <= verified_amount p s i) ->
   sum_over (credit p) s evs <= sum_over (verified_amount p) s evs).
Proof.
  split.
  - rewrite (sum_over_telescope (balance_of p)
      (fun s i => credit p s i - debit p s i - forfeit p s i)) by (intros; apply balance_step).
    f_equal. generalize s as s0. induction evs as [|i evs IH]; intros s0; simpl; [done|].
    rewrite IH. lia.
  - intros Ha. apply sum_over_le. intros s' i Hi. specialize (Ha i Hi).
    unfold credit, verified_amount in *. destruct i as [[] ?]; simpl in *; try done.
    destruct verified; [|done]. destruct (peers s' !! p); [|done].
    destruct (bool_decide _); lia.
Qed.

Lemma balance_conserved_witness :
  (forall i, In i Demo.usage -> 0 <= verified_amount alice Demo.node i) /\
  sum_over (H := Demo.codec) (credit alice) Demo.node Demo.usage
    <= sum_over (H := Demo.codec) (verified_amount alice) Demo.node Demo.usage.
Proof.
  assert (forall i, In i Demo.usage -> 0 <= verified_amount alice Demo.node i) as Ha.
  { intros i Hi. simpl in Hi. repeat destruct Hi as [<-|Hi]; try done; vm_compute; discriminate. }
  split; [exact Ha|].
  exact (proj2 (balance_conserved (H := Demo.codec) alice Demo.node Demo.usage) Ha).
Defined.

(** C3: usage is billed exactly, across samples, reports and top-ups. While a peer
    stays metered, the units billed over a run are the growth of the billable total
    plus whatever that total lost on the way, and the time billed is the growth of
    the last sampling time plus whatever the clock lost. In particular, when the
    billable total never decreases and the clock never goes back, every delivered
    unit and every millisecond is billed exactly once, however the samples and the
    peer's reports interleave. *)
Theorem billing_exact `{Minicbor} p s evs :
  metered_run p s evs = true -> is_Some (peers (run step s evs).1 !! p) ->
  sum_over (units_billed p) s evs =
    billed_of p (run step s evs).1 - billed_of p s + sum_over (units_regressed p) s evs /\
  sum_over (time_billed p) s evs =
    metered_at p (run step s evs).1 - metered_at p s + sum_over (time_regressed p) s evs.
Proof.
  revert s. induction evs as [|i evs IH]; intros s Hm Hs; [simpl; lia|].
  apply metered_run_cons in Hm as (ps & El & Hps & Hm).
  rewrite run_cons_fst in *. cbn [sum_over].
  assert (is_Some (peers (step s i).1 !! p)) as Hs1.
  { destruct evs as [|j evs]; [exact Hs|].
    apply metered_run_cons in Hm as (ps1 & El1 & _). by exists ps1. }
  destruct (metered_step p s i ps El Hps Hs1) as [E1 E2].
  destruct (IH _ Hm Hs) as [E3 E4]. lia.
Qed.

Lemma billing_exact_witness :
  let s0 := (run (step (H := Demo.codec)) Demo.node (take 4 Demo.usage)).1 in
  metered_run (H := Demo.codec) alice s0 (drop 4 Demo.usage) = true /\
  sum_over (H := Demo.codec) (units_billed alice) s0 (drop 4 Demo.usage) = 100 /\
  sum_over (H := Demo.codec) (units_billed alice) s0 (drop 4 Demo.usage) =
    billed_of alice (run (step (H := Demo.codec)) s0 (drop 4 Demo.usage)).1 - billed_of alice s0
    + sum_over (H := Demo.codec) (units_regressed alice) s0 (drop 4 Demo.usage).
Proof.
  intros s0.
  assert (metered_run (H := Demo.codec) alice s0 (drop 4 Demo.usage) = true) as Hm
    by (vm_compute; reflexivity).
  split; [exact Hm|]. split; [vm_compute; reflexivity|].
  refine (proj1 (billing_exact (H := Demo.codec) alice s0 (drop 4 Demo.usage) Hm _)).
  apply (bool_decide_unpack _). vm_compute. exact I.
Defined.
