(* ===== verification/SessionTypes.v ===== *)
(** * Every session is well typed

    The widths of the session's fields, [u64], [u32], [u8] and [i64], as a predicate on
    the state of [Session.v], on what it emits and on its snapshot: the saturating
    arithmetic of every arm keeps them, over any run. *)

From S2P Require Import Prelude F64 Wire ToyCodec Pricing Session SessionFacts SessionProps.
Import Session.

(** ** The types *)

Definition peer_typed (ps : PeerSession.t) : Prop :=
  PeerSession.phase ps <> PeerPhase.Closed /\
  is_u64 (PeerSession.balance ps) /\
  from_option Counters.wf True (PeerSession.last_counters ps) /\
  is_u64 (PeerSession.last_meter_at ps) /\
  Counters.wf (PeerSession.metering_baseline ps) /\
  is_u64 (PeerSession.metering_start ps) /\
  from_option Counters.wf True (PeerSession.peer_report ps) /\
  is_u64 (PeerSession.billed_units ps) /\
  is_u8 (PeerSession.over_tolerance_streak ps) /\
  from_option (fun a => length a = 32%nat) True (PeerSession.accepted_product ps).

(** The phase [Closed] is never stored; a product that was accepted is an array of 32. *)
Definition typed (s : Session.t) : Prop := map_Forall (fun _ ps => peer_typed ps) (peers s).

Definition input_typed (i : stamped) : Prop :=
  is_u64 i.2 /\
  match i.1 with
  | Event.MeterSample _ c => Counters.wf c
  | Event.BootstrapVerified _ amount _ => is_u64 amount
  | _ => True
  end.

(** What is sent is read by the peer as a message of its type; the session asks for no
    disconnection. *)
Definition action_typed `{Minicbor} (a : Action.t) : Prop :=
  match a with
  | Action.Send _ msg =>
      (exists m, BootstrapAck.decode msg = Some m /\ peek_type msg = Some MessageType.BootstrapAck) \/
      (exists m, Reject.decode msg = Some m /\ peek_type msg = Some MessageType.Reject) \/
      (exists m, MeteringReport.decode msg = Some m /\ MeteringReport.wf m /\
         peek_type msg = Some MessageType.MeteringReport)
  | Action.Disconnect _ => False
  | _ => True
  end.

Definition snapshot_typed (s : PeerSnapshot.t) : Prop :=
  is_i64 (PeerSnapshot.balance s) /\ is_u64 (PeerSnapshot.delivered s) /\ is_u64 (PeerSnapshot.received s) /\
  from_option (fun t => is_u64 t) True (PeerSnapshot.metering_start s).

(** A decoded report holds two [u64]s. *)
Class ReportTyped `{Minicbor} : Prop := {
  report_typed msg r : MeteringReport.decode msg = Some r ->
    is_u64 (MeteringReport.delivered r) /\ is_u64 (MeteringReport.received r)
}.

(** ** Preservation *)

Section typed.
Context `{Hc : Minicbor} `{!MinicborLaws} `{!ReportTyped}.

Lemma new_typed : peer_typed PeerSession.new.
Proof. unfold peer_typed, Counters.wf. cbn. split_and!; (done || lia || ints). Qed.

Lemma reject_sent p t r : action_typed (Action.Send p (Reject.encode (Reject.new t r))).
Proof.
  right. left. exists (Reject.new t r). pose proof (reject_new_wf t r) as Hw.
  split; [by apply cbor_roundtrip|]. unfold Reject.encode. by rewrite (peek_type_to_vec (T := Reject.t)).
Qed.

Lemma report_sent p e d r :
  is_u64 e -> is_u64 d -> is_u64 r -> action_typed (Action.Send p (MeteringReport.encode (MeteringReport.new e d r))).
Proof.
  intros He Hd Hr. right. right. exists (MeteringReport.new e d r). pose proof (report_new_wf _ _ _ He Hd Hr) as Hw.
  split; [by apply cbor_roundtrip|split; [done|]]. unfold MeteringReport.encode.
  by rewrite (peek_type_to_vec (T := MeteringReport.t)).
Qed.

Lemma ack_sent p m :
  BootstrapAck.wf m -> BootstrapAck.type_tag m = MessageType.as_u8 MessageType.BootstrapAck ->
  action_typed (Action.Send p (BootstrapAck.encode m)).
Proof.
  intros Hw Ht. left. exists m. split; [by apply cbor_roundtrip|]. unfold BootstrapAck.encode.
  by rewrite (peek_type_to_vec (T := BootstrapAck.t)), Ht by done.
Qed.

Lemma since_typed now t : is_u64 now -> is_u64 t -> is_u64 (Millis.since now t).
Proof. unfold Millis.since. ints. Qed.

Lemma tallies_typed ps c :
  peer_typed ps -> Counters.wf c ->
  is_u64 (our_delivered ps c) /\ is_u64 (our_received ps c) /\ is_u64 (billable ps c).
Proof.
  intros (_ & _ & _ & _ & [? ?] & _ & Hr & _) [? ?].
  assert (is_u64 (our_delivered ps c)) as Hd by (unfold our_delivered; ints).
  split; [done|split; [unfold our_received; ints|]]. unfold billable, peer_received, reconcile.
  destruct (PeerSession.peer_report ps) as [r|]; cbn in *; [|done]. destruct Hr. by case_match.
Qed.

Lemma reset_typed c now ps : peer_typed ps -> Counters.wf c -> is_u64 now ->
  peer_typed (PeerSession.reset_metering c now ps).
Proof.
  intros (? & ? & _ & _ & _ & _ & _ & _ & _ & ?) ? ?. unfold peer_typed. cbn. split_and!; (done || lia || ints).
Qed.

Lemma charge_typed price c now ps :
  peer_typed ps -> Counters.wf c -> is_u64 now -> peer_typed (charge_interval price c now ps).
Proof.
  intros Hps Hc' Hnow. pose proof (tallies_typed ps c Hps Hc') as (_ & _ & Hb).
  destruct Hps as (? & Hbal & ? & ? & ? & ? & ? & ? & ? & ?). unfold peer_typed, charge_interval. cbn.
  pose proof (sat_sub_u64_range _ (Z.max (interval_cost price ps c now) 0) Hbal ltac:(lia)).
  split_and!; (done || lia).
Qed.

Lemma drift_typed policy p ours ps :
  peer_typed ps -> peer_typed (check_drift policy p ours ps).1 /\ Forall action_typed (check_drift policy p ours ps).2.
Proof.
  intros Hps. unfold check_drift. destruct (peer_received ps); [|by split]. destruct (drift_over _ _ _).
  - split; [|constructor; [apply reject_sent|constructor]].
    destruct Hps as (? & ? & ? & ? & ? & ? & ? & ? & ? & ?). unfold peer_typed. cbn. split_and!; (done || lia || ints).
  - split; [|done]. destruct Hps as (? & ? & ? & ? & ? & ? & ? & ? & ? & ?). unfold peer_typed. cbn. split_and!; (done || lia || ints).
Qed.

Lemma cut_off_typed policy p charging ps :
  peer_typed ps -> peer_typed (cut_off policy p charging ps).1 /\ Forall action_typed (cut_off policy p charging ps).2.
Proof.
  intros Hps. unfold cut_off. destruct (_ || _); [|by split]. split.
  - destruct Hps as (? & ? & ? & ? & ? & ? & ? & ? & ? & ?). unfold peer_typed. cbn. split_and!; (done || lia).
  - apply Forall_app. split; [|by repeat constructor]. destruct (_ && _); [|done].
    constructor; [apply reject_sent|constructor].
Qed.

Lemma meter_typed price policy p c now ps :
  peer_typed ps -> Counters.wf c -> is_u64 now ->
  peer_typed (meter_interval price policy p c now ps).1 /\
  Forall action_typed (meter_interval price policy p c now ps).2.
Proof.
  intros Hps Hc' Hnow. pose proof (tallies_typed ps c Hps Hc') as (Hd & Hr & _).
  pose proof (charge_typed price c now ps Hps Hc' Hnow) as H1.
  assert (is_u64 (Millis.since now (PeerSession.metering_start (check_drift policy p (our_delivered ps c)
    (charge_interval price c now ps)).1))) as Ht.
  { apply since_typed; [done|]. by apply drift_typed. }
  unfold meter_interval. destruct (drift_typed policy p (our_delivered ps c) _ H1) as [H2 H3].
  destruct (check_drift _ _ _ _) as [ps2 warn]. cbn in H2, H3, Ht.
  destruct (cut_off_typed policy p (0 <? interval_cost price ps c now) ps2 H2) as [H4 H5].
  destruct (cut_off _ _ _ _) as [ps3 cut]. split; [done|]. apply Forall_app_2; [done|]. apply Forall_app_2; [|done].
  constructor; [by apply report_sent|constructor].
Qed.

(** A change of one peer's session that keeps its type keeps the whole typed. *)
Lemma with_peer_typed p f s :
  typed s -> (forall ps, peer_typed ps -> peer_typed (f ps).1 /\ Forall action_typed (f ps).2) ->
  typed (with_peer p f s).1 /\ Forall action_typed (with_peer p f s).2.
Proof.
  intros Hs Hf. unfold with_peer. destruct (peers s !! p) as [ps|] eqn:E; [|by split].
  pose proof (Hf ps (Hs _ _ E)) as [H1 H2]. destruct (f ps) as [ps' acts]. split; [|done].
  by apply map_Forall_insert_2.
Qed.

Lemma tear_down_typed p s : typed s -> typed (tear_down p s).1 /\ Forall action_typed (tear_down p s).2.
Proof. intros Hs. rewrite tear_down_eq. split; [by apply map_Forall_delete|by repeat constructor]. Qed.

(** A step that only replaces fields that stay in their types. *)
Ltac field := intros ps (? & ? & ? & ? & ? & ? & ? & ? & ? & ?); unfold peer_typed; cbn; split;
  [split_and!; (done || lia)|by repeat constructor].

Lemma message_typed p msg s : typed s -> typed (on_message p msg s).1 /\ Forall action_typed (on_message p msg s).2.
Proof.
  intros Hs. unfold on_message. destruct (peek_type msg) as [[]|]; try by split.
  - unfold on_price_sheet. destruct (PriceSheet.decode msg); [|by split]. apply with_peer_typed; [done|]. field.
  - unfold on_accept. destruct (Accept.decode msg) as [a|]; [|by split]. apply with_peer_typed; [done|].
    intros ps (? & ? & ? & ? & ? & ? & ? & ? & ? & ?). unfold peer_typed. cbn. split; [|done].
    split_and!; try (done || lia). unfold to_array32. by case_decide.
  - unfold on_metering_report. destruct (MeteringReport.decode msg) as [r|] eqn:E; [|by split].
    apply report_typed in E. apply with_peer_typed; [done|].
    intros ps (? & ? & ? & ? & ? & ? & ? & ? & ? & ?). unfold peer_typed. cbn. split; [|done].
    split_and!; (done || lia).
  - unfold on_bootstrap_token. destruct (BootstrapToken.decode msg); [|by split]. apply with_peer_typed; [done|]. field.
  - unfold on_reject. destruct (Reject.decode msg); [|by split]. apply with_peer_typed; [done|].
    intros ps Hps. case_decide; [|by split]. split; [|cbn; case_bool_decide; by repeat constructor].
    destruct Hps as (? & ? & ? & ? & ? & ? & ? & ? & ? & ?). unfold peer_typed. cbn. split_and!; (done || lia).
  - unfold on_disconnect. destruct (Disconnect.decode msg); [|by split]. by apply tear_down_typed.
Qed.

Lemma handle_typed e now s :
  typed s -> input_typed (e, now) -> typed (handle e now s).1 /\ Forall action_typed (handle e now s).2.
Proof.
  intros Hs [Hnow He]. cbn in Hnow, He. destruct e as [p|p|p msg|p c|p amount v|]; cbn [handle].
  - unfold on_peer_connected. destruct (peers s !! p); [by split|]. split; [|by repeat constructor].
    apply map_Forall_insert_2; [apply new_typed|done].
  - by apply tear_down_typed.
  - by apply message_typed.
  - apply with_peer_typed; [done|]. intros ps Hps. case_decide; [|by split].
    destruct (PeerSession.last_counters ps); [by apply meter_typed|]. split; [by apply reset_typed|done].
  - apply with_peer_typed; [done|]. intros ps (? & Hb & ? & ? & ? & ? & ? & ? & ? & ?). destruct v.
    + pose proof (sat_add_u64_range (PeerSession.balance ps) amount ltac:(lia) ltac:(lia)).
      unfold verified_ok, peer_typed. split.
      * destruct (bool_decide _); cbn; split_and!; (done || lia).
      * constructor; [|by repeat constructor]. apply ack_sent; [|done]. split_and!; (done || by vm_compute).
    + unfold verified_err, peer_typed. split; [cbn; split_and!; (done || lia)|].
      constructor; [|by repeat constructor]. apply ack_sent; [|done]. split_and!; first [done|by vm_compute|apply (bool_decide_unpack _); vm_compute; exact I].
  - by split.
Qed.

Lemma snapshot_peer_typed p ps : peer_typed ps -> snapshot_typed (snapshot_peer p ps).
Proof.
  intros Hps. unfold snapshot_peer, snapshot_typed.
  pose proof (as_i64_range (PeerSession.balance ps)) as Hb. destruct (PeerSession.last_counters ps) as [c|] eqn:E.
  - assert (Counters.wf c) as Hc'. { destruct Hps as (_ & _ & Hl & _). by rewrite E in Hl. }
    pose proof (tallies_typed ps c Hps Hc') as (Hd & Hr & _). cbn.
    destruct Hps as (_ & _ & _ & _ & _ & Hst & _). done.
  - cbn. split; [done|]. split; [by vm_compute|split; [by vm_compute|done]].
Qed.
End typed.

(** ** Property *)

(** C4: every session is well typed. Over any run of events whose numbers are in their
    types, whatever the messages hold, the state stays typed: each balance, tally, time
    and streak within its width, no peer left [Closed], no product but of 32 bytes; each
    message sent is read by the peer as a message of its type, and no disconnection is
    asked for; and the snapshot's numbers are in their types. *)
Theorem session_well_typed `{Hc : Minicbor} `{!MinicborLaws} `{!ReportTyped} price policy evs :
  Forall input_typed evs ->
  let '(s, acts) := run step (mk ∅ price policy) evs in
  typed s /\ Forall action_typed acts /\ Forall snapshot_typed (snapshot s).
Proof.
  intros Hevs.
  assert (forall s, typed s ->
    typed (run step s evs).1 /\ Forall action_typed (run step s evs).2) as Hrun.
  { induction Hevs as [|[e now] evs He _ IH]; intros s Hs; [by split|]. cbn [run].
    destruct (handle_typed e now s Hs He) as [H1 H2]. unfold step at 1 3. cbn [fst snd].
    destruct (handle e now s) as [s1 a1]. specialize (IH s1 H1). destruct (run step s1 evs) as [s2 a2].
    destruct IH as [IH1 IH2]. split; [done|]. by apply Forall_app_2. }
  specialize (Hrun (mk ∅ price policy) (map_Forall_empty _)).
  destruct (run step _ evs) as [s acts]. destruct Hrun as [Hs Ha]. split_and!; [done|done|].
  unfold snapshot. apply Forall_fmap, Forall_forall. intros [p ps] Hin.
  apply elem_of_btree_iter in Hin. apply snapshot_peer_typed. exact (Hs _ _ Hin).
Qed.

(** ** Witness *)

(** The concrete codec, refusing a report whose numbers are out of their type. *)
Module TypedToy.
Definition u64b (z : Z) : bool := (0 <=? z) && (z <=? U64_MAX).
Definition report_codec : Cbor MeteringReport.t := {|
  to_vec := Toy.put MeteringReport.type_tag;
  from_slice b :=
    r ← Toy.get b;
    if u64b (MeteringReport.delivered r) && u64b (MeteringReport.received r) then Some r else None
|}.
Definition typed_toy : Minicbor := {|
  mc_header := @mc_header Toy.toy;
  mc_report := report_codec;
  mc_announce := @mc_announce Toy.toy;
  mc_token := @mc_token Toy.toy;
  mc_ack := @mc_ack Toy.toy;
  mc_reject := @mc_reject Toy.toy;
  mc_disconnect := @mc_disconnect Toy.toy;
  mc_sheet := @mc_sheet Toy.toy;
  mc_accept := @mc_accept Toy.toy
|}.

Lemma from_toy {T} `{Countable T} (wf : T -> Prop) (tag : T -> Z) :
  @CborLaws Toy.toy T (Toy.codec tag) wf tag -> @CborLaws typed_toy T (Toy.codec tag) wf tag.
Proof. intros [H1 H2]. split; [exact H1|exact H2]. Qed.

#[export] Instance typed_toy_laws : @MinicborLaws typed_toy.
Proof.
  destruct Toy.toy_laws. constructor; try (by apply from_toy). split; intros m Hm.
  - change (from_slice (to_vec m)) with (r ← Toy.get (Toy.put MeteringReport.type_tag m);
      if u64b (MeteringReport.delivered r) && u64b (MeteringReport.received r) then Some r else None).
    rewrite Toy.get_put. cbn. destruct Hm as (_ & _ & [? ?] & [? ?] & _). unfold u64b.
    by rewrite !(proj2 (Z.leb_le _ _)) by done.
  - exact (@cbor_header Toy.toy _ _ _ _ ml_report m Hm).
Qed.

#[export] Instance typed_toy_reports : @ReportTyped typed_toy.
Proof.
  split. intros msg r. change (MeteringReport.decode msg) with (r ← Toy.get msg;
      if u64b (MeteringReport.delivered r) && u64b (MeteringReport.received r) then Some r else None).
  destruct (Toy.get msg) as [r'|]; cbn; [|done]. destruct (_ && _) eqn:E; [|done]. intros [= ->].
  unfold u64b in E. rewrite !andb_true_iff, !Z.leb_le in E. tauto.
Qed.
End TypedToy.

(** The run of [SessionProps.Demo]: two payments' worth of traffic, and a report. *)
Lemma session_well_typed_witness :
  let r := run (step (H := TypedToy.typed_toy)) Demo.node Demo.usage in
  typed r.1 /\ Forall (action_typed (H := TypedToy.typed_toy)) r.2 /\ Forall snapshot_typed (snapshot r.1).
Proof.
  assert (Forall input_typed Demo.usage) as Hu.
  { repeat apply Forall_cons_2; try apply Forall_nil_2; unfold input_typed, Counters.wf; cbn;
      split_and!; first [done|by vm_compute]. }
  pose proof (@session_well_typed TypedToy.typed_toy TypedToy.typed_toy_laws TypedToy.typed_toy_reports Demo.price1 MeteringPolicy.default Demo.usage Hu) as Hr.
  unfold Demo.node. destruct (run _ _ _) as [s acts]. exact Hr.
Defined.
