(* ===== verification/SessionIso.v ===== *)
(** * Isolation, metering outcomes and re-admission

    More properties of the session state machine of [Session.v]: one peer's
    events never influence another, what a metered sample does on every branch and
    what the peer is told, what is charged after a re-admission, what the status
    snapshot shows, and where the machine departs from its intent. *)

From S2P Require Import Prelude F64 Wire ToyCodec Pricing Session SessionFacts SessionProps.
Import Session.

Section iso.
Context `{Minicbor}.

Lemma filter_targets_all p acts :
  Forall (fun a => action_peer a = p) acts -> filter (fun a => targets p a = true) acts = acts.
Proof.
  induction 1 as [|a acts Ha _ IH]; [done|].
  rewrite filter_cons_True by (by apply bool_decide_eq_true_2). by rewrite IH.
Qed.

Lemma filter_targets_none p acts :
  Forall (fun a => action_peer a <> p) acts -> filter (fun a => targets p a = true) acts = [].
Proof.
  induction 1 as [|a acts Ha _ IH]; [done|].
  rewrite filter_cons_False; [done|]. unfold targets. by rewrite bool_decide_eq_false_2.
Qed.

Lemma step_other_targets p s i :
  event_peer i.1 <> Some p -> Forall (fun a => action_peer a <> p) (step s i).2.
Proof.
  intros He. unfold step. destruct (event_peer i.1) as [q|] eqn:E.
  - eapply Forall_impl; [by apply (handle_targets _ _ q)|]. intros a ->. congruence.
  - by destruct i as [[] ?].
Qed.

(** Running a session and running any session that agrees with it on [p], with
    only [p]'s events, do the same to [p]. *)
Lemma run_project p evs s1 s2 :
  price s1 = price s2 -> policy s1 = policy s2 -> peers s1 !! p = peers s2 !! p ->
  let r1 := run step s1 evs in
  let r2 := run step s2 (filter (fun i => about p i = true) evs) in
  peers r1.1 !! p = peers r2.1 !! p /\
  filter (fun a => targets p a = true) r1.2 = r2.2.
Proof.
  revert s1 s2. induction evs as [|i evs IH]; intros s1 s2 Hpr Hpo El; [done|].
  cbv zeta. rewrite run_cons_fst, run_cons_snd, filter_app.
  destruct (handle_config i.1 i.2 s1) as [C1 C2].
  destruct (decide (event_peer i.1 = Some p)) as [He|He].
  - rewrite filter_cons_True by (by apply bool_decide_eq_true_2).
    rewrite run_cons_fst, run_cons_snd.
    destruct (handle_config i.1 i.2 s2) as [C3 C4].
    destruct (handle_agree i.1 i.2 p s1 s2 He Hpr Hpo El) as [El' Ea].
    destruct (IH (step s1 i).1 (step s2 i).1) as [-> ->]; [unfold step; congruence..|].
    split; [done|]. f_equal. unfold step in *. rewrite <- Ea.
    apply filter_targets_all. by apply handle_targets.
  - rewrite filter_cons_False by (unfold about; by rewrite bool_decide_eq_false_2).
    destruct (IH (step s1 i).1 s2) as [-> ->]; [unfold step; congruence..| |].
    { by rewrite step_other. }
    split; [done|]. by rewrite filter_targets_none by (by apply step_other_targets).
Qed.

(** The drift streak after an interval. *)
Definition next_streak (policy : MeteringPolicy.t) (c : Counters.t) (ps : PeerSession.t) : Z :=
  match peer_received ps with
  | Some r =>
      if drift_over policy (our_delivered ps c) r
      then sat_add_u8 (PeerSession.over_tolerance_streak ps) 1 else 0
  | None => PeerSession.over_tolerance_streak ps
  end.

Definition drifted (policy : MeteringPolicy.t) (c : Counters.t) (ps : PeerSession.t) : bool :=
  match peer_received ps with
  | Some r => drift_over policy (our_delivered ps c) r
  | None => false
  end.

(** The three messages a metered interval may send. *)
Definition transit_loss : Reject.t :=
  Reject.new MessageType.MeteringReport RejectReason.TransitLossToleranceExceeded.
Definition exhaustion : Reject.t :=
  Reject.new MessageType.MeteringReport RejectReason.BalanceVerificationFailed.
Definition usage_report (c : Counters.t) (now : Z) (ps : PeerSession.t) : MeteringReport.t :=
  MeteringReport.new (Millis.since now (PeerSession.metering_start ps))
    (our_delivered ps c) (our_received ps c).

Definition when (b : bool) (l : list Action.t) : list Action.t := if b then l else [].

Lemma meter_interval_result pr po p c now ps :
  PeerSession.phase ps = PeerPhase.Active -> 0 <= PeerSession.balance ps ->
  let cost := interval_cost pr ps c now in
  let left := PeerSession.balance ps - Z.max 0 cost in
  let exhausted := (0 <? cost) && (left <=? 0) in
  let cut := exhausted || (MeteringPolicy.max_streak po <=? next_streak po c ps) in
  let r := meter_interval pr po p c now ps in
  PeerSession.phase r.1 = (if cut then PeerPhase.Suspended else PeerPhase.Active) /\
  PeerSession.balance r.1 = Z.max 0 left /\
  PeerSession.over_tolerance_streak r.1 = next_streak po c ps /\
  r.2 = when (drifted po c ps) [Action.Send p (Reject.encode transit_loss)] ++
        [Action.Send p (MeteringReport.encode (usage_report c now ps))] ++
        when exhausted [Action.Send p (Reject.encode exhaustion)] ++
        when cut [Action.SetAccess p AccessLevel.Suspended; Action.StopMetering p].
Proof.
  intros Ha Hb. cbv zeta. unfold meter_interval, next_streak, drifted.
  set (ps1 := charge_interval pr c now ps).
  assert (PeerSession.balance ps1 = Z.max 0 (PeerSession.balance ps - Z.max 0 (interval_cost pr ps c now)))
    as Eb by (unfold ps1; cbn; ints).
  assert (forall ps2 ch, PeerSession.balance ps2 = PeerSession.balance ps1 ->
    PeerSession.phase ps2 = PeerPhase.Active ->
    let ex := ch && (PeerSession.balance ps - Z.max 0 (interval_cost pr ps c now) <=? 0) in
    let cut := ex || (MeteringPolicy.max_streak po <=? PeerSession.over_tolerance_streak ps2) in
    let r := cut_off po p ch ps2 in
    PeerSession.phase r.1 = (if cut then PeerPhase.Suspended else PeerPhase.Active) /\
    PeerSession.balance r.1 = PeerSession.balance ps1 /\
    PeerSession.over_tolerance_streak r.1 = PeerSession.over_tolerance_streak ps2 /\
    r.2 = when ex [Action.Send p (Reject.encode exhaustion)] ++
          when cut [Action.SetAccess p AccessLevel.Suspended; Action.StopMetering p]) as K.
  { intros ps2 ch E2 P2. unfold cut_off. cbv zeta.
    assert ((PeerSession.balance ps2 =? 0) =
      (PeerSession.balance ps - Z.max 0 (interval_cost pr ps c now) <=? 0)) as ->.
    { rewrite E2, Eb. destruct (Z.eqb_spec (Z.max 0 (PeerSession.balance ps - Z.max 0
        (interval_cost pr ps c now))) 0); symmetry; [apply Z.leb_le|apply Z.leb_gt]; lia. }
    destruct ch; cbn [andb]; [destruct (_ - _ <=? 0)|]; cbn [orb when];
      try destruct (_ <=? PeerSession.over_tolerance_streak ps2); by rewrite <- ?E2. }
  unfold check_drift.
  change (peer_received ps1) with (peer_received ps).
  destruct (peer_received ps) as [r|] eqn:Er; [destruct (drift_over po (our_delivered ps c) r)|];
    match goal with |- context [cut_off po p ?ch ?ps2] =>
      pose proof (K ps2 ch eq_refl Ha) as (K1 & K2 & K3 & K4);
      destruct (cut_off po p ch ps2) as [ps3 cutting] end;
    cbn [fst snd] in *; rewrite K1, K2, K3, K4, Eb; by split_and!.
Qed.
(** *** One event of a known peer, as an update of its own session *)

Definition set_peer (p : PeerId) (ps : PeerSession.t) (s : t) : t :=
  set_peers (<[p := ps]> (peers s)) s.

Lemma set_peer_lookup p ps s : peers (set_peer p ps s) !! p = Some ps.
Proof. cbn. by rewrite lookup_insert_eq. Qed.

Lemma step_verified p amount t s ps :
  peers s !! p = Some ps ->
  step s (Event.BootstrapVerified p amount true, t) =
    (set_peer p (verified_ok p amount t ps).1 s, (verified_ok p amount t ps).2).
Proof.
  intros El. unfold step. cbn [handle fst snd]. unfold on_bootstrap_verified.
  by rewrite (with_peer_some _ _ _ _ El).
Qed.

Lemma step_baseline p c t s ps :
  peers s !! p = Some ps -> PeerSession.phase ps = PeerPhase.Active ->
  PeerSession.last_counters ps = None ->
  step s (Event.MeterSample p c, t) = (set_peer p (PeerSession.reset_metering c t ps) s, []).
Proof.
  intros El Ha Hn. unfold step. cbn [handle fst snd]. unfold on_meter_sample.
  rewrite (with_peer_some _ _ _ _ El), decide_True, Hn by done. done.
Qed.

Lemma step_sample p c t s ps :
  peers s !! p = Some ps -> PeerSession.phase ps = PeerPhase.Active ->
  is_Some (PeerSession.last_counters ps) -> 0 <= PeerSession.balance ps ->
  balance_of p (step s (Event.MeterSample p c, t)).1 =
    Z.max 0 (PeerSession.balance ps - Z.max 0 (interval_cost (price s) ps c t)).
Proof.
  intros El Ha [c0 Hc] Hb.
  destruct (meter_interval_result (price s) (policy s) p c t ps Ha Hb) as (_ & R2 & _).
  unfold step. cbn [handle fst snd]. unfold on_meter_sample.
  rewrite (with_peer_some _ _ _ _ El), decide_True, Hc by done. unfold balance_of.
  cbn -[meter_interval]. rewrite lookup_insert_eq. exact R2.
Qed.
End iso.

(** *** Messages of a known peer *)

Section messages.
Context `{MinicborLaws}.

Lemma step_token p token t s ps :
  peers s !! p = Some ps ->
  step s (Event.MessageReceived p (BootstrapToken.encode (BootstrapToken.new token)), t) =
    (set_peer p (PeerSession.set_phase PeerPhase.BootstrapPending ps) s,
     [Action.VerifyBootstrapToken p token]).
Proof.
  intros El. pose proof (token_new_wf token) as Hw. unfold step. cbn [handle fst snd].
  unfold on_message, BootstrapToken.encode.
  rewrite (peek_type_to_vec (T := BootstrapToken.t) _ Hw). cbn -[to_vec].
  unfold on_bootstrap_token, BootstrapToken.decode.
  rewrite (cbor_roundtrip (T := BootstrapToken.t) _ Hw). by rewrite (with_peer_some _ _ _ _ El).
Qed.

Lemma step_report p e d r t s ps :
  is_u64 e -> is_u64 d -> is_u64 r -> peers s !! p = Some ps ->
  step s (Event.MessageReceived p (MeteringReport.encode (MeteringReport.new e d r)), t) =
    (set_peer p (PeerSession.set_report (Some (Counters.mk d r)) ps) s, []).
Proof.
  intros He Hd Hr El. pose proof (report_new_wf e d r He Hd Hr) as Hw. unfold step.
  cbn [handle fst snd]. unfold on_message, MeteringReport.encode.
  rewrite (peek_type_to_vec (T := MeteringReport.t) _ Hw). cbn -[to_vec].
  unfold on_metering_report, MeteringReport.decode.
  rewrite (cbor_roundtrip (T := MeteringReport.t) _ Hw). by rewrite (with_peer_some _ _ _ _ El).
Qed.
End messages.

(** ** Traces off the happy path *)

Module Traces.
#[export] Instance codec : Minicbor := Toy.toy.

(** A paid, metered peer sends another token, then a [Reject]. *)
Definition free_ride : list stamped :=
  take 4 Demo.usage ++ [(Event.MessageReceived alice Demo.token_msg, 40);
                        (Event.MessageReceived alice Demo.reject_msg, 41)].

(** The peer's reported total dips between two reports. *)
Definition dip : list stamped := [
  (Event.MeterSample alice (Counters.mk 1040 0), 40);
  (Event.MessageReceived alice (Demo.report 0 90), 45);
  (Event.MeterSample alice (Counters.mk 1050 0), 50);
  (Event.MessageReceived alice (Demo.report 0 10), 55);
  (Event.MeterSample alice (Counters.mk 1060 0), 60);
  (Event.MessageReceived alice (Demo.report 0 90), 65);
  (Event.MeterSample alice (Counters.mk 1065 0), 70)].

(** [alice], metered from a baseline of 1000 units with plenty of credit. *)
Definition metered_node : t :=
  (run step (mk ∅ Demo.price1 (MeteringPolicy.mk 500 100))
    [(Event.PeerConnected alice, 0); (Event.BootstrapVerified alice 1000 true, 20);
     (Event.MeterSample alice (Counters.mk 1000 0), 30)]).1.
End Traces.

(** ** Properties *)

(** C20: peers are isolated. What a run does to one peer, its final state and the
    sequence of actions that concern it, is what the same run does with every
    other peer and every other peer's events removed. *)
Theorem peers_isolated `{Minicbor} p s evs :
  let r := run step s evs in
  let r' := run step (alone p s) (filter (fun i => about p i = true) evs) in
  peers r.1 !! p = peers r'.1 !! p /\
  filter (fun a => targets p a = true) r.2 = r'.2.
Proof. apply run_project; [done|done|]. by rewrite alone_lookup. Qed.

(** Events about strangers change nothing. For a peer the node does not know,
    every event but [PeerConnected] leaves the node's state as it is, and asks the
    host for nothing, or at most to block that peer and stop metering it. For a peer
    it knows, a repeated announcement changes nothing and asks for nothing. *)
Theorem stranger_events_ignored `{Minicbor} e now p s :
  event_peer e = Some p ->
  (peers s !! p = None -> e <> Event.PeerConnected p ->
   (handle e now s).1 = s /\
   ((handle e now s).2 = [] \/
    (handle e now s).2 = [Action.SetAccess p AccessLevel.None; Action.StopMetering p])) /\
  (is_Some (peers s !! p) -> e = Event.PeerConnected p -> handle e now s = (s, [])).
Proof.
  intros He. split.
  - intros El Hne. pose proof (handle_unknown e now p s He El) as Hu.
    destruct e; simpl in He; try discriminate; injection He as ->; try done; rewrite Hu; auto.
  - intros [ps El] ->. simpl. unfold on_peer_connected. by rewrite El.
Qed.

Lemma stranger_events_ignored_witness :
  event_peer (Event.MessageReceived bob Demo.token_msg) = Some bob /\
  (handle (H := Demo.codec) (Event.MessageReceived bob Demo.token_msg) 5 Demo.node).1 = Demo.node.
Proof.
  split; [reflexivity|].
  refine (proj1 (proj1 (stranger_events_ignored (H := Demo.codec)
    (Event.MessageReceived bob Demo.token_msg) 5 bob Demo.node eq_refl) _ _)); [|discriminate].
  vm_compute. reflexivity.
Defined.

(** C21: a metered sample, on every branch. The balance drops by the interval's
    cost, never below zero and never for a negative cost; the peer is suspended
    exactly when a positive cost used up the balance or the drift streak reached
    the policy's maximum, and then its access is cut and its meter stopped; the
    streak counts consecutive out-of-tolerance reports. The peer is sent, in this
    order, a transit-loss warning exactly when this interval drifted, its usage
    since the baseline, and a balance-exhausted reject exactly when that is the
    reason; it decodes them as such. *)
Theorem meter_sample_outcome `{MinicborLaws} p c last now s ps :
  peers s !! p = Some ps -> PeerSession.phase ps = PeerPhase.Active ->
  PeerSession.last_counters ps = Some last -> 0 <= PeerSession.balance ps ->
  is_u64 (MeteringReport.elapsed_ms (usage_report c now ps)) ->
  is_u64 (our_delivered ps c) -> is_u64 (our_received ps c) ->
  let cost := interval_cost (price s) ps c now in
  let left := PeerSession.balance ps - Z.max 0 cost in
  let exhausted := (0 <? cost) && (left <=? 0) in
  let cut := exhausted ||
    (MeteringPolicy.max_streak (policy s) <=? next_streak (policy s) c ps) in
  exists ps' loss_msg report_msg exhausted_msg,
    peers (handle (Event.MeterSample p c) now s).1 !! p = Some ps' /\
    PeerSession.phase ps' = (if cut then PeerPhase.Suspended else PeerPhase.Active) /\
    PeerSession.balance ps' = Z.max 0 left /\
    PeerSession.over_tolerance_streak ps' = next_streak (policy s) c ps /\
    (handle (Event.MeterSample p c) now s).2 =
      when (drifted (policy s) c ps) [Action.Send p loss_msg] ++
      [Action.Send p report_msg] ++
      when exhausted [Action.Send p exhausted_msg] ++
      when cut [Action.SetAccess p AccessLevel.Suspended; Action.StopMetering p] /\
    (Reject.is_transit_loss <$> Reject.decode loss_msg) = Some true /\
    MeteringReport.decode report_msg = Some (usage_report c now ps) /\
    (Reject.is_balance_exhausted <$> Reject.decode exhausted_msg) = Some true.
Proof.
  intros El Ha Hl Hb He Hd Hr. cbv zeta.
  destruct (meter_interval_result (price s) (policy s) p c now ps Ha Hb) as (R1 & R2 & R3 & R4).
  exists (meter_interval (price s) (policy s) p c now ps).1, (Reject.encode transit_loss),
    (MeteringReport.encode (usage_report c now ps)), (Reject.encode exhaustion).
  cbn [handle]. unfold on_meter_sample. rewrite (with_peer_some _ _ _ _ El). cbn [fst snd].
  rewrite decide_True, Hl by done. cbn. rewrite lookup_insert_eq.
  split_and!; [done..| | |].
  - unfold Reject.decode, Reject.encode. rewrite cbor_roundtrip by apply reject_new_wf.
    by vm_compute.
  - unfold MeteringReport.decode, MeteringReport.encode. rewrite cbor_roundtrip; [done|].
    by apply report_new_wf.
  - unfold Reject.decode, Reject.encode. rewrite cbor_roundtrip by apply reject_new_wf.
    by vm_compute.
Qed.

Definition demo_metered : PeerSession.t :=
  PeerSession.mk PeerPhase.Active 60 (Some (Counters.mk 1040 5)) 40 (Counters.mk 1000 0) 30
    (Some (Counters.mk 5 38)) 40 0 None None.
Definition demo_metered_node : t := mk {[alice := demo_metered]} Demo.price1 MeteringPolicy.default.

Lemma meter_sample_outcome_witness :
  exists ps', peers (handle (H := Toy.toy) (Event.MeterSample alice (Counters.mk 1100 9)) 50
      demo_metered_node).1 !! alice = Some ps' /\
    PeerSession.phase ps' = PeerPhase.Suspended /\ PeerSession.balance ps' = 0.
Proof.
  destruct (@meter_sample_outcome Toy.toy Toy.toy_laws alice (Counters.mk 1100 9)
    (Counters.mk 1040 5) 50 demo_metered_node demo_metered)
    as (ps' & m1 & m2 & m3 & E1 & E2 & E3 & _).
  - vm_compute; reflexivity.
  - reflexivity.
  - reflexivity.
  - simpl; lia.
  - vm_compute; split; discriminate.
  - vm_compute; split; discriminate.
  - vm_compute; split; discriminate.
  - exists ps'. split; [exact E1|]. split; [rewrite E2|rewrite E3]; vm_compute; reflexivity.
Defined.

(** A top-up after a cut charges nothing for the gap. When a payment of a peer
    that is not [Active] is verified, the first sample after it only sets the
    baseline, whatever the counters read and however long the peer was away; the
    second is charged for exactly the time and units since the first. *)
Theorem readmission_charges_no_gap `{Minicbor} p s ps amount t0 t1 t2 c1 c2 :
  peers s !! p = Some ps -> PeerSession.phase ps <> PeerPhase.Active ->
  0 <= PeerSession.balance ps -> 0 <= amount ->
  let b := sat_add_u64 (PeerSession.balance ps) amount in
  let r1 := run step s [(Event.BootstrapVerified p amount true, t0); (Event.MeterSample p c1, t1)] in
  let r2 := run step r1.1 [(Event.MeterSample p c2, t2)] in
  balance_of p r1.1 = b /\
  r1.2 = [Action.Send p (BootstrapAck.encode BootstrapAck.accepted);
          Action.SetAccess p AccessLevel.Active; Action.StartMetering p] /\
  balance_of p r2.1 =
    Z.max 0 (b - Z.max 0 (Price.cost_scaled (price s) (Millis.since t2 t1)
      (sat_sub_u64 (Counters.delivered c2) (Counters.delivered c1)))).
Proof.
  intros El Hp Hb Ham. cbv zeta. set (ps1 := (verified_ok p amount t0 ps).1).
  assert (PeerSession.phase ps1 = PeerPhase.Active /\ PeerSession.last_counters ps1 = None /\
    PeerSession.balance ps1 = sat_add_u64 (PeerSession.balance ps) amount) as (P1 & L1 & B1).
  { unfold ps1, verified_ok. by rewrite bool_decide_eq_false_2. }
  cbn [run]. rewrite (step_verified _ _ _ _ _ El). fold ps1.
  rewrite (step_baseline p c1 t1 _ ps1) by (done || apply set_peer_lookup). cbn [fst snd].
  set (s2 := set_peer p _ (set_peer p ps1 s)).
  pose proof (step_sample p c2 t2 s2 (PeerSession.reset_metering c1 t1 ps1)
    (set_peer_lookup _ _ _) P1 (ex_intro _ c1 eq_refl)) as K.
  cbn [PeerSession.balance PeerSession.reset_metering] in K.
  destruct (step s2 _) as [s3 o3]. cbn [fst] in *.
  unfold balance_of at 1. unfold s2. rewrite set_peer_lookup. cbn [map_or].
  split; [exact B1|]. split; [done|]. rewrite K, B1 by (rewrite B1; ints).
  assert (new_units (PeerSession.reset_metering c1 t1 ps1) c2 =
    sat_sub_u64 (Counters.delivered c2) (Counters.delivered c1)) as Eu
    by (unfold new_units, billable, our_delivered; cbn; ints).
  unfold interval_cost. by rewrite Eu.
Qed.

Definition demo_suspended : PeerSession.t :=
  PeerSession.mk PeerPhase.Suspended 3 (Some (Counters.mk 1100 9)) 50 (Counters.mk 1000 0) 30
    (Some (Counters.mk 5 38)) 100 2 None None.

Lemma readmission_charges_no_gap_witness :
  let s := mk {[alice := demo_suspended]} Demo.price1 MeteringPolicy.default in
  let r1 := run (step (H := Toy.toy)) s
    [(Event.BootstrapVerified alice 50 true, 9000); (Event.MeterSample alice (Counters.mk 7777 9), 9900)] in
  let r2 := run (step (H := Toy.toy)) r1.1 [(Event.MeterSample alice (Counters.mk 7780 9), 9999)] in
  balance_of alice r1.1 = 53 /\ balance_of alice r2.1 = 50.
Proof.
  intros s r1 r2.
  destruct (readmission_charges_no_gap (H := Toy.toy) alice s demo_suspended 50 9000 9900 9999
    (Counters.mk 7777 9) (Counters.mk 7780 9)) as (E1 & _ & E2).
  - vm_compute; reflexivity.
  - discriminate.
  - simpl; lia.
  - lia.
  - split; [etransitivity; [exact E1|]|etransitivity; [exact E2|]]; vm_compute; reflexivity.
Defined.

(** A departure from "a token accepted while the peer was not already metered
    starts a fresh metering session". A token message makes the peer
    [BootstrapPending] before its verdict comes, so every top-up, even of a peer that
    is [Active] and metered, drops the baseline: what was used between the last
    sample before it and the first after it is never charged, and the consumer's next
    acknowledgement, still counted from its own start, is taken against the fresh
    baseline and charged as new usage, although it had been billed before. What is
    charged over a top-up depends on neither [last_counters] nor [billed_units]. *)
Theorem topup_restarts_metering `{MinicborLaws} p s ps token amount acked t0 t1 t2 t3 t4 c1 c2 :
  peers s !! p = Some ps -> PeerSession.phase ps = PeerPhase.Active ->
  0 <= PeerSession.balance ps -> 0 <= amount -> is_u64 acked ->
  let evs := [
    (Event.MessageReceived p (BootstrapToken.encode (BootstrapToken.new token)), t0);
    (Event.BootstrapVerified p amount true, t1);
    (Event.MeterSample p c1, t2);
    (Event.MessageReceived p (MeteringReport.encode (MeteringReport.new 0 0 acked)), t3);
    (Event.MeterSample p c2, t4)] in
  balance_of p (run step s evs).1 =
    Z.max 0 (sat_add_u64 (PeerSession.balance ps) amount -
      Z.max 0 (Price.cost_scaled (price s) (Millis.since t4 t2)
        (Z.max (sat_sub_u64 (Counters.delivered c2) (Counters.delivered c1)) acked))).
Proof.
  intros El Ha Hb Ham Hr. cbv zeta.
  set (ps1 := PeerSession.set_phase PeerPhase.BootstrapPending ps).
  set (ps2 := (verified_ok p amount t1 ps1).1).
  rewrite run_cons_fst, (step_token _ _ _ _ _ El). fold ps1. cbn [fst].
  rewrite run_cons_fst, (step_verified _ _ _ _ ps1) by apply set_peer_lookup. fold ps2. cbn [fst].
  rewrite run_cons_fst, (step_baseline p c1 t2 _ ps2) by (done || apply set_peer_lookup). cbn [fst].
  rewrite run_cons_fst, (step_report p 0 0 acked t3 _ (PeerSession.reset_metering c1 t2 ps2))
    by (try apply set_peer_lookup; try done; ints). cbn [fst].
  rewrite run_cons_fst. cbn [run fst].
  rewrite (step_sample p c2 t4 _ (PeerSession.set_report (Some (Counters.mk 0 acked))
    (PeerSession.reset_metering c1 t2 ps2))); try done.
  - cbn -[Price.cost_scaled]. unfold interval_cost. do 5 f_equal.
    unfold new_units, billable, reconcile, our_delivered. cbn.
    destruct (Z.ltb_spec acked (sat_sub_u64 (Counters.delivered c2) (Counters.delivered c1))); ints.
  - apply set_peer_lookup.
  - unfold ps2, verified_ok. rewrite bool_decide_eq_false_2 by done. cbn. ints.
Qed.

(** [alice], billed for 4,000 units, uses 30 more, tops up, and uses 10 more: she is
    charged 4,000 again, and not 40. *)
Lemma topup_restarts_metering_witness :
  let ps := PeerSession.mk PeerPhase.Active 9000 (Some (Counters.mk 5000 0)) 100
    (Counters.mk 1000 0) 0 (Some (Counters.mk 0 4000)) 4000 0 None None in
  let s := mk {[alice := ps]} Demo.price1 MeteringPolicy.default in
  balance_of alice (run (step (H := Toy.toy)) s [
    (Event.MessageReceived alice Demo.token_msg, 110);
    (Event.BootstrapVerified alice 1000 true, 120);
    (Event.MeterSample alice (Counters.mk 5030 0), 130);
    (Event.MessageReceived alice (@MeteringReport.encode Toy.toy.(mc_report) (MeteringReport.new 0 0 4000)), 140);
    (Event.MeterSample alice (Counters.mk 5040 0), 150)]).1 = 6000.
Proof.
  intros ps s.
  etransitivity; [apply (@topup_restarts_metering Toy.toy Toy.toy_laws alice s ps (as_bytes "cashuA") 1000 4000
    110 120 130 140 150 (Counters.mk 5030 0) (Counters.mk 5040 0))|].
  - reflexivity.
  - reflexivity.
  - simpl; lia.
  - lia.
  - vm_compute; split; discriminate.
  - vm_compute; reflexivity.
Defined.

(** a departure from "a report arriving between samples doesn't double-charge".
    [billed_units] is set to the billable total rather than kept at its maximum, so
    when a peer's reported total dips and recovers the same units are billed again:
    on this trace the node delivers 65 units, no sample sees a billable total above
    90, and the peer is billed 120. *)
Theorem report_dip_bills_twice :
  let s := Traces.metered_node in
  metered_run (H := Traces.codec) alice s Traces.dip = true /\
  sum_over (H := Traces.codec) (units_billed alice) s Traces.dip = 120 /\
  sum_over (H := Traces.codec) (units_regressed alice) s Traces.dip = 30 /\
  balance_of alice (run (step (H := Traces.codec)) s Traces.dip).1 = 880 /\
  billed_of alice (run (step (H := Traces.codec)) s Traces.dip).1 = 90.
Proof. vm_compute. by split_and!. Qed.

(** A departure from "no service until it pays". A paid peer that presents
    another token and then a [Reject] ends up [New], yet its [Active] rule and its
    meter stay installed, because the arm revokes access only when the phase is
    still [Active]; from there no sample ever charges it or cuts it off. *)
Theorem reject_while_pending_rides_free :
  exists s h, reachable (H := Traces.codec) Demo.price1 MeteringPolicy.default
      Traces.free_ride s h /\
    peer_phase s alice = Some PeerPhase.New /\
    Host.access h !! alice = Some AccessLevel.Active /\ alice ∈ Host.metered h /\
    forall c now, handle (H := Traces.codec) (Event.MeterSample alice c) now s = (s, []).
Proof.
  set (r := run (step (H := Traces.codec)) Demo.node Traces.free_ride).
  exists r.1, (Host.apply_all Host.new r.2).
  assert (exists ps, peers r.1 !! alice = Some ps /\ PeerSession.phase ps = PeerPhase.New)
    as (ps & El & Ep).
  { eexists. split; [vm_compute; reflexivity|reflexivity]. }
  split_and!.
  - apply (Demo.reachable_run [] Traces.free_ride Demo.node Host.new). constructor.
  - unfold peer_phase. rewrite El. cbn. by rewrite Ep.
  - vm_compute. reflexivity.
  - apply (bool_decide_unpack _). vm_compute. exact I.
  - intros c now. cbn [handle]. unfold on_meter_sample.
    rewrite (with_peer_some _ _ _ ps El), decide_False by (by rewrite Ep). cbn.
    rewrite insert_id by done. unfold set_peers. by rewrite session_eta.
Qed.

(** the status snapshot is faithful up to its balance field. It lists every
    tracked peer exactly once; a peer's usage is its counters since the baseline, as
    reported to the peer; its balance is exact below 2^63 and comes out negative, an
    apparent debt to the peer, from 2^63 on. *)
Theorem snapshot_faithful s p ps :
  length (snapshot s) = peer_count s /\
  (peers s !! p = Some ps -> is_u64 (PeerSession.balance ps) ->
   exists snap, snap ∈ snapshot s /\ PeerSnapshot.peer snap = p /\
     PeerSnapshot.phase snap = PeerSession.phase ps /\
     (PeerSession.balance ps <= I64_MAX -> PeerSnapshot.balance snap = PeerSession.balance ps) /\
     (I64_MAX < PeerSession.balance ps -> PeerSnapshot.balance snap = PeerSession.balance ps - 2 ^ 64) /\
     (forall c, PeerSession.last_counters ps = Some c ->
        PeerSnapshot.delivered snap = our_delivered ps c /\
        PeerSnapshot.received snap = our_received ps c)).
Proof.
  split; [unfold snapshot; by rewrite length_fmap, length_btree_iter|].
  intros El Hb. exists (snapshot_peer p ps).
  assert (PeerSnapshot.balance (snapshot_peer p ps) = as_i64 (PeerSession.balance ps)) as Eb
    by (unfold snapshot_peer; by destruct (PeerSession.last_counters ps)).
  split_and!.
  - apply list_elem_of_fmap. exists (p, ps). split; [done|]. by apply elem_of_btree_iter.
  - unfold snapshot_peer. by destruct (PeerSession.last_counters ps).
  - unfold snapshot_peer. by destruct (PeerSession.last_counters ps).
  - intros Hle. rewrite Eb. apply as_i64_id. ints.
  - intros Hgt. rewrite Eb. unfold as_i64, wrap_i.
    unfold U64_MAX, I64_MAX in *. cbn [Z.sub] in *.
    rewrite <- (Z.mod_add _ (-1)) by lia. rewrite Z.mod_small by lia. lia.
  - intros c Hc. unfold snapshot_peer. by rewrite Hc.
Qed.

Lemma snapshot_faithful_witness :
  exists snap, snap ∈ snapshot demo_metered_node /\ PeerSnapshot.balance snap = 60.
Proof.
  destruct (proj2 (snapshot_faithful demo_metered_node alice demo_metered)) as
    (snap & Hin & _ & _ & Hb & _).
  - vm_compute; reflexivity.
  - split; vm_compute; discriminate.
  - exists snap. split; [exact Hin|]. apply Hb. vm_compute. discriminate.
Defined.
