(* ===== verification/Delivery.v ===== *)
(** * Budgeted delivery: grants, the budget guard and the delivery engine

    Models [crates/tollgate-core/src/delivery.rs]. [DeliveryEngine::handle] is a
    pure function of the event and the engine's state. The theorems are about
    every sequence of events: what is settled and refunded, how often, when a
    lapsed grant is settled, and what a crash changes: nothing before the settlement,
    and after it a second settlement, which the journal does not exclude. *)

From S2P Require Import Prelude Pricing.

Module Caps.
Record t : Set := mk {
  max_units : option Z;
  max_seconds : option Z;
  max_cost_millis : option Z
}.
#[export] Instance eq_dec : EqDecision t.
Proof. solve_decision. Defined.
Definition bounded (c : t) : bool :=
  is_some (max_units c) || is_some (max_seconds c) || is_some (max_cost_millis c).
End Caps.
Export (hints) Caps.

Module Lease.
Record t : Set := mk { expires_at : Z }.
#[export] Instance eq_dec : EqDecision t.
Proof. solve_decision. Defined.
End Lease.
Export (hints) Lease.

Module Grant.
Record t : Set := mk {
  nonce : Z;
  deposit_millis : Z;
  caps : Caps.t;
  lease : Lease.t
}.
#[export] Instance eq_dec : EqDecision t.
Proof. solve_decision. Defined.
(** The money cap as settlement uses it: [u64::MAX] when there is none. *)
Definition money_cap (g : t) : Z := unwrap_or (Caps.max_cost_millis (caps g)) U64_MAX.
Definition wf (g : t) : Prop :=
  is_u64 (deposit_millis g) /\ is_u64 (money_cap g) /\ is_u64 (Lease.expires_at (lease g)).
End Grant.
Export (hints) Grant.

Module Progress.
Record t : Set := mk {
  units_total : Z;
  seconds_total : Z;
  cost_millis_total : Z;
  at_ : Z
}.
#[export] Instance eq_dec : EqDecision t.
Proof. solve_decision. Defined.
Definition default : t := mk 0 0 0 0.
Definition wf (p : t) : Prop :=
  is_u64 (units_total p) /\ is_u64 (seconds_total p) /\ is_u64 (cost_millis_total p).
End Progress.
Export (hints) Progress.

Module TerminalKind.
Inductive t : Set :=
| Completed | CapUnits | CapSeconds | CapCost | Failed | Revoked | LeaseExpired.
#[export] Instance eq_dec : EqDecision t.
Proof. solve_decision. Defined.
(** [kind as u64]. *)
Definition as_u64 (k : t) : Z :=
  match k with
  | Completed => 0 | CapUnits => 1 | CapSeconds => 2 | CapCost => 3
  | Failed => 4 | Revoked => 5 | LeaseExpired => 6
  end.
End TerminalKind.
Export (hints) TerminalKind.

Module TerminalReport.
Record t : Set := mk {
  kind : TerminalKind.t;
  units_total : Z;
  seconds_total : Z;
  cost_millis_total : Z;
  at_ : Z;
  receipt : option bytes
}.
End TerminalReport.

Module DeliveryEvent.
Inductive t : Set :=
| GrantIssued (grant : Grant.t)
| ProgressObserved (progress : Progress.t)
| TerminalObserved (report : TerminalReport.t)
| RevokeRequested (at_ : Z)
| Tick (now : Z).
End DeliveryEvent.

Module AlarmReason.
Inductive t : Set := NonMonotonicProgress | UnmatchedTerminal.
#[export] Instance eq_dec : EqDecision t.
Proof. solve_decision. Defined.
End AlarmReason.
Export (hints) AlarmReason.

Module DeliveryAction.
Inductive t : Set :=
| StopDelivery (nonce : Z)
| SettleDelivery (nonce amount_millis : Z)
| RefundChange (nonce amount_millis : Z)
| Alarm (nonce : Z) (reason : AlarmReason.t).
#[export] Instance eq_dec : EqDecision t.
Proof. solve_decision. Defined.
End DeliveryAction.
Export (hints) DeliveryAction.

Module DeliveryPhase.
Inductive t : Set := Idle | Granted | Delivering | Done.
#[export] Instance eq_dec : EqDecision t.
Proof. solve_decision. Defined.
End DeliveryPhase.
Export (hints) DeliveryPhase.

(** ** The budget guard *)

Module BudgetGuard.
Record t : Set := mk { grant : Grant.t; last : Progress.t }.
Definition new (g : Grant.t) : t := mk g Progress.default.
Definition journalled (g : t) : Progress.t := last g.

Definition exhausted (g : t) : option TerminalKind.t :=
  let caps := Grant.caps (grant g) in
  if is_some_and (Caps.max_units caps) (fun max => max <=? Progress.units_total (last g))
  then Some TerminalKind.CapUnits
  else if is_some_and (Caps.max_seconds caps) (fun max => max <=? Progress.seconds_total (last g))
  then Some TerminalKind.CapSeconds
  else if is_some_and (Caps.max_cost_millis caps)
            (fun max => max <=? Progress.cost_millis_total (last g))
  then Some TerminalKind.CapCost
  else None.

(** The guard after the call, and the result. *)
Definition apply (g : t) (p : Progress.t) : t * result (option TerminalKind.t) AlarmReason.t :=
  if (Progress.units_total p <? Progress.units_total (last g))
     || (Progress.seconds_total p <? Progress.seconds_total (last g))
     || (Progress.cost_millis_total p <? Progress.cost_millis_total (last g))
  then (g, Err AlarmReason.NonMonotonicProgress)
  else let g := mk (grant g) p in (g, Ok (exhausted g)).
End BudgetGuard.

(** ** The engine *)

Module DeliveryEngine.
Record t : Set := mk { phase : DeliveryPhase.t; guard : option BudgetGuard.t }.

Definition new : t := mk DeliveryPhase.Idle None.

Definition resume (grant : Grant.t) (last : Progress.t) : t :=
  let guard := (BudgetGuard.apply (BudgetGuard.new grant) last).1 in
  mk (if is_some (BudgetGuard.exhausted guard)
      then DeliveryPhase.Granted else DeliveryPhase.Delivering)
     (Some guard).

Definition nonce (e : t) : Z :=
  match guard e with Some g => Grant.nonce (BudgetGuard.grant g) | None => 0 end.

(** Settle clamps to the deposit and to the money cap; the rest is change. *)
Definition settle_from_totals (final_cost_millis : Z) (e : t) : t * list DeliveryAction.t :=
  match guard e with
  | None => (e, [])
  | Some guard =>
      let grant := BudgetGuard.grant guard in
      let settle := Z.min (Z.min final_cost_millis (Grant.deposit_millis grant))
                      (Grant.money_cap grant) in
      let refund := wrap_u64 (Grant.deposit_millis grant - settle) in
      (mk DeliveryPhase.Done (Some guard),
       [DeliveryAction.SettleDelivery (Grant.nonce grant) settle;
        DeliveryAction.RefundChange (Grant.nonce grant) refund])
  end.

Definition on_grant_issued (grant : Grant.t) (e : t) : t * list DeliveryAction.t :=
  match phase e with
  | DeliveryPhase.Idle => (mk DeliveryPhase.Granted (Some (BudgetGuard.new grant)), [])
  | _ => (e, [])
  end.

Definition on_progress (progress : Progress.t) (e : t) : t * list DeliveryAction.t :=
  match guard e with
  | Some guard =>
      match BudgetGuard.apply guard progress with
      | (guard, Err _) =>
          (mk (phase e) (Some guard),
           [DeliveryAction.Alarm (nonce e) AlarmReason.NonMonotonicProgress])
      | (guard, Ok (Some _)) =>
          (mk DeliveryPhase.Delivering (Some guard), [DeliveryAction.StopDelivery (nonce e)])
      | (guard, Ok None) => (mk DeliveryPhase.Delivering (Some guard), [])
      end
  | None => (e, [])
  end.

Definition on_terminal (report : TerminalReport.t) (e : t) : t * list DeliveryAction.t :=
  match phase e with
  | DeliveryPhase.Idle =>
      (e, [DeliveryAction.Alarm (TerminalKind.as_u64 (TerminalReport.kind report))
             AlarmReason.UnmatchedTerminal])
  | DeliveryPhase.Granted | DeliveryPhase.Delivering =>
      settle_from_totals (TerminalReport.cost_millis_total report) e
  | DeliveryPhase.Done => (e, [])
  end.

Definition on_revoke (e : t) : t * list DeliveryAction.t :=
  match phase e with
  | DeliveryPhase.Granted | DeliveryPhase.Delivering =>
      (e, [DeliveryAction.StopDelivery (nonce e)])
  | _ => (e, [])
  end.

Definition on_tick (now : Z) (e : t) : t * list DeliveryAction.t :=
  match guard e, phase e with
  | Some guard, (DeliveryPhase.Granted | DeliveryPhase.Delivering) =>
      if Lease.expires_at (Grant.lease (BudgetGuard.grant guard)) <=? now
      then settle_from_totals (Progress.cost_millis_total (BudgetGuard.journalled guard)) e
      else (e, [])
  | _, _ => (e, [])
  end.

Definition handle (event : DeliveryEvent.t) (e : t) : t * list DeliveryAction.t :=
  match event with
  | DeliveryEvent.GrantIssued grant => on_grant_issued grant e
  | DeliveryEvent.ProgressObserved progress => on_progress progress e
  | DeliveryEvent.TerminalObserved report => on_terminal report e
  | DeliveryEvent.RevokeRequested _ => on_revoke e
  | DeliveryEvent.Tick now => on_tick now e
  end.

Definition step (e : t) (event : DeliveryEvent.t) : t * list DeliveryAction.t := handle event e.

(** ** Well-formedness, and what is counted along a run *)

(** An engine has a guard exactly when it left [Idle], and its grant and journal
    are within their fields. *)
Definition wf (e : t) : Prop :=
  match guard e with
  | None => phase e = DeliveryPhase.Idle
  | Some g => phase e <> DeliveryPhase.Idle /\ Grant.wf (BudgetGuard.grant g) /\
              0 <= Progress.cost_millis_total (BudgetGuard.last g)
  end.

Definition event_wf (event : DeliveryEvent.t) : Prop :=
  match event with
  | DeliveryEvent.GrantIssued g => Grant.wf g
  | DeliveryEvent.ProgressObserved p => 0 <= Progress.cost_millis_total p
  | DeliveryEvent.TerminalObserved r => 0 <= TerminalReport.cost_millis_total r
  | _ => True
  end.

Definition is_settle (a : DeliveryAction.t) : bool :=
  match a with DeliveryAction.SettleDelivery _ _ => true | _ => false end.
Definition settlements (acts : list DeliveryAction.t) : nat :=
  length (filter (fun a => is_settle a = true) acts).
#[global] Arguments settlements : simpl never.

(** The event revives a finished engine: progress accepted in phase [Done]. *)
Definition revives (e : t) (event : DeliveryEvent.t) : bool :=
  bool_decide (phase e = DeliveryPhase.Done) &&
  negb (bool_decide (phase (step e event).1 = DeliveryPhase.Done)).

Fixpoint revivals (e : t) (events : list DeliveryEvent.t) : nat :=
  match events with
  | [] => 0
  | ev :: events => (if revives e ev then 1 else 0) + revivals (step e ev).1 events
  end%nat.

Definition done (e : t) : nat := if bool_decide (phase e = DeliveryPhase.Done) then 1 else 0.

(** The settlement every branch that settles emits, for a final cost. *)
Definition settlement (g : Grant.t) (cost : Z) : list DeliveryAction.t :=
  let amount := Z.min (Z.min cost (Grant.deposit_millis g)) (Grant.money_cap g) in
  [DeliveryAction.SettleDelivery (Grant.nonce g) amount;
   DeliveryAction.RefundChange (Grant.nonce g) (Grant.deposit_millis g - amount)].
End DeliveryEngine.

(** ** Lemmas *)

Section delivery.
Import DeliveryEngine.

Lemma apply_grant g p : BudgetGuard.grant (BudgetGuard.apply g p).1 = BudgetGuard.grant g.
Proof. unfold BudgetGuard.apply. by case_match. Qed.

Lemma settle_from_totals_eq e g cost :
  guard e = Some g -> Grant.wf (BudgetGuard.grant g) -> 0 <= cost ->
  settle_from_totals cost e =
    (mk DeliveryPhase.Done (Some g), settlement (BudgetGuard.grant g) cost).
Proof.
  intros Eg (Hd & Hm & _) Hc. unfold settle_from_totals, settlement. rewrite Eg.
  rewrite wrap_u64_id; [done|]. ints.
Qed.

(** Every event of a well-formed engine: it stays well-formed, and it settles,
    closing the engine, or emits no settlement at all. *)
Lemma handle_cases event e :
  wf e -> event_wf event ->
  let r := handle event e in
  wf r.1 /\
  ((exists g cost, 0 <= cost /\ phase e <> DeliveryPhase.Done /\
      BudgetGuard.grant <$> guard e = Some g /\ phase r.1 = DeliveryPhase.Done /\
      r.2 = settlement g cost) \/
   (settlements r.2 = 0%nat /\ (phase r.1 = DeliveryPhase.Done -> phase e = DeliveryPhase.Done) /\
    forall n a, DeliveryAction.RefundChange n a ∉ r.2)).
Proof.
  intros Hw He r. subst r.
  assert (forall acts, acts = [] \/ (exists n, acts = [DeliveryAction.StopDelivery n]) \/
    (exists n x, acts = [DeliveryAction.Alarm n x]) ->
    settlements acts = 0%nat /\ forall n a, DeliveryAction.RefundChange n a ∉ acts) as K.
  { intros acts [-> | [[n ->] | (n & x & ->)]]; (split; [done|set_solver]). }
  assert (forall cost, 0 <= cost -> phase e <> DeliveryPhase.Idle -> phase e <> DeliveryPhase.Done ->
    let r := settle_from_totals cost e in
    wf r.1 /\ exists g cost', 0 <= cost' /\ phase e <> DeliveryPhase.Done /\
      BudgetGuard.grant <$> guard e = Some g /\ phase r.1 = DeliveryPhase.Done /\
      r.2 = settlement g cost') as S.
  { intros cost Hc Hi Hd. unfold wf in Hw. destruct (guard e) as [g|] eqn:Eg; [|done].
    destruct Hw as (_ & Hg & Hl). rewrite (settle_from_totals_eq e g) by done. cbn.
    split; [by split_and!|]. by eexists _, _. }
  destruct event as [g|p|rep|at_|now]; cbn [handle].
  - unfold on_grant_issued. destruct (phase e) eqn:Ep; cbn; rewrite ?Ep;
      (split; [|right; split; [done|split; [done|set_solver]]]); try done.
  - unfold on_progress. unfold wf in Hw. destruct (guard e) as [g|] eqn:Eg; cycle 1.
    { cbn. unfold wf. rewrite Eg. split; [done|]. right. split; [done|split; [done|set_solver]]. }
    destruct Hw as (Hi & Hg & Hl). unfold BudgetGuard.apply.
    destruct (_ || _); [|destruct (BudgetGuard.exhausted _)]; cbn;
      (split; [unfold wf; cbn; by split_and!|right]).
    all: edestruct K as [K1 K2]; [|split; [exact K1|split; [done|exact K2]]]; eauto.
  - unfold on_terminal. destruct (phase e) eqn:Ep.
    + cbn. split; [done|]. right. rewrite Ep.
      edestruct K as [K1 K2]; [|split; [exact K1|split; [done|exact K2]]]. eauto.
    + destruct (S (TerminalReport.cost_millis_total rep)) as [W X]; [done|by rewrite ?Ep..|].
      split; [exact W|left]. exact X.
    + destruct (S (TerminalReport.cost_millis_total rep)) as [W X]; [done|by rewrite ?Ep..|].
      split; [exact W|left]. exact X.
    + cbn. split; [done|]. right. rewrite Ep. split; [done|split; [done|set_solver]].
  - unfold on_revoke. destruct (phase e) eqn:Ep; cbn; rewrite ?Ep; (split; [done|right]);
      edestruct K as [K1 K2]; try (split; [exact K1|split; [done|exact K2]]); eauto.
  - unfold on_tick.
    destruct (guard e) as [g|] eqn:Eg; [destruct (phase e) eqn:Ep|];
      try (cbn; split; [done|]; right; split; [done|split; [congruence|set_solver]]).
    all: unfold wf in Hw; rewrite Eg in Hw; destruct Hw as (Hi & Hg & Hl);
      destruct (_ <=? now);
      [|cbn; unfold wf; rewrite Eg; split; [by split_and!|];
        right; split; [done|split; [congruence|set_solver]]];
      destruct (S (Progress.cost_millis_total (BudgetGuard.journalled g))) as [W X];
      [done|congruence|congruence|]; (split; [exact W|left; exact X]).
Qed.

Lemma run_wf e evs :
  wf e -> Forall event_wf evs -> wf (run step e evs).1.
Proof.
  intros Hw He. revert e Hw. induction He as [|ev evs Hev _ IH]; intros e Hw; [done|].
  simpl. destruct (step e ev) as [e1 o1] eqn:E. destruct (handle_cases ev e Hw Hev) as [W _].
  unfold step in E. rewrite E in W. specialize (IH e1 W). by destruct (run step e1 evs).
Qed.

Lemma settlements_app a b : settlements (a ++ b) = (settlements a + settlements b)%nat.
Proof. unfold settlements. by rewrite filter_app, length_app. Qed.

Lemma settlements_settlement g cost : settlements (settlement g cost) = 1%nat.
Proof. done. Qed.

(** One event's settlements, against the phase it leaves. *)
Lemma settle_count_step e ev :
  wf e -> event_wf ev ->
  (settlements (step e ev).2 + done e = (if revives e ev then 1 else 0) + done (step e ev).1)%nat.
Proof.
  intros Hw Hev. unfold revives, done, step.
  destruct (handle_cases ev e Hw Hev) as [_ [(g & cost & _ & Hne & _ & Hd & ->)|(-> & Hd & _)]].
  - rewrite settlements_settlement, Hd, !(bool_decide_eq_false_2 (phase e = _)) by done.
    by rewrite bool_decide_eq_true_2.
  - destruct (decide (phase e = DeliveryPhase.Done)) as [E|E],
      (decide (phase (handle ev e).1 = DeliveryPhase.Done)) as [E'|E'];
      [| |by apply Hd in E'|];
      rewrite ?(bool_decide_eq_true_2 _ E), ?(bool_decide_eq_true_2 _ E'),
        ?(bool_decide_eq_false_2 _ E), ?(bool_decide_eq_false_2 _ E'); done.
Qed.

(** The grant an engine holds is one that was issued to it. *)
Lemma step_grant e ev g :
  BudgetGuard.grant <$> guard (step e ev).1 = Some g ->
  BudgetGuard.grant <$> guard e = Some g \/ ev = DeliveryEvent.GrantIssued g.
Proof.
  unfold step. destruct e as [ph [gu|]], ev as [g'|p|rep|a|now]; cbn [handle];
    unfold on_grant_issued, on_progress, on_terminal, on_revoke, on_tick, settle_from_totals;
    cbn; try pose proof (apply_grant gu p) as Ea;
    repeat (case_match; simplify_eq/=; auto); intros; simplify_eq/=; auto; left; congruence.
Qed.

(** Once live, an engine keeps its grant. *)
Lemma step_keeps_grant e ev g :
  phase e <> DeliveryPhase.Idle -> BudgetGuard.grant <$> guard e = Some g ->
  BudgetGuard.grant <$> guard (step e ev).1 = Some g.
Proof.
  unfold step. destruct e as [ph [gu|]], ev as [g'|p|rep|a|now]; cbn [handle];
    unfold on_grant_issued, on_progress, on_terminal, on_revoke, on_tick, settle_from_totals;
    cbn; try done; try pose proof (apply_grant gu p) as Ea;
    repeat (case_match; simplify_eq/=; auto); intros; simplify_eq/=; auto; congruence.
Qed.

Lemma guard_issued evs e g :
  guard e = None -> BudgetGuard.grant <$> guard (run step e evs).1 = Some g ->
  DeliveryEvent.GrantIssued g ∈ evs.
Proof.
  intros Hn.
  assert (forall evs e, BudgetGuard.grant <$> guard (run step e evs).1 = Some g ->
    BudgetGuard.grant <$> guard e = Some g \/ DeliveryEvent.GrantIssued g ∈ evs) as K.
  { clear. intros evs. induction evs as [|ev evs IH]; intros e; [by left|].
    simpl. destruct (step e ev) as [e1 o1] eqn:E. specialize (IH e1).
    destruct (run step e1 evs) as [e2 o2]. simpl in *. intros Hg.
    destruct (IH Hg) as [H1|H1]; [|right; by right].
    assert (e1 = (step e ev).1) as -> by (by rewrite E).
    apply step_grant in H1 as [H1| ->]; [by left|right; by left]. }
  intros Hg. destruct (K evs e Hg) as [H1|H1]; [|done]. by rewrite Hn in H1.
Qed.

(** ** Engines that differ only in how they say they are live *)

Definition live (e : t) : Prop :=
  phase e = DeliveryPhase.Granted \/ phase e = DeliveryPhase.Delivering.

Definition engine_equiv (e1 e2 : t) : Prop :=
  guard e1 = guard e2 /\ (phase e1 = phase e2 \/ (live e1 /\ live e2)).

#[export] Instance engine_equiv_equivalence : Equivalence engine_equiv.
Proof.
  split; unfold engine_equiv, live; red; intros; intuition congruence.
Qed.

(** Equivalent engines react alike to every event. *)
#[export] Instance step_proper :
  Proper (engine_equiv ==> (=) ==> prod_relation engine_equiv (=)) step.
Proof.
  intros [ph1 gu] [ph2 gu2] [Eg Hp] ev ? <-. cbn in Eg. subst gu2. cbn in Hp.
  assert (ph1 = ph2 \/ (live (mk ph1 gu) /\ live (mk ph2 gu))) as Hp' by exact Hp.
  destruct Hp as [->|[L1 L2]]; [by split|].
  unfold live in *. simpl in L1, L2. unfold step.
  assert (engine_equiv (mk ph1 gu) (mk ph2 gu)) as Hself by (split; [done|by right]).
  destruct ev as [g|p|rep|a|now]; cbn [handle].
  - unfold on_grant_issued; cbn. by destruct L1 as [-> | ->], L2 as [-> | ->].
  - unfold on_progress; cbn. destruct gu as [gu|]; [|done].
    destruct (BudgetGuard.apply gu p) as [gu' [[k|]|x]]; (split; [|done]); cbn; [by split; [|left]..|].
    split; [done|by right].
  - unfold on_terminal, settle_from_totals; cbn.
    destruct L1 as [-> | ->], L2 as [-> | ->]; destruct gu; done.
  - unfold on_revoke; cbn. by destruct L1 as [-> | ->], L2 as [-> | ->].
  - unfold on_tick, settle_from_totals; cbn. destruct gu as [gu|]; [|done].
    destruct L1 as [-> | ->], L2 as [-> | ->]; destruct (_ <=? now); done.
Qed.

Lemma run_equiv e1 e2 evs :
  engine_equiv e1 e2 -> (run step e1 evs).2 = (run step e2 evs).2 /\
    engine_equiv (run step e1 evs).1 (run step e2 evs).1.
Proof.
  revert e1 e2. induction evs as [|ev evs IH]; intros e1 e2 He; [done|].
  destruct (step_proper e1 e2 He ev ev eq_refl) as [H1 H2].
  simpl. destruct (step e1 ev) as [f1 o1], (step e2 ev) as [f2 o2]. simpl in *.
  destruct (IH f1 f2 H1) as [I1 I2]. destruct (run step f1 evs), (run step f2 evs).
  simpl in *. by subst.
Qed.

(** *** The guard along a sequence of samples *)

Definition sample (g : BudgetGuard.t) (p : Progress.t) : BudgetGuard.t := (BudgetGuard.apply g p).1.

Definition progress_le (a b : Progress.t) : Prop :=
  Progress.units_total a <= Progress.units_total b /\
  Progress.seconds_total a <= Progress.seconds_total b /\
  Progress.cost_millis_total a <= Progress.cost_millis_total b.

#[export] Instance progress_le_preorder : PreOrder progress_le.
Proof. split; unfold progress_le; [intros ?; lia|intros ???; lia]. Qed.

Lemma sample_le g p : progress_le (BudgetGuard.last g) (BudgetGuard.last (sample g p)).
Proof.
  unfold sample, BudgetGuard.apply. destruct (_ || _) eqn:E; [done|]. cbn.
  apply orb_false_elim in E as [[E1 E2]%orb_false_elim E3].
  apply Z.ltb_ge in E1, E2, E3. done.
Qed.

(** An engine holds a grant once it has left [Idle], and its journal never goes below
    nothing delivered. *)
Definition journals (e : t) : Prop :=
  match guard e with
  | None => phase e = DeliveryPhase.Idle
  | Some g => phase e <> DeliveryPhase.Idle /\ progress_le Progress.default (BudgetGuard.last g)
  end.

Lemma step_journals e ev : journals e -> journals (step e ev).1.
Proof.
  unfold journals, step. destruct e as [ph [gu|]], ev as [g'|p|rep|a|now]; cbn [handle guard phase];
    unfold on_grant_issued, on_progress, on_terminal, on_revoke, on_tick, settle_from_totals; cbn.
  2: { intros [Hi Hp]. pose proof (sample_le gu p) as Hs. unfold sample in Hs.
    assert (progress_le Progress.default (BudgetGuard.last (BudgetGuard.apply gu p).1)) as Hl
      by (by etransitivity).
    by destruct (BudgetGuard.apply gu p) as [gu' [[k|]|x]]. }
  all: intros Hj; repeat (case_match; simplify_eq/=); try done; try (by destruct Hj); by split.
Qed.

Lemma run_journals evs : journals (run step new evs).1.
Proof.
  assert (forall e, journals e -> journals (run step e evs).1) as K; [|by apply K].
  induction evs as [|ev evs IH]; intros e He; [done|].
  cbn [run]. pose proof (IH _ (step_journals e ev He)) as K.
  destruct (step e ev) as [e1 o1]. cbn in K. by destruct (run step e1 evs).
Qed.

Lemma resume_guard g :
  progress_le Progress.default (BudgetGuard.last g) ->
  guard (resume (BudgetGuard.grant g) (BudgetGuard.last g)) = Some g.
Proof.
  intros (H1 & H2 & H3). unfold resume, BudgetGuard.apply. cbn in *.
  rewrite !(proj2 (Z.ltb_ge _ _)) by done. cbn. by destruct g.
Qed.

Lemma resume_live grant last : live (resume grant last).
Proof. unfold live, resume. cbn. destruct (is_some _); auto. Qed.

Lemma samples_le g ps : progress_le (BudgetGuard.last g) (BudgetGuard.last (foldl sample g ps)).
Proof.
  revert g. induction ps as [|p ps IH]; intros g; [done|]. simpl.
  etransitivity; [apply sample_le|apply IH].
Qed.

Lemma samples_grant g ps : BudgetGuard.grant (foldl sample g ps) = BudgetGuard.grant g.
Proof.
  revert g. induction ps as [|p ps IH]; intros g; [done|]. simpl.
  rewrite IH. apply apply_grant.
Qed.

(** [bound] is set and [total] reached it. *)
Definition reached (bound : option Z) (total : Z) : Prop :=
  exists max, bound = Some max /\ max <= total.

Lemma is_some_and_reached b x : is_some_and b (fun max => max <=? x) = true <-> reached b x.
Proof.
  unfold reached. destruct b as [m|]; simpl; [|naive_solver].
  rewrite Z.leb_le. naive_solver.
Qed.

Lemma reached_mono b x y : reached b x -> x <= y -> reached b y.
Proof. intros (m & -> & ?) ?. exists m. split; [done|lia]. Qed.

Definition any_cap_reached (g : BudgetGuard.t) : Prop :=
  let caps := Grant.caps (BudgetGuard.grant g) in
  reached (Caps.max_units caps) (Progress.units_total (BudgetGuard.last g)) \/
  reached (Caps.max_seconds caps) (Progress.seconds_total (BudgetGuard.last g)) \/
  reached (Caps.max_cost_millis caps) (Progress.cost_millis_total (BudgetGuard.last g)).

Lemma exhausted_iff g : is_Some (BudgetGuard.exhausted g) <-> any_cap_reached g.
Proof.
  unfold BudgetGuard.exhausted, any_cap_reached. rewrite <- !is_some_and_reached.
  destruct (is_some_and (Caps.max_units _) _); [naive_solver|].
  destruct (is_some_and (Caps.max_seconds _) _); [naive_solver|].
  destruct (is_some_and (Caps.max_cost_millis _) _); [naive_solver|].
  split; [intros [? ?]; done|naive_solver].
Qed.
End delivery.

(** ** Properties *)

Module DeliveryDemo.
Definition grant : Grant.t :=
  Grant.mk 7 100 (Caps.mk None (Some 60) (Some 80)) (Lease.mk 90000).
Definition progress (seconds cost at_ : Z) : Progress.t := Progress.mk 0 seconds cost at_.
Definition terminal (cost at_ : Z) : TerminalReport.t :=
  TerminalReport.mk TerminalKind.Completed 0 0 cost at_ None.
Definition events : list DeliveryEvent.t := [
  DeliveryEvent.GrantIssued grant;
  DeliveryEvent.ProgressObserved (progress 10 20 1000);
  DeliveryEvent.ProgressObserved (progress 5 10 2000);
  DeliveryEvent.ProgressObserved (progress 30 60 3000)].
(** A terminal report, then one more sample and report from the provider. *)
Definition late_progress : list DeliveryEvent.t := events ++ [
  DeliveryEvent.TerminalObserved (terminal 60 4000);
  DeliveryEvent.ProgressObserved (progress 31 62 4500);
  DeliveryEvent.TerminalObserved (terminal 62 5000)].
End DeliveryDemo.

(** C14: settlement conserves the deposit. Whatever happened before, an event either
    moves no money, or it settles one issued grant: it burns an amount between zero
    and both the deposit and the money cap, and refunds exactly the rest of the
    deposit, under the grant's nonce. *)
Theorem settlement_conserves_deposit evs ev :
  Forall DeliveryEngine.event_wf evs -> DeliveryEngine.event_wf ev ->
  let acts := (DeliveryEngine.step (run DeliveryEngine.step DeliveryEngine.new evs).1 ev).2 in
  (DeliveryEngine.settlements acts = 0%nat /\
     forall n a, DeliveryAction.RefundChange n a ∉ acts) \/
  exists g amount, DeliveryEvent.GrantIssued g ∈ evs /\
    acts = [DeliveryAction.SettleDelivery (Grant.nonce g) amount;
            DeliveryAction.RefundChange (Grant.nonce g) (Grant.deposit_millis g - amount)] /\
    0 <= amount <= Grant.deposit_millis g /\ amount <= Grant.money_cap g.
Proof.
  intros Hevs Hev acts. subst acts.
  set (e := (run DeliveryEngine.step DeliveryEngine.new evs).1).
  assert (DeliveryEngine.wf e) as Hw by (by apply run_wf).
  destruct (handle_cases ev e Hw Hev) as [_ [(g & cost & Hc & _ & Hg & _ & Hacts)|(H0 & _ & Hr)]];
    [right|by left].
  exists g. eexists. split; [by apply (guard_issued evs DeliveryEngine.new)|].
  split; [exact Hacts|].
  unfold DeliveryEngine.wf in Hw. destruct (DeliveryEngine.guard e) as [gu|]; [|done].
  simpl in Hg. injection Hg as <-. destruct Hw as (_ & (Hd & Hm & _) & _). lia.
Qed.

Lemma settlement_conserves_deposit_witness :
  (Forall DeliveryEngine.event_wf DeliveryDemo.events) /\
  let acts := (DeliveryEngine.step
    (run DeliveryEngine.step DeliveryEngine.new DeliveryDemo.events).1
    (DeliveryEvent.TerminalObserved (DeliveryDemo.terminal 95 4000))).2 in
  acts = [DeliveryAction.SettleDelivery 7 80; DeliveryAction.RefundChange 7 20] /\
  exists g amount, DeliveryEvent.GrantIssued g ∈ DeliveryDemo.events /\
    acts = [DeliveryAction.SettleDelivery (Grant.nonce g) amount;
            DeliveryAction.RefundChange (Grant.nonce g) (Grant.deposit_millis g - amount)] /\
    0 <= amount <= Grant.deposit_millis g /\ amount <= Grant.money_cap g.
Proof.
  assert (Forall DeliveryEngine.event_wf DeliveryDemo.events) as Hwf.
  { repeat apply Forall_cons_2; try apply Forall_nil_2; vm_compute; repeat split; congruence. }
  split; [exact Hwf|]. split; [vm_compute; reflexivity|].
  destruct (settlement_conserves_deposit DeliveryDemo.events
    (DeliveryEvent.TerminalObserved (DeliveryDemo.terminal 95 4000)) Hwf) as [[K _]|K].
  - simpl. lia.
  - vm_compute in K. discriminate.
  - exact K.
Defined.

(** At most one settlement, unless progress is accepted after the end. Over any
    run of a fresh engine the number of settlements is the number of times a
    finished engine was revived by a late progress sample, plus one if the engine is
    finished at the end; so an engine that gets no progress after it is [Done]
    settles at most once. *)
Theorem settlements_counted evs :
  Forall DeliveryEngine.event_wf evs ->
  let r := run DeliveryEngine.step DeliveryEngine.new evs in
  DeliveryEngine.settlements r.2 =
    (DeliveryEngine.revivals DeliveryEngine.new evs + DeliveryEngine.done r.1)%nat /\
  (DeliveryEngine.revivals DeliveryEngine.new evs = 0%nat ->
   (DeliveryEngine.settlements r.2 <= 1)%nat).
Proof.
  intros Hevs. cbv zeta.
  assert (forall e, DeliveryEngine.wf e ->
    (DeliveryEngine.settlements (run DeliveryEngine.step e evs).2 + DeliveryEngine.done e =
     DeliveryEngine.revivals e evs + DeliveryEngine.done (run DeliveryEngine.step e evs).1)%nat) as K.
  { induction Hevs as [|ev evs Hev _ IH]; intros e Hw; [done|].
    pose proof (settle_count_step e ev Hw Hev) as H1.
    destruct (handle_cases ev e Hw Hev) as [Hw' _].
    specialize (IH (DeliveryEngine.step e ev).1 Hw'). simpl.
    destruct (DeliveryEngine.step e ev) as [e1 o1]. simpl in *.
    destruct (run DeliveryEngine.step e1 evs) as [e2 o2]. simpl in *.
    rewrite settlements_app. lia. }
  specialize (K DeliveryEngine.new eq_refl).
  change (DeliveryEngine.done DeliveryEngine.new) with 0%nat in K. rewrite Nat.add_0_r in K.
  rewrite K. split; [done|]. intros ->. unfold DeliveryEngine.done. destruct (bool_decide _); simpl; lia.
Qed.

Lemma settlements_counted_witness :
  Forall DeliveryEngine.event_wf DeliveryDemo.late_progress /\
  DeliveryEngine.settlements
    (run DeliveryEngine.step DeliveryEngine.new DeliveryDemo.late_progress).2 =
  (DeliveryEngine.revivals DeliveryEngine.new DeliveryDemo.late_progress + 1)%nat.
Proof.
  assert (Forall DeliveryEngine.event_wf DeliveryDemo.late_progress) as Hwf.
  { repeat apply Forall_cons_2; try apply Forall_nil_2; vm_compute; repeat split; congruence. }
  split; [exact Hwf|].
  exact (proj1 (settlements_counted DeliveryDemo.late_progress Hwf)).
Defined.

(** a departure from "Terminal state" in the documentation of [Done].
    [ProgressObserved] is not guarded by the phase: a progress sample that arrives
    after the terminal report puts the engine back in [Delivering], and the next
    terminal report settles the same grant a second time, paying out more than the
    deposit. *)
Theorem late_progress_settles_twice :
  let r := run DeliveryEngine.step DeliveryEngine.new DeliveryDemo.late_progress in
  filter (fun a => DeliveryEngine.is_settle a = true) r.2 =
    [DeliveryAction.SettleDelivery 7 60; DeliveryAction.SettleDelivery 7 62] /\
  Grant.deposit_millis DeliveryDemo.grant = 100.
Proof. vm_compute. done. Qed.

(** A lapsed lease is always settled. An engine with an outstanding grant is
    closed by the first tick at or past the lease's deadline, burning what was
    journalled, clamped to deposit and money cap, and refunding the rest; an earlier
    tick changes nothing. *)
Theorem lease_lapse_settles e g now :
  DeliveryEngine.wf e -> live e -> DeliveryEngine.guard e = Some g ->
  DeliveryEngine.step e (DeliveryEvent.Tick now) =
    if Lease.expires_at (Grant.lease (BudgetGuard.grant g)) <=? now
    then (DeliveryEngine.mk DeliveryPhase.Done (Some g),
          DeliveryEngine.settlement (BudgetGuard.grant g)
            (Progress.cost_millis_total (BudgetGuard.last g)))
    else (e, []).
Proof.
  intros Hw Hl Eg. unfold DeliveryEngine.step. cbn [DeliveryEngine.handle].
  unfold DeliveryEngine.on_tick. rewrite Eg.
  unfold DeliveryEngine.wf in Hw. rewrite Eg in Hw. destruct Hw as (_ & Hg & H0).
  destruct Hl as [-> | ->]; destruct (_ <=? now); try done; by apply settle_from_totals_eq.
Qed.

Lemma lease_lapse_settles_witness :
  let e := (run DeliveryEngine.step DeliveryEngine.new DeliveryDemo.events).1 in
  exists e', DeliveryEngine.step e (DeliveryEvent.Tick 90000) =
    (e', [DeliveryAction.SettleDelivery 7 60; DeliveryAction.RefundChange 7 40]) /\
    DeliveryEngine.phase e' = DeliveryPhase.Done.
Proof.
  intros e. eexists. split.
  - etransitivity; [apply (lease_lapse_settles e (BudgetGuard.mk DeliveryDemo.grant
      (DeliveryDemo.progress 30 60 3000)) 90000)|vm_compute; reflexivity].
    + vm_compute. split_and!; congruence.
    + right. vm_compute. reflexivity.
    + vm_compute. reflexivity.
  - vm_compute. reflexivity.
Defined.

(** C34: a crash before the settlement loses nothing. Take an engine as any events left
    it, with the grant and the reading it has journalled. If it has not settled, the
    engine rebuilt from them reacts exactly as the one that crashed would have, to every
    further sequence of events: same stops, same settlements, same refunds, same alarms.
    If it has settled, it is not what is rebuilt: the journal does not say so, and the
    rebuilt engine is live and settles a terminal report once more, which the one that
    crashed would have ignored. *)
Theorem resume_equivalent before g evs :
  let e := (run DeliveryEngine.step DeliveryEngine.new before).1 in
  let rebuilt := DeliveryEngine.resume (BudgetGuard.grant g) (BudgetGuard.last g) in
  DeliveryEngine.guard e = Some g ->
  (DeliveryEngine.phase e <> DeliveryPhase.Done ->
   (run DeliveryEngine.step e evs).2 = (run DeliveryEngine.step rebuilt evs).2) /\
  (DeliveryEngine.phase e = DeliveryPhase.Done -> forall report,
   (DeliveryEngine.step e (DeliveryEvent.TerminalObserved report)).2 = [] /\
   DeliveryEngine.settlements
     (DeliveryEngine.step rebuilt (DeliveryEvent.TerminalObserved report)).2 = 1%nat).
Proof.
  intros e rebuilt Eg. pose proof (run_journals before) as Hj. fold e in Hj.
  unfold journals in Hj. rewrite Eg in Hj. destruct Hj as [Hi Hp].
  pose proof (resume_guard g Hp) as Er. fold rebuilt in Er.
  pose proof (resume_live (BudgetGuard.grant g) (BudgetGuard.last g) : live rebuilt) as Hl.
  split; [intros Hd|intros Hd report].
  - apply run_equiv. split; [by rewrite Eg|right]. split; [|done].
    unfold live. destruct (DeliveryEngine.phase e); auto; done.
  - unfold DeliveryEngine.step. cbn [DeliveryEngine.handle]. unfold DeliveryEngine.on_terminal. rewrite Hd.
    split; [done|]. destruct Hl as [-> | ->]; unfold DeliveryEngine.settle_from_totals; by rewrite Er.
Qed.

Lemma resume_equivalent_witness :
  let e := (run DeliveryEngine.step DeliveryEngine.new DeliveryDemo.events).1 in
  let evs := [DeliveryEvent.ProgressObserved (DeliveryDemo.progress 60 70 3500);
              DeliveryEvent.Tick 95000] in
  (run DeliveryEngine.step e evs).2 =
  (run DeliveryEngine.step (DeliveryEngine.resume DeliveryDemo.grant
     (DeliveryDemo.progress 30 60 3000)) evs).2.
Proof.
  intros e evs.
  apply (resume_equivalent DeliveryDemo.events (BudgetGuard.mk DeliveryDemo.grant
    (DeliveryDemo.progress 30 60 3000)) evs).
  - vm_compute. reflexivity.
  - vm_compute. discriminate.
Defined.

(** The budget guard is exact and latching. Over any sequence of samples the
    journal never goes back in any dimension, a sample is refused exactly when it
    would go back in one, [exhausted] answers exactly when a cap that is set has
    been reached, and once it answers it does so after every further sample. *)
Theorem guard_exact_and_latching g ps p :
  let g' := foldl sample g ps in
  progress_le (BudgetGuard.last g) (BudgetGuard.last g') /\
  ((BudgetGuard.apply g' p).2 = Err AlarmReason.NonMonotonicProgress <->
     ~ progress_le (BudgetGuard.last g') p) /\
  (progress_le (BudgetGuard.last g') p -> BudgetGuard.last (sample g' p) = p) /\
  (is_Some (BudgetGuard.exhausted g') <-> any_cap_reached g') /\
  (is_Some (BudgetGuard.exhausted g) -> is_Some (BudgetGuard.exhausted g')).
Proof.
  intros g'. pose proof (samples_le g ps) as Hle. fold g' in Hle.
  assert ((Progress.units_total p <? Progress.units_total (BudgetGuard.last g'))
     || (Progress.seconds_total p <? Progress.seconds_total (BudgetGuard.last g'))
     || (Progress.cost_millis_total p <? Progress.cost_millis_total (BudgetGuard.last g')) = false
     <-> progress_le (BudgetGuard.last g') p) as E.
  { unfold progress_le. rewrite !orb_false_iff, !Z.ltb_ge. tauto. }
  split_and!; [done| | |apply exhausted_iff|].
  - unfold BudgetGuard.apply. rewrite <- E. destruct (_ || _); naive_solver.
  - unfold sample, BudgetGuard.apply. rewrite <- E. by intros ->.
  - rewrite !exhausted_iff. unfold any_cap_reached.
    assert (BudgetGuard.grant g' = BudgetGuard.grant g) as -> by apply samples_grant.
    destruct Hle as (H1 & H2 & H3). intros [H|[H|H]]; eauto using reached_mono.
Qed.

Lemma guard_exact_and_latching_witness :
  let g := BudgetGuard.mk DeliveryDemo.grant (DeliveryDemo.progress 60 70 3500) in
  is_Some (BudgetGuard.exhausted g) /\
  is_Some (BudgetGuard.exhausted (foldl sample g [DeliveryDemo.progress 59 75 3600])).
Proof.
  intros g. assert (is_Some (BudgetGuard.exhausted g)) as H by (vm_compute; eauto).
  split; [exact H|].
  destruct (guard_exact_and_latching g [DeliveryDemo.progress 59 75 3600]
    Progress.default) as (_ & _ & _ & _ & L).
  exact (L H).
Defined.
