(* ===== verification/Charger.v ===== *)
(** * The charger driver and its simulated device

    Models [crates/tollgate-charger-host/src/]{[driver.rs], [sim.rs]}: the driver
    translates the charger's wire messages and timer ticks into events of the
    delivery engine of [Delivery.v], and the engine's actions into wire commands.
    A host's use of the driver is any sequence of calls to [handle_message], [tick]
    and [revoke], with any timestamps. *)

From S2P Require Import Prelude Pricing Delivery.

Module PriceVector.
Record t : Set := mk { per_second_millis : Z }.
End PriceVector.
Definition PRICELESS : PriceVector.t := PriceVector.mk 0.

Module Inbound.
Inductive t : Set :=
| GrantAck (at_ : Z)
| Done (at_ : Z) (raw : bytes)
| Aborted (at_ : Z) (raw : bytes).
End Inbound.

Module Outbound.
Inductive t : Set :=
| PublishStart (device : string) (end_epoch_sec : Z)
| PublishStop (device : string)
| Settle (nonce amount_millis : Z)
| Refund (nonce amount_millis : Z).
#[export] Instance eq_dec : EqDecision t.
Proof. solve_decision. Defined.
End Outbound.
Export (hints) Outbound.

Module PendingStop.
Inductive t : Set := CapSeconds | CapCost | Revoked.
#[export] Instance eq_dec : EqDecision t.
Proof. solve_decision. Defined.
End PendingStop.
Export (hints) PendingStop.

Definition lease_seconds_remaining (grant : Grant.t) (now : Z) : Z :=
  sat_sub_u64 (Lease.expires_at (Grant.lease grant)) now / 1000.

Definition time_money_grant (nonce deposit_millis max_seconds max_cost_millis expires_at_ms : Z)
    : Grant.t :=
  Grant.mk nonce deposit_millis (Caps.mk None (Some max_seconds) (Some max_cost_millis))
    (Lease.mk expires_at_ms).

Module ChargerDriver.
Record t : Set := mk {
  device : string;
  engine : DeliveryEngine.t;
  price : PriceVector.t;
  grant : Grant.t;
  acked_at : option Z;
  last : Progress.t;
  pending_stop : option PendingStop.t
}.

Definition set_engine (e : DeliveryEngine.t) (d : t) : t :=
  mk (device d) e (price d) (grant d) (acked_at d) (last d) (pending_stop d).
Definition set_acked (a : option Z) (d : t) : t :=
  mk (device d) (engine d) (price d) (grant d) a (last d) (pending_stop d).
Definition set_last (p : Progress.t) (d : t) : t :=
  mk (device d) (engine d) (price d) (grant d) (acked_at d) p (pending_stop d).
Definition set_pending (s : option PendingStop.t) (d : t) : t :=
  mk (device d) (engine d) (price d) (grant d) (acked_at d) (last d) s.

Definition open (device : string) (grant : Grant.t) (price : PriceVector.t) (now : Z)
    : t * list Outbound.t :=
  let engine := (DeliveryEngine.handle (DeliveryEvent.GrantIssued grant) DeliveryEngine.new).1 in
  let end_epoch_sec := wrap_u64 (now / 1000 + lease_seconds_remaining grant now) in
  (mk device engine price grant None (Progress.mk 0 0 0 now) None,
   [Outbound.PublishStart device end_epoch_sec]).

Definition resume (device : string) (grant : Grant.t) (price : PriceVector.t)
    (last : Progress.t) : t :=
  mk device (DeliveryEngine.resume grant last) price grant
    (Some (sat_sub_u64 (Progress.at_ last) (wrap_u64 (Progress.seconds_total last * 1000))))
    last None.

Definition journal (d : t) : Grant.t * Progress.t := (grant d, last d).
Definition phase (d : t) : DeliveryPhase.t := DeliveryEngine.phase (engine d).

Definition synthesize (d : t) (now : Z) : Progress.t :=
  match acked_at d with
  | None => Progress.mk 0 0 0 now
  | Some acked =>
      let seconds := Millis.since now acked / 1000 in
      Progress.mk 0 seconds (sat_mul_u64 seconds (PriceVector.per_second_millis (price d))) now
  end.

Definition terminal (d : t) (kind : TerminalKind.t) (at_ : Z) (receipt : option bytes)
    : TerminalReport.t :=
  TerminalReport.mk kind (Progress.units_total (last d)) (Progress.seconds_total (last d))
    (Progress.cost_millis_total (last d)) at_ receipt.

(** One action of the engine, executed: the [filter_map] closure of [dispatch]. *)
Definition execute (d : t) (action : DeliveryAction.t) : t * list Outbound.t :=
  match action with
  | DeliveryAction.StopDelivery _ =>
      let d :=
        match pending_stop d with
        | None =>
            let reason :=
              if is_some_and (Caps.max_cost_millis (Grant.caps (grant d)))
                   (fun m => m <=? Progress.cost_millis_total (last d))
              then PendingStop.CapCost else PendingStop.CapSeconds in
            set_pending (Some reason) d
        | Some _ => d
        end in
      (d, [Outbound.PublishStop (device d)])
  | DeliveryAction.SettleDelivery nonce amount => (d, [Outbound.Settle nonce amount])
  | DeliveryAction.RefundChange nonce amount => (d, [Outbound.Refund nonce amount])
  | DeliveryAction.Alarm _ _ => (d, [])
  end.

Definition dispatch (event : DeliveryEvent.t) (d : t) : t * list Outbound.t :=
  let '(engine', actions) := DeliveryEngine.handle event (engine d) in
  run execute (set_engine engine' d) actions.

Definition handle_message (inbound : Inbound.t) (d : t) : t * list Outbound.t :=
  match inbound with
  | Inbound.GrantAck at_ => (set_acked (Some at_) d, [])
  | Inbound.Done at_ raw =>
      let d := if is_some (pending_stop d) then d else set_last (synthesize d at_) d in
      dispatch (DeliveryEvent.TerminalObserved (terminal d TerminalKind.CapSeconds at_ (Some raw))) d
  | Inbound.Aborted at_ raw =>
      let d := if is_some (pending_stop d) then d else set_last (synthesize d at_) d in
      dispatch (DeliveryEvent.TerminalObserved (terminal d TerminalKind.Completed at_ (Some raw))) d
  end.

Definition stop_kind (reason : PendingStop.t) : TerminalKind.t :=
  match reason with
  | PendingStop.CapSeconds => TerminalKind.CapSeconds
  | PendingStop.CapCost => TerminalKind.CapCost
  | PendingStop.Revoked => TerminalKind.Revoked
  end.

Definition tick (now : Z) (d : t) : t * list Outbound.t :=
  if decide (phase d = DeliveryPhase.Done) then (d, [])
  else
    match pending_stop d with
    | Some reason =>
        let report := terminal d (stop_kind reason) (Progress.at_ (last d)) None in
        dispatch (DeliveryEvent.TerminalObserved report) (set_pending None d)
    | None =>
        let d := set_last (synthesize d now) d in
        let '(d, out) := dispatch (DeliveryEvent.ProgressObserved (last d)) d in
        let '(d, out') := dispatch (DeliveryEvent.Tick now) d in
        (d, out ++ out')
    end.

Definition revoke (now : Z) (d : t) : t * list Outbound.t :=
  dispatch (DeliveryEvent.RevokeRequested now) (set_pending (Some PendingStop.Revoked) d).

(** Everything a host can do to a driver. *)
Inductive call : Set :=
| Message (inbound : Inbound.t)
| Tick (now : Z)
| Revoke (now : Z).

Definition step (d : t) (c : call) : t * list Outbound.t :=
  match c with
  | Message inbound => handle_message inbound d
  | Tick now => tick now d
  | Revoke now => revoke now d
  end.

Definition price_wf (p : PriceVector.t) : Prop := 0 <= PriceVector.per_second_millis p.

(** The driver mirrors an engine that holds its grant. *)
Definition wf (d : t) : Prop :=
  DeliveryEngine.wf (engine d) /\
  BudgetGuard.grant <$> DeliveryEngine.guard (engine d) = Some (grant d) /\
  0 <= Progress.cost_millis_total (last d) /\ price_wf (price d).

Definition is_money (o : Outbound.t) : bool :=
  match o with Outbound.Settle _ _ | Outbound.Refund _ _ => true | _ => false end.
Definition money (out : list Outbound.t) : list Outbound.t :=
  filter (fun o => is_money o = true) out.
#[global] Arguments money : simpl never.

(** The grant's settlement for a final cost, on the wire side. *)
Definition payout (g : Grant.t) (cost : Z) : list Outbound.t :=
  let amount := Z.min (Z.min cost (Grant.deposit_millis g)) (Grant.money_cap g) in
  [Outbound.Settle (Grant.nonce g) amount;
   Outbound.Refund (Grant.nonce g) (Grant.deposit_millis g - amount)].
End ChargerDriver.

(** ** The simulated device *)

Module MockCharger.
Record t : Set := mk { window : option (Z * Z) }.
Definition new : t := mk None.

(** [None] refuses a double start. *)
Definition start (now end_epoch_sec : Z) (m : t) : t * option string :=
  if is_some (window m) then (m, None)
  else (mk (Some (now, wrap_u64 (end_epoch_sec * 1000))), Some "start-acked"%string).
Definition stop (m : t) : t := mk None.
Definition pump (now : Z) (m : t) : t * option string :=
  match window m with
  | Some (_, ends_at) =>
      if ends_at <=? now then (mk None, Some "countdown-finished"%string) else (m, None)
  | None => (m, None)
  end.
Definition is_idle (m : t) : bool := negb (is_some (window m)).
End MockCharger.

(** ** Lemmas *)

Section charger.
Import ChargerDriver.

Lemma money_app a b : money (a ++ b) = money a ++ money b.
Proof. apply filter_app. Qed.

(** Executing actions changes nothing but the pending stop. *)
Definition same_core (d d' : t) : Prop :=
  device d' = device d /\ engine d' = engine d /\ price d' = price d /\ grant d' = grant d /\
  acked_at d' = acked_at d /\ last d' = last d.

#[export] Instance same_core_preorder : PreOrder same_core.
Proof. split; unfold same_core; red; intuition congruence. Qed.

Lemma execute_core d a : same_core d (execute d a).1.
Proof. unfold execute, same_core. destruct a; cbn; try done. by destruct (pending_stop d). Qed.

Lemma run_execute_core d acts : same_core d (run execute d acts).1.
Proof.
  destruct (run execute d acts) as [d' out] eqn:E. cbn.
  eapply (run_invariant execute (same_core d)); [|reflexivity|exact E].
  intros s i H. etransitivity; [exact H|apply execute_core].
Qed.

Definition is_money_action (a : DeliveryAction.t) : bool :=
  match a with
  | DeliveryAction.SettleDelivery _ _ | DeliveryAction.RefundChange _ _ => true
  | _ => false
  end.

Lemma run_execute_no_money d acts :
  DeliveryEngine.settlements acts = 0%nat ->
  (forall n a, DeliveryAction.RefundChange n a ∉ acts) ->
  money (run execute d acts).2 = [].
Proof.
  revert d. induction acts as [|a acts IH]; intros d Hs Hr; [done|].
  change (a :: acts) with ([a] ++ acts) in Hs. rewrite settlements_app in Hs.
  cbn [run]. destruct (execute d a) as [d1 o1] eqn:E.
  specialize (IH d1). destruct (run execute d1 acts) as [d2 o2]. cbn in *.
  rewrite money_app, IH, app_nil_r; [|lia|intros n x Hx; apply (Hr n x); by right].
  destruct a as [n|n x|n x|n x]; cbn in E.
  - injection E as <- <-. done.
  - done.
  - destruct (Hr n x). by left.
  - by injection E as <- <-.
Qed.

Lemma run_execute_settlement d g cost :
  run execute d (DeliveryEngine.settlement g cost) = (d, payout g cost).
Proof. done. Qed.

(** What dispatching one event does: nothing in money terms, or the payout of the
    driver's own grant, which finishes the engine. *)
Lemma dispatch_cases event d :
  wf d -> DeliveryEngine.event_wf event ->
  let r := dispatch event d in
  wf r.1 /\ same_core (set_engine (engine r.1) d) r.1 /\
  ((exists cost, 0 <= cost /\ phase d <> DeliveryPhase.Done /\ phase r.1 = DeliveryPhase.Done /\
      r.2 = payout (grant d) cost) \/
   (money r.2 = [] /\ (phase r.1 = DeliveryPhase.Done -> phase d = DeliveryPhase.Done))).
Proof.
  intros (Hw & Hg & Hl & Hp) Hev. unfold dispatch.
  pose proof (handle_cases event (engine d) Hw Hev) as [Hw' Hc].
  destruct (DeliveryEngine.handle event (engine d)) as [e' acts] eqn:E. cbn in Hw', Hc.
  assert (BudgetGuard.grant <$> DeliveryEngine.guard e' = Some (grant d)) as Hg'.
  { pose proof (step_keeps_grant (engine d) event (grant d)) as K.
    unfold DeliveryEngine.step in K. rewrite E in K. apply K; [|done].
    unfold DeliveryEngine.wf in Hw. destruct (DeliveryEngine.guard (engine d)); [apply Hw|done]. }
  pose proof (run_execute_core (set_engine e' d) acts) as Hcore.
  destruct Hc as [(g & cost & Hc & Hne & Hgg & Hd & ->)|(Hs & Hd & Hr)].
  - rewrite run_execute_settlement. cbn. rewrite Hg in Hgg. injection Hgg as <-.
    split; [by split_and!|]. split; [done|]. left. by exists cost.
  - destruct Hcore as (? & He & Hpr & Hgr & ? & Hla).
    split_and!; [unfold wf; rewrite He, Hgr, Hla, Hpr; by split_and!| |right].
    + cbn. unfold same_core. rewrite He. by split_and!.
    + split; [by apply run_execute_no_money|]. unfold phase. rewrite He. exact Hd.
Qed.

Lemma synthesize_cost d now : price_wf (price d) -> 0 <= Progress.cost_millis_total (synthesize d now).
Proof.
  unfold price_wf, synthesize, Millis.since. intros Hp. destruct (acked_at d) as [a|]; [|done].
  cbn. assert (0 <= sat_sub_u64 now a / 1000) by (apply Z.div_pos; ints).
  unfold sat_mul_u64. apply Z.min_glb; [ints|]. by apply Z.mul_nonneg_nonneg.
Qed.

(** A call's effect on the money: as for one dispatch. *)
Definition call_outcome (d : t) (r : t * list Outbound.t) : Prop :=
  wf r.1 /\ grant r.1 = grant d /\
  ((exists cost, 0 <= cost /\ phase d <> DeliveryPhase.Done /\ phase r.1 = DeliveryPhase.Done /\
      money r.2 = payout (grant d) cost) \/
   (money r.2 = [] /\ (phase r.1 = DeliveryPhase.Done <-> phase d = DeliveryPhase.Done))).

Lemma handle_done_stays event e :
  DeliveryEngine.phase e = DeliveryPhase.Done ->
  (forall p, event <> DeliveryEvent.ProgressObserved p) ->
  DeliveryEngine.phase (DeliveryEngine.handle event e).1 = DeliveryPhase.Done.
Proof.
  intros Hd Hn. destruct event; cbn [DeliveryEngine.handle]; [|by destruct (Hn progress)|..];
    unfold DeliveryEngine.on_grant_issued, DeliveryEngine.on_terminal, DeliveryEngine.on_revoke,
      DeliveryEngine.on_tick; rewrite Hd; try done. by destruct (DeliveryEngine.guard e).
Qed.

Lemma dispatch_phase event d :
  phase (dispatch event d).1 = DeliveryEngine.phase (DeliveryEngine.handle event (engine d)).1.
Proof.
  unfold dispatch. destruct (DeliveryEngine.handle event (engine d)) as [e' acts].
  unfold phase. by rewrite (proj1 (proj2 (run_execute_core (set_engine e' d) acts))).
Qed.

Lemma money_payout g cost : money (payout g cost) = payout g cost.
Proof. done. Qed.

(** Any event but progress, dispatched from a core-equal driver, is a good call. *)
Lemma dispatch_outcome event d d0 :
  wf d -> DeliveryEngine.event_wf event -> (forall p, event <> DeliveryEvent.ProgressObserved p) ->
  engine d = engine d0 -> grant d = grant d0 ->
  call_outcome d0 (dispatch event d).
Proof.
  intros Hw Hev Hn He Hg. destruct (dispatch_cases event d Hw Hev) as (Hw' & Hcore & Hc).
  assert (grant (dispatch event d).1 = grant d) as Hgr by apply Hcore.
  split; [done|]. split; [congruence|].
  assert (phase d = phase d0) as Eph by (unfold phase; by rewrite He).
  destruct Hc as [(cost & Hc & Hne & Hd & ->)|[Hm Hd]].
  - left. exists cost. rewrite <- Eph, <- Hg. by split_and!.
  - right. split; [done|]. rewrite <- Eph. split; [done|].
    intros Hdone. rewrite dispatch_phase. by apply handle_done_stays.
Qed.

Lemma call_outcome_step d c : wf d -> call_outcome d (step d c).
Proof.
  intros Hw. pose proof Hw as (Hwe & Hgu & Hl & Hp).
  assert (forall at_, wf (if is_some (pending_stop d) then d else set_last (synthesize d at_) d))
    as Hw1.
  { intros at_. destruct (is_some _); [done|]. split_and!; try done. by apply synthesize_cost. }
  destruct c as [[at_|at_ raw|at_ raw]|now|now]; cbn [step handle_message].
  - split; [by split_and!|]. split; [done|]. by right.
  - apply dispatch_outcome; [apply Hw1| |done|by destruct (is_some _)..]. apply Hw1.
  - apply dispatch_outcome; [apply Hw1| |done|by destruct (is_some _)..]. apply Hw1.
  - unfold tick. case_decide as Hd; [split; [done|]; split; [done|]; by right|].
    destruct (pending_stop d) as [reason|] eqn:Es.
    + by apply dispatch_outcome.
    + set (d1 := set_last (synthesize d now) d).
      assert (wf d1) as Hwd1 by (split_and!; try done; by apply synthesize_cost).
      destruct (dispatch_cases (DeliveryEvent.ProgressObserved (last d1)) d1 Hwd1)
        as (Hw2 & Hcore & Hc); [apply Hwd1|].
      destruct (dispatch (DeliveryEvent.ProgressObserved (last d1)) d1) as [d2 out] eqn:E2.
      cbn in Hw2, Hcore, Hc.
      assert (phase d2 <> DeliveryPhase.Done /\ money out = []) as [Hnd Hm].
      { destruct Hc as [(cost & _ & _ & Hd2 & Hout)|[Hm Hd2]]; [|split; [tauto|done]].
        exfalso. pose proof (dispatch_phase (DeliveryEvent.ProgressObserved (last d1)) d1) as Hph.
        rewrite E2 in Hph. cbn [fst] in Hph. rewrite Hd2 in Hph.
        cbn [DeliveryEngine.handle] in Hph. unfold DeliveryEngine.on_progress in Hph.
        destruct (DeliveryEngine.guard (engine d1)) as [gu|]; [|by apply Hd].
        destruct (BudgetGuard.apply gu (last d1)) as [gu' [[k|]|x]]; cbn in Hph; done. }
      assert (grant d2 = grant d) as Hg2 by apply Hcore.
      destruct (dispatch_outcome (DeliveryEvent.Tick now) d2 d2 Hw2) as (Hw3 & Hg3 & Hc3); try done.
      destruct (dispatch (DeliveryEvent.Tick now) d2) as [d3 out']. cbn in *.
      split; [done|]. split; [exact (eq_trans Hg3 Hg2)|]. cbn [fst snd].
      rewrite money_app, Hm.
      destruct Hc3 as [(cost & ? & ? & ? & Hmo)|[Hmo Hi]]; [left|right].
      * exists cost. rewrite <- Hg2. by split_and!.
      * split; [done|]. tauto.
  - by apply dispatch_outcome.
Qed.

(** A whole run from a good driver: at most one payout, and exactly one iff the
    engine has finished. *)
Lemma run_outcome d calls :
  wf d ->
  let r := run step d calls in
  wf r.1 /\ grant r.1 = grant d /\
  ((exists cost, 0 <= cost /\ phase d <> DeliveryPhase.Done /\ phase r.1 = DeliveryPhase.Done /\
      money r.2 = payout (grant d) cost) \/
   (money r.2 = [] /\ (phase r.1 = DeliveryPhase.Done <-> phase d = DeliveryPhase.Done))).
Proof.
  revert d. induction calls as [|c calls IH]; intros d Hw.
  { split; [done|]. split; [done|]. by right. }
  destruct (call_outcome_step d c Hw) as (Hw1 & Hg1 & H1). cbn [run].
  destruct (step d c) as [d1 o1]. cbn [fst snd] in *.
  destruct (IH d1 Hw1) as (Hw2 & Hg2 & H2). destruct (run step d1 calls) as [d2 o2].
  cbn [fst snd] in *. split; [done|]. split; [by rewrite Hg2|]. rewrite money_app.
  destruct H1 as [(c1 & ? & ? & ? & ->)|[-> Hi]], H2 as [(c2 & ? & ? & ? & ->)|[-> Hi2]].
  - done.
  - left. exists c1. rewrite app_nil_r. split_and!; try done. by apply Hi2.
  - left. exists c2. rewrite Hg1. split_and!; try done. tauto.
  - right. split; [done|]. by rewrite Hi2.
Qed.

Lemma open_wf device g price now :
  Grant.wf g -> price_wf price -> wf (open device g price now).1.
Proof. intros Hg Hp. cbn. split_and!; [|done|done|done]. unfold DeliveryEngine.wf. cbn. by split_and!. Qed.

(** The dispatch of a progress sample that a live engine accepts. *)
Lemma dispatch_progress d g p :
  DeliveryEngine.guard (engine d) = Some g -> progress_le (BudgetGuard.last g) p ->
  dispatch (DeliveryEvent.ProgressObserved p) d =
    let g' := BudgetGuard.mk (BudgetGuard.grant g) p in
    let d' := set_engine (DeliveryEngine.mk DeliveryPhase.Delivering (Some g')) d in
    if is_some (BudgetGuard.exhausted g')
    then execute d' (DeliveryAction.StopDelivery (DeliveryEngine.nonce (engine d)))
    else (d', []).
Proof.
  intros Eg (H1 & H2 & H3). unfold dispatch. cbn [DeliveryEngine.handle].
  unfold DeliveryEngine.on_progress, BudgetGuard.apply. rewrite Eg.
  rewrite !(proj2 (Z.ltb_ge _ _)) by done. cbn [orb].
  destruct (BudgetGuard.exhausted _); cbn [is_some]; [|done].
  cbn [run]. destruct (execute _ _). by rewrite app_nil_r.
Qed.

(** The lease is still running: a tick of the engine emits nothing. *)
Lemma dispatch_tick_early d g now :
  DeliveryEngine.guard (engine d) = Some g ->
  now < Lease.expires_at (Grant.lease (BudgetGuard.grant g)) ->
  dispatch (DeliveryEvent.Tick now) d = (d, []).
Proof.
  intros Eg Hn. unfold dispatch. cbn [DeliveryEngine.handle]. unfold DeliveryEngine.on_tick.
  rewrite Eg, (proj2 (Z.leb_gt _ _)) by done.
  assert (set_engine (engine d) d = d) as E by (by destruct d).
  destruct (DeliveryEngine.phase (engine d)); cbn [run]; by rewrite E.
Qed.

Lemma terminal_settles d report g :
  wf d -> phase d <> DeliveryPhase.Done -> DeliveryEngine.guard (engine d) = Some g ->
  0 <= TerminalReport.cost_millis_total report ->
  dispatch (DeliveryEvent.TerminalObserved report) d =
    (set_engine (DeliveryEngine.mk DeliveryPhase.Done (Some g)) d,
     payout (grant d) (TerminalReport.cost_millis_total report)).
Proof.
  intros (Hw & Hg & _ & _) Hd Eg Hc. unfold dispatch. cbn [DeliveryEngine.handle].
  unfold DeliveryEngine.wf in Hw. rewrite Eg in Hw, Hg. destruct Hw as (Hi & Hgw & _).
  unfold DeliveryEngine.on_terminal, phase in *.
  injection Hg as Hg. rewrite <- Hg.
  destruct (DeliveryEngine.phase (engine d)); try done;
    by rewrite (settle_from_totals_eq _ g) by done.
Qed.
End charger.

(** ** Properties *)

Module ChargerDemo.
Definition grant : Grant.t := time_money_grant 7 100 3600 80 120000.
Definition driver : ChargerDriver.t :=
  (ChargerDriver.open "bay-1" grant (PriceVector.mk 1) 0).1.
Definition calls : list ChargerDriver.call := [
  ChargerDriver.Message (Inbound.GrantAck 0);
  ChargerDriver.Tick 30000; ChargerDriver.Tick 80000; ChargerDriver.Tick 81000;
  ChargerDriver.Message (Inbound.Done 90000 []);
  ChargerDriver.Revoke 95000; ChargerDriver.Tick 130000].
(** A second acknowledgement in the middle of a session. *)
Definition double_ack : list ChargerDriver.call := [
  ChargerDriver.Message (Inbound.GrantAck 0);
  ChargerDriver.Tick 50000;
  ChargerDriver.Message (Inbound.GrantAck 50000);
  ChargerDriver.Message (Inbound.Aborted 59000 [])].
End ChargerDemo.

(** C13: a charging session pays out at most once, and never leaks. Whatever
    sequence of device messages, ticks and revocations the host feeds a driver, in
    whatever order and with whatever timestamps, the money commands it emits are
    none, or exactly one settlement and one refund of its own grant, which add up to
    the deposit and respect the money cap; and it has paid out exactly when its
    engine is [Done]. *)
Theorem driver_pays_once device g price now calls :
  Grant.wf g -> ChargerDriver.price_wf price ->
  let d := (ChargerDriver.open device g price now).1 in
  let r := run ChargerDriver.step d calls in
  (ChargerDriver.money r.2 = [] /\ ChargerDriver.phase r.1 <> DeliveryPhase.Done) \/
  (ChargerDriver.phase r.1 = DeliveryPhase.Done /\
   exists amount, ChargerDriver.money r.2 =
       [Outbound.Settle (Grant.nonce g) amount;
        Outbound.Refund (Grant.nonce g) (Grant.deposit_millis g - amount)] /\
     0 <= amount <= Grant.deposit_millis g /\ amount <= Grant.money_cap g).
Proof.
  intros Hg Hp d r.
  destruct (run_outcome d calls (open_wf device g price now Hg Hp)) as (_ & _ & H).
  change (ChargerDriver.grant d) with g in H.
  destruct H as [(cost & Hc & _ & Hd & Hm)|[Hm Hd]]; [right|left].
  - split; [exact Hd|]. eexists. split; [exact Hm|]. destruct Hg as (? & ? & _). lia.
  - split; [exact Hm|]. intros E. by apply Hd in E.
Qed.

Lemma driver_pays_once_witness :
  let r := run ChargerDriver.step ChargerDemo.driver ChargerDemo.calls in
  ChargerDriver.money r.2 = [Outbound.Settle 7 80; Outbound.Refund 7 20] /\
  exists amount, ChargerDriver.money r.2 = [Outbound.Settle 7 amount; Outbound.Refund 7 (100 - amount)] /\
     0 <= amount <= 100 /\ amount <= 80.
Proof.
  intros r. split; [vm_compute; reflexivity|].
  destruct (driver_pays_once "bay-1" ChargerDemo.grant (PriceVector.mk 1) 0 ChargerDemo.calls)
    as [[_ K]|[_ K]].
  - vm_compute. repeat split; congruence.
  - vm_compute. congruence.
  - destruct K. vm_compute. reflexivity.
  - exact K.
Defined.

(** C36: a cap is enforced within two ticks. If a tick before the lease deadline
    synthesizes a reading that reaches the time cap or the money cap, that tick
    publishes a stop, and the next tick, however late, pays out the cost at that
    reading, clamped to deposit and money cap, and finishes. *)
Theorem cap_stops_and_settles d g now now' :
  ChargerDriver.wf d -> ChargerDriver.phase d <> DeliveryPhase.Done ->
  ChargerDriver.pending_stop d = None ->
  DeliveryEngine.guard (ChargerDriver.engine d) = Some g ->
  let p := ChargerDriver.synthesize d now in
  progress_le (BudgetGuard.last g) p ->
  is_Some (BudgetGuard.exhausted (BudgetGuard.mk (BudgetGuard.grant g) p)) ->
  now < Lease.expires_at (Grant.lease (BudgetGuard.grant g)) ->
  let r1 := ChargerDriver.tick now d in
  let r2 := ChargerDriver.tick now' r1.1 in
  r1.2 = [Outbound.PublishStop (ChargerDriver.device d)] /\
  r2.2 = ChargerDriver.payout (ChargerDriver.grant d) (Progress.cost_millis_total p) /\
  ChargerDriver.phase r2.1 = DeliveryPhase.Done.
Proof.
  intros Hw Hd Hs Eg p Hle [k Hk] Hn. cbv zeta.
  assert (0 <= Progress.cost_millis_total p) as Hc by (apply synthesize_cost; apply Hw).
  set (d1 := ChargerDriver.set_last p d).
  set (g' := BudgetGuard.mk (BudgetGuard.grant g) p) in *.
  set (d2 := ChargerDriver.set_engine (DeliveryEngine.mk DeliveryPhase.Delivering (Some g')) d1).
  assert (exists s, ChargerDriver.tick now d =
    (ChargerDriver.set_pending (Some s) d2, [Outbound.PublishStop (ChargerDriver.device d)])) as [s E1].
  { unfold ChargerDriver.tick. rewrite decide_False, Hs by done.
    cbv zeta. fold p. fold d1. change (ChargerDriver.last d1) with p.
    rewrite (dispatch_progress d1 g p Eg Hle). cbv zeta. fold g'. rewrite Hk. cbn [is_some].
    unfold ChargerDriver.execute. cbn [ChargerDriver.pending_stop ChargerDriver.set_engine d1
      ChargerDriver.set_last]. fold d1. rewrite Hs. fold d2.
    eexists. rewrite (dispatch_tick_early _ g') by done. reflexivity. }
  rewrite E1. cbn [fst snd]. split; [done|].
  set (d3 := ChargerDriver.set_pending (Some s) d2).
  assert (ChargerDriver.tick now' d3 =
    ChargerDriver.dispatch (DeliveryEvent.TerminalObserved (ChargerDriver.terminal d3
      (ChargerDriver.stop_kind s) (Progress.at_ p) None)) (ChargerDriver.set_pending None d3)) as E2
    by (by unfold ChargerDriver.tick; rewrite decide_False).
  rewrite E2. rewrite (terminal_settles _ _ g').
  - split; [done|done].
  - destruct Hw as (He & Hg & _ & Hp). split_and!; [|by rewrite Eg in Hg|done|done].
    unfold DeliveryEngine.wf in *. rewrite Eg in He. cbn. split_and!; try done. apply He.
  - done.
  - done.
  - done.
Qed.

Lemma cap_stops_and_settles_witness :
  let d := (run ChargerDriver.step ChargerDemo.driver
    [ChargerDriver.Message (Inbound.GrantAck 0); ChargerDriver.Tick 30000]).1 in
  (ChargerDriver.tick 80000 d).2 = [Outbound.PublishStop "bay-1"] /\
  (ChargerDriver.tick 81000 (ChargerDriver.tick 80000 d).1).2 =
    [Outbound.Settle 7 80; Outbound.Refund 7 20].
Proof.
  intros d.
  destruct (cap_stops_and_settles d (BudgetGuard.mk ChargerDemo.grant (Progress.mk 0 30 30 30000))
    80000 81000) as (E1 & E2 & _).
  - vm_compute. repeat split; congruence.
  - vm_compute. congruence.
  - vm_compute. reflexivity.
  - vm_compute. reflexivity.
  - vm_compute. repeat split; congruence.
  - vm_compute. eauto.
  - vm_compute. reflexivity.
  - split; [exact E1|]. etransitivity; [exact E2|]. vm_compute. reflexivity.
Defined.

(** The device's window closes inside the lease. The deadline published when a
    session opens makes the device stop no later than the lease's expiry, and less
    than two seconds before it, so the device's own [done] message comes before a
    tick can lapse the lease. *)
Theorem device_window_within_lease device g price now :
  is_u64 now -> is_u64 (Lease.expires_at (Grant.lease g)) ->
  now <= Lease.expires_at (Grant.lease g) ->
  exists end_epoch_sec,
    (ChargerDriver.open device g price now).2 = [Outbound.PublishStart device end_epoch_sec] /\
    exists ends_at,
      MockCharger.window (MockCharger.start now end_epoch_sec MockCharger.new).1 =
        Some (now, ends_at) /\
      ends_at <= Lease.expires_at (Grant.lease g) < ends_at + 2000 /\
      (forall t, (MockCharger.pump t (MockCharger.start now end_epoch_sec MockCharger.new).1).2 =
         if ends_at <=? t then Some "countdown-finished"%string else None).
Proof.
  intros Hn He Hle. set (exp := Lease.expires_at (Grant.lease g)) in *.
  eexists. split; [reflexivity|].
  unfold lease_seconds_remaining. fold exp.
  assert (sat_sub_u64 exp now = exp - now) as -> by ints.
  assert (0 <= now / 1000 /\ 0 <= (exp - now) / 1000) as [? ?]
    by (split; apply Z.div_pos; lia).
  assert (exp - 2000 < (now / 1000 + (exp - now) / 1000) * 1000 <= exp) as Hr
    by (Z.div_mod_to_equations; lia).
  rewrite (wrap_u64_id (now / 1000 + _)) by ints.
  exists ((now / 1000 + (exp - now) / 1000) * 1000).
  cbn -[Z.div Z.mul wrap_u]. rewrite wrap_u64_id by ints.
  split; [done|]. split; [lia|]. intros t. unfold MockCharger.pump. cbn -[Z.div Z.mul].
  by destruct (_ <=? t).
Qed.

Lemma device_window_within_lease_witness :
  exists end_epoch_sec,
    (ChargerDriver.open "bay-1" ChargerDemo.grant PRICELESS 1500).2 =
      [Outbound.PublishStart "bay-1" end_epoch_sec] /\
    exists ends_at, MockCharger.window
      (MockCharger.start 1500 end_epoch_sec MockCharger.new).1 = Some (1500, ends_at) /\
      ends_at <= 120000 < ends_at + 2000.
Proof.
  destruct (device_window_within_lease "bay-1" ChargerDemo.grant PRICELESS 1500)
    as (e & E1 & x & E2 & E3 & _).
  - vm_compute. split; congruence.
  - vm_compute. split; congruence.
  - vm_compute. congruence.
  - exists e. split; [exact E1|]. exists x. split; [exact E2|exact E3].
Defined.

(** a departure from "the grant's ack instant is the accrual baseline". A
    repeated acknowledgement moves the baseline: the driver's reading then restarts
    from zero, and although the engine's own journal keeps the higher reading, the
    final report is made from the driver's, so 59 seconds of delivery settle as 9. *)
Theorem repeated_ack_undercharges :
  let r := run ChargerDriver.step ChargerDemo.driver ChargerDemo.double_ack in
  ChargerDriver.money r.2 = [Outbound.Settle 7 9; Outbound.Refund 7 91] /\
  (BudgetGuard.last <$> DeliveryEngine.guard (ChargerDriver.engine r.1)) =
    Some (Progress.mk 0 50 50 50000).
Proof. vm_compute. done. Qed.
