(* ===== verification/External.v ===== *)
(** * The external-provider driver

    Models [crates/tollgate-charger-host/src/external.rs]: delivery metered by a
    third party that can only be called. The provider is the class [ProviderPort],
    one operation per method of the trait [ExternalProviderPort], acting on a state
    of its own; the driver's theorems hold for every provider whose answers are
    numbers of the Rust types. *)

From S2P Require Import Prelude Pricing Delivery.

Module ProviderError.
Inductive t : Set := Refused.
End ProviderError.

Module Receipt.
Record t : Set := mk { cost_millis_total : Z; seconds_total : Z }.
End Receipt.

(** The trait: each call may change the provider's state [P]. *)
Class ProviderPort (P : Type) : Type := {
  quote : Z -> P -> P * Z;
  start : Z -> Z -> P -> P * result Z ProviderError.t;
  poll : Z -> Z -> P -> P * Progress.t;
  stop : Z -> P -> P * Receipt.t
}.

(** The providers' answers are unsigned 64-bit numbers. *)
Class ProviderTyped (P : Type) `{ProviderPort P} : Prop := {
  quote_u64 s p : is_u64 (quote s p).2;
  poll_u64 n t p : 0 <= Progress.cost_millis_total (poll n t p).2;
  stop_u64 n p : 0 <= Receipt.cost_millis_total (stop n p).2
}.

Module ExternalAction.
Inductive t : Set :=
| Settle (nonce amount_millis : Z)
| Refund (nonce amount_millis : Z).
#[export] Instance eq_dec : EqDecision t.
Proof. solve_decision. Defined.
End ExternalAction.
Export (hints) ExternalAction.

Module ExternalDriver.
Record t : Set := mk {
  engine : DeliveryEngine.t;
  grant : Grant.t;
  session : option Z;
  last : Progress.t
}.

Section port.
Context {P : Type} `{ProviderPort P}.

Definition open (nonce max_seconds now lease_ms : Z) (port : P)
    : P * result (t * list ExternalAction.t) ProviderError.t :=
  let '(port, deposit) := quote max_seconds port in
  let '(port, started) := start nonce max_seconds port in
  match started with
  | Err e => (port, Err e)
  | Ok session =>
      let grant := Grant.mk nonce deposit (Caps.mk None (Some max_seconds) None)
        (Lease.mk (wrap_u64 (now + lease_ms))) in
      let engine := (DeliveryEngine.handle (DeliveryEvent.GrantIssued grant) DeliveryEngine.new).1 in
      (port, Ok (mk engine grant (Some session) (Progress.mk 0 0 0 now), []))
  end.

Definition journal (d : t) : Grant.t * Progress.t := (grant d, last d).

Definition resume (grant : Grant.t) (last : Progress.t) (session : Z) : t :=
  mk (DeliveryEngine.resume grant last) grant (Some session) last.

Definition phase (d : t) : DeliveryPhase.t := DeliveryEngine.phase (engine d).

Definition translate (actions : list DeliveryAction.t) : list ExternalAction.t :=
  omap (fun a =>
    match a with
    | DeliveryAction.SettleDelivery nonce amount => Some (ExternalAction.Settle nonce amount)
    | DeliveryAction.RefundChange nonce amount => Some (ExternalAction.Refund nonce amount)
    | _ => None
    end) actions.

Definition tick (now : Z) (d : t) (port : P) : (t * P) * list ExternalAction.t :=
  if decide (phase d = DeliveryPhase.Done) then (d, port, [])
  else
    let '(port, last) :=
      match session d with
      | Some session => poll session now port
      | None => (port, last d)
      end in
    let '(engine1, actions1) :=
      DeliveryEngine.handle (DeliveryEvent.ProgressObserved last) (engine d) in
    let '(engine2, actions2) := DeliveryEngine.handle (DeliveryEvent.Tick now) engine1 in
    (mk engine2 (grant d) (session d) last, port, translate actions1 ++ translate actions2).

Definition stop_delivery (now : Z) (d : t) (port : P) : (t * P) * list ExternalAction.t :=
  if decide (phase d = DeliveryPhase.Done) then (d, port, [])
  else
    let '(port, receipt) :=
      match session d with
      | Some session => let '(port, r) := stop session port in (port, Some r)
      | None => (port, None)
      end in
    let '(cost, seconds) :=
      match receipt with
      | Some r => (Receipt.cost_millis_total r, Receipt.seconds_total r)
      | None => (Progress.cost_millis_total (last d), Progress.seconds_total (last d))
      end in
    let report := TerminalReport.mk TerminalKind.Completed 0 seconds cost now None in
    let '(engine, actions) :=
      DeliveryEngine.handle (DeliveryEvent.TerminalObserved report) (engine d) in
    (mk engine (grant d) None (last d), port, translate actions).

(** What a host does to an open driver. *)
Inductive call : Set := Tick (now : Z) | Stop (now : Z).

Definition step (s : t * P) (c : call) : (t * P) * list ExternalAction.t :=
  match c with
  | Tick now => tick now s.1 s.2
  | Stop now => stop_delivery now s.1 s.2
  end.
End port.

Definition wf (d : t) : Prop :=
  DeliveryEngine.wf (engine d) /\
  BudgetGuard.grant <$> DeliveryEngine.guard (engine d) = Some (grant d) /\
  0 <= Progress.cost_millis_total (last d).

Definition payout (g : Grant.t) (cost : Z) : list ExternalAction.t :=
  let amount := Z.min (Z.min cost (Grant.deposit_millis g)) (Grant.money_cap g) in
  [ExternalAction.Settle (Grant.nonce g) amount;
   ExternalAction.Refund (Grant.nonce g) (Grant.deposit_millis g - amount)].
End ExternalDriver.

(** ** Lemmas *)

Section external.
Import ExternalDriver.
Context {P : Type} `{ProviderTyped P}.

Lemma translate_no_money acts :
  DeliveryEngine.settlements acts = 0%nat ->
  (forall n a, DeliveryAction.RefundChange n a ∉ acts) -> translate acts = [].
Proof.
  induction acts as [|a acts IH]; intros Hs Hr; [done|].
  change (a :: acts) with ([a] ++ acts) in Hs. rewrite settlements_app in Hs.
  assert (translate acts = []) as E.
  { apply IH; [lia|]. intros n x Hx. apply (Hr n x). by right. }
  destruct a as [n|n x|n x|n x]; cbn; fold translate; try exact E.
  - done.
  - destruct (Hr n x). by left.
Qed.

(** One engine event of a driver that holds its grant. *)
Lemma engine_event e g event :
  DeliveryEngine.wf e -> BudgetGuard.grant <$> DeliveryEngine.guard e = Some g ->
  DeliveryEngine.event_wf event ->
  let r := DeliveryEngine.handle event e in
  DeliveryEngine.wf r.1 /\ BudgetGuard.grant <$> DeliveryEngine.guard r.1 = Some g /\
  ((exists cost, 0 <= cost /\ DeliveryEngine.phase e <> DeliveryPhase.Done /\
      DeliveryEngine.phase r.1 = DeliveryPhase.Done /\ translate r.2 = payout g cost) \/
   (translate r.2 = [] /\
     (DeliveryEngine.phase r.1 = DeliveryPhase.Done -> DeliveryEngine.phase e = DeliveryPhase.Done))).
Proof.
  intros Hw Hg Hev. cbv zeta.
  destruct (handle_cases event e Hw Hev) as [Hw' Hc].
  assert (BudgetGuard.grant <$> DeliveryEngine.guard (DeliveryEngine.handle event e).1 = Some g) as Hg'.
  { apply (step_keeps_grant e event g); [|done]. unfold DeliveryEngine.wf in Hw.
    destruct (DeliveryEngine.guard e); [apply Hw|done]. }
  split; [done|]. split; [done|].
  destruct Hc as [(g' & cost & Hc & Hne & Hgg & Hd & ->)|(Hs & Hd & Hr)].
  - left. rewrite Hg in Hgg. injection Hgg as <-. exists cost. by split_and!.
  - right. split; [by apply translate_no_money|done].
Qed.

Lemma progress_stays_live e p :
  DeliveryEngine.phase e <> DeliveryPhase.Done ->
  DeliveryEngine.phase (DeliveryEngine.handle (DeliveryEvent.ProgressObserved p) e).1
    <> DeliveryPhase.Done.
Proof.
  intros Hd. cbn [DeliveryEngine.handle]. unfold DeliveryEngine.on_progress.
  destruct (DeliveryEngine.guard e) as [g|]; [|done].
  by destruct (BudgetGuard.apply g p) as [g' [[k|]|x]].
Qed.

(** What a call did with the money of a grant: the one payout, which finishes the
    engine, or nothing, which leaves it finished or not. *)
Definition pays_at_most_once (g : Grant.t) (before after : ExternalDriver.t) (out : list ExternalAction.t) : Prop :=
  (exists cost, 0 <= cost /\ phase before <> DeliveryPhase.Done /\ phase after = DeliveryPhase.Done /\
     out = payout g cost) \/
  (out = [] /\ (phase after = DeliveryPhase.Done <-> phase before = DeliveryPhase.Done)).

(** A tick's two events: the progress, which moves no money, and the time. *)
Lemma tick_events d now p :
  wf d -> 0 <= Progress.cost_millis_total p -> phase d <> DeliveryPhase.Done ->
  let first := DeliveryEngine.handle (DeliveryEvent.ProgressObserved p) (engine d) in
  let second := DeliveryEngine.handle (DeliveryEvent.Tick now) first.1 in
  let d' := mk second.1 (grant d) (session d) p in
  wf d' /\ pays_at_most_once (grant d) d d' (translate first.2 ++ translate second.2).
Proof.
  intros (Hw & Hg & _) Hp Hd. cbv zeta.
  destruct (engine_event (engine d) (grant d) (DeliveryEvent.ProgressObserved p) Hw Hg Hp) as (W1 & G1 & C1).
  pose proof (progress_stays_live (engine d) p Hd) as L1.
  destruct (DeliveryEngine.handle (DeliveryEvent.ProgressObserved p) (engine d)) as [e1 a1]. cbn [fst snd] in *.
  destruct C1 as [(c & _ & _ & ? & _)|[T1 _]]; [done|]. rewrite T1.
  destruct (engine_event e1 (grant d) (DeliveryEvent.Tick now) W1 G1 I) as (W2 & G2 & C2).
  destruct (DeliveryEngine.handle (DeliveryEvent.Tick now) e1) as [e2 a2]. cbn [fst snd app] in *.
  split; [by split_and!|]. destruct C2 as [(c & ? & ? & ? & T2)|[T2 D2]]; rewrite T2; [left|right].
  - exists c. by split_and!.
  - split; [done|]. split; [intros; by destruct L1; auto|done].
Qed.

(** A stop's event: the provider's receipt. *)
Lemma stop_event d now cost secs :
  wf d -> 0 <= cost -> phase d <> DeliveryPhase.Done ->
  let r := DeliveryEngine.handle (DeliveryEvent.TerminalObserved
             (TerminalReport.mk TerminalKind.Completed 0 secs cost now None)) (engine d) in
  let d' := mk r.1 (grant d) None (last d) in
  wf d' /\ pays_at_most_once (grant d) d d' (translate r.2).
Proof.
  intros (Hw & Hg & Hl) Hc Hd. cbv zeta.
  destruct (engine_event (engine d) (grant d) (DeliveryEvent.TerminalObserved
    (TerminalReport.mk TerminalKind.Completed 0 secs cost now None)) Hw Hg Hc) as (W & G & C).
  destruct (DeliveryEngine.handle _ (engine d)) as [e a]. cbn [fst snd] in *.
  split; [by split_and!|]. destruct C as [(c & ? & ? & ? & T)|[T D]]; rewrite T; [left|right].
  - exists c. by split_and!.
  - split; [done|]. by split.
Qed.

(** What a guard has journalled after a sample: the sample, unless it goes back on what
    was journalled. *)
Lemma journal_after gu p :
  let j := BudgetGuard.last (BudgetGuard.apply gu p).1 in
  (progress_le (BudgetGuard.last gu) p -> j = p) /\ (~ progress_le (BudgetGuard.last gu) p -> j = BudgetGuard.last gu).
Proof.
  unfold progress_le, BudgetGuard.apply. destruct (_ || _) eqn:E; cbn.
  - rewrite !orb_true_iff, !Z.ltb_lt in E. split; [lia|done].
  - rewrite !orb_false_iff, !Z.ltb_ge in E. split; [done|lia].
Qed.

(** The tick of an unfinished driver: it pays when the lease has lapsed, and pays what is
    journalled with this poll. *)
Lemma tick_pays d n now gu (port : P) :
  wf d -> phase d <> DeliveryPhase.Done -> session d = Some n ->
  DeliveryEngine.guard (engine d) = Some gu ->
  (tick now d port).2 =
    if Lease.expires_at (Grant.lease (grant d)) <=? now
    then payout (grant d) (Progress.cost_millis_total
           (BudgetGuard.last (BudgetGuard.apply gu (poll n now port).2).1))
    else [].
Proof.
  intros (Hw & Hg & _) Hd Hs Egu. unfold tick. rewrite decide_False, Hs by done.
  pose proof (poll_u64 n now port) as Hp. destruct (poll n now port) as [port' p]. cbn [fst snd] in *.
  rewrite Egu in Hg. injection Hg as Hg. unfold DeliveryEngine.wf in Hw. rewrite Egu in Hw.
  destruct Hw as (Hi & Hgw & Hl). rewrite Hg in Hgw.
  set (gu' := (BudgetGuard.apply gu p).1).
  assert (exists ph acts, DeliveryEngine.handle (DeliveryEvent.ProgressObserved p) (engine d) =
    (DeliveryEngine.mk ph (Some gu'), acts) /\ translate acts = [] /\
    (ph = DeliveryPhase.Granted \/ ph = DeliveryPhase.Delivering)) as (ph & acts & -> & -> & Hph).
  { cbn [DeliveryEngine.handle]. unfold DeliveryEngine.on_progress. rewrite Egu. unfold gu'.
    unfold phase in Hd. destruct (BudgetGuard.apply gu p) as [g' [[k|]|x]]; do 2 eexists; (split; [done|]);
      (split; [done|]); auto.
    destruct (DeliveryEngine.phase (engine d)); auto; done. }
  assert (BudgetGuard.grant gu' = grant d) as Eg by (unfold gu'; by rewrite apply_grant).
  assert (0 <= Progress.cost_millis_total (BudgetGuard.last gu')) as Hc.
  { unfold gu', BudgetGuard.apply. by destruct (_ || _). }
  assert (DeliveryEngine.on_tick now (DeliveryEngine.mk ph (Some gu')) =
    if Lease.expires_at (Grant.lease (grant d)) <=? now
    then DeliveryEngine.settle_from_totals (Progress.cost_millis_total (BudgetGuard.last gu'))
           (DeliveryEngine.mk ph (Some gu'))
    else (DeliveryEngine.mk ph (Some gu'), [])) as Et
    by (unfold DeliveryEngine.on_tick; cbn; rewrite Eg; by destruct Hph as [-> | ->]).
  cbn [DeliveryEngine.handle app]. rewrite Et. destruct (_ <=? now); [|done].
  rewrite (settle_from_totals_eq _ gu') by (done || by rewrite Eg). rewrite Eg. done.
Qed.

(** The stop of an unfinished driver pays the receipt. *)
Lemma stop_pays d n now (port : P) :
  wf d -> phase d <> DeliveryPhase.Done -> session d = Some n ->
  (stop_delivery now d port).2 = payout (grant d) (Receipt.cost_millis_total (stop n port).2).
Proof.
  intros (Hw & Hg & _) Hd Hs. unfold stop_delivery. rewrite decide_False, Hs by done.
  pose proof (stop_u64 n port) as Hst. destruct (stop n port) as [port2 rc]. cbn [fst snd] in *.
  destruct (DeliveryEngine.guard (engine d)) as [gu|] eqn:Eg; [|done]. injection Hg as Hg.
  cbn [DeliveryEngine.handle]. unfold DeliveryEngine.on_terminal.
  unfold DeliveryEngine.wf in Hw. rewrite Eg in Hw. destruct Hw as (Hi & Hgw & _). unfold phase in Hd.
  assert (DeliveryEngine.settle_from_totals (Receipt.cost_millis_total rc) (engine d) =
    (DeliveryEngine.mk DeliveryPhase.Done (Some gu),
     DeliveryEngine.settlement (grant d) (Receipt.cost_millis_total rc))) as Es
    by (rewrite (settle_from_totals_eq _ gu) by done; by rewrite Hg).
  destruct (DeliveryEngine.phase (engine d)); [done| | |done];
    cbn [TerminalReport.cost_millis_total]; by rewrite Es.
Qed.

Lemma external_call s c :
  wf s.1 ->
  let r := step s c in
  wf r.1.1 /\ grant r.1.1 = grant s.1 /\ pays_at_most_once (grant s.1) s.1 r.1.1 r.2.
Proof.
  destruct s as [d port]. cbn [fst]. intros Hw. cbv zeta. assert (0 <= Progress.cost_millis_total (last d)) as Hl by apply Hw.
  destruct c as [now|now]; cbn [step fst snd]; unfold tick, stop_delivery;
    (case_decide as Hd; [split_and!; try done; by right|]).
  - assert (0 <= Progress.cost_millis_total
      (match session d with Some n => poll n now port | None => (port, last d) end).2) as Hp
      by (destruct (session d) as [n|]; [exact (poll_u64 n now port)|done]).
    destruct (match session d with Some n => _ | None => _ end) as [port' p].
    pose proof (tick_events d now p Hw Hp Hd) as K. cbv zeta in K.
    destruct (DeliveryEngine.handle (DeliveryEvent.ProgressObserved p) (engine d)) as [e1 a1]. cbn [fst snd] in K.
    destruct (DeliveryEngine.handle (DeliveryEvent.Tick now) e1) as [e2 a2]. by destruct K.
  - destruct (session d) as [n|]; [pose proof (stop_u64 n port) as Hs; destruct (stop n port) as [port' rc]|];
      cbn [fst snd] in *;
      [pose proof (stop_event d now (Receipt.cost_millis_total rc) (Receipt.seconds_total rc) Hw Hs Hd) as K
      |pose proof (stop_event d now _ (Progress.seconds_total (last d)) Hw Hl Hd) as K];
      cbv zeta in K; destruct (DeliveryEngine.handle _ (engine d)) as [e a]; by destruct K.
Qed.

Lemma external_run s calls :
  wf s.1 ->
  let r := run step s calls in
  pays_at_most_once (grant s.1) s.1 r.1.1 r.2.
Proof.
  revert s. induction calls as [|c calls IH]; intros s Hw; [by right|].
  destruct (external_call s c Hw) as (Hw1 & Hg1 & H1). cbn [run].
  destruct (step s c) as [s1 o1]. cbn [fst snd] in *. specialize (IH s1 Hw1).
  destruct (run step s1 calls) as [s2 o2]. cbn [fst snd] in *. rewrite Hg1 in IH.
  destruct H1 as [(c1 & ? & ? & ? & ->)|[-> Hi]], IH as [(c2 & ? & ? & ? & ->)|[-> Hi2]].
  - done.
  - left. exists c1. rewrite app_nil_r. split_and!; try done. by apply Hi2.
  - left. exists c2. split_and!; try done. tauto.
  - right. split; [done|]. by rewrite Hi2.
Qed.
End external.

(** ** A provider, for the witnesses *)

Module ParkingDemo.
(** Bills one milli-unit per second and never stops counting on its own. *)
Record state : Set := mk { running : bool; now_s : Z }.
#[export] Instance port : ProviderPort state := {|
  quote max_seconds p := (p, wrap_u64 max_seconds);
  start nonce max_seconds p := (mk true (now_s p), Ok 42);
  poll session now p :=
    let s := Z.max 0 (now / 1000) in (mk (running p) s, Progress.mk 0 s s now);
  stop session p := (mk false (now_s p), Receipt.mk (Z.max 0 (now_s p)) (now_s p))
|}.
#[export] Instance typed : ProviderTyped state.
Proof.
  split; intros; cbn; [apply wrap_u64_range|lia|lia].
Qed.
Definition calls : list ExternalDriver.call := [
  ExternalDriver.Tick 30000; ExternalDriver.Tick 90000; ExternalDriver.Tick 100000;
  ExternalDriver.Stop 100500; ExternalDriver.Tick 101000; ExternalDriver.Stop 102000].
End ParkingDemo.
Export (hints) ParkingDemo.

(** ** Properties *)

(** C35: an external session settles at most once, from the provider's receipt or the
    journal. For every provider, if [open] succeeds then whatever sequence of ticks
    and stops follows, the driver emits nothing, or exactly one settlement and one
    refund, which add up to the quoted deposit; the deposit is the provider's quote,
    and the nonce the one the host chose. A stop of an unfinished session settles the
    receipt's cost, clamped to the deposit. A tick of one settles only when the lease has
    lapsed, and then the cost that is journalled, clamped to the deposit: that of the
    provider's answer to this very poll, or, if that goes back on what was journalled,
    that of the last answer that did not. *)
Theorem external_settles_once {P : Type} `{ProviderTyped P}
    nonce max_seconds now lease_ms (port port1 : P) d acts calls :
  ExternalDriver.open nonce max_seconds now lease_ms port = (port1, Ok (d, acts)) ->
  let deposit := (quote max_seconds port).2 in
  let paid cost := [ExternalAction.Settle nonce (Z.min cost deposit);
                    ExternalAction.Refund nonce (deposit - Z.min cost deposit)] in
  let r := run ExternalDriver.step (d, port1) calls in
  acts = [] /\
  (r.2 = [] \/ exists amount,
     r.2 = [ExternalAction.Settle nonce amount; ExternalAction.Refund nonce (deposit - amount)] /\
     0 <= amount <= deposit) /\
  (forall n at_, ExternalDriver.phase r.1.1 <> DeliveryPhase.Done ->
     ExternalDriver.session r.1.1 = Some n ->
     (ExternalDriver.step r.1 (ExternalDriver.Stop at_)).2 =
       paid (Receipt.cost_millis_total (stop n r.1.2).2) /\
     exists guard journal, DeliveryEngine.guard (ExternalDriver.engine r.1.1) = Some guard /\
       let answer := (poll n at_ r.1.2).2 in
       (progress_le (BudgetGuard.last guard) answer -> journal = answer) /\
       (~ progress_le (BudgetGuard.last guard) answer -> journal = BudgetGuard.last guard) /\
       (ExternalDriver.step r.1 (ExternalDriver.Tick at_)).2 =
         if wrap_u64 (now + lease_ms) <=? at_ then paid (Progress.cost_millis_total journal) else []).
Proof.
  unfold ExternalDriver.open. pose proof (quote_u64 max_seconds port) as Hq.
  destruct (quote max_seconds port) as [p1 deposit]. cbn [fst snd] in *.
  destruct (start nonce max_seconds p1) as [p2 [sess|err]]; [|done].
  intros [= <- <- <-]. set (g := Grant.mk _ _ _ _). set (d := ExternalDriver.mk _ _ _ _).
  assert (Grant.wf g) as Hg.
  { split_and!; cbn; [apply Hq|apply Hq|ints|ints|..]; apply wrap_u64_range. }
  assert (ExternalDriver.wf d) as Hw by (split_and!; try done; unfold DeliveryEngine.wf; cbn; by split_and!).
  cbv zeta. split; [done|].
  pose proof (external_run (d, p2) calls Hw) as Hrun.
  assert (Hinv : ExternalDriver.wf (run ExternalDriver.step (d, p2) calls).1.1 /\
    ExternalDriver.grant (run ExternalDriver.step (d, p2) calls).1.1 = g).
  { destruct (run ExternalDriver.step (d, p2) calls) as [s' os] eqn:E.
    refine (run_invariant ExternalDriver.step
      (fun s => ExternalDriver.wf s.1 /\ ExternalDriver.grant s.1 = g) _ _ _ _ _ _ E); [|done].
    intros s i [W G]. destruct (external_call s i W) as (W' & G' & _). split; [done|congruence]. }
  destruct (run ExternalDriver.step (d, p2) calls) as [[d' port'] out]. cbn [fst snd] in *.
  assert (forall cost, Z.min (Z.min cost deposit) (Grant.money_cap g) = Z.min cost deposit) as Hmin
    by (intros; cbn; ints).
  split.
  - destruct Hrun as [(cost & Hc & _ & _ & ->)|[-> _]]; [right|by left].
    unfold ExternalDriver.payout. cbn [ExternalDriver.grant d Grant.nonce Grant.deposit_millis g].
    fold g. rewrite Hmin. eexists. split; [reflexivity|]. ints.
  - destruct Hinv as [Wd Gd]. intros n at_ Hnd Hs. cbn [ExternalDriver.step fst snd].
    pose proof (proj1 (proj2 Wd)) as Gr. destruct (DeliveryEngine.guard (ExternalDriver.engine d')) as [gu|] eqn:Eg; [|done].
    rewrite (stop_pays d' n) by done. unfold ExternalDriver.payout. rewrite Gd, Hmin. split; [done|].
    destruct (journal_after gu (poll n at_ port').2) as [J1 J2].
    do 2 eexists. split; [done|]. split; [exact J1|]. split; [exact J2|].
    rewrite (tick_pays d' n at_ gu) by done. unfold ExternalDriver.payout. rewrite Gd, Hmin. done.
Qed.

Lemma external_settles_once_witness :
  exists d port1, ExternalDriver.open 9 60 0 3600000 (ParkingDemo.mk false 0) = (port1, Ok (d, [])) /\
    (run ExternalDriver.step (d, port1) ParkingDemo.calls).2 =
      [ExternalAction.Settle 9 60; ExternalAction.Refund 9 0] /\
    exists amount, (run ExternalDriver.step (d, port1) ParkingDemo.calls).2 =
      [ExternalAction.Settle 9 amount; ExternalAction.Refund 9 (60 - amount)] /\ 0 <= amount <= 60.
Proof.
  destruct (ExternalDriver.open 9 60 0 3600000 (ParkingDemo.mk false 0)) as [port1 [[d acts]|e]] eqn:E;
    [|vm_compute in E; discriminate].
  destruct (external_settles_once 9 60 0 3600000 (ParkingDemo.mk false 0) port1 d acts
    ParkingDemo.calls E) as (-> & K & _).
  vm_compute in E. injection E as <- <-.
  exists (ExternalDriver.mk (DeliveryEngine.mk DeliveryPhase.Granted (Some (BudgetGuard.mk
    (Grant.mk 9 60 (Caps.mk None (Some 60) None) (Lease.mk 3600000)) Progress.default)))
    (Grant.mk 9 60 (Caps.mk None (Some 60) None) (Lease.mk 3600000)) (Some 42) (Progress.mk 0 0 0 0)),
    (ParkingDemo.mk true 0).
  split; [reflexivity|]. split; [vm_compute; reflexivity|].
  destruct K as [K|K]; [vm_compute in K; discriminate|exact K].
Defined.

(** a departure from "delivers up to three caps, whichever hits first". The
    engine's stop command is dropped by [translate], so a provider session that has
    passed its time cap is polled but never stopped: here the cap is 60 seconds, and
    after ticks at 90 and 100 seconds the session is still running and nothing has
    been emitted. *)
Theorem time_cap_never_stops_provider :
  exists d port1, ExternalDriver.open 9 60 0 3600000 (ParkingDemo.mk false 0) = (port1, Ok (d, [])) /\
    let r := run ExternalDriver.step (d, port1) (take 3 ParkingDemo.calls) in
    r.2 = [] /\ ParkingDemo.running r.1.2 = true /\
    (BudgetGuard.exhausted <$> DeliveryEngine.guard (ExternalDriver.engine r.1.1)) =
      Some (Some TerminalKind.CapSeconds).
Proof. do 2 eexists. split; [vm_compute; reflexivity|]. vm_compute. done. Qed.
