(* ===== verification/Wallet.v ===== *)
(** * The bootstrap wallet

    Models [crates/tollgate-net/src/wallet.rs]: verification of plain Cashu tokens
    and the local record of the proofs that were credited, in memory and in a file whose
    every append may fail or be cut short, and which may be unreadable at a restart. Token parsing (the
    [cashu] crate), URL parsing (the [url] crate), the mint's answers and the CDK
    wallet are parameters. [verify] is the function as one uninterrupted call; the
    step relation at the end splits it at its awaits, where other calls run. *)

From stdpp Require Import pretty.
From S2P Require Import Prelude.

(** ** Strings *)

Fixpoint drop_while {A} (p : A -> bool) (l : list A) : list A :=
  match l with
  | [] => []
  | x :: l' => if p x then drop_while p l' else l
  end.

(** The character [/]. *)
Definition slash : Ascii.ascii := Ascii.ascii_of_N 47.

(** [s.trim_end_matches(c)]. *)
Definition trim_end_matches (c : Ascii.ascii) (s : string) : string :=
  String.string_of_list_ascii (rev (drop_while (fun x => bool_decide (x = c))
    (rev (String.list_ascii_of_string s)))).

Definition ascii_lower (c : Ascii.ascii) : Ascii.ascii :=
  let n := Ascii.N_of_ascii c in
  if ((65 <=? n) && (n <=? 90))%N then Ascii.ascii_of_N (n + 32) else c.
(** [to_lowercase] on a host name, which the [url] crate keeps in ASCII. *)
Definition to_lowercase (s : string) : string :=
  String.string_of_list_ascii (map ascii_lower (String.list_ascii_of_string s)).

(** Rust's [char::is_whitespace] on ASCII. *)
Definition is_whitespace (c : Ascii.ascii) : bool :=
  let n := Ascii.N_of_ascii c in ((9 <=? n) && (n <=? 13) || (n =? 32))%N.
(** [l.trim()]. *)
Definition trim (s : string) : string :=
  String.string_of_list_ascii (rev (drop_while is_whitespace (rev
    (drop_while is_whitespace (String.list_ascii_of_string s))))).

(** ** Third-party parsers *)

(** [url::Url], as far as it is used. *)
Record Url : Set := mkUrl {
  url_scheme : string;
  url_host : option string;
  url_port : option Z;
  url_path : string
}.

(** [cashu::nuts::Token]: each entry's proofs, by their [C] value in hex. *)
Record TokenEntry : Set := mkEntry { proofs : list string }.
Inductive Token : Set :=
| TokenV3 (token : list TokenEntry)
| TokenV4 (token : list TokenEntry).

(** Parsing, the token's mint and its total value. *)
Class Cashu : Type := {
  parse_token : string -> option Token;
  token_mint_url : Token -> option string;
  token_value : Token -> option Z
}.

Class UrlParser : Type := url_parse : string -> option Url.

(** The mint's [/v1/checkstate] answer: [None] is a failed request or a body that
    is not JSON; then the [states] array, if any, with each entry's [state]. *)
Definition CheckState : Type := string -> list string -> option (option (list (option string))).

(** [cdk::wallet::WalletRepository]: [receive token_mint token] swaps the token at
    its mint. *)
Record WalletRepository : Type := mkRepo {
  get_wallet : string -> bool;
  receive : string -> string -> result Z string
}.

(** ** The wallet *)

Definition token_proof_ys (token : Token) : list string :=
  match token with
  | TokenV3 t => t ≫= proofs
  | TokenV4 t => t ≫= proofs
  end.

Definition normalize_mint_url `{UrlParser} (url : string) : string :=
  let normalized := trim_end_matches slash url in
  match url_parse normalized with
  | Some parsed =>
      let scheme := url_scheme parsed in
      let host := to_lowercase (unwrap_or (url_host parsed) EmptyString) in
      let path := trim_end_matches slash (url_path parsed) in
      match url_port parsed with
      | Some p =>
          if (bool_decide (scheme = "https"%string) && (p =? 443))
             || (bool_decide (scheme = "http"%string) && (p =? 80))
          then (scheme +:+ "://" +:+ host +:+ path)%string
          else (scheme +:+ "://" +:+ host +:+ ":" +:+ pretty p +:+ path)%string
      | None => (scheme +:+ "://" +:+ host +:+ path)%string
      end
  | None => normalized
  end.

(** Why [verify] refuses. *)
Inductive verify_error : Set :=
| InvalidToken | NoProofs | AlreadySpent (y : string) | NoMintUrl | NoWallet
| RejectedByMint | MintNotAccepted | NoValue | MintUnavailable | MissingStates
| ProofSpentAtMint.
#[export] Instance verify_error_eq_dec : EqDecision verify_error.
Proof. solve_decision. Defined.

Module BootstrapWallet.
(** What comes of an append: the file does not open, or each line is written whole, or
    only its first bytes are. *)
Inductive append_outcome : Type :=
| NotOpened
| Opened (cut : nat -> option nat).

(** The file of spent proofs: what it holds, the appends tried, and what the disk makes
    of each. *)
Record SpentFile : Type := mkFile {
  contents : string;
  appends : nat;
  outcome : nat -> append_outcome
}.

Record t : Type := mk {
  accepted_mints : gset string;
  wallet_repo : option WalletRepository;
  spent_yvalues : gset string;
  spent_file : option SpentFile
}.

(** [read] is what reading the file gives; a file that cannot be read counts as empty. *)
Definition load_spent_file (read : option string) : gset string :=
  match read with
  | Some contents => list_to_set (filter (fun l => l <> EmptyString) (trim <$> lines contents))
  | None => ∅
  end.

(** [read_ok]: the file can be read, if there is one. *)
Definition with_spent_file (mint_urls : list string) (spent_file : option SpentFile) (read_ok : bool) : t :=
  mk (list_to_set mint_urls) None
    (map_or spent_file ∅ (fun f => load_spent_file (if read_ok then Some (contents f) else None)))
    spent_file.
Definition new (mint_urls : list string) : t := with_spent_file mint_urls None true.
Definition with_wallet_repo (repo : WalletRepository) (w : t) : t :=
  mk (accepted_mints w) (Some repo) (spent_yvalues w) (spent_file w).

(** [let _ = writeln!(f, ...)]: what of the line reaches the file. *)
Definition writeln (y : string) (cut : option nat) : string :=
  let line := y +:+ String newline EmptyString in
  match cut with None => line | Some n => of_chars (take n (chars line)) end.
Definition persist_yvalues (yvalues : list string) (f : SpentFile) : SpentFile :=
  mkFile
    match outcome f (appends f) with
    | NotOpened => contents f
    | Opened cut => foldl (fun s l => s +:+ l) (contents f) (imap (fun k y => writeln y (cut k)) yvalues)
    end
    (S (appends f)) (outcome f).

(** The write under the lock, and the append to the file. *)
Definition mark_spent (ys : list string) (w : t) : t :=
  mk (accepted_mints w) (wallet_repo w) (list_to_set ys ∪ spent_yvalues w)
    (persist_yvalues ys <$> spent_file w).

(** The first of [ys] in the spent set. *)
Definition first_spent (ys : list string) (w : t) : option string :=
  head (filter (fun y => y ∈ spent_yvalues w) ys).

Section verify.
Context `{Cashu, UrlParser} (check_state : CheckState).

Definition check_proofs_unspent (mint_base_url : string) (ys : list string)
    : result () verify_error :=
  match check_state (mint_base_url +:+ "/v1/checkstate")%string ys with
  | None => Err MintUnavailable
  | Some None => Err MissingStates
  | Some (Some states) =>
      if forallb (fun s => bool_decide (unwrap_or s EmptyString = "UNSPENT"%string)) states
      then Ok () else Err ProofSpentAtMint
  end.

Definition mint_accepted (mint_url : string) (w : t) : bool :=
  bool_decide (accepted_mints w = ∅) ||
  existsb (fun m => bool_decide (normalize_mint_url m = normalize_mint_url mint_url))
    (elements (accepted_mints w)).

(** Before any await on the mint: parse and consult the local record. *)
Definition precheck (token_str : string) (w : t) : result (Token * list string) verify_error :=
  match parse_token token_str with
  | None => Err InvalidToken
  | Some token =>
      let ys := token_proof_ys token in
      if decide (ys = []) then Err NoProofs
      else match first_spent ys w with
           | Some y => Err (AlreadySpent y)
           | None => Ok (token, ys)
           end
  end.

(** What the mint says, and the amount to credit. *)
Definition ask_mint (token_str : string) (token : Token) (ys : list string) (w : t)
    : result Z verify_error :=
  match wallet_repo w with
  | Some repo =>
      match token_mint_url token with
      | None => Err NoMintUrl
      | Some token_mint =>
          if get_wallet repo token_mint then
            match receive repo token_mint token_str with
            | Ok amount_sat => Ok amount_sat
            | Err _ => Err RejectedByMint
            end
          else Err NoWallet
      end
  | None =>
      match token_mint_url token with
      | None => Err NoMintUrl
      | Some mint_url =>
          if mint_accepted mint_url w then
            match token_value token with
            | None => Err NoValue
            | Some amount_sat =>
                res_bind (check_proofs_unspent (normalize_mint_url mint_url) ys)
                  (fun _ => Ok amount_sat)
            end
          else Err MintNotAccepted
      end
  end.

Definition verify (token_str : string) (w : t) : t * result Z verify_error :=
  match precheck token_str w with
  | Err e => (w, Err e)
  | Ok (token, ys) =>
      match ask_mint token_str token ys w with
      | Err e => (w, Err e)
      | Ok amount_sat => (mark_spent ys w, Ok (wrap_u64 (amount_sat * 1000)))
      end
  end.
End verify.

(** *** Concurrent calls

    [verify] holds no lock across its await on the mint, so a call is three atomic
    steps: the local check, the mint's answer, the commit. *)
Inductive call : Type :=
| Start (token_str : string)
| Checked (token_str : string) (token : Token) (ys : list string)
| Answered (ys : list string) (amount_sat : Z)
| Returned (ys : list string) (r : result Z verify_error).

Record node : Type := mkNode { wallet : t; calls : list call }.

Section concurrent.
Context `{Cashu, UrlParser} (check_state : CheckState).

Definition call_step (c : call) (w : t) : t * call :=
  match c with
  | Start s =>
      match precheck s w with
      | Err e => (w, Returned [] (Err e))
      | Ok (token, ys) => (w, Checked s token ys)
      end
  | Checked s token ys =>
      match ask_mint check_state s token ys w with
      | Err e => (w, Returned ys (Err e))
      | Ok amount => (w, Answered ys amount)
      end
  | Answered ys amount => (mark_spent ys w, Returned ys (Ok (wrap_u64 (amount * 1000))))
  | Returned _ _ => (w, c)
  end.

(** Any pending call may take its next step. *)
Inductive node_step : node -> node -> Prop :=
| step_call n i c :
    calls n !! i = Some c ->
    node_step n (mkNode (call_step c (wallet n)).1 (<[i := (call_step c (wallet n)).2]> (calls n))).
End concurrent.
End BootstrapWallet.

(** ** Lemmas *)

Section wallet.
Import BootstrapWallet.
Context `{Cashu, UrlParser}.

Lemma first_spent_none ys w : first_spent ys w = None -> forall y, y ∈ ys -> y ∉ spent_yvalues w.
Proof.
  unfold first_spent. intros E y Hy Hin.
  assert (y ∈ filter (fun y => y ∈ spent_yvalues w) ys) as Hf by (by apply list_elem_of_filter).
  destruct (filter _ ys); [by apply not_elem_of_nil in Hf|done].
Qed.

Lemma first_spent_some ys w y : first_spent ys w = Some y -> y ∈ ys /\ y ∈ spent_yvalues w.
Proof.
  unfold first_spent. intros E.
  assert (y ∈ filter (fun y => y ∈ spent_yvalues w) ys) as Hf.
  { destruct (filter _ ys); [done|]. injection E as ->. by left. }
  apply list_elem_of_filter in Hf. tauto.
Qed.

(** The two outcomes of a call. *)
Lemma verify_cases chk s w :
  (exists token amount, parse_token s = Some token /\ token_proof_ys token <> [] /\
     (forall y, y ∈ token_proof_ys token -> y ∉ spent_yvalues w) /\
     ask_mint chk s token (token_proof_ys token) w = Ok amount /\
     verify chk s w = (mark_spent (token_proof_ys token) w, Ok (wrap_u64 (amount * 1000)))) \/
  (exists e, verify chk s w = (w, Err e)).
Proof.
  unfold verify, precheck. destruct (parse_token s) as [token|]; [|right; eauto].
  case_decide; [right; eauto|]. destruct (first_spent _ w) eqn:Ef; [right; eauto|].
  destruct (ask_mint chk s token _ w) as [amount|e] eqn:Ea; [left|right; eauto].
  exists token, amount. split_and!; eauto using first_spent_none.
Qed.

(** A proof's [C] is hex: without white space, and not empty. *)
Definition plain (y : string) : Prop :=
  y <> EmptyString /\ Forall (fun c => is_whitespace c = false) (chars y).
Class CashuLaws : Prop := {
  ys_plain s token y : parse_token s = Some token -> y ∈ token_proof_ys token -> plain y
}.

(** What happens to a wallet over its life: calls, one at a time, each with
    whatever the mint answers then, and restarts of the process, which rebuild the
    wallet from its spent file, if it can be read then. *)
Inductive input : Type :=
| Verify (check_state : CheckState) (token_str : string)
| Restart (mint_urls : list string) (read_ok : bool).

Definition life_step (w : t) (i : input) : t * list (string * result Z verify_error) :=
  match i with
  | Verify chk s => let '(w, r) := verify chk s w in (w, [(s, r)])
  | Restart mints read_ok => (with_spent_file mints (spent_file w) read_ok, [])
  end.

Definition is_verify (i : input) : Prop := match i with Verify _ _ => True | Restart _ _ => False end.
Definition reads_record (i : input) : Prop :=
  match i with Verify _ _ => True | Restart _ read_ok => read_ok = true end.

(** The proofs a token string carries. *)
Definition ys_of (s : string) : list string := from_option token_proof_ys [] (parse_token s).

(** Everything marked spent is in the spent file, which ends with a line's end, and
    every append to it is written whole. *)
Definition whole (o : append_outcome) : Prop :=
  match o with NotOpened => False | Opened cut => forall k, cut k = None end.
Definition ended (s : string) : Prop := s = EmptyString \/ exists l, chars s = l ++ [newline].
Definition durable (w : t) : Prop :=
  exists f, spent_file w = Some f /\ (forall k, whole (outcome f k)) /\ ended (contents f) /\
    spent_yvalues w ⊆ load_spent_file (Some (contents f)).

(** The record lasts through [ins]: the process is not restarted, or nothing goes wrong
    with the file. *)
Definition record_lasts (w : t) (ins : list input) : Prop :=
  Forall is_verify ins \/ (durable w /\ Forall reads_record ins).

Lemma line_chars_some l : l <> [] -> line_chars l <> [].
Proof.
  destruct l as [|c l]; [done|]. intros _. cbn [line_chars].
  destruct (decide (c = newline)); [done|]. by destruct (line_chars l).
Qed.

Lemma line_chars_ended l rest :
  line_chars (l ++ newline :: rest) = line_chars (l ++ [newline]) ++ line_chars rest.
Proof.
  induction l as [|c l IH]; [done|]. cbn [app line_chars]. rewrite IH.
  destruct (decide (c = newline)); [done|].
  pose proof (line_chars_some (l ++ [newline]) ltac:(by destruct l)) as Hn.
  by destruct (line_chars (l ++ [newline])).
Qed.

Lemma drop_while_id {A} (p : A -> bool) l : Forall (fun x => p x = false) l -> drop_while p l = l.
Proof. destruct 1 as [|x l Hx _]; [done|]. cbn. by rewrite Hx. Qed.

Lemma trim_plain y : plain y -> trim y = y.
Proof.
  intros [_ Hy]. unfold trim. fold (chars y). rewrite (drop_while_id _ (chars y)) by done.
  rewrite drop_while_id by by apply Forall_rev. rewrite rev_involutive. apply of_chars_chars.
Qed.

Lemma lines_ended s l :
  ended s -> plain l -> lines (s +:+ writeln l None) = lines s ++ [l].
Proof.
  intros Hs [_ Hl]. assert (newline ∉ chars l) as Hn
    by (rewrite Forall_forall in Hl; intros Hin%Hl; by vm_compute in Hin).
  assert (strip_cr (chars l) = chars l) as Hc.
  { apply strip_cr_none. destruct (rev (chars l)) as [|c r] eqn:E; [done|]. intros [= ->].
    apply Forall_rev in Hl. rewrite E in Hl. apply Forall_cons in Hl as [Hl _]. by vm_compute in Hl. }
  assert (lines (l +:+ String newline EmptyString) = [l]) as El.
  { unfold lines. rewrite chars_app. change (chars (String newline EmptyString)) with [newline].
    rewrite line_chars_cons by done. cbn. by rewrite Hc, of_chars_chars. }
  unfold writeln. destruct Hs as [->|(k & Hk)]; [exact El|].
  rewrite <- El. unfold lines. rewrite <- fmap_app. f_equal. rewrite (chars_app s), Hk.
  rewrite <- app_assoc. apply line_chars_ended.
Qed.

Lemma ended_writeln s l : ended (s +:+ writeln l None).
Proof.
  right. exists (chars s ++ chars l). unfold writeln. rewrite !chars_app. by rewrite app_assoc.
Qed.

(** A whole append adds its lines. *)
Lemma append_whole ys cut s :
  (forall k, cut k = None) -> Forall plain ys -> ended s ->
  let s' := foldl (fun s l => s +:+ l) s (imap (fun k y => writeln y (cut k)) ys) in
  ended s' /\ load_spent_file (Some s') = load_spent_file (Some s) ∪ list_to_set ys.
Proof.
  revert s cut. induction ys as [|y ys IH]; intros s cut Hc Hp Hs; cbn [imap foldl].
  - split; [done|set_solver].
  - apply Forall_cons in Hp as [Hy Hp].
    destruct (IH (s +:+ writeln y (cut 0%nat)) (cut ∘ S)) as [I1 I2];
      [intros k; apply Hc|done|rewrite Hc; apply ended_writeln|].
    split; [exact I1|]. cbv zeta in I2 |- *.
    etransitivity; [exact I2|]. rewrite Hc. unfold load_spent_file.
    rewrite lines_ended, fmap_app, filter_app, list_to_set_app_L by done.
    cbn [fmap list_fmap]. rewrite trim_plain by done. rewrite filter_cons_True by apply Hy. set_solver.
Qed.

Lemma durable_marked w ys : durable w -> Forall plain ys -> durable (mark_spent ys w).
Proof.
  intros (f & Ef & Hw & He & Hs) Hp. exists (persist_yvalues ys f).
  split; [unfold mark_spent; cbn [spent_file]; by rewrite Ef|]. split; [exact Hw|].
  pose proof (Hw (appends f)) as Ha. unfold persist_yvalues, mark_spent. cbn [contents spent_yvalues].
  destruct (outcome f (appends f)) as [|cut]; [done|].
  destruct (append_whole ys cut (contents f) Ha Hp He) as [E1 E2]. split; [exact E1|].
  cbv zeta in E2. rewrite E2. set_solver.
Qed.

Lemma lasts_step `{!CashuLaws} w i ins :
  record_lasts w (i :: ins) ->
  record_lasts (life_step w i).1 ins /\ spent_yvalues w ⊆ spent_yvalues (life_step w i).1.
Proof.
  intros Hl. destruct i as [chk s|mints ok]; cbn.
  - destruct (verify_cases chk s w) as [(token & a & Et & _ & _ & _ & ->)|[e ->]]; cbn.
    2: { split; [|done]. destruct Hl as [[_ Hl]%Forall_cons|[Hd [_ Hl]%Forall_cons]]; [by left|by right]. }
    split; [|set_solver]. destruct Hl as [[_ Hl]%Forall_cons|[Hd [_ Hl]%Forall_cons]]; [by left|right].
    split; [|done]. apply durable_marked; [done|]. apply Forall_forall. intros y. by apply (ys_plain s).
  - destruct Hl as [[[] _]%Forall_cons|[(f & Ef & Hw & He & Hs) [Hok Hl]%Forall_cons]].
    cbn in Hok. subst ok. rewrite Ef. cbn. split; [|done]. right. split; [|done]. by exists f.
Qed.

(** Once a proof is marked, no later call credits it. *)
Lemma marked_never_credited `{!CashuLaws} w ins y :
  record_lasts w ins -> y ∈ spent_yvalues w ->
  Forall (fun o => is_ok o.2 = true -> y ∉ ys_of o.1) (run life_step w ins).2.
Proof.
  revert w. induction ins as [|i ins IH]; intros w Hl Hy; [constructor|].
  destruct (lasts_step w i ins Hl) as [Hl' Hsub]. specialize (IH _ Hl' ltac:(set_solver)).
  cbn [run]. destruct (life_step w i) as [w1 o1] eqn:E. destruct (run life_step w1 ins) as [w2 o2] eqn:E2.
  cbn [fst snd] in *. rewrite E2 in IH. apply Forall_app. split; [|exact IH].
  destruct i as [chk s|mints ok]; cbn in E; [|injection E as _ <-; constructor].
  destruct (verify_cases chk s w) as [(token & a & Et & _ & Hn & _ & Ev)|[e Ev]];
    rewrite Ev in E; injection E as _ <-; repeat constructor; [|done].
  cbn. intros _ Hin. unfold ys_of in Hin. rewrite Et in Hin. by apply (Hn y).
Qed.
End wallet.

(** ** A token format, for the witnesses *)

Module WalletDemo.
(** A token string is the one proof it carries, worth 5 sat at one mint. *)
#[export] Instance cashu : Cashu := {
  parse_token s := if decide (s <> EmptyString /\ Forall (fun c => is_whitespace c = false) (chars s))
                   then Some (TokenV4 [mkEntry [s]]) else None;
  token_mint_url _ := Some "https://mint.example"%string;
  token_value _ := Some 5
}.
#[export] Instance urls : UrlParser := fun _ => None.
#[export] Instance laws : CashuLaws.
Proof.
  split. intros s token y E Hy. cbn in E. case_decide as Hs; [|done].
  injection E as <-. cbn in Hy. apply list_elem_of_singleton in Hy as ->. done.
Qed.
Definition honest : CheckState := fun _ ys => Some (Some ((fun _ => Some "UNSPENT"%string) <$> ys)).
(** A new file on a disk where every append ends as [o]. *)
Definition disk (o : BootstrapWallet.append_outcome) : BootstrapWallet.SpentFile :=
  BootstrapWallet.mkFile EmptyString 0 (fun _ => o).
Definition written : BootstrapWallet.append_outcome := BootstrapWallet.Opened (fun _ => None).
Definition wallet : BootstrapWallet.t :=
  BootstrapWallet.with_spent_file ["https://mint.example/"%string] (Some (disk written)) true.
Definition life : list input := [
  Verify honest "proof-1"; Verify honest "proof-2"; Verify honest "proof-1";
  Restart ["https://mint.example/"%string] true; Verify honest "proof-2"].
End WalletDemo.
Export (hints) WalletDemo.

(** ** Properties *)

(** C15: one call at a time, no proof is credited twice. Over any sequence of
    verifications, whatever the mint answers to each (even when it calls spent proofs
    unspent), two accepted tokens never share a proof: between two restarts of the
    process whatever happens to the spent file, and across restarts as long as the
    record lasts, that is, the file began with what was marked, every append to it is
    written whole and it can be read at every restart. *)
Theorem no_proof_credited_twice `{Cashu, UrlParser, !CashuLaws} w ins i j si sj ai aj y :
  record_lasts w ins ->
  let out := (run life_step w ins).2 in
  out !! i = Some (si, Ok ai) -> out !! j = Some (sj, Ok aj) -> (i < j)%nat ->
  y ∈ ys_of si -> y ∉ ys_of sj.
Proof.
  intros Hl. cbv zeta. revert w i j Hl.
  induction ins as [|inp ins IH]; intros w i j Hl Hi Hj Hij Hy; [done|].
  destruct (lasts_step w inp ins Hl) as [Hl1 _]. specialize (IH (life_step w inp).1).
  pose proof (marked_never_credited (life_step w inp).1 ins y Hl1) as Hm. cbn [run] in Hi, Hj.
  destruct inp as [chk s|mints ok]; cbn [life_step] in *.
  - destruct (verify_cases chk s w) as [(token & a & Et & _ & _ & _ & E)|[e E]];
      rewrite E in *; cbn [fst snd] in *.
    + destruct (run life_step (BootstrapWallet.mark_spent (token_proof_ys token) w) ins)
        as [w2 o2]. cbn [snd app] in *.
      destruct j as [|j]; [lia|]. simpl in Hj. destruct i as [|i]; simpl in Hi.
      * injection Hi as <- <-. unfold ys_of in Hy. rewrite Et in Hy. cbn in Hy.
        assert (y ∈ BootstrapWallet.spent_yvalues
          (BootstrapWallet.mark_spent (token_proof_ys token) w)) as Hin by (cbn; set_solver).
        specialize (Hm Hin). rewrite Forall_lookup in Hm. by apply (Hm j _ Hj).
      * apply (IH i j); [done..|lia|done].
    + destruct (run life_step w ins) as [w2 o2]. cbn [snd app] in *.
      destruct i as [|i]; [done|]. destruct j as [|j]; [done|].
      simpl in Hi, Hj. apply (IH i j); [done..|lia|done].
  - destruct (run life_step _ ins) as [w2 o2]. cbn [snd app fst] in *. by apply (IH i j).
Qed.

Lemma no_proof_credited_twice_witness :
  record_lasts WalletDemo.wallet WalletDemo.life /\
  (run life_step WalletDemo.wallet WalletDemo.life).2 =
    [("proof-1"%string, Ok 5000); ("proof-2"%string, Ok 5000);
     ("proof-1"%string, Err (AlreadySpent "proof-1")); ("proof-2"%string, Err (AlreadySpent "proof-2"))] /\
  "proof-1"%string ∉ ys_of "proof-2".
Proof.
  assert (record_lasts WalletDemo.wallet WalletDemo.life) as Hl.
  { right. split; [|by repeat constructor]. eexists. split; [reflexivity|].
    split; [by intros k j|]. split; [by left|set_solver]. }
  split; [exact Hl|]. split; [vm_compute; reflexivity|].
  apply (no_proof_credited_twice WalletDemo.wallet WalletDemo.life 0 1
    "proof-1" "proof-2" 5000 5000 "proof-1" Hl).
  - vm_compute; reflexivity.
  - vm_compute; reflexivity.
  - lia.
  - apply (bool_decide_unpack _). vm_compute. exact I.
Defined.

(** Outside of that the record fails. A payment whose append does not open the file, or
    is cut short, is credited again after a restart, and so is any when the file cannot
    be read then; the mint, which is only asked about the proofs, still has them
    unspent. A line cut short also takes the next one with it. *)
Example lost_record_credits_twice :
  let life read_ok := [
    Verify WalletDemo.honest "p-1"; Verify WalletDemo.honest "p-2";
    Restart ["https://mint.example/"%string] read_ok;
    Verify WalletDemo.honest "p-1"; Verify WalletDemo.honest "p-2"] in
  let credited o read_ok :=
    (fun r => is_ok r.2) <$> (run life_step (BootstrapWallet.with_spent_file [] (Some (WalletDemo.disk o)) true)
      (life read_ok)).2 in
  credited WalletDemo.written true = [true; true; false; false] /\
  credited BootstrapWallet.NotOpened true = [true; true; true; true] /\
  credited (BootstrapWallet.Opened (fun _ => Some 2%nat)) true = [true; true; true; true] /\
  credited WalletDemo.written false = [true; true; true; true].
Proof. vm_compute. by split_and!. Qed.

(** Two overlapping calls can both credit the same token. The local record is
    consulted before the await on the mint and written after it, so whenever a
    token verifies without a CDK wallet, there is an interleaving of two concurrent
    calls with that token in which both return its amount. *)
Theorem concurrent_double_credit `{Cashu, UrlParser} chk s w w' amount :
  BootstrapWallet.wallet_repo w = None ->
  BootstrapWallet.verify chk s w = (w', Ok amount) ->
  exists ys w'',
    rtc (BootstrapWallet.node_step chk)
      (BootstrapWallet.mkNode w [BootstrapWallet.Start s; BootstrapWallet.Start s])
      (BootstrapWallet.mkNode w''
        [BootstrapWallet.Returned ys (Ok amount); BootstrapWallet.Returned ys (Ok amount)]).
Proof.
  intros Hrepo Hv.
  assert (exists token ys a, BootstrapWallet.precheck s w = Ok (token, ys) /\
    BootstrapWallet.ask_mint chk s token ys w = Ok a /\ amount = wrap_u64 (a * 1000))
    as (token & ys & a & Hp & Ha & ->).
  { unfold BootstrapWallet.verify in Hv.
    destruct (BootstrapWallet.precheck s w) as [[token ys]|] eqn:Hp; [|done].
    destruct (BootstrapWallet.ask_mint chk s token ys w) as [a|] eqn:Ha; [|done].
    injection Hv as _ <-. by exists token, ys, a. }
  set (w1 := BootstrapWallet.mark_spent ys w).
  assert (forall i n c w2 c', BootstrapWallet.calls n !! i = Some c ->
    BootstrapWallet.call_step chk c (BootstrapWallet.wallet n) = (w2, c') ->
    BootstrapWallet.node_step chk n
      (BootstrapWallet.mkNode w2 (<[i := c']> (BootstrapWallet.calls n)))) as K.
  { intros i n c w2 c' Hi Hc. pose proof (BootstrapWallet.step_call chk n i c Hi) as Hst.
    by rewrite Hc in Hst. }
  exists ys, (BootstrapWallet.mark_spent ys w1).
  eapply rtc_l; [eapply (K 0%nat); [done|]; cbn; by rewrite Hp|].
  eapply rtc_l; [eapply (K 1%nat); [done|]; cbn; by rewrite Hp|].
  eapply rtc_l; [eapply (K 0%nat); [done|]; cbn; by rewrite Ha|].
  eapply rtc_l; [eapply (K 1%nat); [done|]; cbn; by rewrite Ha|].
  eapply rtc_l; [eapply (K 0%nat); [done|]; reflexivity|].
  eapply rtc_l; [eapply (K 1%nat); [done|]; reflexivity|].
  apply rtc_refl.
Qed.

Lemma concurrent_double_credit_witness :
  BootstrapWallet.wallet_repo WalletDemo.wallet = None /\
  exists ys w'',
    rtc (BootstrapWallet.node_step WalletDemo.honest)
      (BootstrapWallet.mkNode WalletDemo.wallet
        [BootstrapWallet.Start "proof-1"; BootstrapWallet.Start "proof-1"])
      (BootstrapWallet.mkNode w''
        [BootstrapWallet.Returned ys (Ok 5000); BootstrapWallet.Returned ys (Ok 5000)]).
Proof.
  split; [reflexivity|].
  apply (concurrent_double_credit WalletDemo.honest "proof-1" WalletDemo.wallet
    (BootstrapWallet.verify WalletDemo.honest "proof-1" WalletDemo.wallet).1 5000).
  - reflexivity.
  - vm_compute. reflexivity.
Defined.
