(* ===== verification/Consume.v ===== *)
(** * The consumer: discovery, payment and the consume loop

    Models [crates/tollgate-net/src/client.rs]: reading the peer's messages, the
    outcome of a payment, and one iteration of the poll loop of [run_consume] as a
    function of what the exchange, the meter and the payment returned. Sockets,
    sleeping, token building and counter files are the inputs of a poll. *)

From S2P Require Import Prelude F64 Wire ToyCodec Frames Pricing Session SessionFacts.

(** [hex::encode] and [hex::decode], of the [hex] crate. *)
Class HexCodec : Type := {
  hex_encode : bytes -> string;
  hex_decode : string -> option bytes
}.
(** Decoding inverts encoding. *)
Class HexLaws `{HexCodec} : Prop := {
  hex_roundtrip b : hex_decode (hex_encode b) = Some b
}.

Definition PRICING_SCALE : Z := 1000.

Record ReportSummary : Set := mkSummary {
  rs_elapsed_ms : Z;
  rs_delivered : Z;
  rs_received : Z
}.

Module ConsumeEvent.
Record t : Set := mk {
  poll : Z;
  peer_pubkey : string;
  price : Price.t;
  paid_scaled : Z;
  remaining_scaled : Z;
  report : option ReportSummary;
  cut_off : bool;
  topped_up : bool;
  drift : option f64
}.
End ConsumeEvent.

Module Detected.
Record t : Set := mk {
  pubkey_hex : string;
  unit : string;
  version : Z;
  price_sheet : option PriceSheet.t
}.
End Detected.

Module Paid.
Record t : Set := mk {
  peer_pubkey_hex : string;
  accepted : bool;
  reason : option string;
  price_sheet : option PriceSheet.t
}.
End Paid.

Module ConsumeOpts.
Record t : Set := mk {
  amount_sat : Z;
  topup_sat : Z;
  interval_ms : Z;
  max_polls : option Z;
  understate_received_pct : Z;
  meter_iface : option string;
  meter_upstream : bool
}.
End ConsumeOpts.

Module Client.
Section client.
Context `{Minicbor, HexCodec}.

(** [messages.iter().filter(peek == ty).find_map(decode)]. *)
Definition find_message {T} `{Cbor T} (ty : MessageType.t) (messages : list bytes) : option T :=
  head (omap from_slice (filter (fun m => peek_type m = Some ty) messages)).

Definition find_announce (messages : list bytes) : option Announce.t :=
  find_message MessageType.Announce messages.
Definition find_price_sheet (messages : list bytes) : option PriceSheet.t :=
  find_message MessageType.PriceSheet messages.
Definition find_metering_report (messages : list bytes) : option MeteringReport.t :=
  find_message MessageType.MeteringReport messages.

Definition balance_exhausted (messages : list bytes) : bool :=
  existsb Reject.is_balance_exhausted
    (omap Reject.decode (filter (fun m => peek_type m = Some MessageType.Reject) messages)).

Definition price_from_sheet (sheet : option PriceSheet.t) : Price.t :=
  unwrap_or
    (s ← sheet; p ← head (PriceSheet.products s); m ← head (ProductEntry.mint_options p);
     Some (Price.mk (MintOption.price_per_second m) (MintOption.price_per_unit m)))
    Price.default.

Definition our_announce (public_key : PublicKey.t) (unit : string) : bytes :=
  Announce.encode (Announce.new PROTOCOL_VERSION public_key unit 0).

(** [detect], from the response messages; [None] is its error. *)
Definition detect (messages : list bytes) : option Detected.t :=
  announce ← find_announce messages;
  Some (Detected.mk (hex_encode (PublicKey.as_bytes (Announce.public_key announce)))
    (Announce.unit announce) (Announce.version announce) (find_price_sheet messages)).

(** The request and the outcome of [pay]; [None] is an error of either. *)
Definition pay_request (public_key : PublicKey.t) (unit : string) (token : bytes) : option bytes :=
  match encode_frame (our_announce public_key unit) [] with
  | (body, Ok _) =>
      match encode_frame (BootstrapToken.encode (BootstrapToken.new token)) body with
      | (body, Ok _) => Some body
      | (_, Err _) => None
      end
  | (_, Err _) => None
  end.

Definition pay (messages : list bytes) : option Paid.t :=
  announce ← find_announce messages;
  ack ← find_message (T := BootstrapAck.t) MessageType.BootstrapAck messages;
  Some (Paid.mk (hex_encode (PublicKey.as_bytes (Announce.public_key announce)))
    (BootstrapAck.is_accepted ack) (BootstrapAck.reason ack) (find_price_sheet messages)).

(** *** The loop *)

(** What is fixed once the initial payment was accepted. *)
Record session : Set := mkSession {
  opts : ConsumeOpts.t;
  price : Price.t;
  peer_pubkey : string;
  (** [upstream_ip.is_some()]: the upstream's host resolved. *)
  has_upstream_ip : bool
}.

(** The loop's variables. *)
Record state : Set := mkState {
  poll : Z;
  paid_scaled : Z;
  acked_received : Z;
  meter_baseline : Z
}.

(** What one iteration obtains from outside: the exchange's messages, the raw
    receive counter when the peer cut us off and when the usage is measured, and
    the messages answering a top-up. [None] is a failed exchange. *)
Record poll_io : Set := mkIo {
  io_messages : option (list bytes);
  io_raw_cut : Z;
  io_raw : Z;
  io_topup : option (list bytes)
}.

(** [raw_received]: zero without a meter. *)
Definition has_meter (s : session) : bool :=
  has_upstream_ip s || is_some (ConsumeOpts.meter_iface (opts s)).
Definition raw_received (s : session) (raw : Z) : Z := if has_meter s then raw else 0.

Definition topup_scaled (s : session) : Z := sat_mul_u64 (ConsumeOpts.topup_sat (opts s)) PRICING_SCALE.

Definition start (opts : ConsumeOpts.t) (paid : Paid.t) (has_upstream_ip : bool) (raw : Z)
    : session * state * ConsumeEvent.t :=
  let price := price_from_sheet (Paid.price_sheet paid) in
  let s := mkSession opts price (Paid.peer_pubkey_hex paid) has_upstream_ip in
  let paid_scaled := sat_mul_u64 (ConsumeOpts.amount_sat opts) PRICING_SCALE in
  (s, mkState 0 paid_scaled 0 (raw_received s raw),
   ConsumeEvent.mk 0 (Paid.peer_pubkey_hex paid) price paid_scaled (as_i64 paid_scaled)
     None false false None).

(** The frames a poll sends. *)
Definition poll_request (public_key : PublicKey.t) (unit : string) (st : state) : option bytes :=
  match encode_frame (our_announce public_key unit) [] with
  | (body, Ok _) =>
      if 0 <? acked_received st then
        match encode_frame (MeteringReport.encode (MeteringReport.new 0 0 (acked_received st))) body with
        | (body, Ok _) => Some body
        | (_, Err _) => None
        end
      else Some body
  | (_, Err _) => None
  end.

(** Usage and cost as the consumer reckons them. *)
Definition reckon (s : session) (measured : option Z) (report : option MeteringReport.t)
    : Z * option f64 :=
  match report with
  | Some r =>
      let drift :=
        match measured with
        | Some m =>
            if 0 <? MeteringReport.delivered r
            then Some (f64_ratio (abs_diff (MeteringReport.delivered r) m) (MeteringReport.delivered r))
            else None
        | None => None
        end in
      let billable := map_or measured (MeteringReport.delivered r)
                        (fun m => Z.max (MeteringReport.delivered r) m) in
      (Price.cost_scaled (price s) (MeteringReport.elapsed_ms r) billable, drift)
  | None => (0, None)
  end.

(** One iteration; [None] when the loop ends with an error. *)
Definition poll_step (s : session) (st : state) (io : poll_io) : option (state * ConsumeEvent.t) :=
  messages ← io_messages io;
  let poll := wrap_u32 (poll st + 1) in
  let cut_off := balance_exhausted messages in
  let acked := if cut_off then 0 else acked_received st in
  let baseline := if cut_off then raw_received s (io_raw_cut io) else meter_baseline st in
  let report := find_metering_report messages in
  let measured :=
    if has_meter s then Some (sat_sub_u64 (raw_received s (io_raw io)) baseline) else None in
  let keep := sat_sub_u64 100 (Z.min (ConsumeOpts.understate_received_pct (opts s)) 100) in
  let acked :=
    match opt_or measured (MeteringReport.delivered <$> report) with
    | Some rx => sat_mul_u64 rx keep / 100
    | None => acked
    end in
  let '(cost, drift) := reckon s measured report in
  let paid := paid_scaled st in
  let wants := cut_off || (sat_sub_i64 (as_i64 paid) cost <? as_i64 (topup_scaled s)) in
  '(paid, topped_up) ←
    (if wants then
       reply ← io_topup io;
       top ← pay reply;
       Some (if Paid.accepted top
             then ((if cut_off then topup_scaled s else sat_add_u64 paid (topup_scaled s)), true)
             else (paid, false))
     else Some (paid, false));
  Some (mkState poll paid acked baseline,
        ConsumeEvent.mk poll (peer_pubkey s) (price s) paid (sat_sub_i64 (as_i64 paid) cost)
          ((fun r => mkSummary (MeteringReport.elapsed_ms r) (MeteringReport.delivered r)
              (MeteringReport.received r)) <$> report)
          cut_off topped_up drift).

(** The loop: it runs while [max_polls] allows and no exchange fails. *)
Fixpoint consume_loop (s : session) (st : state) (ios : list poll_io) : list ConsumeEvent.t :=
  match ios with
  | [] => []
  | io :: ios =>
      if map_or (ConsumeOpts.max_polls (opts s)) true (fun max => poll st <? max) then
        match poll_step s st io with
        | Some (st, ev) => ev :: consume_loop s st ios
        | None => []
        end
      else []
  end.
End client.
End Client.

(** ** Lemmas *)

Section consume.
Import Client.
Context `{MinicborLaws, HexCodec}.

(** The first message of a type is found, whatever else is around it. *)
Lemma find_message_first {T} `{Cbor T} {wf tag} `{!CborLaws T wf tag} ty (m : T) pre post :
  wf m -> MessageType.from_u8 (tag m) = Some ty ->
  Forall (fun b => peek_type b <> Some ty) pre ->
  find_message ty (pre ++ to_vec m :: post) = Some m.
Proof.
  intros Hm Ht Hp. unfold find_message. rewrite filter_app.
  assert (filter (fun b => peek_type b = Some ty) pre = []) as ->.
  { induction Hp as [|b pre Hb _ IH]; [done|]. by rewrite filter_cons_False. }
  rewrite filter_cons_True by (rewrite peek_type_to_vec by done; done).
  cbn. rewrite cbor_roundtrip by done. done.
Qed.

Lemma find_message_absent {T} `{Cbor T} ty messages :
  Forall (fun b => peek_type b <> Some ty) messages -> find_message (T := T) ty messages = None.
Proof.
  intros Hp. unfold find_message.
  assert (filter (fun b => peek_type b = Some ty) messages = []) as ->; [|done].
  induction Hp as [|b messages Hb _ IH]; [done|]. by rewrite filter_cons_False.
Qed.

Lemma not_exhausted messages :
  Forall (fun b => peek_type b <> Some MessageType.Reject) messages ->
  balance_exhausted messages = false.
Proof.
  intros Hp. unfold balance_exhausted.
  assert (filter (fun b => peek_type b = Some MessageType.Reject) messages = []) as ->; [|done].
  induction Hp as [|b messages Hb _ IH]; [done|]. by rewrite filter_cons_False.
Qed.

(** The usage cost an iteration reckons, when it is not cut off. *)
Definition poll_cost (s : Client.session) (st : Client.state) (io : poll_io) (messages : list bytes) : Z :=
  (reckon s
    (if has_meter s
     then Some (sat_sub_u64 (raw_received s (io_raw io)) (meter_baseline st)) else None)
    (find_metering_report messages)).1.

(** An iteration that is not cut off, and whose top-up, if it makes one, is accepted. *)
Definition calm (io : poll_io) (messages : list bytes) : Prop :=
  io_messages io = Some messages /\ balance_exhausted messages = false /\
  exists reply top, io_topup io = Some reply /\ pay reply = Some top /\ Paid.accepted top = true.

(** Polls during which usage costs at most one top-up more than at the poll before. *)
Fixpoint steady (s : Client.session) (st : Client.state) (cost : Z) (ios : list poll_io) : Prop :=
  match ios with
  | [] => True
  | io :: ios =>
      exists messages, calm io messages /\
        0 <= poll_cost s st io messages <= cost + topup_scaled s /\
        forall st' ev, poll_step s st io = Some (st', ev) ->
          steady s st' (poll_cost s st io messages) ios
  end.

Lemma poll_step_calm s st io messages :
  calm io messages ->
  let cost := poll_cost s st io messages in
  let low := sat_sub_i64 (as_i64 (paid_scaled st)) cost <? as_i64 (topup_scaled s) in
  exists st' ev, poll_step s st io = Some (st', ev) /\
    paid_scaled st' = (if low then sat_add_u64 (paid_scaled st) (topup_scaled s) else paid_scaled st) /\
    ConsumeEvent.topped_up ev = low /\
    ConsumeEvent.remaining_scaled ev = sat_sub_i64 (as_i64 (paid_scaled st')) cost.
Proof.
  intros (Em & Ex & reply & top & Er & Ep & Ha). cbv zeta. unfold poll_step, poll_cost.
  rewrite Em. cbn [mbind option_bind]. rewrite Ex.
  destruct (reckon s _ _) as [cost drift]. cbn [fst orb].
  destruct (_ <? as_i64 (topup_scaled s)).
  - rewrite Er. cbn [mbind option_bind]. rewrite Ep. cbn [mbind option_bind]. rewrite Ha.
    do 2 eexists. split; [reflexivity|]. done.
  - do 2 eexists. split; [reflexivity|]. done.
Qed.
End consume.

(** ** A consumer, for the witnesses *)

Module ConsumeDemo.
#[export] Instance codec : Minicbor := Toy.toy.
#[export] Instance hex : HexCodec := {|
  hex_encode b := String.string_of_list_byte b;
  hex_decode s := Some (String.list_byte_of_string s)
|}.
Definition key : PublicKey.t := PublicKey.from_bytes (replicate 33 (byte_of_Z 9)).
Definition announce : bytes := Client.our_announce key "bytes".
Definition ack : bytes := BootstrapAck.encode BootstrapAck.accepted.
Definition report (elapsed delivered : Z) : bytes :=
  MeteringReport.encode (MeteringReport.new elapsed delivered 0).
Definition opts : ConsumeOpts.t := ConsumeOpts.mk 20 10 1000 None 0 None false.
Definition session : Client.session := Client.mkSession opts (Price.mk 0 1) "peer" false.
Definition state : Client.state := Client.mkState 0 20000 0 0.
Definition io (delivered : Z) : Client.poll_io :=
  Client.mkIo (Some [announce; report 1000 delivered]) 0 0 (Some [announce; ack]).
End ConsumeDemo.
#[local] Existing Instances ConsumeDemo.codec ConsumeDemo.hex.

(** ** Properties *)

(** C37: a steady consumer stays between one and two top-ups ahead, by its own reckoning.
    Take a consumer without a limit on its polls that has paid at least one top-up more
    than the usage cost it has reckoned, and polls at each of which the exchange succeeds
    without a cut-off, a top-up would be accepted, and the reckoned cost has grown by at
    most one top-up; no amount reaches 63 bits. Then the loop makes every poll and
    reports each, what the consumer reckons it has left is after every poll at least one
    top-up, and after a poll at which it topped up less than two: it tops up in time,
    once a poll is enough, and it never tops up early. *)
Theorem consumer_stays_ahead `{MinicborLaws, HexCodec} s st cost ios :
  ConsumeOpts.max_polls (Client.opts s) = None ->
  0 <= Client.topup_scaled s -> 0 <= cost -> cost + Client.topup_scaled s <= Client.paid_scaled st ->
  Client.paid_scaled st + Z.of_nat (length ios) * Client.topup_scaled s <= I64_MAX ->
  steady s st cost ios ->
  length (Client.consume_loop s st ios) = length ios /\
  Forall (fun ev => Client.topup_scaled s <= ConsumeEvent.remaining_scaled ev /\
      (ConsumeEvent.topped_up ev = true ->
       ConsumeEvent.remaining_scaled ev < 2 * Client.topup_scaled s))
    (Client.consume_loop s st ios).
Proof.
  intros Hmax Ht. revert st cost.
  induction ios as [|io ios IH]; intros st cost Hc Hpaid Hbound Hsteady; [done|].
  destruct Hsteady as (messages & Hcalm & Hcost & Hnext).
  destruct (poll_step_calm s st io messages Hcalm) as (st' & ev & Est & Ep & Eup & Er).
  set (c := poll_cost s st io messages) in *. set (t := Client.topup_scaled s) in *.
  assert (t <= I64_MAX) as Htmax by (cbn [length] in Hbound; lia).
  assert (Client.paid_scaled st <= I64_MAX) as Hpmax by (cbn [length] in Hbound; lia).
  rewrite !as_i64_id in Ep, Eup by ints.
  assert (c + t <= Client.paid_scaled st' /\ Client.paid_scaled st' <= Client.paid_scaled st + t) as [B1 B2].
  { rewrite Ep. destruct (Z.ltb_spec (sat_sub_i64 (Client.paid_scaled st) c) t); ints. }
  cbn [length] in Hbound.
  assert (Client.paid_scaled st' + Z.of_nat (length ios) * t <= I64_MAX) as B3 by lia.
  rewrite as_i64_id in Er by ints.
  cbn [Client.consume_loop]. rewrite Hmax. cbn [map_or]. rewrite Est. cbn [length].
  destruct (IH st' c) as [I1 I2]; [lia|done|done|by apply (Hnext st' ev)|].
  split; [by rewrite I1|]. constructor; [|done]. rewrite Er. split; [ints|].
  rewrite Eup. intros Elow. rewrite Elow in Ep. apply Z.ltb_lt in Elow. ints.
Qed.

Lemma consumer_stays_ahead_witness :
  let ios := [ConsumeDemo.io 8000; ConsumeDemo.io 16000; ConsumeDemo.io 26000] in
  (map ConsumeEvent.remaining_scaled (Client.consume_loop ConsumeDemo.session ConsumeDemo.state ios)) =
    [12000; 14000; 14000] /\
  Forall (fun ev => 10000 <= ConsumeEvent.remaining_scaled ev /\
      (ConsumeEvent.topped_up ev = true -> ConsumeEvent.remaining_scaled ev < 20000))
    (Client.consume_loop ConsumeDemo.session ConsumeDemo.state ios).
Proof.
  intros ios. split; [vm_compute; reflexivity|].
  refine (proj2 (@consumer_stays_ahead ConsumeDemo.codec Toy.toy_laws ConsumeDemo.hex ConsumeDemo.session
    ConsumeDemo.state 0 ios _ _ _ _ _ _)).
  - reflexivity.
  - vm_compute. discriminate.
  - lia.
  - vm_compute. discriminate.
  - vm_compute. discriminate.
  - assert (forall n, calm (ConsumeDemo.io n) [ConsumeDemo.announce; ConsumeDemo.report 1000 n]) as C.
    { intros n. split; [reflexivity|]. split; [by vm_compute|].
      eexists _, _. split; [reflexivity|]. split; [vm_compute; reflexivity|reflexivity]. }
    cbn [steady ios].
    exists [ConsumeDemo.announce; ConsumeDemo.report 1000 8000].
    split; [apply C|]. split; [vm_compute; split; discriminate|]. intros st1 ev1 E1.
    vm_compute in E1. injection E1 as <- <-.
    exists [ConsumeDemo.announce; ConsumeDemo.report 1000 16000].
    split; [apply C|]. split; [vm_compute; split; discriminate|]. intros st2 ev2 E2.
    vm_compute in E2. injection E2 as <- <-.
    exists [ConsumeDemo.announce; ConsumeDemo.report 1000 26000].
    split; [apply C|]. split; [vm_compute; split; discriminate|done].
Defined.

(** A suspension for drift is never lifted. A provider that suspended a peer
    answers its announcements and metering reports with nothing, and keeps it
    suspended; a consumer that sees neither a report nor a balance-exhausted reject
    reckons no cost and, with at least one top-up prepaid, does not pay. So after a
    cut for drift, about which the peer is told only by transit-loss warnings,
    neither side ever acts again, whatever credit is left. *)
Theorem drift_suspension_is_final `{MinicborLaws, HexCodec} :
  (forall s p ps evs,
     Session.peers s !! p = Some ps -> PeerSession.phase ps = PeerPhase.Suspended ->
     Forall (fun i : stamped => i.1 = Event.PeerConnected p \/
       exists m, i.1 = Event.MessageReceived p m /\ peek_type m = Some MessageType.MeteringReport) evs ->
     Session.peer_phase (run step s evs).1 p = Some PeerPhase.Suspended /\
     (run step s evs).2 = []) /\
  (forall s st io messages,
     Client.io_messages io = Some messages ->
     Forall (fun m => peek_type m <> Some MessageType.MeteringReport /\
       peek_type m <> Some MessageType.Reject) messages ->
     Client.topup_scaled s <= Client.paid_scaled st -> 0 <= Client.topup_scaled s ->
     Client.paid_scaled st <= I64_MAX ->
     exists st' ev, Client.poll_step s st io = Some (st', ev) /\
       ConsumeEvent.topped_up ev = false /\ Client.paid_scaled st' = Client.paid_scaled st).
Proof.
  split.
  - intros s p ps evs. revert s ps. induction evs as [|[e now] evs IH]; intros s ps El Hp Hevs.
    { unfold Session.peer_phase. cbn. rewrite El. cbn. by rewrite Hp. }
    apply Forall_cons in Hevs as [He Hevs].
    assert (exists ps', Session.peers (step s (e, now)).1 !! p = Some ps' /\
      PeerSession.phase ps' = PeerPhase.Suspended /\ (step s (e, now)).2 = []) as (ps' & El' & Hp' & E2).
    { unfold step. destruct He as [E|(m & E & Em)]; cbn [fst snd] in *; subst e; cbn [Session.handle].
      - unfold Session.on_peer_connected. rewrite El. by exists ps.
      - unfold Session.on_message. rewrite Em. unfold Session.on_metering_report.
        destruct (MeteringReport.decode m) as [r|]; [|by exists ps].
        rewrite (with_peer_some _ _ _ _ El). cbn. rewrite lookup_insert_eq. by eexists. }
    cbn [run]. destruct (step s (e, now)) as [s1 o1]. cbn [fst snd] in *. subst o1.
    destruct (IH s1 ps' El' Hp' Hevs) as [I1 I2]. by destruct (run step s1 evs).
  - intros s st io messages Em Hm Ht Ht0 Hp.
    assert (Client.find_metering_report messages = None) as Er.
    { apply find_message_absent. eapply Forall_impl; [exact Hm|]. by intros ? [? _]. }
    assert (Client.balance_exhausted messages = false) as Ex.
    { apply not_exhausted. eapply Forall_impl; [exact Hm|]. by intros ? [_ ?]. }
    unfold Client.poll_step. rewrite Em. cbn [mbind option_bind]. rewrite Ex, Er.
    cbn [Client.reckon orb]. rewrite !as_i64_id by ints.
    rewrite (proj2 (Z.ltb_ge _ _)) by ints.
    do 2 eexists. split; [reflexivity|]. done.
Qed.

Definition suspended_for_drift : Session.t :=
  Session.mk {[ConsumeDemo.key := PeerSession.mk PeerPhase.Suspended 5000 (Some (Counters.mk 1100 9))
    50 (Counters.mk 1000 0) 30 (Some (Counters.mk 5 38)) 100 3 None None]}
    (Price.mk 0 1) MeteringPolicy.default.

Lemma drift_suspension_is_final_witness :
  Session.peer_phase (run (step (H := Toy.toy)) suspended_for_drift
    [(Event.PeerConnected ConsumeDemo.key, 60); (Event.PeerConnected ConsumeDemo.key, 99)]).1
    ConsumeDemo.key = Some PeerPhase.Suspended.
Proof.
  refine (proj1 (proj1 (@drift_suspension_is_final Toy.toy Toy.toy_laws ConsumeDemo.hex)
    suspended_for_drift ConsumeDemo.key _ _ _ _ _)).
  - vm_compute. reflexivity.
  - reflexivity.
  - repeat constructor.
Defined.
