(* ===== verification/NetDriver.v ===== *)
(** * The network driver and the HTTP exchange

    Models [crates/tollgate-net/src/driver.rs] and the exchange handler of
    [server.rs]: the session of [Session.v] wrapped with an outbox per peer, the
    peers' addresses, idle timers and the set of metered peers, the wallet of
    [Wallet.v] called in line, and the upstreams this node buys from. Each
    operation is one uninterrupted call; the wallet's own interleavings are in
    [Wallet.v]. The clock and the mint's answers are functions of the number of
    clock readings so far, so that they may differ at every call. *)

From S2P Require Import Prelude F64 Wire Frames Pricing Session SessionFacts Wallet Consume.

(** [IpAddr], in its printed form. *)
Abbreviation IpAddr := string.

(** [std::str::from_utf8]: well-formed UTF-8, by the table of the Unicode standard. *)
Definition cont (z : Z) : bool := (128 <=? z) && (z <=? 191).
Definition between (a z b : Z) : bool := (a <=? z) && (z <=? b).

Fixpoint utf8_ok (bs : list Z) : bool :=
  match bs with
  | [] => true
  | b :: r =>
      if b <? 128 then utf8_ok r
      else match r with
      | [] => false
      | c1 :: r1 =>
          if between 194 b 223 then cont c1 && utf8_ok r1
          else match r1 with
          | [] => false
          | c2 :: r2 =>
              if between 224 b 239 then
                (if b =? 224 then between 160 c1 191
                 else if b =? 237 then between 128 c1 159 else cont c1)
                && cont c2 && utf8_ok r2
              else match r2 with
              | [] => false
              | c3 :: r3 =>
                  between 240 b 244 &&
                  (if b =? 240 then between 144 c1 191
                   else if b =? 244 then between 128 c1 143 else cont c1)
                  && cont c2 && cont c3 && utf8_ok r3
              end
          end
      end
  end.

Definition from_utf8 (b : bytes) : option string :=
  if utf8_ok (map byte_val b) then Some (String.string_of_list_byte b) else None.

Module UpstreamState.
Record t : Set := mk {
  pubkey : string;
  url : string;
  price : Price.t;
  remaining_scaled : Z;
  sent : Z;
  recv : Z;
  metered_secs : Z;
  drift : option f64;
  online : bool;
  last_seen : Z
}.
End UpstreamState.

(** Calls to the adapter. *)
Inductive Firewall : Set := Allow (ip : IpAddr) | Deny (ip : IpAddr).

Module Driver.
Record t : Type := mk {
  session : Session.t;
  outbox : gmap string (list bytes);
  peer_ip : gmap string IpAddr;
  last_seen : gmap string Z;
  metered : gset string;
  wallet : BootstrapWallet.t;
  firewall : list Firewall;
  upstreams : gmap string UpstreamState.t;
  clock_reads : nat
}.

Definition set_session (x : Session.t) (d : t) : t :=
  mk x (outbox d) (peer_ip d) (last_seen d) (metered d) (wallet d) (firewall d) (upstreams d) (clock_reads d).
Definition set_outbox (x : gmap string (list bytes)) (d : t) : t :=
  mk (session d) x (peer_ip d) (last_seen d) (metered d) (wallet d) (firewall d) (upstreams d) (clock_reads d).
Definition set_peer_ip (x : gmap string IpAddr) (d : t) : t :=
  mk (session d) (outbox d) x (last_seen d) (metered d) (wallet d) (firewall d) (upstreams d) (clock_reads d).
Definition set_last_seen (x : gmap string Z) (d : t) : t :=
  mk (session d) (outbox d) (peer_ip d) x (metered d) (wallet d) (firewall d) (upstreams d) (clock_reads d).
Definition set_metered (x : gset string) (d : t) : t :=
  mk (session d) (outbox d) (peer_ip d) (last_seen d) x (wallet d) (firewall d) (upstreams d) (clock_reads d).
Definition set_wallet (x : BootstrapWallet.t) (d : t) : t :=
  mk (session d) (outbox d) (peer_ip d) (last_seen d) (metered d) x (firewall d) (upstreams d) (clock_reads d).
Definition call_firewall (c : Firewall) (d : t) : t :=
  mk (session d) (outbox d) (peer_ip d) (last_seen d) (metered d) (wallet d) (firewall d ++ [c]) (upstreams d) (clock_reads d).
Definition set_upstreams (x : gmap string UpstreamState.t) (d : t) : t :=
  mk (session d) (outbox d) (peer_ip d) (last_seen d) (metered d) (wallet d) (firewall d) x (clock_reads d).
Definition tick_clock (d : t) : t :=
  mk (session d) (outbox d) (peer_ip d) (last_seen d) (metered d) (wallet d) (firewall d) (upstreams d) (S (clock_reads d)).

(** The fields fixed at start-up. *)
Record config : Type := mkConfig {
  public_key : PublicKey.t;
  unit : string;
  our_price : Price.t;
  price_sheet : bytes
}.

Section driver.
Context `{Minicbor, HexCodec, Cashu, UrlParser}.
Context (clock : nat -> Z) (mint : nat -> CheckState) (cfg : config).

Definition new (wallet : BootstrapWallet.t) : t :=
  mk (Session.set_price (our_price cfg) Session.new) ∅ ∅ ∅ ∅ wallet [] ∅ 0.

Definition our_announce : bytes :=
  Announce.encode (Announce.new PROTOCOL_VERSION (public_key cfg) (unit cfg) 0).

Definition now_millis (d : t) : t * Z := (tick_clock d, clock (clock_reads d)).

(** Falls back to a zeroed key on bad input. *)
Definition parse_peer (peer_hex : string) : PeerId :=
  match hex_decode peer_hex with
  | Some b => if decide (length b = 33%nat) then PublicKey.from_bytes b
              else PublicKey.from_bytes (replicate 33 (byte_of_Z 0))
  | None => PublicKey.from_bytes (replicate 33 (byte_of_Z 0))
  end.
Definition peer_to_hex (peer : PeerId) : string := hex_encode (PublicKey.as_bytes peer).

(** *** The outbox *)

Definition is_report (message : bytes) : bool :=
  bool_decide (peek_type message = Some MessageType.MeteringReport).

Definition enqueue (peer_hex : string) (message : bytes) (d : t) : t :=
  let queue := unwrap_or (outbox d !! peer_hex) [] in
  let queue := if is_report message then filter (fun f => is_report f = false) queue else queue in
  set_outbox (<[peer_hex := queue ++ [message]]> (outbox d)) d.

Definition drain_outbox (peer_hex : string) (d : t) : t * list bytes :=
  (set_outbox (delete peer_hex (outbox d)) d, unwrap_or (outbox d !! peer_hex) []).

(** *** Executing the session's actions *)

Definition execute (d : t) (action : Action.t) : t :=
  match action with
  | Action.SetAccess peer level =>
      match peer_ip d !! peer_to_hex peer with
      | Some ip =>
          if AccessLevel.allows_delivery level then call_firewall (Allow ip) d
          else call_firewall (Deny ip) d
      | None => d
      end
  | Action.Send peer msg => enqueue (peer_to_hex peer) msg d
  | Action.StartMetering peer => set_metered ({[peer_to_hex peer]} ∪ metered d) d
  | Action.StopMetering peer => set_metered (metered d ∖ {[peer_to_hex peer]}) d
  | Action.Disconnect _ => d
  | Action.VerifyBootstrapToken _ _ => d
  end.

(** One event through the core session, stamped with the clock. *)
Definition handle (event : Event.t) (d : t) : t * list Action.t :=
  let '(d, now) := now_millis d in
  let '(s, actions) := Session.handle event now (session d) in
  (set_session s d, actions).

Definition verify_token (token : bytes) (d : t) : t * (bool * Z) :=
  match from_utf8 token with
  | None => (d, (false, 0))
  | Some token_str =>
      match BootstrapWallet.verify (mint (clock_reads d)) token_str (wallet d) with
      | (w, Ok amount) => (set_wallet w d, (true, amount))
      | (w, Err _) => (set_wallet w d, (false, 0))
      end
  end.

Definition dispatch_one (d : t) (action : Action.t) : t :=
  match action with
  | Action.VerifyBootstrapToken peer token =>
      let '(d, (verified, amount)) := verify_token token d in
      let '(d, follow) := handle (Event.BootstrapVerified peer amount verified) d in
      foldl execute d follow
  | other => execute d other
  end.

Definition dispatch (actions : list Action.t) (d : t) : t := foldl dispatch_one d actions.

(** *** Operations *)

Definition touch (peer_hex : string) (d : t) : t :=
  let '(d, now) := now_millis d in set_last_seen (<[peer_hex := now]> (last_seen d)) d.

Definition meter (peer_hex : string) (counters : Counters.t) (d : t) : t :=
  let '(d, actions) := handle (Event.MeterSample (parse_peer peer_hex) counters) d in
  dispatch actions d.

(** The peers one pass of the metering loop reads: metered and with an address. *)
Definition metering_targets (d : t) : list (string * IpAddr) :=
  omap (fun hex => (fun ip => (hex, ip)) <$> peer_ip d !! hex)
    (merge_sort str_le (elements (metered d))).
Definition metering_pass (read_counters : IpAddr -> Counters.t) (d : t) : t :=
  foldl (fun d '(hex, ip) => meter hex (read_counters ip) d) d (metering_targets d).

Definition peer_connected (peer_hex : string) (ip : option IpAddr) (d : t) : t * bool :=
  let d := match ip with
           | Some ip => set_peer_ip (<[peer_hex := ip]> (peer_ip d)) d
           | None => d
           end in
  let d := touch peer_hex d in
  let peer := parse_peer peer_hex in
  let is_new := negb (is_some (Session.peer_phase (session d) peer)) in
  let '(d, actions) := handle (Event.PeerConnected peer) d in
  let d := dispatch actions d in
  let d := enqueue peer_hex our_announce d in
  let d := if bool_decide (price_sheet cfg = []) then d
           else enqueue peer_hex (price_sheet cfg) d in
  (d, is_new).

Definition peer_disconnected (peer_hex : string) (d : t) : t :=
  let '(d, actions) := handle (Event.PeerDisconnected (parse_peer peer_hex)) d in
  let d := dispatch actions d in
  let d := set_peer_ip (delete peer_hex (peer_ip d)) d in
  let d := set_last_seen (delete peer_hex (last_seen d)) d in
  let d := set_metered (metered d ∖ {[peer_hex]}) d in
  set_outbox (delete peer_hex (outbox d)) d.

Definition message_received (peer_hex : string) (msg : bytes) (d : t) : t :=
  let d := touch peer_hex d in
  let '(d, actions) := handle (Event.MessageReceived (parse_peer peer_hex) msg) d in
  dispatch actions d.

(** One reaping sweep, over the peers idle at its start. *)
Definition reap_idle (now_ms idle_ms : Z) (d : t) : t :=
  let idle := (fun p => p.1) <$>
    filter (fun p => (idle_ms <=? sat_sub_u64 now_ms p.2) = true)
      (btree_iter str_le (last_seen d)) in
  foldl (fun d hex =>
    if bool_decide (Session.peer_phase (session d) (parse_peer hex) = Some PeerPhase.Active)
    then d else peer_disconnected hex d) d idle.

(** *** Upstreams *)

Definition record_upstream (url : string) (ev : ConsumeEvent.t) (d : t) : t :=
  let '(d, st) :=
    match upstreams d !! url with
    | Some st => (d, st)
    | None =>
        let '(d, now) := now_millis d in
        (d, UpstreamState.mk EmptyString url Price.default 0 0 0 0 None true now)
    end in
  let '(d, now) := now_millis d in
  let '(sent, recv, secs) :=
    match ConsumeEvent.report ev with
    | Some r => (rs_received r, rs_delivered r, rs_elapsed_ms r / 1000)
    | None => (UpstreamState.sent st, UpstreamState.recv st, UpstreamState.metered_secs st)
    end in
  let st := UpstreamState.mk (ConsumeEvent.peer_pubkey ev) (UpstreamState.url st)
    (ConsumeEvent.price ev) (ConsumeEvent.remaining_scaled ev) sent recv secs
    (ConsumeEvent.drift ev) (negb (ConsumeEvent.cut_off ev)) now in
  set_upstreams (<[url := st]> (upstreams d)) d.

Definition mark_upstream_offline (url : string) (d : t) : t :=
  match upstreams d !! url with
  | Some s =>
      set_upstreams (<[url := UpstreamState.mk (UpstreamState.pubkey s) (UpstreamState.url s)
        (UpstreamState.price s) (UpstreamState.remaining_scaled s) (UpstreamState.sent s)
        (UpstreamState.recv s) (UpstreamState.metered_secs s) (UpstreamState.drift s) false
        (UpstreamState.last_seen s)]> (upstreams d)) d
  | None => d
  end.

(** *** The exchange handler *)

(** The frame loop of [http_exchange]: the peer established so far, and the driver. *)
Definition exchange_frame (ip : option IpAddr) (st : t * option string) (frame : bytes)
    : t * option string :=
  let '(d, peer_hex) := st in
  match peek_type frame with
  | Some MessageType.Announce =>
      match Announce.decode frame with
      | Some announce =>
          let hex := hex_encode (PublicKey.as_bytes (Announce.public_key announce)) in
          ((peer_connected hex ip d).1, Some hex)
      | None => (d, peer_hex)
      end
  | Some _ =>
      match peer_hex with
      | Some hex => (message_received hex frame d, peer_hex)
      | None => (d, peer_hex)
      end
  | None => (d, peer_hex)
  end.

(** Messages over the frame limit are dropped from the response. *)
Definition encode_response (messages : list bytes) : bytes :=
  foldl (fun response message => (encode_frame message response).1) [] messages.

(** [None] is the 400 answer; otherwise the 200 answer's body. *)
Definition http_exchange (ip : option IpAddr) (body : bytes) (d : t) : t * option bytes :=
  match decode_frames body with
  | Some (Ok frames) =>
      let '(d, peer_hex) := foldl (exchange_frame ip) (d, None) frames in
      match peer_hex with
      | Some hex =>
          let '(d, messages) := drain_outbox hex d in (d, Some (encode_response messages))
      | None => (d, Some [])
      end
  | _ => (d, None)
  end.
End driver.
End Driver.
