(* ===== verification/NetDriverFacts.v ===== *)
(** * Theorems about the network driver

    The definitions are those of [NetDriver.v]: the outbox keeps the latest
    metering report only and loses nothing else; tearing a peer down leaves no
    trace of it; the reaper spares paid peers; the exchange handler returns what
    was queued. *)

From S2P Require Import Prelude F64 Wire ToyCodec Frames Pricing Session SessionFacts.
From S2P Require Import Wallet Consume NetDriver.
Import Driver.

(** What happens to a running node, one operation at a time. *)
Inductive op : Type :=
| Exchange (ip : option IpAddr) (body : bytes)
| MeteringPass (read_counters : IpAddr -> Counters.t)
| Reap (now_ms idle_ms : Z)
| Disconnected (peer_hex : string)
| Upstream (url : string) (ev : ConsumeEvent.t)
| UpstreamOffline (url : string).

Section facts.
Context `{Minicbor, HexCodec, Cashu, UrlParser}.
Context (clock : nat -> Z) (mint : nat -> CheckState) (cfg : config).

Definition op_step (d : t) (o : op) : t * list (option bytes) :=
  match o with
  | Exchange ip body => let '(d, r) := http_exchange clock mint cfg ip body d in (d, [r])
  | MeteringPass read => (metering_pass clock mint read d, [])
  | Reap now idle => (reap_idle clock mint now idle d, [])
  | Disconnected hex => (peer_disconnected clock mint hex d, [])
  | Upstream url ev => (record_upstream clock url ev d, [])
  | UpstreamOffline url => (mark_upstream_offline url d, [])
  end.

Definition reports (q : list bytes) : list bytes := filter (fun m => is_report m = true) q.
Definition others (q : list bytes) : list bytes := filter (fun m => is_report m = false) q.
Definition queue_of (hex : string) (d : t) : list bytes := unwrap_or (outbox d !! hex) [].

(** Every queue holds at most one metering report. *)
Definition one_report (d : t) : Prop := forall hex, (length (reports (queue_of hex d)) <= 1)%nat.

(** ** The outbox *)

Lemma queue_enqueue hex m d :
  queue_of hex (enqueue hex m d) =
    (if is_report m then others (queue_of hex d) else queue_of hex d) ++ [m].
Proof. unfold queue_of at 1, enqueue. cbn. by rewrite lookup_insert_eq. Qed.

Lemma queue_enqueue_ne hex hex' m d :
  hex' <> hex -> queue_of hex' (enqueue hex m d) = queue_of hex' d.
Proof. intros Hne. unfold queue_of, enqueue. cbn. by rewrite lookup_insert_ne by done. Qed.

Lemma reports_app a b : reports (a ++ b) = reports a ++ reports b.
Proof. apply filter_app. Qed.
Lemma others_app a b : others (a ++ b) = others a ++ others b.
Proof. apply filter_app. Qed.

Lemma reports_others q : reports (others q) = [].
Proof.
  unfold reports, others. induction q as [|m q IH]; [done|].
  destruct (is_report m) eqn:E.
  - by rewrite (filter_cons_False (fun m => is_report m = false)) by congruence.
  - rewrite (filter_cons_True (fun m => is_report m = false)) by done.
    by rewrite filter_cons_False by congruence.
Qed.

Lemma others_others q : others (others q) = others q.
Proof.
  unfold others. induction q as [|m q IH]; [done|].
  destruct (is_report m) eqn:E.
  - by rewrite (filter_cons_False (fun m => is_report m = false)) by congruence.
  - rewrite !(filter_cons_True (fun m => is_report m = false)) by done. by rewrite IH.
Qed.

Lemma reports_one m : reports [m] = if is_report m then [m] else [].
Proof.
  unfold reports. destruct (is_report m) eqn:E;
    [by rewrite filter_cons_True|by rewrite filter_cons_False by congruence].
Qed.
Lemma others_one m : others [m] = if is_report m then [] else [m].
Proof.
  unfold others. destruct (is_report m) eqn:E;
    [by rewrite filter_cons_False by congruence|by rewrite filter_cons_True].
Qed.

Lemma enqueue_one_report hex m d : one_report d -> one_report (enqueue hex m d).
Proof.
  intros Hd hex'. destruct (decide (hex' = hex)) as [->|Hne].
  - rewrite queue_enqueue, reports_app, length_app, reports_one.
    destruct (is_report m); [rewrite reports_others; cbn; lia|].
    specialize (Hd hex). cbn. lia.
  - by rewrite queue_enqueue_ne.
Qed.

(** Dropping a queue, and touching anything but the outbox, keep the invariant. *)
Lemma drop_one_report hex d : one_report d -> one_report (set_outbox (delete hex (outbox d)) d).
Proof.
  intros Hd hex'. unfold queue_of. cbn. destruct (decide (hex' = hex)) as [->|Hne].
  - rewrite lookup_delete_eq. cbn. lia.
  - rewrite lookup_delete_ne by done. apply Hd.
Qed.

Lemma same_outbox_one_report d d' : outbox d' = outbox d -> one_report d -> one_report d'.
Proof. intros E Hd hex. unfold queue_of. rewrite E. apply Hd. Qed.

Lemma execute_one_report d a : one_report d -> one_report (execute d a).
Proof.
  intros Hd. destruct a; cbn; try done.
  - by apply enqueue_one_report.
  - destruct (peer_ip d !! _); [|done]. by destruct (AccessLevel.allows_delivery level).
Qed.

Lemma executes_one_report acts d : one_report d -> one_report (foldl execute d acts).
Proof.
  revert d. induction acts as [|a acts IH]; intros d Hd; [done|].
  apply IH. by apply execute_one_report.
Qed.

Lemma handle_outbox e d : outbox (handle clock e d).1 = outbox d.
Proof. unfold handle, now_millis. by destruct (Session.handle _ _ _). Qed.

Lemma verify_token_outbox token d : outbox (verify_token mint token d).1 = outbox d.
Proof.
  unfold verify_token. destruct (from_utf8 token); [|done].
  by destruct (BootstrapWallet.verify _ _ _) as [w [a|e]].
Qed.

Lemma dispatch_one_report acts d : one_report d -> one_report (dispatch clock mint acts d).
Proof.
  unfold dispatch. revert d. induction acts as [|a acts IH]; intros d Hd; [done|].
  apply IH. destruct a; try (by apply execute_one_report). cbn [dispatch_one].
  pose proof (verify_token_outbox token d) as E1. destruct (verify_token mint token d) as [d1 [v am]].
  pose proof (handle_outbox (Event.BootstrapVerified peer am v) d1) as E2.
  destruct (handle clock (Event.BootstrapVerified peer am v) d1) as [d2 follow]. cbn [fst] in *.
  apply executes_one_report, (same_outbox_one_report d); [congruence|done].
Qed.

Lemma handled_one_report e d :
  one_report d ->
  one_report (let '(d', acts) := handle clock e d in dispatch clock mint acts d').
Proof.
  intros Hd. pose proof (handle_outbox e d) as E. destruct (handle clock e d) as [d' acts].
  by apply dispatch_one_report, (same_outbox_one_report d).
Qed.

Lemma connected_one_report hex ip d :
  one_report d -> one_report (peer_connected clock mint cfg hex ip d).1.
Proof.
  intros Hd. unfold peer_connected.
  set (d1 := match ip with Some ip => _ | None => d end).
  assert (one_report (touch clock hex d1)) as Hd1.
  { apply (same_outbox_one_report d); [|done]. by unfold d1; destruct ip. }
  pose proof (handled_one_report (Event.PeerConnected (parse_peer hex)) _ Hd1) as H2'.
  destruct (handle clock _ (touch clock hex d1)) as [d2 acts]. cbn.
  destruct (bool_decide _); repeat apply enqueue_one_report; exact H2'.
Qed.

Lemma received_one_report hex msg d :
  one_report d -> one_report (message_received clock mint hex msg d).
Proof.
  intros Hd. apply (handled_one_report (Event.MessageReceived (parse_peer hex) msg)).
  by apply (same_outbox_one_report d).
Qed.

Lemma disconnected_one_report hex d :
  one_report d -> one_report (peer_disconnected clock mint hex d).
Proof.
  intros Hd. unfold peer_disconnected.
  pose proof (handled_one_report (Event.PeerDisconnected (parse_peer hex)) d Hd) as H1'.
  destruct (handle clock _ d) as [d1 acts].
  apply drop_one_report, (same_outbox_one_report (dispatch clock mint acts d1)); done.
Qed.

Lemma foldl_inv {A B} (P : A -> Prop) (f : A -> B -> A) l a :
  (forall a b, P a -> P (f a b)) -> P a -> P (foldl f a l).
Proof. intros Hf. revert a. induction l as [|b l IH]; intros a Ha; [done|]. apply IH. by apply Hf. Qed.

Lemma op_one_report d o : one_report d -> one_report (op_step d o).1.
Proof.
  intros Hd. destruct o as [ip body|read|now idle|hex|url ev|url]; cbn.
  - unfold http_exchange. destruct (decode_frames body) as [[frames|e]|]; [|done..].
    pose proof (foldl_inv (fun st : t * option string => one_report st.1)
      (exchange_frame clock mint cfg ip) frames (d, None)) as K.
    destruct (foldl _ (d, None) frames) as [d1 [hex|]]; cbn in *.
    + apply drop_one_report, K; [|done]. intros [d' ph] frame Hd'. unfold exchange_frame.
      destruct (peek_type frame) as [[]|]; try done; cbn [fst] in *;
        try (destruct ph; [by apply received_one_report|done]).
      destruct (Announce.decode frame); [|done]. by apply connected_one_report.
    + apply K; [|done]. intros [d' ph] frame Hd'. unfold exchange_frame.
      destruct (peek_type frame) as [[]|]; try done; cbn [fst] in *;
        try (destruct ph; [by apply received_one_report|done]).
      destruct (Announce.decode frame); [|done]. by apply connected_one_report.
  - unfold metering_pass. apply foldl_inv; [|done]. intros d' [hex ip] Hd'.
    by apply (handled_one_report (Event.MeterSample (parse_peer hex) (read ip))).
  - unfold reap_idle. apply foldl_inv; [|done]. intros d' hex Hd'.
    destruct (bool_decide _); [done|]. by apply disconnected_one_report.
  - by apply disconnected_one_report.
  - apply (same_outbox_one_report d); [|done]. unfold record_upstream, now_millis.
    destruct (upstreams d !! url); by destruct (ConsumeEvent.report ev).
  - apply (same_outbox_one_report d); [|done]. unfold mark_upstream_offline.
    by destruct (upstreams d !! url).
Qed.

(** What repeated queueing for one peer leaves in its queue. *)
Lemma enqueues_queue hex ms d :
  (length (reports (queue_of hex d)) <= 1)%nat ->
  let q := queue_of hex (foldl (fun d m => enqueue hex m d) d ms) in
  others q = others (queue_of hex d ++ ms) /\
  reports q = option_list (last (reports (queue_of hex d ++ ms))).
Proof.
  revert d. induction ms as [|m ms IH]; intros d Hd; cbn [foldl].
  - rewrite app_nil_r. split; [done|].
    destruct (reports (queue_of hex d)) as [|r [|r' rs]]; [done|done|simpl in Hd; lia].
  - destruct (IH (enqueue hex m d)) as [I1 I2].
    { rewrite queue_enqueue, reports_app, length_app, reports_one.
      destruct (is_report m); [rewrite reports_others; cbn; lia|cbn; lia]. }
    cbv zeta. rewrite I1, I2, queue_enqueue, (cons_middle m (queue_of hex d) ms).
    rewrite !reports_app, !others_app, reports_one, others_one.
    destruct (is_report m).
    + rewrite others_others, reports_others, app_nil_r, !last_app. cbn. split; [done|].
      by destruct (last (reports ms)).
    + rewrite app_nil_r, <- (assoc_L (++)). done.
Qed.

(** ** Tearing a peer down *)

Lemma peer_disconnected_eq hex d :
  let p := parse_peer hex in
  let h := peer_to_hex p in
  peer_disconnected clock mint hex d =
    mk (Session.set_peers (delete p (Session.peers (session d))) (session d))
      (delete hex (outbox d)) (delete hex (peer_ip d)) (delete hex (last_seen d))
      (metered d ∖ {[h]} ∖ {[hex]}) (wallet d)
      (match peer_ip d !! h with Some ip => firewall d ++ [Deny ip] | None => firewall d end)
      (upstreams d) (S (clock_reads d)).
Proof.
  cbv zeta. unfold peer_disconnected, handle, now_millis. cbn [Session.handle].
  rewrite tear_down_eq. unfold dispatch. cbn [foldl dispatch_one execute AccessLevel.allows_delivery].
  cbn [peer_ip set_session tick_clock]. by destruct (peer_ip d !! _).
Qed.

(** [d'] holds nothing about peers that [d] did not hold. *)
Definition shrunk (d d' : t) : Prop :=
  Session.peers (session d') ⊆ Session.peers (session d) /\
  outbox d' ⊆ outbox d /\ peer_ip d' ⊆ peer_ip d /\ last_seen d' ⊆ last_seen d /\
  metered d' ⊆ metered d.

#[export] Instance shrunk_preorder : PreOrder shrunk.
Proof.
  split.
  - intros d. by split_and!.
  - intros d1 d2 d3 (?&?&?&?&?) (?&?&?&?&?). unfold shrunk. split_and!; by etransitivity.
Qed.

Lemma disconnected_shrunk hex d : shrunk d (peer_disconnected clock mint hex d).
Proof.
  rewrite peer_disconnected_eq. unfold shrunk. cbn.
  split_and!; try apply delete_subseteq. set_solver.
Qed.

(** Nothing is known of [p]. *)
Definition gone (p : PeerId) (d : t) : Prop :=
  Session.peers (session d) !! p = None /\ outbox d !! peer_to_hex p = None /\
  peer_ip d !! peer_to_hex p = None /\ last_seen d !! peer_to_hex p = None /\
  peer_to_hex p ∉ metered d.

Lemma gone_shrunk p d d' : shrunk d d' -> gone p d -> gone p d'.
Proof.
  intros (?&?&?&?&?) (?&?&?&?&?). unfold gone.
  split_and!; try (by eapply lookup_weaken_None). set_solver.
Qed.

(** Two states hold the same about [p]. *)
Definition same_at (p : PeerId) (d d' : t) : Prop :=
  Session.peers (session d') !! p = Session.peers (session d) !! p /\
  outbox d' !! peer_to_hex p = outbox d !! peer_to_hex p /\
  peer_ip d' !! peer_to_hex p = peer_ip d !! peer_to_hex p /\
  last_seen d' !! peer_to_hex p = last_seen d !! peer_to_hex p /\
  (peer_to_hex p ∈ metered d' <-> peer_to_hex p ∈ metered d).

Context `{!HexLaws}.

Lemma parse_to_hex p : PublicKey.wf p -> parse_peer (peer_to_hex p) = p.
Proof.
  intros Hp. unfold parse_peer, peer_to_hex. rewrite hex_roundtrip, decide_True by exact Hp.
  by destruct p.
Qed.

Lemma to_hex_inj p q : peer_to_hex p = peer_to_hex q -> p = q.
Proof.
  unfold peer_to_hex. intros E%(f_equal hex_decode). rewrite !hex_roundtrip in E.
  destruct p, q. simpl in E. congruence.
Qed.

Lemma disconnected_other hex p d :
  PublicKey.wf p -> parse_peer hex <> p -> same_at p d (peer_disconnected clock mint hex d).
Proof.
  intros Hp Hne. rewrite peer_disconnected_eq. unfold same_at. cbn.
  assert (hex <> peer_to_hex p) as Hh by (intros ->; by rewrite parse_to_hex in Hne).
  assert (peer_to_hex (parse_peer hex) <> peer_to_hex p) as Hh2 by (by intros E%to_hex_inj).
  rewrite !lookup_delete_ne by done. split_and!; try done. set_solver.
Qed.

Lemma disconnected_gone p d :
  PublicKey.wf p -> gone p (peer_disconnected clock mint (peer_to_hex p) d).
Proof.
  intros Hp. rewrite peer_disconnected_eq, parse_to_hex by done. unfold gone. cbn.
  rewrite !lookup_delete_eq. split_and!; try done. set_solver.
Qed.

(** ** The reaping sweep *)

Definition reap_one (d : t) (hex : string) : t :=
  if bool_decide (Session.peer_phase (session d) (parse_peer hex) = Some PeerPhase.Active)
  then d else peer_disconnected clock mint hex d.

Definition active (p : PeerId) (d : t) : Prop :=
  Session.peer_phase (session d) p = Some PeerPhase.Active.

Lemma same_at_active p d d' : same_at p d d' -> (active p d' <-> active p d).
Proof. intros (E & _). unfold active, Session.peer_phase. by rewrite E. Qed.

Lemma same_at_trans p d1 d2 d3 : same_at p d1 d2 -> same_at p d2 d3 -> same_at p d1 d3.
Proof.
  intros (E1 & E2 & E3 & E4 & E5) (F1 & F2 & F3 & F4 & F5). split_and!; [congruence..|tauto].
Qed.

Lemma reap_one_active p d hex :
  PublicKey.wf p -> active p d -> same_at p d (reap_one d hex).
Proof.
  intros Hp Ha. unfold reap_one. destruct (decide (parse_peer hex = p)) as [->|Hne].
  - rewrite bool_decide_eq_true_2 by done. by split_and!.
  - destruct (bool_decide _); [by split_and!|by apply disconnected_other].
Qed.

Lemma reap_one_shrunk d hex : shrunk d (reap_one d hex).
Proof. unfold reap_one. destruct (bool_decide _); [done|apply disconnected_shrunk]. Qed.

Lemma shrunk_not_active p d d' : shrunk d d' -> ~ active p d -> ~ active p d'.
Proof.
  intros (Hs & _) Hn Ha. apply Hn. unfold active, Session.peer_phase in *.
  destruct (Session.peers (session d') !! p) as [ps|] eqn:E; [|done].
  by rewrite (lookup_weaken _ _ _ _ E Hs).
Qed.

Lemma reap_fold_active p hexes d :
  PublicKey.wf p -> active p d -> same_at p d (foldl reap_one d hexes).
Proof.
  intros Hp. revert d. induction hexes as [|hex hexes IH]; intros d Ha; [by split_and!|].
  pose proof (reap_one_active p d hex Hp Ha) as Hs. cbn [foldl].
  assert (active p (reap_one d hex)) as Ha' by (by apply (same_at_active p d)).
  by eapply same_at_trans; [|apply IH].
Qed.

(** A sweep of other peers' names leaves a peer alone. *)
Lemma reap_fold_others p hexes d :
  PublicKey.wf p -> Forall (fun hex => parse_peer hex <> p) hexes -> same_at p d (foldl reap_one d hexes).
Proof.
  intros Hp Hh. revert d. induction Hh as [|hex hexes Hne _ IH]; intros d; [by split_and!|]. cbn [foldl].
  eapply same_at_trans; [|apply IH]. unfold reap_one.
  destruct (bool_decide _); [by split_and!|by apply disconnected_other].
Qed.

Lemma reap_fold_shrunk hexes d : shrunk d (foldl reap_one d hexes).
Proof.
  revert d. induction hexes as [|hex hexes IH]; intros d; [done|].
  etransitivity; [apply reap_one_shrunk|apply IH].
Qed.

Lemma reap_fold_gone p hexes d :
  PublicKey.wf p -> ~ active p d -> peer_to_hex p ∈ hexes -> gone p (foldl reap_one d hexes).
Proof.
  intros Hp. revert d. induction hexes as [|hex hexes IH]; intros d Hn Hin;
    [by apply not_elem_of_nil in Hin|].
  cbn [foldl]. destruct (decide (hex = peer_to_hex p)) as [->|Hne].
  - apply (gone_shrunk p (reap_one d (peer_to_hex p))); [apply reap_fold_shrunk|].
    unfold reap_one. rewrite parse_to_hex, bool_decide_eq_false_2 by done.
    by apply disconnected_gone.
  - apply IH; [exact (shrunk_not_active p d _ (reap_one_shrunk d hex) Hn)|].
    apply elem_of_cons in Hin as [E|Hin]; [congruence|done].
Qed.

Lemma reap_idle_fold now idle d :
  reap_idle clock mint now idle d =
    foldl reap_one d ((fun p => p.1) <$>
      filter (fun p => (idle <=? sat_sub_u64 now p.2) = true) (btree_iter str_le (last_seen d))).
Proof. done. Qed.

(** ** The exchange *)

Lemma encode_response_fits ms acc :
  foldl (fun response message => (encode_frame message response).1) acc ms =
    (encode_frames (filter fits ms) acc).1.
Proof.
  revert acc. induction ms as [|m ms IH]; intros acc; [done|]. cbn [foldl].
  destruct (decide (fits m)) as [Hf|Hf].
  - rewrite filter_cons_True by done. cbn [encode_frames].
    rewrite IH, (encode_frame_fits m acc Hf). done.
  - rewrite filter_cons_False by done. unfold encode_frame, fits in *.
    by rewrite (proj2 (Z.ltb_lt _ _)) by lia.
Qed.

Lemma response_decodes ms :
  decode_frames (encode_response ms) = Some (Ok (filter fits ms)).
Proof.
  unfold encode_response. rewrite encode_response_fits.
  assert (Forall fits (filter fits ms)) as Hf.
  { apply Forall_forall. intros m Hm. by apply list_elem_of_filter in Hm as [? _]. }
  rewrite encode_frames_fits by done. cbn [fst app].
  rewrite <- (app_nil_r (concat _)), decode_frames_split by auto. by rewrite decide_True.
Qed.

(** Until an announcement is decoded nothing happens. *)
Lemma exchange_anonymous ip frames d :
  (foldl (exchange_frame clock mint cfg ip) (d, None) frames).2 = None ->
  (foldl (exchange_frame clock mint cfg ip) (d, None) frames).1 = d.
Proof.
  assert (forall frames d hex,
    (foldl (exchange_frame clock mint cfg ip) (d, Some hex) frames).2 <> None) as K.
  { clear. intros frames. induction frames as [|f frames IH]; intros d hex; [done|].
    cbn [foldl]. unfold exchange_frame at 2.
    destruct (peek_type f) as [[]|]; try destruct (Announce.decode f); apply IH. }
  induction frames as [|f frames IH]; [done|]. cbn [foldl]. unfold exchange_frame at 2 4.
  destruct (peek_type f) as [[]|]; try exact IH.
  destruct (Announce.decode f); [|exact IH]. intros E. by apply K in E.
Qed.
End facts.

(** ** A node, for the witnesses *)

Module NodeDemo.
Definition clock (n : nat) : Z := 1000 * Z.of_nat n.
Definition mint (n : nat) : CheckState := WalletDemo.honest.
Definition cfg : config := mkConfig ConsumeDemo.key "bytes" (Price.mk 0 1) [].
Definition alice : PeerId := PublicKey.from_bytes (replicate 33 (byte_of_Z 2)).
Definition announce : bytes := Announce.encode (H := Toy.toy.(mc_announce)) (Announce.new 1 alice "bytes" 0).
Definition token : bytes :=
  BootstrapToken.encode (H := Toy.toy.(mc_token)) (BootstrapToken.new (as_bytes "proof-1")).
#[export] Instance hex_laws : @HexLaws ConsumeDemo.hex.
Proof. split. intros b. exact (f_equal Some (String.list_byte_of_string_of_list_byte b)). Qed.
Definition boot : t := Driver.new cfg WalletDemo.wallet.
(** [alice] announces herself, pays, and is metered once. *)
Definition ops : list op := [
  Exchange (Some "10.0.0.2"%string) (encode_frames [announce; token] []).1;
  MeteringPass (fun _ => Counters.mk 100 5);
  MeteringPass (fun _ => Counters.mk 160 6);
  MeteringPass (fun _ => Counters.mk 170 7)].
Definition step : t -> op -> t * list (option bytes) :=
  op_step (H := Toy.toy) (H0 := ConsumeDemo.hex) clock mint cfg.
Definition node : t := (run step boot ops).1.
End NodeDemo.

(** ** Properties *)

(** A slow poller gets the latest report and every other message. Whatever is
    queued for a peer between two polls, its queue then holds the last metering
    report queued, if any, and every other message, in order; and in a node's whole
    life, over any sequence of exchanges, metering passes, sweeps and upstream
    events, no queue ever holds two metering reports. *)
Theorem outbox_keeps_latest_report `{Minicbor, HexCodec, Cashu, UrlParser} clock mint cfg wallet ops hex ms :
  let d := (run (op_step clock mint cfg) (Driver.new cfg wallet) ops).1 in
  let q := queue_of hex d in
  let q' := queue_of hex (foldl (fun d m => enqueue hex m d) d ms) in
  (length (reports q) <= 1)%nat /\
  others q' = others (q ++ ms) /\
  reports q' = option_list (last (reports (q ++ ms))).
Proof.
  cbv zeta. set (d := (run _ _ ops).1).
  assert (one_report d) as Hd.
  { unfold d. destruct (run (op_step clock mint cfg) (Driver.new cfg wallet) ops) as [d' os] eqn:E.
    eapply (run_invariant (op_step clock mint cfg) one_report); [|..|exact E].
    - intros. by apply op_one_report.
    - intros h. unfold queue_of. cbn. rewrite lookup_empty. cbn. lia. }
  split; [apply Hd|]. apply enqueues_queue, Hd.
Qed.

(** C18: the reaper removes exactly the idle peers that have not paid. After a
    sweep, a peer whose session was [Active] is untouched, whatever its idle time:
    session, queue, address, idle timer and metering; so is a peer that is not idle, none
    of the timers under a name that is read as that peer having run out; an idle peer that was not [Active] is completely forgotten, so a later reconnect starts
    fresh; and the sweep adds nothing to any peer. *)
Theorem reaper_spares_active `{Minicbor, HexCodec, Cashu, UrlParser, !HexLaws}
    clock mint now_ms idle_ms d p :
  PublicKey.wf p ->
  let d' := reap_idle clock mint now_ms idle_ms d in
  (Session.peer_phase (session d) p = Some PeerPhase.Active -> same_at p d d') /\
  ((forall hex seen, last_seen d !! hex = Some seen -> parse_peer hex = p ->
      sat_sub_u64 now_ms seen < idle_ms) -> same_at p d d') /\
  (Session.peer_phase (session d) p <> Some PeerPhase.Active ->
   forall seen, last_seen d !! peer_to_hex p = Some seen -> idle_ms <= sat_sub_u64 now_ms seen ->
   gone p d') /\
  shrunk d d'.
Proof.
  intros Hp. rewrite reap_idle_fold. split; [|split; [|split]].
  - intros Ha. by apply reap_fold_active.
  - intros Hi. apply reap_fold_others; [done..|]. apply Forall_fmap, Forall_forall.
    intros [hex seen] [Hs Hin]%list_elem_of_filter. apply Z.leb_le in Hs. cbn in Hs |- *.
    apply elem_of_btree_iter in Hin. intros E. specialize (Hi hex seen Hin E). lia.
  - intros Hn seen Hs Hi. apply reap_fold_gone; try done.
    apply list_elem_of_fmap. exists (peer_to_hex p, seen). split; [done|].
    apply list_elem_of_filter. split; [by apply Z.leb_le|]. by apply elem_of_btree_iter.
  - apply reap_fold_shrunk.
Qed.

Lemma reaper_spares_active_witness :
  PublicKey.wf NodeDemo.alice /\
  Session.peer_phase (session NodeDemo.node) NodeDemo.alice = Some PeerPhase.Active /\
  last_seen (@reap_idle Toy.toy ConsumeDemo.hex _ _ NodeDemo.clock NodeDemo.mint
    999999999 1000 NodeDemo.node) !! @peer_to_hex ConsumeDemo.hex NodeDemo.alice =
  last_seen NodeDemo.node !! @peer_to_hex ConsumeDemo.hex NodeDemo.alice.
Proof.
  assert (PublicKey.wf NodeDemo.alice) as Hw by reflexivity.
  assert (Session.peer_phase (session NodeDemo.node) NodeDemo.alice = Some PeerPhase.Active) as Ha
    by (vm_compute; reflexivity).
  split; [exact Hw|]. split; [exact Ha|].
  destruct (proj1 (@reaper_spares_active Toy.toy ConsumeDemo.hex _ _ NodeDemo.hex_laws
    NodeDemo.clock NodeDemo.mint 999999999 1000 NodeDemo.node NodeDemo.alice Hw) Ha)
    as (_ & _ & _ & E & _).
  exact E.
Defined.

(** C19: an exchange answers with what was queued, and only to a peer that announced
    itself. A badly framed body is answered 400 and changes nothing; a body whose
    frames contain no announcement that decodes changes nothing, whatever tokens or
    reports it carries, and is answered with an empty body; otherwise the answer
    decodes to exactly the messages queued for the announced peer that fit a frame,
    in order, and its queue is emptied. *)
Theorem exchange_answers `{Minicbor, HexCodec, Cashu, UrlParser} clock mint cfg ip body d :
  match decode_frames body with
  | Some (Ok frames) =>
      let st := foldl (exchange_frame clock mint cfg ip) (d, None) frames in
      match st.2 with
      | None => http_exchange clock mint cfg ip body d = (d, Some [])
      | Some hex =>
          exists d' resp, http_exchange clock mint cfg ip body d = (d', Some resp) /\
            decode_frames resp = Some (Ok (filter fits (queue_of hex st.1))) /\
            queue_of hex d' = [] /\ session d' = session st.1 /\ firewall d' = firewall st.1
      end
  | _ => http_exchange clock mint cfg ip body d = (d, None)
  end.
Proof.
  unfold http_exchange. destruct (decode_frames body) as [[frames|e]|]; [|done..]. cbv zeta.
  pose proof (exchange_anonymous clock mint cfg ip frames d) as Hanon.
  destruct (foldl _ (d, None) frames) as [d1 [hex|]]; cbn [fst snd] in *.
  - unfold drain_outbox. do 2 eexists. split; [reflexivity|].
    split; [apply response_decodes|]. split; [|done].
    unfold queue_of. cbn. by rewrite lookup_delete_eq.
  - by rewrite (Hanon eq_refl).
Qed.
