(* ===== verification/Config.v ===== *)
(** * Configuration: what a node advertises and what it charges

    Models the data of [crates/tollgate-net/src/config.rs], the price sheet built
    from the configured products and mints, and the price that [main.rs] hands to the
    session. Finding the file and the identity key is in [Startup.v]; YAML is
    [serde_yaml]'s. *)

From S2P Require Import Prelude F64 Wire ToyCodec Product Pricing Consume.

Definition DEFAULT_MIN_INTERVAL_MS : Z := 5000.
Definition DEFAULT_MAX_INTERVAL_MS : Z := 60000.

Module FirewallMode.
Inductive t : Set := Enforcing | SetsOnly.
Definition default : t := Enforcing.
Definition installs_forward_chain (m : t) : bool :=
  match m with Enforcing => true | SetsOnly => false end.
End FirewallMode.

Module ProductConfig.
Record t : Set := mk {
  pricing_scale : Z;
  price_per_second : Z;
  price_per_unit : Z;
  price_per_second_floor : option Z;
  price_per_second_ceiling : option Z;
  price_per_unit_floor : option Z;
  price_per_unit_ceiling : option Z
}.
Definition default : t := mk 0 0 0 None None None None.
Definition wf (p : t) : Prop :=
  is_u32 (pricing_scale p) /\ is_i64 (price_per_second p) /\ is_i64 (price_per_unit p).
End ProductConfig.

Module UpstreamConfig.
Record t : Set := mk {
  peer : string;
  mint : string;
  amount : Z;
  topup : Z;
  interval_secs : Z;
  meter_iface : option string;
  meter_upstream : bool
}.
Definition default : t := mk EmptyString EmptyString 8 8 5 None false.
End UpstreamConfig.

(** Dynamic pricing and per-peer overrides: read from the file, not yet by the node. *)
Module DynamicPricingConfig.
Record t : Set := mk {
  enabled : bool;
  strategy : string;
  metric_weights : gmap string f64;
  active_peer_multiplier : option f64;
  max_active_peers : option Z
}.
Definition default : t := mk false EmptyString ∅ None None.
End DynamicPricingConfig.

Module PeerOverride.
Record t : Set := mk { price_multiplier : option f64; blocked : bool }.
Definition default : t := mk None false.
End PeerOverride.

Module V1AcceptedMint.
Record t : Set := mk {
  url : string;
  price_per_step : Z;
  unit : string;
  min_steps : Z
}.
Definition default : t := mk EmptyString 1 "sat" 1.
End V1AcceptedMint.

Module V1CompatConfig.
Record t : Set := mk {
  metric : string;
  step_size : Z;
  accepted_mints : list V1AcceptedMint.t;
  nostr_secret_key : option string;
  trust_proxy_headers : bool;
  wallet_seed : option string
}.
Definition default : t := mk EmptyString 0 [] None false None.
End V1CompatConfig.

(** A path is its bytes. *)
Abbreviation PathBuf := string (only parsing).

Module Config.
Record t : Set := mk {
  secret_key_file : option PathBuf;
  listen : string;
  mints : list string;
  products : list ProductConfig.t;
  firewall : FirewallMode.t;
  unit : string;
  control_socket : PathBuf;
  metering_interval_secs : Z;
  upstreams : list UpstreamConfig.t;
  v1_compat : V1CompatConfig.t;
  dynamic_pricing : DynamicPricingConfig.t;
  peer_overrides : gmap string PeerOverride.t
}.
Definition default : t :=
  mk None "127.0.0.1:4747" [] [] FirewallMode.default "bytes" "/tmp/tollgate.sock" 5 []
    V1CompatConfig.default DynamicPricingConfig.default ∅.

Definition effective_scale (p : ProductConfig.t) : Z :=
  if ProductConfig.pricing_scale p =? 0 then DEFAULT_PRICING_SCALE
  else ProductConfig.pricing_scale p.

Definition mint_prices (cfg : t) (p : ProductConfig.t) : list MintPrice.t :=
  (fun url => MintPrice.mk url (ProductConfig.price_per_second p)
                (ProductConfig.price_per_unit p) "sat") <$> mints cfg.

Definition mint_option `{Sha256} (mp : MintPrice.t) : MintOption.t :=
  MintOption.new (option_id (MintPrice.mint_url mp) (MintPrice.mint_unit mp))
    (MintPrice.mint_url mp) (MintPrice.price_per_second mp) (MintPrice.price_per_unit mp)
    (MintPrice.mint_unit mp).

Definition offer `{Sha256} (cfg : t) (p : ProductConfig.t) : ProductEntry.t :=
  let scale := effective_scale p in
  let prices := mint_prices cfg p in
  ProductEntry.new (pid_bytes (product_id scale prices [])) [] scale (mint_option <$> prices).

Definition price_sheet `{Sha256} (cfg : t) : PriceSheet.t :=
  PriceSheet.new (offer cfg <$> products cfg)
    (IntervalRange.new DEFAULT_MIN_INTERVAL_MS DEFAULT_MAX_INTERVAL_MS).

(** [main.rs]: one price for all peers, taken from the first configured product. *)
Definition startup_price (cfg : t) : Price.t :=
  match head (products cfg) with
  | Some p => Price.mk (ProductConfig.price_per_second p) (ProductConfig.price_per_unit p)
  | None => Price.default
  end.

(** The metering period, in seconds: at least one. *)
Definition metering_period (cfg : t) : Z := Z.max (metering_interval_secs cfg) 1.

Definition wf (cfg : t) : Prop :=
  Forall ascii (mints cfg) /\ Forall ProductConfig.wf (products cfg).
End Config.

(** ** The sheet is within the wire's types *)

Section sheet.
Context `{Sha256} (sha256_length : forall b, length (sha256 b) = 32%nat).

Lemma effective_scale_u32 p : ProductConfig.wf p -> is_u32 (Config.effective_scale p).
Proof.
  intros (Hs & _). unfold Config.effective_scale. destruct (_ =? 0); [|done].
  unfold DEFAULT_PRICING_SCALE. ints.
Qed.

Lemma offer_wf cfg p :
  Config.wf cfg -> ProductConfig.wf p -> ProductEntry.wf (Config.offer cfg p).
Proof.
  intros [Hm _] Hp. split_and!; cbn [Config.offer ProductEntry.product_id
    ProductEntry.pricing_scale ProductEntry.mint_options].
  1: apply sha256_length. 1-2: by apply effective_scale_u32.
  unfold Config.mint_prices. apply Forall_fmap, Forall_fmap.
  apply (Forall_impl _ _ _ Hm). intros url Hu. destruct Hp as (_ & Hs & Hu').
  unfold compose, MintOption.wf. cbn. split; [apply sha256_length|]. do 3 (split; [done|]).
  apply (bool_decide_unpack _). by vm_compute.
Qed.

Lemma price_sheet_wf cfg : Config.wf cfg -> PriceSheet.wf (Config.price_sheet cfg).
Proof.
  intros Hc. split_and!; cbn; try ints.
  - apply Forall_fmap. apply (Forall_impl _ _ _ (proj2 Hc)). intros p Hp. by apply offer_wf.
  - unfold IntervalRange.wf, DEFAULT_MIN_INTERVAL_MS, DEFAULT_MAX_INTERVAL_MS. cbn. ints.
Qed.
End sheet.
