(* ===== verification/Status.v ===== *)
(** * The status view

    Models [Driver::status] and [decode_pricing] of
    [crates/tollgate-net/src/driver.rs], and the status structs of [status.rs]:
    a peering is bidirectional, so the session's view of a peer (we deliver to it)
    and the upstream loops' view (it delivers to us) are merged into one entry per
    public key. The theorem gives every field of an entry in closed form. *)

From S2P Require Import Prelude F64 Wire ToyCodec Product Pricing Session Wallet Consume NetDriver.
From S2P Require Import SessionFacts NetDriverFacts Config.
Import Driver.

(** [status.rs]'s [Pricing]: a price as shown. *)
Module Rates.
Record t : Set := mk { price_per_second : Z; price_per_unit : Z }.
Definition default : t := mk 0 0.
Definition of_price (p : Price.t) : t := mk (Price.per_second p) (Price.per_unit p).
End Rates.

Module MintStatus.
Record t : Set := mk {
  mint_url : string;
  mint_unit : string;
  price_per_second : Z;
  price_per_unit : Z
}.
End MintStatus.

Module ProductStatus.
Record t : Set := mk { product_id : string; pricing_scale : Z; mints : list MintStatus.t }.
End ProductStatus.

Module PricingStatus.
Record t : Set := mk {
  products : list ProductStatus.t;
  min_interval_ms : Z;
  max_interval_ms : Z
}.
Definition default : t := mk [] 0 0.
End PricingStatus.

Module PeerStatus.
Record t : Set := mk {
  pubkey : string;
  ip : option string;
  state : string;
  delivered : Z;
  received : Z;
  our_price : Rates.t;
  their_price : Rates.t;
  their_balance : Z;
  our_balance : Z;
  metered_secs : Z;
  idle_ms : Z;
  drift : option f64
}.
Definition net_balance (p : t) : Z := wrap_i64 (their_balance p - our_balance p).
End PeerStatus.

Module NodeStatus.
Record t : Set := mk {
  pubkey : string;
  unit : string;
  peers : list PeerStatus.t;
  pricing : PricingStatus.t
}.

(** [(active, suspended, other)]. *)
Definition count_state (c : Z * Z * Z) (p : PeerStatus.t) : Z * Z * Z :=
  let '(active, suspended, other) := c in
  if bool_decide (PeerStatus.state p = "Active"%string) then (active + 1, suspended, other)
  else if bool_decide (PeerStatus.state p = "Suspended"%string) then (active, suspended + 1, other)
  else (active, suspended, other + 1).
Definition state_counts (s : t) : Z * Z * Z := foldl count_state (0, 0, 0) (peers s).
End NodeStatus.

Section status.
Context `{Minicbor, HexCodec, Cashu, UrlParser}.
Context (clock : nat -> Z) (cfg : config).

Definition mint_status (m : MintOption.t) : MintStatus.t :=
  MintStatus.mk (MintOption.mint_url m) (MintOption.mint_unit m)
    (MintOption.price_per_second m) (MintOption.price_per_unit m).
Definition product_status (p : ProductEntry.t) : ProductStatus.t :=
  ProductStatus.mk (hex_encode (ProductEntry.product_id p)) (ProductEntry.pricing_scale p)
    (mint_status <$> ProductEntry.mint_options p).

Definition decode_pricing (encoded : bytes) : PricingStatus.t :=
  match PriceSheet.decode encoded with
  | None => PricingStatus.default
  | Some sheet =>
      PricingStatus.mk (product_status <$> PriceSheet.products sheet)
        (IntervalRange.min_ms (PriceSheet.interval sheet))
        (IntervalRange.max_ms (PriceSheet.interval sheet))
  end.

(** [format!("{:?}", phase)]. *)
Definition phase_name (ph : PeerPhase.t) : string :=
  match ph with
  | PeerPhase.New => "New" | PeerPhase.BootstrapPending => "BootstrapPending"
  | PeerPhase.Active => "Active" | PeerPhase.Suspended => "Suspended"
  | PeerPhase.Closed => "Closed"
  end.

(** The outbound side: what the session knows of a peer. *)
Definition sell_entry (d : t) (now : Z) (s : PeerSnapshot.t) : PeerStatus.t :=
  let hex := peer_to_hex (PeerSnapshot.peer s) in
  PeerStatus.mk hex (peer_ip d !! hex) (phase_name (PeerSnapshot.phase s))
    (PeerSnapshot.delivered s) (PeerSnapshot.received s)
    (Rates.of_price (our_price cfg)) Rates.default (PeerSnapshot.balance s) 0
    (map_or (PeerSnapshot.metering_start s) 0 (fun start => sat_sub_u64 now start / 1000))
    (map_or (last_seen d !! hex) 0 (fun seen => sat_sub_u64 now seen))
    (PeerSnapshot.drift s).

(** The entry of a peer we only buy from, before its inbound side is filled. *)
Definition buy_entry (u : UpstreamState.t) (up_idle : Z) : PeerStatus.t :=
  PeerStatus.mk (UpstreamState.pubkey u) (Some (UpstreamState.url u))
    (if UpstreamState.online u then "Active" else "Cut-off") 0 0
    (Rates.of_price (our_price cfg)) Rates.default 0 0 0 up_idle None.

Definition fill_inbound (u : UpstreamState.t) (up_idle : Z) (e : PeerStatus.t) : PeerStatus.t :=
  PeerStatus.mk (PeerStatus.pubkey e) (PeerStatus.ip e) (PeerStatus.state e)
    (Z.max (PeerStatus.delivered e) (UpstreamState.sent u))
    (Z.max (PeerStatus.received e) (UpstreamState.recv u))
    (PeerStatus.our_price e) (Rates.of_price (UpstreamState.price u))
    (PeerStatus.their_balance e) (UpstreamState.remaining_scaled u)
    (Z.max (PeerStatus.metered_secs e) (UpstreamState.metered_secs u))
    (Z.min (PeerStatus.idle_ms e) up_idle)
    (opt_or (PeerStatus.drift e) (UpstreamState.drift u)).

Definition add_session (d : t) (now : Z) (m : gmap string PeerStatus.t) (s : PeerSnapshot.t)
    : gmap string PeerStatus.t :=
  <[peer_to_hex (PeerSnapshot.peer s) := sell_entry d now s]> m.

Definition add_upstream (now : Z) (m : gmap string PeerStatus.t) (u : UpstreamState.t)
    : gmap string PeerStatus.t :=
  let up_idle := sat_sub_u64 now (UpstreamState.last_seen u) in
  let entry := unwrap_or (m !! UpstreamState.pubkey u) (buy_entry u up_idle) in
  <[UpstreamState.pubkey u := fill_inbound u up_idle entry]> m.

Definition by_pubkey (d : t) (now : Z) : gmap string PeerStatus.t :=
  let sold := foldl (add_session d now) ∅ (Session.snapshot (session d)) in
  foldl (add_upstream now) sold (snd <$> btree_iter str_le (upstreams d)).

Definition status (d : t) : t * NodeStatus.t :=
  let '(d', now) := now_millis clock d in
  (d', NodeStatus.mk (peer_to_hex (public_key cfg)) (unit cfg)
         (snd <$> btree_iter str_le (by_pubkey d now)) (decode_pricing (price_sheet cfg))).
End status.

(** ** What an entry shows, in closed form *)

Section facts.
Context `{Minicbor, HexCodec, Cashu, UrlParser}.
Context (clock : nat -> Z) (cfg : config).

(** The session's view of the peer with key [k], and the upstreams with that key in
    the order of their URLs. *)
Definition sold (d : t) (k : string) : option PeerSnapshot.t :=
  last (filter (fun s => peer_to_hex (PeerSnapshot.peer s) = k) (Session.snapshot (session d))).
Definition bought (d : t) (k : string) : list UpstreamState.t :=
  filter (fun u => UpstreamState.pubkey u = k) (snd <$> btree_iter str_le (upstreams d)).
Definition up_idle (now : Z) (u : UpstreamState.t) : Z :=
  sat_sub_u64 now (UpstreamState.last_seen u).

(** The two sides of an entry, merged: usage is the same flow seen by both, so the
    higher count; money stays on its own side; the sell side's drift comes first. *)
Record merged (d : t) (now : Z) (s : option PeerSnapshot.t) (us : list UpstreamState.t)
    (e : PeerStatus.t) : Prop := {
  m_balance : PeerStatus.their_balance e = from_option PeerSnapshot.balance 0 s;
  m_custody : PeerStatus.our_balance e = from_option UpstreamState.remaining_scaled 0 (last us);
  m_our_price : PeerStatus.our_price e = Rates.of_price (our_price cfg);
  m_their_price : PeerStatus.their_price e =
    from_option (fun u => Rates.of_price (UpstreamState.price u)) Rates.default (last us);
  m_delivered : PeerStatus.delivered e =
    foldl Z.max (from_option PeerSnapshot.delivered 0 s) (UpstreamState.sent <$> us);
  m_received : PeerStatus.received e =
    foldl Z.max (from_option PeerSnapshot.received 0 s) (UpstreamState.recv <$> us);
  m_drift : PeerStatus.drift e = foldl opt_or (s ≫= PeerSnapshot.drift) (UpstreamState.drift <$> us);
  m_idle : PeerStatus.idle_ms e =
    foldl Z.min
      (match s, us with
       | Some s, _ => PeerStatus.idle_ms (sell_entry cfg d now s)
       | None, u :: _ => up_idle now u
       | None, [] => 0
       end) (up_idle now <$> us);
  m_state : PeerStatus.state e =
    match s, us with
    | Some s, _ => phase_name (PeerSnapshot.phase s)
    | None, u :: _ => if UpstreamState.online u then "Active" else "Cut-off"
    | None, [] => EmptyString
    end%string
}.

Definition add_inbound (now : Z) (o : option PeerStatus.t) (u : UpstreamState.t)
    : option PeerStatus.t :=
  Some (fill_inbound u (up_idle now u) (unwrap_or o (buy_entry cfg u (up_idle now u)))).

Lemma sold_lookup d now m snaps k :
  foldl (add_session cfg d now) m snaps !! k =
  match last (filter (fun s => peer_to_hex (PeerSnapshot.peer s) = k) snaps) with
  | Some s => Some (sell_entry cfg d now s)
  | None => m !! k
  end.
Proof.
  induction snaps as [|s snaps IH] using rev_ind; [done|].
  rewrite foldl_app, filter_app. cbn [foldl]. unfold add_session at 1. rewrite filter_cons, filter_nil.
  destruct (decide (peer_to_hex (PeerSnapshot.peer s) = k)) as [<-|Hne].
  - by rewrite lookup_insert_eq, last_snoc.
  - by rewrite lookup_insert_ne, app_nil_r by done.
Qed.

Lemma bought_lookup now m us k :
  foldl (add_upstream cfg now) m us !! k =
  foldl (add_inbound now) (m !! k) (filter (fun u => UpstreamState.pubkey u = k) us).
Proof.
  revert m. induction us as [|u us IH]; intros m; [done|].
  cbn [foldl]. rewrite IH, filter_cons. unfold add_upstream.
  destruct (decide (UpstreamState.pubkey u = k)) as [<-|Hne].
  - by rewrite lookup_insert_eq.
  - by rewrite lookup_insert_ne.
Qed.

Lemma by_pubkey_lookup d now k :
  by_pubkey cfg d now !! k =
  foldl (add_inbound now) (sell_entry cfg d now <$> sold d k) (bought d k).
Proof.
  unfold by_pubkey. rewrite bought_lookup, sold_lookup, lookup_empty.
  unfold sold. by destruct (last _).
Qed.

(** One more upstream on an entry already merged. *)
Lemma fill_merged d now s us u e :
  (is_Some s \/ us <> []) -> merged d now s us e ->
  merged d now s (us ++ [u]) (fill_inbound u (up_idle now u) e).
Proof.
  intros Hn []. destruct u, e. cbn in *.
  split; cbn; rewrite ?fmap_app, ?foldl_app, ?last_snoc; cbn; try congruence.
  - rewrite m_idle0. destruct s, us; try done. by destruct Hn as [[? ?]|?].
  - rewrite m_state0. destruct s, us; try done. by destruct Hn as [[? ?]|?].
Qed.

Lemma inbound_merged d now s us e :
  foldl (add_inbound now) (sell_entry cfg d now <$> s) us = Some e -> merged d now s us e.
Proof.
  revert e. induction us as [|u us IH] using rev_ind; intros e.
  - destruct s; [|done]. cbn. intros [= <-]. by split.
  - rewrite foldl_app. cbn [foldl]. unfold add_inbound at 1. intros [= <-].
    destruct (foldl _ _ us) as [e|] eqn:E; cbn [unwrap_or].
    + apply fill_merged; [|by apply IH]. destruct us; [|by right]. left. by destruct s; eauto.
    + destruct us as [|u' us] using rev_ind; [|by rewrite foldl_app in E].
      destruct s; [done|]. destruct u. split; cbn; try done; lia.
Qed.

(** Every entry of the map sits at its own key. *)
Lemma by_pubkey_key d now k e : by_pubkey cfg d now !! k = Some e -> PeerStatus.pubkey e = k.
Proof.
  rewrite by_pubkey_lookup.
  assert (forall s, sold d k = Some s -> peer_to_hex (PeerSnapshot.peer s) = k) as Hs.
  { intros s E%last_Some_elem_of. by apply list_elem_of_filter in E as [? _]. }
  assert (Forall (fun u => UpstreamState.pubkey u = k) (bought d k)) as Hu.
  { apply Forall_forall. intros u. unfold bought. by rewrite list_elem_of_filter; intros []. }
  assert (forall o, (forall e, o = Some e -> PeerStatus.pubkey e = k) -> forall us e,
    Forall (fun u => UpstreamState.pubkey u = k) us ->
    foldl (add_inbound now) o us = Some e -> PeerStatus.pubkey e = k) as K.
  { intros o Ho us e' Hus. revert o Ho. induction Hus as [|u us Hu1 Hus IH]; intros o Ho; [by apply Ho|].
    cbn [foldl]. apply IH. intros ? [= <-]. destruct o as [e2|]; cbn; [by apply Ho|done]. }
  apply K; [|done]. intros e' E. destruct (sold d k) as [s|] eqn:Es; [|done].
  injection E as <-. by apply Hs.
Qed.

Lemma by_pubkey_dom d now k :
  is_Some (by_pubkey cfg d now !! k) <-> is_Some (sold d k) \/ bought d k <> [].
Proof.
  rewrite by_pubkey_lookup. destruct (bought d k) as [|u us] using rev_ind.
  - cbn. destruct (sold d k); cbn; split; intros Hx; eauto.
    + by destruct Hx.
    + destruct Hx as [[? ?]|]; done.
  - rewrite foldl_app. cbn. split; [intros _; right; by destruct us|eauto].
Qed.

Lemma sold_peer `{!HexLaws} d p ps :
  Session.peers (session d) !! p = Some ps -> sold d (peer_to_hex p) = Some (Session.snapshot_peer p ps).
Proof.
  intros Hp. unfold sold. set (l := filter _ _).
  assert (Session.snapshot_peer p ps ∈ l) as Hin.
  { apply list_elem_of_filter. split; [by destruct (PeerSession.last_counters ps) eqn:E;
      unfold Session.snapshot_peer; rewrite E|].
    apply list_elem_of_fmap. exists (p, ps). split; [done|]. by apply elem_of_btree_iter. }
  destruct (last l) as [s|] eqn:E; [|apply last_None in E; rewrite E in Hin; by apply not_elem_of_nil in Hin].
  apply last_Some_elem_of in E. apply list_elem_of_filter in E as [Hk E].
  apply list_elem_of_fmap in E as ([q qs] & -> & E). apply elem_of_btree_iter in E.
  assert (q = p) as ->; [|congruence]. apply to_hex_inj. rewrite <- Hk.
  unfold Session.snapshot_peer. by destruct (PeerSession.last_counters qs).
Qed.
End facts.

(** A price as the fingerprint sees it. *)
Definition as_mint_price (m : MintOption.t) : MintPrice.t :=
  MintPrice.mk (MintOption.mint_url m) (MintOption.price_per_second m)
    (MintOption.price_per_unit m) (MintOption.mint_unit m).

(** ** A node that sells to one peer and buys from two *)

Module StatusDemo.
(** [alice] is both a customer and an upstream; [bob] is only an upstream. *)
Definition alice_hex : string := @peer_to_hex ConsumeDemo.hex NodeDemo.alice.
Definition seen (key : string) : ConsumeEvent.t :=
  ConsumeEvent.mk 1 key (Price.mk 2 3) 20000 12000 (Some (mkSummary 5000 4000 70)) false false None.
Definition node : t :=
  record_upstream NodeDemo.clock "http://b" (seen "bob")
    (record_upstream NodeDemo.clock "http://a" (seen alice_hex) NodeDemo.node).
Definition sha (b : bytes) : bytes := take 32 (b ++ replicate 32 (byte_of_Z 0)).
Definition cfg : Config.t :=
  Config.mk None "127.0.0.1:4747" ["https://mint.a"; "https://mint.b"]%string
    [ProductConfig.mk 0 5 2 None None None None; ProductConfig.mk 100 7 0 None None None None]
    FirewallMode.Enforcing "bytes" "/tmp/tollgate.sock" 5 []
    V1CompatConfig.default DynamicPricingConfig.default ∅.
End StatusDemo.

(** ** Properties *)

(** The status view shows every peering once, with both sides merged. The
    entries have distinct keys, which are exactly those of the peers the session
    tracks and of the upstreams; an entry's balance with us is the session's and our
    balance with it the upstream loop's, zero where there is no such side, its usage
    the higher of the two counts, its drift the sell side's first; and a peer the
    session tracks is shown with the session's own snapshot of it. *)
Theorem status_merges_both_sides `{Minicbor, HexCodec, !HexLaws} clock cfg d :
  let '(d', st) := status clock cfg d in
  let now := clock (clock_reads d) in
  d' = tick_clock d /\
  NoDup (PeerStatus.pubkey <$> NodeStatus.peers st) /\
  (forall k, k ∈ (PeerStatus.pubkey <$> NodeStatus.peers st) <->
     is_Some (sold d k) \/ bought d k <> []) /\
  Forall (fun e => let k := PeerStatus.pubkey e in merged cfg d now (sold d k) (bought d k) e)
    (NodeStatus.peers st) /\
  (forall p ps, Session.peers (session d) !! p = Some ps ->
     sold d (peer_to_hex p) = Some (Session.snapshot_peer p ps)).
Proof.
  cbn. set (now := clock _). set (m := by_pubkey cfg d now).
  assert (forall k e, (k, e) ∈ btree_iter str_le m -> PeerStatus.pubkey e = k /\ m !! k = Some e) as Hk.
  { intros k e He%elem_of_btree_iter. split; [by eapply by_pubkey_key|done]. }
  assert (PeerStatus.pubkey <$> (snd <$> btree_iter str_le m) = fst <$> btree_iter str_le m) as Ek.
  { rewrite <- list_fmap_compose. apply list_fmap_ext. intros i [k e] Hi.
    by apply (Hk k e), list_elem_of_lookup_2 with i. }
  split; [done|]. rewrite Ek. split; [|split; [|split]].
  - unfold btree_iter. rewrite merge_sort_Permutation. apply NoDup_fst_map_to_list.
  - intros k. rewrite <- (by_pubkey_dom cfg d now k), list_elem_of_fmap. split.
    + intros ([k' e] & -> & He). exists e. by apply (Hk k' e).
    + intros [e He]. exists (k, e). split; [done|]. by apply elem_of_btree_iter.
  - apply Forall_fmap, Forall_forall. intros [k e] He. cbn. destruct (Hk k e He) as [-> Hl].
    apply inbound_merged. by rewrite <- by_pubkey_lookup.
  - intros p ps. apply sold_peer.
Qed.

Lemma status_merges_both_sides_witness :
  let st := (@status Toy.toy ConsumeDemo.hex NodeDemo.clock NodeDemo.cfg StatusDemo.node).2 in
  ((fun e => (PeerStatus.state e, PeerStatus.received e, PeerStatus.our_balance e)) <$>
     NodeStatus.peers st =
   [("Active", 4000, 12000); ("Active", 4000, 12000)]%string) /\
  NoDup (PeerStatus.pubkey <$> NodeStatus.peers st).
Proof.
  cbv zeta. split; [vm_compute; reflexivity|].
  exact (proj1 (proj2 (@status_merges_both_sides Toy.toy ConsumeDemo.hex NodeDemo.hex_laws
    NodeDemo.clock NodeDemo.cfg StatusDemo.node))).
Defined.

(** C38: a node advertises what it is configured with. A peer that receives the price
    sheet decodes it to the sheet built; every configured product is offered once, at
    every configured mint and in order, with the integer rates of its configuration, the
    scale of its configuration, or 1000 where that is zero, and fingerprints that a peer
    recomputes from the entry itself; the status view shows those same offers; and the
    rates a buyer takes from the sheet are, as integers, those the node's session was
    started with, those of the first product, as long as some mint is configured, and
    zero otherwise. A rate is worth a rate divided by the scale: the theorem says nothing
    of the price that is charged, to which the scale makes no difference. *)
Theorem advertised_rates_are_configured `{Sha256, MinicborLaws, HexCodec} cfg :
  (forall b, length (sha256 b) = 32%nat) -> Config.wf cfg ->
  let sheet := Config.price_sheet cfg in
  let encoded := PriceSheet.encode sheet in
  Client.find_price_sheet [encoded] = Some sheet /\
  Client.price_from_sheet (Client.find_price_sheet [encoded]) =
    (if decide (Config.mints cfg = []) then Price.default else Config.startup_price cfg) /\
  Forall2 (fun p e =>
    ProductEntry.pricing_scale e =
      (if ProductConfig.pricing_scale p =? 0 then 1000 else ProductConfig.pricing_scale p) /\
    MintOption.mint_url <$> ProductEntry.mint_options e = Config.mints cfg /\
    Forall (fun m =>
      MintOption.price_per_second m = ProductConfig.price_per_second p /\
      MintOption.price_per_unit m = ProductConfig.price_per_unit p /\
      MintOption.option_id m = option_id (MintOption.mint_url m) (MintOption.mint_unit m))
      (ProductEntry.mint_options e) /\
    ProductEntry.product_id e =
      pid_bytes (product_id (ProductEntry.pricing_scale e)
        (as_mint_price <$> ProductEntry.mint_options e) (ProductEntry.extensions e)))
    (Config.products cfg) (PriceSheet.products sheet) /\
  decode_pricing encoded =
    PricingStatus.mk (product_status <$> PriceSheet.products sheet)
      DEFAULT_MIN_INTERVAL_MS DEFAULT_MAX_INTERVAL_MS.
Proof.
  intros Hsha Hc. cbv zeta.
  pose proof (price_sheet_wf Hsha cfg Hc) as Hw.
  assert (PriceSheet.decode (PriceSheet.encode (Config.price_sheet cfg)) =
    Some (Config.price_sheet cfg)) as Ed by exact (cbor_roundtrip _ Hw).
  assert (Client.find_price_sheet [PriceSheet.encode (Config.price_sheet cfg)] =
    Some (Config.price_sheet cfg)) as Ef.
  { exact (find_message_first MessageType.PriceSheet _ [] [] Hw eq_refl (Forall_nil_2 _)). }
  split; [done|]. split; [|split].
  - rewrite Ef. unfold Client.price_from_sheet, Config.price_sheet, Config.startup_price. cbn.
    destruct (Config.products cfg) as [|p ps]; cbn; [by case_decide|].
    unfold Config.mint_prices. by destruct (Config.mints cfg).
  - cbn. apply Forall2_fmap_r, Forall_Forall2_diag, Forall_forall. intros p _. cbn.
    unfold Config.mint_prices. rewrite <- !list_fmap_compose. split_and!.
    + done.
    + apply list_fmap_id.
    + apply Forall_fmap, Forall_true. done.
    + done.
  - unfold decode_pricing. by rewrite Ed.
Qed.

Lemma advertised_rates_are_configured_witness :
  ((forall b, length (StatusDemo.sha b) = 32%nat) /\ Config.wf StatusDemo.cfg) /\
  Client.price_from_sheet (Client.find_price_sheet (H := Toy.toy)
    [PriceSheet.encode (H := Toy.toy.(mc_sheet))
       (Config.price_sheet (H := StatusDemo.sha) StatusDemo.cfg)]) = Price.mk 5 2.
Proof.
  assert (forall b, length (StatusDemo.sha b) = 32%nat) as Hs.
  { intros b. unfold StatusDemo.sha. rewrite length_take, length_app, length_replicate. lia. }
  assert (Config.wf StatusDemo.cfg) as Hw.
  { split; [apply (bool_decide_unpack _); vm_compute; exact I|].
    repeat constructor; discriminate. }
  split; [by split|].
  exact (proj1 (proj2 (@advertised_rates_are_configured StatusDemo.sha Toy.toy Toy.toy_laws
    ConsumeDemo.hex StatusDemo.cfg Hs Hw))).
Defined.

(** ** Departures *)

(** The same configuration with another scale for every product. *)
Definition rescaled (scale : Z) (cfg : Config.t) : Config.t :=
  Config.mk (Config.secret_key_file cfg) (Config.listen cfg) (Config.mints cfg)
    ((fun p => ProductConfig.mk scale (ProductConfig.price_per_second p) (ProductConfig.price_per_unit p)
        (ProductConfig.price_per_second_floor p) (ProductConfig.price_per_second_ceiling p)
        (ProductConfig.price_per_unit_floor p) (ProductConfig.price_per_unit_ceiling p)) <$> Config.products cfg)
    (Config.firewall cfg) (Config.unit cfg) (Config.control_socket cfg) (Config.metering_interval_secs cfg)
    (Config.upstreams cfg) (Config.v1_compat cfg) (Config.dynamic_pricing cfg) (Config.peer_overrides cfg).

(** The documentation divides a rate by the scale for the price. The sheet advertises
    the scale, and neither the session nor the buyer's reckoning knows it: with another
    scale, what is advertised is another price, and the session is started with, and the
    buyer takes from the sheet, the same rates. *)
Theorem scale_makes_no_difference `{Sha256} scale cfg :
  scale <> 0 ->
  Forall (fun e => ProductEntry.pricing_scale e = scale)
    (PriceSheet.products (Config.price_sheet (rescaled scale cfg))) /\
  Config.startup_price (rescaled scale cfg) = Config.startup_price cfg /\
  Client.price_from_sheet (Some (Config.price_sheet (rescaled scale cfg))) =
    Client.price_from_sheet (Some (Config.price_sheet cfg)).
Proof.
  intros Hs. split_and!.
  - cbn. apply Forall_fmap, Forall_fmap, Forall_true. intros p. cbn. unfold Config.effective_scale. cbn.
    by rewrite (proj2 (Z.eqb_neq _ _) Hs).
  - unfold Config.startup_price. cbn. by destruct (Config.products cfg).
  - unfold Client.price_from_sheet. cbn. destruct (Config.products cfg) as [|p ps]; [done|]. cbn.
    unfold Config.mint_prices. cbn. by destruct (Config.mints cfg).
Qed.
