(* ===== verification/Bootstrap.v ===== *)
(** * Paying for access, end to end

    The two ends of the bootstrap conversation put together: the request that
    [client.rs]'s [pay] sends, the exchange handler of [server.rs] with the driver,
    the session and the wallet behind it, and [pay]'s reading of the answer. *)

From S2P Require Import Prelude F64 Wire ToyCodec Frames Product Pricing Session SessionFacts SessionIso.
From S2P Require Import Wallet Consume NetDriver NetDriverFacts Config Status.
Import Driver.

(** ** What a node's configuration must satisfy to be heard *)

Section bootstrap.
Context `{MinicborLaws, HexCodec, Cashu, UrlParser, !HexLaws}.
Context (clock : nat -> Z) (mint : nat -> CheckState) (cfg : config).

(** The advertised sheet is none, or the encoding of [sheet]. *)
Definition advertises (sheet : option PriceSheet.t) : Prop :=
  match sheet with
  | None => price_sheet cfg = []
  | Some s => price_sheet cfg = PriceSheet.encode s /\ price_sheet cfg <> [] /\ PriceSheet.wf s /\
      PriceSheet.type_tag s = MessageType.as_u8 MessageType.PriceSheet
  end.

Definition ack_of {E} (r : result Z E) : BootstrapAck.t :=
  match r with
  | Ok _ => BootstrapAck.accepted
  | Err _ => BootstrapAck.rejected "token verification failed"
  end.

(** Its identity and unit are well formed, and its own messages fit a frame. *)
Record serves (sheet : option PriceSheet.t) : Prop := {
  sv_key : PublicKey.wf (public_key cfg);
  sv_unit : ascii (unit cfg);
  sv_sheet : advertises sheet;
  sv_fits : Forall fits [our_announce cfg; price_sheet cfg;
    BootstrapAck.encode BootstrapAck.accepted;
    BootstrapAck.encode (BootstrapAck.rejected "token verification failed")]
}.

(** A queued message that says nothing [pay] looks for. *)
Definition quiet (m : bytes) : Prop :=
  peek_type m <> Some MessageType.Announce /\ peek_type m <> Some MessageType.PriceSheet /\
  peek_type m <> Some MessageType.BootstrapAck.

(** The messages a node answers an announcement with. *)
Definition greeting : list bytes :=
  our_announce cfg :: (if decide (price_sheet cfg = []) then [] else [price_sheet cfg]).

(** ** The two steps of the exchange *)

Lemma not_report {T} `{Cbor T} {wf tag} `{!CborLaws T wf tag} (m : T) :
  wf m -> MessageType.from_u8 (tag m) <> Some MessageType.MeteringReport ->
  is_report (to_vec m) = false.
Proof.
  intros Hw Ht. unfold is_report. apply bool_decide_eq_false.
  by rewrite (peek_type_to_vec m Hw).
Qed.

Lemma queue_other hex m d :
  is_report m = false -> queue_of hex (enqueue hex m d) = queue_of hex d ++ [m].
Proof. intros Hm. by rewrite queue_enqueue, Hm. Qed.

Lemma announce_wf pk u : PublicKey.wf pk -> ascii u -> Announce.wf (Announce.new PROTOCOL_VERSION pk u 0).
Proof. intros Hk Hu. unfold PROTOCOL_VERSION. split_and!; cbn; try done; ints. Qed.

(** The state after an announcement, before the greeting is queued. *)
Definition announced (p : PeerId) (ip : IpAddr) (d : t) : t :=
  let h := peer_to_hex p in
  let n := clock_reads d in
  let '(s, calls) :=
    match Session.peers (session d) !! p with
    | Some _ => (session d, [])
    | None => (Session.set_peers (<[p := PeerSession.new]> (Session.peers (session d))) (session d),
               [Deny ip])
    end in
  mk s (outbox d) (<[h := ip]> (peer_ip d)) (<[h := clock n]> (last_seen d)) (metered d)
    (wallet d) (firewall d ++ calls) (upstreams d) (S (S n)).

Lemma peer_connected_eq p ip d :
  PublicKey.wf p ->
  (peer_connected clock mint cfg (peer_to_hex p) (Some ip) d).1 =
    foldl (fun d m => enqueue (peer_to_hex p) m d) (announced p ip d) greeting.
Proof.
  intros Hp. unfold peer_connected, handle, now_millis, touch, announced, greeting. destruct d.
  cbn. unfold Session.on_peer_connected. rewrite parse_to_hex by done. cbn.
  destruct (Session.peers session0 !! p) as [ps|]; cbn.
  - rewrite app_nil_r. case_bool_decide; by case_decide.
  - rewrite lookup_insert_eq. case_bool_decide; by case_decide.
Qed.

(** The peer's session after the wallet's verdict on its token. *)
Definition after_verdict {E} (r : result Z E) (now : Z) (ps : PeerSession.t) : PeerSession.t :=
  match r with
  | Ok amount =>
      PeerSession.set_last None now (PeerSession.set_phase PeerPhase.Active
        (PeerSession.set_balance (sat_add_u64 (PeerSession.balance ps) amount) ps))
  | Err _ => PeerSession.set_phase PeerPhase.New ps
  end.

(** The state after a token, before the acknowledgement is queued. *)
Definition judged {E} (p : PeerId) (ip : IpAddr) (ps : PeerSession.t) (w : BootstrapWallet.t)
    (r : result Z E) (d : t) : t :=
  let h := peer_to_hex p in
  let n := clock_reads d in
  mk (Session.set_peers (<[p := after_verdict r (clock (S (S n))) ps]> (Session.peers (session d)))
       (session d))
    (outbox d) (peer_ip d) (<[h := clock n]> (last_seen d))
    (match r with Ok _ => {[h]} ∪ metered d | Err _ => metered d end) w
    (firewall d ++ [match r with Ok _ => Allow ip | Err _ => Deny ip end])
    (upstreams d) (S (S (S n))).

(** A token was received, so the peer is [BootstrapPending] when the verdict comes:
    even a peer that was [Active] starts a new metering session. *)
Lemma verdict_event {E} p (r : result Z E) now s ps :
  Session.peers s !! p = Some (PeerSession.set_phase PeerPhase.BootstrapPending ps) ->
  Session.handle (Event.BootstrapVerified p (match r with Ok a => a | Err _ => 0 end) (is_ok r)) now s =
    (Session.set_peers (<[p := after_verdict r now ps]> (Session.peers s)) s,
     Action.Send p (BootstrapAck.encode (ack_of r)) ::
     match r with
     | Ok _ => [Action.SetAccess p AccessLevel.Active; Action.StartMetering p]
     | Err _ => [Action.SetAccess p AccessLevel.None]
     end).
Proof.
  intros Hps. cbn. unfold Session.on_bootstrap_verified, Session.with_peer. rewrite Hps.
  by destruct r.
Qed.

Lemma execute_send p m d : execute d (Action.Send p m) = enqueue (peer_to_hex p) m d.
Proof. done. Qed.
Lemma execute_access p level ip d :
  peer_ip d !! peer_to_hex p = Some ip ->
  execute d (Action.SetAccess p level) =
    call_firewall (if AccessLevel.allows_delivery level then Allow ip else Deny ip) d.
Proof. intros Hip. unfold execute. rewrite Hip. by destruct level. Qed.
Lemma firewall_enqueue c h m d : call_firewall c (enqueue h m d) = enqueue h m (call_firewall c d).
Proof. done. Qed.

Lemma handle_token p token now s ps :
  Session.peers s !! p = Some ps ->
  Session.handle (Event.MessageReceived p (BootstrapToken.encode (BootstrapToken.new token))) now s =
    (set_peer p (PeerSession.set_phase PeerPhase.BootstrapPending ps) s,
     [Action.VerifyBootstrapToken p token]).
Proof. exact (step_token p token now s ps). Qed.

Lemma handle_eq e d :
  handle clock e d =
    let '(s, actions) := Session.handle e (clock (clock_reads d)) (session d) in
    (set_session s (tick_clock d), actions).
Proof. done. Qed.

Lemma token_received_eq p ip ps token w r d :
  PublicKey.wf p ->
  Session.peers (session d) !! p = Some ps -> peer_ip d !! peer_to_hex p = Some ip ->
  from_utf8 (as_bytes token) = Some token ->
  BootstrapWallet.verify (mint (S (S (clock_reads d)))) token (wallet d) = (w, r) ->
  message_received clock mint (peer_to_hex p)
    (BootstrapToken.encode (BootstrapToken.new (as_bytes token))) d =
    enqueue (peer_to_hex p) (BootstrapAck.encode (ack_of r)) (judged p ip ps w r d).
Proof.
  intros Hp Hps Hip Hu Hv. destruct d as [s ob ips seen met wal fw ups n]. cbn in Hps, Hip, Hv.
  unfold message_received, touch, now_millis. rewrite parse_to_hex by done.
  rewrite handle_eq. cbn [session clock_reads set_last_seen tick_clock last_seen].
  rewrite (handle_token p (as_bytes token) (clock (S n)) s ps Hps).
  unfold dispatch. cbn [foldl dispatch_one]. unfold verify_token. rewrite Hu.
  set (s1 := set_peer p _ _). cbn [clock_reads set_session tick_clock set_last_seen wallet].
  rewrite Hv.
  pose proof (verdict_event p r (clock (S (S n))) s1 ps (set_peer_lookup _ _ _)) as Ev.
  assert (Session.set_peers (<[p := after_verdict r (clock (S (S n))) ps]> (Session.peers s1)) s1 =
    Session.set_peers (<[p := after_verdict r (clock (S (S n))) ps]> (Session.peers s)) s) as Es.
  { unfold s1, set_peer, Session.set_peers. cbn. by rewrite insert_insert_eq. }
  rewrite Es in Ev. clearbody s1. clear Es.
  destruct r as [a|e]; cbn [is_ok] in Ev; rewrite handle_eq;
    cbn [session set_session set_wallet tick_clock set_last_seen clock_reads];
    rewrite Ev; cbn [foldl].
  - rewrite execute_send, (execute_access p _ ip) by exact Hip. by rewrite firewall_enqueue.
  - rewrite execute_send, (execute_access p _ ip) by exact Hip. by rewrite firewall_enqueue.
Qed.

(** ** The queue over the exchange *)

Lemma enqueues_fields hex ms d :
  let d' := foldl (fun d m => enqueue hex m d) d ms in
  session d' = session d /\ peer_ip d' = peer_ip d /\ wallet d' = wallet d /\
  clock_reads d' = clock_reads d.
Proof.
  revert d. induction ms as [|m ms IH]; intros d; [done|]. cbn [foldl].
  by destruct (IH (enqueue hex m d)) as (-> & -> & -> & ->).
Qed.

Lemma enqueues_others hex ms d :
  Forall (fun m => is_report m = false) ms ->
  queue_of hex (foldl (fun d m => enqueue hex m d) d ms) = queue_of hex d ++ ms.
Proof.
  intros Hms. revert d. induction Hms as [|m ms Hm _ IH]; intros d; cbn [foldl].
  - by rewrite app_nil_r.
  - by rewrite IH, queue_other, <- (assoc_L (++)).
Qed.

Lemma greeting_others sheet : serves sheet -> Forall (fun m => is_report m = false) greeting.
Proof.
  intros [Hk Hu Hs _]. constructor.
  - apply (not_report (T := Announce.t) _ (announce_wf _ _ Hk Hu)). done.
  - case_decide as Hn; repeat constructor.
    destruct sheet as [s|]; cbn in Hs; [|done]. destruct Hs as (-> & _ & Hw & Ht).
    apply (not_report s Hw). by rewrite Ht.
Qed.

Lemma ack_wf {E} (r : result Z E) : BootstrapAck.wf (ack_of r).
Proof.
  destruct r; split_and!; cbn; try done; try ints.
  apply (bool_decide_unpack _). by vm_compute.
Qed.

(** ** What each side reads *)

Lemma encode_frame_refuses b out : ~ fits b -> encode_frame b out = (out, Err TooLong).
Proof. unfold fits, encode_frame. intros Hb. by rewrite (proj2 (Z.ltb_lt _ _)) by lia. Qed.

Lemma pay_request_frames pk u token body :
  Client.pay_request pk u token = Some body ->
  decode_frames body = Some (Ok [Client.our_announce pk u;
    BootstrapToken.encode (BootstrapToken.new token)]).
Proof.
  unfold Client.pay_request. set (a := Client.our_announce pk u).
  set (b := BootstrapToken.encode _).
  destruct (decide (fits a)) as [Ha|Ha]; [|by rewrite encode_frame_refuses].
  rewrite encode_frame_fits by done.
  destruct (decide (fits b)) as [Hb|Hb]; [|by rewrite encode_frame_refuses].
  rewrite encode_frame_fits by done. intros [= <-].
  assert (Forall fits [a; b]) as Hf by (by repeat constructor).
  pose proof (decode_frames_split [a; b] [] Hf (or_introl eq_refl)) as K.
  rewrite decide_True in K by done. rewrite <- K. cbn [map concat].
  by rewrite <- !(assoc_L (++)), !app_nil_r.
Qed.

(** Nothing of what an exchange adds is dropped from the answer. *)
Lemma answer_fits {E} sheet q (r : result Z E) :
  serves sheet ->
  filter fits (q ++ greeting ++ [BootstrapAck.encode (ack_of r)]) =
    filter fits q ++ greeting ++ [BootstrapAck.encode (ack_of r)].
Proof.
  intros [_ _ _ Hf].
  inversion Hf as [|? ? Ha Hf1]. inversion Hf1 as [|? ? Hps Hf2].
  inversion Hf2 as [|? ? Hok Hf3]. inversion Hf3 as [|? ? Herr _].
  rewrite !filter_app. f_equal. f_equal.
  - unfold greeting. rewrite filter_cons_True by done. f_equal.
    case_decide; [done|]. by rewrite filter_cons_True.
  - rewrite filter_cons_True; [done|]. by destruct r.
Qed.

Lemma pay_reads {E} sheet q (r : result Z E) :
  serves sheet -> Forall quiet q ->
  Client.pay (filter fits (q ++ greeting ++ [BootstrapAck.encode (ack_of r)])) =
    Some (Paid.mk (peer_to_hex (public_key cfg)) (is_ok r) (BootstrapAck.reason (ack_of r)) sheet).
Proof.
  intros Hsv Hq. rewrite (answer_fits sheet) by done. destruct Hsv as [Hk Hu Hs _].
  pose proof (announce_wf _ _ Hk Hu) as Haw. pose proof (ack_wf r) as Hrw.
  set (ack := BootstrapAck.encode (ack_of r)).
  assert (Forall quiet (filter fits q)) as Hq'.
  { apply Forall_forall. intros m [_ Hm]%list_elem_of_filter. by eapply Forall_forall in Hq. }
  set (qf := filter fits q) in *.
  assert (Forall (fun b => peek_type b <> Some MessageType.Announce) qf) as Q1
    by (apply (Forall_impl _ _ _ Hq'); by intros ? []).
  assert (peek_type (our_announce cfg) = Some MessageType.Announce) as Ta
    by exact (peek_type_to_vec (T := Announce.t) _ Haw).
  assert (peek_type ack = Some MessageType.BootstrapAck) as Tr.
  { etransitivity; [exact (peek_type_to_vec (T := BootstrapAck.t) _ Hrw)|]. by destruct r. }
  assert (price_sheet cfg <> [] -> peek_type (price_sheet cfg) = Some MessageType.PriceSheet) as Tp.
  { intros Hn. destruct sheet as [s|]; cbn in Hs; [|done]. destruct Hs as (-> & _ & Hw & Ht).
    etransitivity; [exact (peek_type_to_vec (T := PriceSheet.t) _ Hw)|]. by rewrite Ht. }
  unfold Client.pay.
  assert (Client.find_announce (qf ++ greeting ++ [ack]) =
    Some (Announce.new PROTOCOL_VERSION (public_key cfg) (unit cfg) 0)) as ->
    by exact (find_message_first MessageType.Announce _ qf _ Haw eq_refl Q1).
  assert (Client.find_message (T := BootstrapAck.t) MessageType.BootstrapAck
    (qf ++ greeting ++ [ack]) = Some (ack_of r)) as ->.
  { rewrite (assoc_L (++)). apply find_message_first; [done|by destruct r|].
    apply Forall_app. split; [by apply (Forall_impl _ _ _ Hq'); intros ? (? & ? & ?)|].
    constructor; [congruence|]. case_decide as Hn; repeat constructor. by rewrite (Tp Hn). }
  assert (Client.find_price_sheet (qf ++ greeting ++ [ack]) = sheet) as ->.
  { destruct sheet as [s|]; cbn in Hs.
    - destruct Hs as (Es & Hne & Hw & Ht). unfold greeting. rewrite decide_False by done.
      rewrite Es. cbn [app]. rewrite (cons_middle _ qf), (assoc_L (++)).
      apply find_message_first; [done|by rewrite Ht|].
      apply Forall_app. split; [by apply (Forall_impl _ _ _ Hq'); intros ? (? & ? & ?)|].
      repeat constructor. congruence.
    - unfold greeting. rewrite decide_True by done. apply find_message_absent.
      apply Forall_app. split; [by apply (Forall_impl _ _ _ Hq'); intros ? (? & ? & ?)|].
      repeat constructor; congruence. }
  by destruct r, (public_key cfg).
Qed.

(** The state after an announcement. *)
Definition greeted (p : PeerId) (ip : IpAddr) (d : t) : t :=
  foldl (fun d m => enqueue (peer_to_hex p) m d) (announced p ip d) greeting.

Lemma greeted_fields sheet p ip d :
  serves sheet ->
  let h := peer_to_hex p in
  Session.peers (session (greeted p ip d)) !! p =
    Some (unwrap_or (Session.peers (session d) !! p) PeerSession.new) /\
  peer_ip (greeted p ip d) !! h = Some ip /\ wallet (greeted p ip d) = wallet d /\
  clock_reads (greeted p ip d) = S (S (clock_reads d)) /\
  queue_of h (greeted p ip d) = queue_of h d ++ greeting.
Proof.
  intros Hsv. cbv zeta. set (h := peer_to_hex p).
  destruct (enqueues_fields h greeting (announced p ip d)) as (Es & Ei & Ew & Ec).
  unfold greeted. fold h.
  rewrite enqueues_others, Es, Ei, Ew, Ec by (by eapply greeting_others).
  unfold announced, queue_of. fold h.
  destruct (Session.peers (session d) !! p) as [ps|] eqn:E; cbn;
    rewrite ?lookup_insert_eq; by split_and!.
Qed.

Lemma announce_frame pk u ip d o :
  PublicKey.wf pk -> ascii u ->
  exchange_frame clock mint cfg (Some ip) (d, o) (Client.our_announce pk u) =
    (greeted pk ip d, Some (peer_to_hex pk)).
Proof.
  intros Hp Hu. pose proof (announce_wf _ _ Hp Hu) as Haw. unfold exchange_frame.
  assert (peek_type (Client.our_announce pk u) = Some MessageType.Announce) as ->
    by exact (peek_type_to_vec (T := Announce.t) _ Haw).
  assert (Announce.decode (Client.our_announce pk u) =
    Some (Announce.new PROTOCOL_VERSION pk u 0)) as ->
    by exact (cbor_roundtrip (T := Announce.t) _ Haw).
  change (hex_encode _) with (peer_to_hex pk). by rewrite peer_connected_eq.
Qed.

Lemma token_frame token ip d h :
  exchange_frame clock mint cfg ip (d, Some h) (BootstrapToken.encode (BootstrapToken.new token)) =
    (message_received clock mint h (BootstrapToken.encode (BootstrapToken.new token)) d, Some h).
Proof.
  pose proof (token_new_wf token) as Hw. unfold exchange_frame.
  assert (peek_type (BootstrapToken.encode (BootstrapToken.new token)) =
    Some MessageType.BootstrapToken) as -> by exact (peek_type_to_vec (T := BootstrapToken.t) _ Hw).
  done.
Qed.

(** The whole exchange, as a state and a queue. *)
Lemma exchange_token sheet pk u token ip d body w r :
  serves sheet -> PublicKey.wf pk -> ascii u ->
  from_utf8 (as_bytes token) = Some token ->
  Client.pay_request pk u (as_bytes token) = Some body ->
  BootstrapWallet.verify (mint (4 + clock_reads d)%nat) token (wallet d) = (w, r) ->
  let h := peer_to_hex pk in
  let old := unwrap_or (Session.peers (session d) !! pk) PeerSession.new in
  exists d', http_exchange clock mint cfg (Some ip) body d =
      (d', Some (encode_response (queue_of h d ++ greeting ++ [BootstrapAck.encode (ack_of r)]))) /\
    Session.peers (session d') !! pk = Some (after_verdict r (clock (4 + clock_reads d)%nat) old) /\
    last (firewall d') = Some (match r with Ok _ => Allow ip | Err _ => Deny ip end) /\
    wallet d' = w /\ (is_ok r = true -> h ∈ metered d').
Proof.
  intros Hsv Hp Hu Ht Hreq Hv. cbv zeta. set (h := peer_to_hex pk).
  destruct (greeted_fields sheet pk ip d Hsv) as (Hold & Hip & Hw1 & Hc1 & Hq1).
  set (old := unwrap_or _ _) in *. set (d1 := greeted pk ip d) in *. fold h in Hip, Hq1.
  exists (set_outbox (delete h (outbox (enqueue h (BootstrapAck.encode (ack_of r))
    (judged pk ip old w r d1)))) (judged pk ip old w r d1)).
  split.
  - unfold http_exchange. rewrite (pay_request_frames _ _ _ _ Hreq). cbn [foldl].
    rewrite announce_frame by done. fold h d1. rewrite token_frame. unfold h.
    rewrite (token_received_eq pk ip old token w r d1); [|by rewrite ?Hc1, ?Hw1..].
    fold h. unfold drain_outbox. f_equal. f_equal. f_equal.
    change (unwrap_or _ _) with (queue_of h (enqueue h (BootstrapAck.encode (ack_of r))
      (judged pk ip old w r d1))).
    rewrite queue_other; [|apply (not_report (T := BootstrapAck.t) _ (ack_wf r)); by destruct r].
    change (queue_of h (judged pk ip old w r d1)) with (queue_of h d1).
    by rewrite Hq1, <- (assoc_L (++)).
  - clearbody d1. cbn. rewrite lookup_insert_eq, last_snoc, Hc1. split_and!; try done.
    destruct r; [set_solver|done].
Qed.
End bootstrap.

(** ** A node and a client, for the witness *)

Module BootstrapDemo.
Definition sheet : PriceSheet.t := PriceSheet.new [] (IntervalRange.new 5000 60000).
Definition cfg : config := mkConfig ConsumeDemo.key "bytes" (Price.mk 0 1)
  (@PriceSheet.encode Toy.toy.(mc_sheet) sheet).
(** [bob] is new to the node; [body] is his request. *)
Definition bob : PeerId := PublicKey.from_bytes (replicate 33 (byte_of_Z 3)).
Definition body : bytes :=
  unwrap_or (@Client.pay_request Toy.toy bob "bytes" (as_bytes "proof-2")) [].
Definition verdict : BootstrapWallet.t * result Z verify_error :=
  BootstrapWallet.verify (NodeDemo.mint (4 + clock_reads NodeDemo.node)%nat) "proof-2" (wallet NodeDemo.node).
End BootstrapDemo.

(** ** Properties *)

(** C17: paying buys access, end to end. Let a client's [pay] request, within the wire
    types, reach a node whose own messages are within them, in whatever state. If the
    wallet accepts the token, the peer is [Active] with its balance raised by the token's
    amount, its address is allowed through the firewall and it is metered from a fresh
    baseline; if not it is [New] with its balance unchanged and its address is blocked;
    and the wallet is left as the one verification left it. The answer holds what waited
    for the peer, the node's announcement, its price sheet and the verdict; and if
    nothing that [pay] looks for waited, the client reads from it the node's identity,
    its price sheet and whether the wallet accepted the token. *)
Theorem bootstrap_end_to_end `{MinicborLaws, HexCodec, Cashu, UrlParser, !HexLaws}
    (clock : nat -> Z) (mint : nat -> CheckState) cfg sheet pk u token ip d body w r :
  serves cfg sheet -> PublicKey.wf pk -> ascii u -> from_utf8 (as_bytes token) = Some token ->
  Client.pay_request pk u (as_bytes token) = Some body ->
  BootstrapWallet.verify (mint (4 + clock_reads d)%nat) token (wallet d) = (w, r) ->
  let old := unwrap_or (Session.peers (session d) !! pk) PeerSession.new in
  exists d' resp msgs ps,
    http_exchange clock mint cfg (Some ip) body d = (d', Some resp) /\
    decode_frames resp = Some (Ok msgs) /\
    msgs = filter fits (queue_of (peer_to_hex pk) d ++ greeting cfg ++ [BootstrapAck.encode (ack_of r)]) /\
    (Forall quiet (queue_of (peer_to_hex pk) d) ->
     Client.pay msgs = Some (Paid.mk (peer_to_hex (public_key cfg)) (is_ok r)
       (if is_ok r then None else Some "token verification failed"%string) sheet)) /\
    Session.peers (session d') !! pk = Some ps /\ wallet d' = w /\
    match r with
    | Ok amount =>
        PeerSession.phase ps = PeerPhase.Active /\
        PeerSession.balance ps = sat_add_u64 (PeerSession.balance old) amount /\
        PeerSession.last_counters ps = None /\
        last (firewall d') = Some (Allow ip) /\ peer_to_hex pk ∈ metered d'
    | Err _ =>
        PeerSession.phase ps = PeerPhase.New /\
        PeerSession.balance ps = PeerSession.balance old /\
        last (firewall d') = Some (Deny ip)
    end.
Proof.
  intros Hsv Hp Hu Ht Hreq Hv. cbv zeta.
  destruct (exchange_token clock mint cfg sheet pk u token ip d body w r)
    as (d' & Ex & Eps & Efw & Ew & Em); try done.
  do 4 eexists. split; [exact Ex|]. split; [apply response_decodes|]. split; [done|].
  split; [intros Hq; rewrite (pay_reads cfg sheet) by done; by destruct r|].
  split; [exact Eps|]. split; [exact Ew|]. destruct r; cbn; by split_and!; auto.
Qed.

Lemma bootstrap_end_to_end_witness :
  let d' := (@http_exchange Toy.toy ConsumeDemo.hex WalletDemo.cashu WalletDemo.urls NodeDemo.clock NodeDemo.mint
    BootstrapDemo.cfg (Some "10.0.0.3"%string) BootstrapDemo.body NodeDemo.node).1 in
  serves (H := Toy.toy) BootstrapDemo.cfg (Some BootstrapDemo.sheet) /\
  last (firewall d') = Some (Allow "10.0.0.3").
Proof.
  intros d'.
  assert (serves (H := Toy.toy) BootstrapDemo.cfg (Some BootstrapDemo.sheet)) as Hs.
  { split; [reflexivity|apply (bool_decide_unpack _); vm_compute; exact I| |].
    - split; [reflexivity|]. split; [discriminate|]. split; [|reflexivity].
      repeat split; try constructor; vm_compute; discriminate.
    - repeat constructor; vm_compute; discriminate. }
  split; [exact Hs|].
  destruct (@bootstrap_end_to_end Toy.toy Toy.toy_laws ConsumeDemo.hex WalletDemo.cashu WalletDemo.urls NodeDemo.hex_laws
    NodeDemo.clock NodeDemo.mint BootstrapDemo.cfg (Some BootstrapDemo.sheet) BootstrapDemo.bob
    "bytes" "proof-2" "10.0.0.3" NodeDemo.node BootstrapDemo.body BootstrapDemo.verdict.1 (Ok 5000)
    Hs) as (e & resp & msgs & ps & Ex & _ & _ & _ & _ & _ & _ & _ & _ & El & _).
  - reflexivity.
  - apply (bool_decide_unpack _). vm_compute. exact I.
  - vm_compute. reflexivity.
  - vm_compute. reflexivity.
  - vm_compute. reflexivity.
  - unfold d'. rewrite Ex. exact El.
Defined.

(** ** Departures *)

(** A verdict that waits is read instead of the one that was asked for. An exchange
    answers only the last peer it announces, so a body that announces [bob], brings a
    bad token and announces somebody else leaves the refusal in [bob]'s queue. His next
    payment is accepted, he is [Active] with the money on his account, and what [pay]
    tells him is that his token was refused. *)
Example stale_verdict_is_read :
  let post body d := @http_exchange Toy.toy ConsumeDemo.hex WalletDemo.cashu WalletDemo.urls NodeDemo.clock
    NodeDemo.mint BootstrapDemo.cfg (Some "10.0.0.3"%string) body d in
  let mixed := (encode_frames [@Announce.encode Toy.toy.(mc_announce) (Announce.new 1 BootstrapDemo.bob "bytes" 0);
    @BootstrapToken.encode Toy.toy.(mc_token) (BootstrapToken.new (as_bytes " ")); NodeDemo.announce] []).1 in
  let d := (post mixed NodeDemo.node).1 in
  let '(d', resp) := post BootstrapDemo.body d in
  (ps ← Session.peers (session d') !! BootstrapDemo.bob;
   Some (PeerSession.phase ps, PeerSession.balance ps)) = Some (PeerPhase.Active, 5000) /\
  (r ← resp; frames ← decode_frames r; msgs ← ok frames; paid ← @Client.pay Toy.toy ConsumeDemo.hex msgs;
   Some (Paid.accepted paid)) = Some false.
Proof. vm_compute. by split. Qed.
