(* ===== verification/NodeSpec.v ===== *)
(** * What a node promises, and that the driver keeps it

    An abstract specification of a selling node, [Policy]: the session and the host of
    [SessionFacts.v], an address book and one rule per address, with neither hex keys,
    queues, clocks, wallets nor timers. The driver of [NetDriver.v] refines it, for
    every sequence of exchanges, metering passes, sweeps and upstream events; what the
    specification guarantees of its rules then holds of the firewall. *)

From S2P Require Import Prelude F64 Wire ToyCodec Frames Pricing Session SessionFacts SessionProps.
From S2P Require Import Wallet Consume NetDriver NetDriverFacts.

(** ** The specification *)

Module Policy.
Record t : Type := mk {
  session : Session.t;
  host : Host.t;
  book : gmap PeerId IpAddr;
  rules : gmap IpAddr bool
}.

(** A peer is seen at an address, something happens to a peer, a peer's address is
    forgotten. *)
Inductive label : Type :=
| At (p : PeerId) (ip : IpAddr)
| Ev (e : Event.t) (now : Z)
| Gone (p : PeerId).

Definition init (price : Price.t) : t :=
  mk (Session.mk ∅ price MeteringPolicy.default) Host.new ∅ ∅.

(** An access decision sets the rule of the address the peer has, if it has one. *)
Definition decide_rule (b : gmap PeerId IpAddr) (r : gmap IpAddr bool) (a : Action.t)
    : gmap IpAddr bool :=
  match a with
  | Action.SetAccess p l =>
      match b !! p with Some ip => <[ip := AccessLevel.allows_delivery l]> r | None => r end
  | _ => r
  end.

Definition act (sp : t) (a : Action.t) : t :=
  mk (session sp) (Host.apply (host sp) a) (book sp) (decide_rule (book sp) (rules sp) a).
Definition set_session (s : Session.t) (sp : t) : t := mk s (host sp) (book sp) (rules sp).
Definition set_book (b : gmap PeerId IpAddr) (sp : t) : t := mk (session sp) (host sp) b (rules sp).

Section spec.
Context `{Minicbor}.

Definition step (sp : t) (l : label) : t :=
  match l with
  | At p ip => set_book (<[p := ip]> (book sp)) sp
  | Ev e now =>
      let '(s, acts) := Session.handle e now (session sp) in
      foldl act (set_session s sp) acts
  | Gone p => set_book (delete p (book sp)) sp
  end.
Definition run (price : Price.t) (ls : list label) : t := foldl step (init price) ls.

Definition events : list label -> list stamped :=
  omap (fun l => match l with Ev e now => Some (e, now) | _ => None end).

(** [ip] is [p]'s own: it is nobody else's, and nothing happens to [p] elsewhere. *)
Definition settled (price : Price.t) (p : PeerId) (ip : IpAddr) (ls : list label) : Prop :=
  (forall q, At q ip ∈ ls -> q = p) /\
  (forall pre e now post, ls = pre ++ Ev e now :: post -> event_peer e = Some p ->
     book (run price pre) !! p = Some ip).

(** Somebody was at [ip] when a payment of its own was verified. *)
Definition paid_at (price : Price.t) (ls : list label) (ip : IpAddr) : Prop :=
  exists pre q amount now post,
    ls = pre ++ Ev (Event.BootstrapVerified q amount true) now :: post /\
    book (run price pre) !! q = Some ip.
End spec.
End Policy.

(** The rules a firewall's log leaves in force: the last decision for each address. *)
Definition rules_of (log : list Firewall) : gmap IpAddr bool :=
  foldl (fun r c => match c with Allow ip => <[ip := true]> r | Deny ip => <[ip := false]> r end) ∅ log.

(** The driver's state stands for a state of the specification. *)
Record refines `{HexCodec} (d : Driver.t) (sp : Policy.t) : Prop := {
  rf_session : Driver.session d = Policy.session sp;
  rf_book p : PublicKey.wf p -> Driver.peer_ip d !! Driver.peer_to_hex p = Policy.book sp !! p;
  rf_metered p : PublicKey.wf p ->
    (Driver.peer_to_hex p ∈ Driver.metered d <-> p ∈ Host.metered (Policy.host sp));
  rf_rules : rules_of (Driver.firewall d) = Policy.rules sp
}.

(** ** Lemmas: the specification *)

Section spec.
Context `{Minicbor}.

Lemma run_snoc price ls l : Policy.run price (ls ++ [l]) = Policy.step (Policy.run price ls) l.
Proof. unfold Policy.run. by rewrite foldl_app. Qed.

Lemma paid_at_snoc price ls l ip : Policy.paid_at price ls ip -> Policy.paid_at price (ls ++ [l]) ip.
Proof.
  intros (pre & q & a & now & post & -> & Hb). exists pre, q, a, now, (post ++ [l]).
  by rewrite <- app_assoc.
Qed.

Lemma acts_fields acts sp :
  foldl Policy.act sp acts =
    Policy.mk (Policy.session sp) (Host.apply_all (Policy.host sp) acts) (Policy.book sp)
      (foldl (Policy.decide_rule (Policy.book sp)) (Policy.rules sp) acts).
Proof.
  revert sp. induction acts as [|a acts IH]; intros sp; [by destruct sp|]. cbn [foldl].
  by rewrite IH.
Qed.

Lemma step_ev sp e now :
  let r := Session.handle e now (Policy.session sp) in
  Policy.step sp (Policy.Ev e now) =
    Policy.mk r.1 (Host.apply_all (Policy.host sp) r.2) (Policy.book sp)
      (foldl (Policy.decide_rule (Policy.book sp)) (Policy.rules sp) r.2).
Proof. cbn. destruct (Session.handle _ _ _) as [s acts]. by rewrite acts_fields. Qed.

Lemma run_reachable price ls :
  reachable price MeteringPolicy.default (Policy.events ls)
    (Policy.session (Policy.run price ls)) (Policy.host (Policy.run price ls)).
Proof.
  induction ls as [|l ls IH] using rev_ind; [constructor|]. rewrite run_snoc.
  unfold Policy.events. rewrite omap_app. fold Policy.events. destruct l as [p ip|e now|p].
  - cbn. by rewrite app_nil_r.
  - rewrite step_ev. by constructor.
  - cbn. by rewrite app_nil_r.
Qed.

(** Decisions about peers at other addresses leave a rule alone. *)
Lemma decide_other b ip acts r :
  Forall (fun a => b !! action_peer a <> Some ip) acts ->
  foldl (Policy.decide_rule b) r acts !! ip = r !! ip.
Proof.
  intros Ha. revert r. induction Ha as [|a acts Hne _ IH]; intros r; [done|]. cbn [foldl].
  rewrite IH. destruct a; cbn in *; try done. destruct (b !! peer) as [ip'|]; [|done].
  by rewrite lookup_insert_ne by congruence.
Qed.

(** Decisions about the one peer at an address keep its rule in step with its access. *)
Lemma decide_own b p ip acts r h :
  b !! p = Some ip -> Forall (fun a => action_peer a = p) acts ->
  r !! ip = AccessLevel.allows_delivery <$> Host.access h !! p ->
  foldl (Policy.decide_rule b) r acts !! ip =
    AccessLevel.allows_delivery <$> Host.access (Host.apply_all h acts) !! p.
Proof.
  intros Hb Ha. revert r h. induction Ha as [|a acts Hp _ IH]; intros r h Hr; [done|].
  apply IH. destruct a; cbn in *; try done. subst peer. rewrite Hb. by simplify_map_eq.
Qed.

Lemma settled_snoc price p ip ls l :
  Policy.settled price p ip (ls ++ [l]) -> Policy.settled price p ip ls.
Proof.
  intros [S1 S2]. split; [set_solver|]. intros pre e now post -> He.
  apply (S2 pre e now (post ++ [l])); [by rewrite <- app_assoc|done].
Qed.

(** Every address in the book was put there. *)
Lemma book_arrived price ls p ip :
  Policy.book (Policy.run price ls) !! p = Some ip -> Policy.At p ip ∈ ls.
Proof.
  induction ls as [|l ls IH] using rev_ind; [done|]. rewrite run_snoc.
  destruct l as [q ip'|e now|q].
  - cbn. destruct (decide (q = p)) as [->|Hne]; [|rewrite lookup_insert_ne by done; set_solver].
    rewrite lookup_insert_eq. intros [= ->]. set_solver.
  - rewrite step_ev. cbn. set_solver.
  - cbn. destruct (decide (q = p)) as [->|Hne]; [by rewrite lookup_delete_eq|].
    rewrite lookup_delete_ne by done. set_solver.
Qed.

Lemma settled_rule price p ip ls :
  Policy.settled price p ip ls ->
  Policy.rules (Policy.run price ls) !! ip =
    AccessLevel.allows_delivery <$> Host.access (Policy.host (Policy.run price ls)) !! p.
Proof.
  induction ls as [|l ls IH] using rev_ind; intros Hs; [done|].
  specialize (IH (settled_snoc _ _ _ _ _ Hs)). destruct Hs as [S1 S2]. rewrite run_snoc.
  destruct l as [q ip'|e now|q]; [done| |done]. rewrite step_ev. cbn [Policy.rules Policy.host].
  set (sp := Policy.run price ls) in *. destruct (event_peer e) as [q|] eqn:He.
  - pose proof (handle_targets e now q (Policy.session sp) He) as Ht.
    destruct (decide (q = p)) as [->|Hne].
    + apply decide_own; [by eapply S2|done|done].
    + rewrite decide_other.
      * assert (Forall (fun a => action_peer a <> p) (Session.handle e now (Policy.session sp)).2) as Hn
          by (eapply Forall_impl; [exact Ht|]; cbn; congruence).
        by rewrite (proj1 (apply_all_ne p _ _ Hn)).
      * eapply Forall_impl; [exact Ht|]. cbn. intros a Ha Hb. rewrite Ha in Hb. apply Hne, S1.
        apply elem_of_app. left. by eapply book_arrived.
  - by destruct e.
Qed.

(** Only a verified payment opens a door. *)
Lemma allow_needs_payment e now p s l :
  event_peer e = Some p -> Action.SetAccess p l ∈ (Session.handle e now s).2 ->
  AccessLevel.allows_delivery l = true -> exists a, e = Event.BootstrapVerified p a true.
Proof.
  intros He Hin Hl. destruct (Session.peers s !! p) as [ps|] eqn:El.
  - destruct (handle_known e now p s ps He El) as
      [e ps' _ _ _ _|msg tok|msg|e|amount|amount|c Ha Hc|c last Ha Hc].
    + by apply not_elem_of_nil in Hin.
    + set_solver.
    + destruct (bool_decide _); [|set_solver].
      apply elem_of_cons in Hin as [[= ->]|Hin]; [done|set_solver].
    + apply elem_of_cons in Hin as [[= ->]|Hin]; [done|set_solver].
    + by exists amount.
    + cbn in Hin. repeat (apply elem_of_cons in Hin as [[= <-]|Hin] || apply elem_of_cons in Hin as [?|Hin]);
        simplify_eq; done || set_solver.
    + set_solver.
    + destruct (meter_interval_phase (Session.price s) (Session.policy s) p c now ps Ha)
        as [(_ & sent & E & Hs)|(_ & sent & E & Hs)]; rewrite E in Hin; rewrite Forall_forall in Hs.
      * by destruct (Hs _ Hin).
      * apply elem_of_app in Hin as [Hin|Hin]; [by destruct (Hs _ Hin)|].
        apply elem_of_cons in Hin as [[= ->]|Hin]; [done|set_solver].
  - pose proof (handle_unknown e now p s He El) as Hu.
    destruct e; simpl in He; try discriminate; injection He as ->; try (rewrite Hu in Hin);
      try (destruct Hu as [_ [Hu|Hu]]; rewrite Hu in Hin);
      cbn in Hin; try (by apply not_elem_of_nil in Hin);
      apply elem_of_cons in Hin as [[= ->]|Hin]; done || set_solver.
Qed.

Lemma decide_opens b ip acts r :
  foldl (Policy.decide_rule b) r acts !! ip = Some true ->
  r !! ip = Some true \/ exists q l, Action.SetAccess q l ∈ acts /\ b !! q = Some ip /\
    AccessLevel.allows_delivery l = true.
Proof.
  revert r. induction acts as [|a acts IH]; intros r Hr; [by left|]. cbn [foldl] in Hr.
  apply IH in Hr as [Hr|(q & l & Hin & Hq)]; [|right; exists q, l; split; [set_solver|done]].
  destruct a; try (by left). cbn in Hr. destruct (b !! peer) as [ip'|] eqn:Eb; [|by left].
  destruct (decide (ip' = ip)) as [->|Hne]; [|left; by rewrite lookup_insert_ne in Hr].
  rewrite lookup_insert_eq in Hr. injection Hr as Hl. right. exists peer, level. set_solver.
Qed.

(** Whoever lets an address in is at that address and has just paid. *)
Lemma opens_paid price ls e now q l ip :
  Action.SetAccess q l ∈ (Session.handle e now (Policy.session (Policy.run price ls))).2 ->
  Policy.book (Policy.run price ls) !! q = Some ip -> AccessLevel.allows_delivery l = true ->
  Policy.paid_at price (ls ++ [Policy.Ev e now]) ip.
Proof.
  intros Hin Hb Hl. destruct (event_peer e) as [p|] eqn:He; [|by destruct e; try done; apply not_elem_of_nil in Hin].
  pose proof (handle_targets e now p (Policy.session (Policy.run price ls)) He) as Ht.
  rewrite Forall_forall in Ht. pose proof (Ht _ Hin) as Eq. cbn in Eq. subst q.
  destruct (allow_needs_payment e now p _ l He Hin Hl) as [a ->]. by exists ls, p, a, now, [].
Qed.

Lemma open_rule_paid price ls ip :
  Policy.rules (Policy.run price ls) !! ip = Some true -> Policy.paid_at price ls ip.
Proof.
  induction ls as [|l ls IH] using rev_ind; [done|]. rewrite run_snoc.
  destruct l as [q ip'|e now|q]; [by intros ?%IH; apply paid_at_snoc| |by intros ?%IH; apply paid_at_snoc].
  rewrite step_ev. cbn [Policy.rules].
  intros [Hr|(q & lv & Hin & Hb & Hl)]%decide_opens; [by apply paid_at_snoc, IH|].
  by eapply opens_paid.
Qed.
End spec.

(** ** A node whose peer moves, for the witnesses *)

Module PolicyDemo.
#[export] Instance codec : Minicbor := Toy.toy.
Definition home : IpAddr := "10.0.0.2".
(** [alice] pays at home, and uses up what she paid. *)
Definition life : list Policy.label := [
  Policy.At alice home;
  Policy.Ev (Event.PeerConnected alice) 0;
  Policy.Ev (Event.BootstrapVerified alice 100 true) 20;
  Policy.Ev (Event.MeterSample alice (Counters.mk 1000 0)) 30;
  Policy.Ev (Event.MeterSample alice (Counters.mk 1040 5)) 40].
End PolicyDemo.

(** ** Lemmas: the simulation *)

Section simulation.
Context `{Minicbor, HexCodec, Cashu, UrlParser, !HexLaws}.
Context (clock : nat -> Z) (mint : nat -> CheckState) (cfg : Driver.config).
Import Driver.

(** Every address the firewall was ever told to let in was paid for. *)
Definition vouched (d : t) (ls : list Policy.label) : Prop :=
  forall ip, Allow ip ∈ firewall d -> Policy.paid_at (our_price cfg) ls ip.

(** Some run of the specification stands behind the state and its firewall's log. *)
Definition follows (d : t) : Prop :=
  exists ls, refines d (Policy.run (our_price cfg) ls) /\ vouched d ls.

Lemma follows_step d d' ls l :
  vouched d ls -> refines d' (Policy.step (Policy.run (our_price cfg) ls) l) ->
  (forall ip, Allow ip ∈ firewall d' ->
     Allow ip ∈ firewall d \/ Policy.paid_at (our_price cfg) (ls ++ [l]) ip) -> follows d'.
Proof.
  intros Hv Hr Ha. exists (ls ++ [l]). rewrite run_snoc. split; [done|].
  intros ip [Hin|Hin]%Ha; [by apply paid_at_snoc, Hv|done].
Qed.

(** Only the session, the book, the meters and the rules are observed. *)
Lemma follows_same d d' :
  session d' = session d -> peer_ip d' = peer_ip d ->
  (forall q, PublicKey.wf q -> peer_to_hex q ∈ metered d' <-> peer_to_hex q ∈ metered d) ->
  firewall d' = firewall d -> follows d -> follows d'.
Proof.
  intros E1 E2 E3 E4 (ls & [] & Hv). exists ls. split; [|by unfold vouched; rewrite E4].
  constructor; rewrite ?E1, ?E2, ?E4; auto. intros q Hq. rewrite E3 by done. auto.
Qed.

Lemma parse_wf hex : PublicKey.wf (parse_peer hex).
Proof.
  unfold parse_peer, PublicKey.wf. destruct (hex_decode hex); [|done]. by case_decide.
Qed.

(** A hexadecimal name that is not the one its peer prints as is no peer's name. *)
Lemma foreign_name hex : peer_to_hex (parse_peer hex) <> hex ->
  forall q, PublicKey.wf q -> peer_to_hex q <> hex.
Proof. intros Hne q Hq <-. by rewrite parse_to_hex in Hne. Qed.

Lemma execute_refines d sp a :
  PublicKey.wf (action_peer a) -> refines d sp -> refines (execute d a) (Policy.act sp a).
Proof.
  intros Hw [R1 R2 R3 R4]. destruct a as [p m|p l|p tk|p|p|p]; cbn in *; try by constructor.
  - rewrite (R2 p Hw). destruct (Policy.book sp !! p) as [ip|] eqn:Eb.
    + destruct (AccessLevel.allows_delivery l) eqn:El; constructor; cbn; try done;
        unfold rules_of; rewrite foldl_app; cbn; fold (rules_of (firewall d)); by rewrite R4, Eb, El.
    + constructor; cbn; try done. by rewrite Eb.
  - constructor; cbn; try done. intros q Hq. rewrite !elem_of_union, !elem_of_singleton, R3 by done.
    split; (intros [E|?]; [left|by right]); [by apply to_hex_inj|by subst].
  - constructor; cbn; try done. intros q Hq.
    rewrite !elem_of_difference, !elem_of_singleton, R3 by done.
    split; intros [? Hn]; (split; [done|]); [by intros ->|by intros ->%to_hex_inj].
Qed.

Lemma executes_refine acts d sp :
  Forall (fun a => PublicKey.wf (action_peer a)) acts -> refines d sp ->
  refines (foldl execute d acts) (foldl Policy.act sp acts).
Proof.
  intros Ha. revert d sp. induction Ha as [|a acts Hw _ IH]; intros d sp Hr; [done|].
  by apply IH, execute_refines.
Qed.

(** Carrying actions out tells the firewall of an address only for a decision to let its
    peer in. *)
Lemma executes_allow acts d ip :
  Allow ip ∈ firewall (foldl execute d acts) ->
  Allow ip ∈ firewall d \/ exists q l, Action.SetAccess q l ∈ acts /\
    peer_ip d !! peer_to_hex q = Some ip /\ AccessLevel.allows_delivery l = true.
Proof.
  revert d. induction acts as [|a acts IH]; intros d; cbn [foldl]; [by left|].
  assert (peer_ip (execute d a) = peer_ip d) as Ep
    by (destruct a; cbn; try done; by repeat case_match).
  intros [Hin|(q & l & Hin & Hq & Hl)]%IH.
  - destruct a as [p m|p l|p tk|p|p|p]; try (by left). cbn in Hin.
    destruct (peer_ip d !! peer_to_hex p) as [ip'|] eqn:Eb; [|by left].
    destruct (AccessLevel.allows_delivery l) eqn:El; cbn in Hin;
      apply elem_of_app in Hin as [Hin|Hin%list_elem_of_singleton]; try (by left).
    injection Hin as ->. right. exists p, l. split_and!; [by left|done|done].
  - right. exists q, l. rewrite Ep in Hq. split_and!; [by right|done|done].
Qed.

(** The session asks for a verdict by itself, and only when a message arrives. *)
Definition verify_free (a : Action.t) : Prop := forall p tk, a <> Action.VerifyBootstrapToken p tk.

Lemma handle_verify e now p s :
  event_peer e = Some p ->
  Forall verify_free (Session.handle e now s).2 \/
  exists m tk, e = Event.MessageReceived p m /\
    (Session.handle e now s).2 = [Action.VerifyBootstrapToken p tk].
Proof.
  intros He. destruct (Session.peers s !! p) as [ps|] eqn:El.
  - destruct (handle_known e now p s ps He El) as
      [| msg tok | | | | | |c l Ha _]; try (left; repeat constructor; by intros ??).
    + right. by exists msg, tok.
    + left. case_match; repeat constructor; by intros ??.
    + left. assert (forall sent, Forall (fun a => exists m, a = Action.Send p m) sent ->
        Forall verify_free sent) as K by (intros sent Hs; eapply Forall_impl; [exact Hs|]; by intros ? [? ->]).
      destruct (meter_interval_phase (Session.price s) (Session.policy s) p c now ps Ha)
        as [(_ & sent & -> & Hs)|(_ & sent & -> & Hs)]; [by apply K|].
      apply Forall_app. split; [by apply K|]. repeat constructor; by intros ??.
  - left. pose proof (handle_unknown e now p s He El) as Hu.
    destruct e; simpl in He; try discriminate; injection He as ->; try (rewrite Hu);
      try (destruct Hu as [_ [Hu|Hu]]; rewrite Hu); cbn; repeat constructor; by intros ??.
Qed.

Lemma dispatch_free acts d :
  Forall verify_free acts -> dispatch clock mint acts d = foldl execute d acts.
Proof.
  unfold dispatch. intros Ha. revert d.
  induction Ha as [|a acts Hv _ IH]; intros d; [done|]. cbn [foldl].
  rewrite <- IH. f_equal. destruct a; try done. by destruct (Hv peer token).
Qed.

(** One event through the session, its actions executed. *)
Lemma handle_refines e p d sp :
  event_peer e = Some p -> PublicKey.wf p -> refines d sp ->
  let '(d', acts) := handle clock e d in
  refines d' (Policy.set_session (session d') sp) /\
  (session d', acts) = Session.handle e (clock (clock_reads d)) (Policy.session sp) /\
  Forall (fun a => PublicKey.wf (action_peer a)) acts.
Proof.
  intros He Hw [R1 R2 R3 R4]. unfold handle, now_millis. cbn [session tick_clock clock_reads].
  rewrite R1. pose proof (handle_targets e (clock (clock_reads d)) p (Policy.session sp) He) as Ht.
  destruct (Session.handle _ _ _) as [s acts]. cbn [snd] in Ht.
  split; [by constructor|]. split; [done|]. eapply Forall_impl; [exact Ht|]. by intros a ->.
Qed.

Lemma handle_keeps e d :
  firewall (handle clock e d).1 = firewall d /\ peer_ip (handle clock e d).1 = peer_ip d.
Proof. unfold handle, now_millis. cbn. by destruct (Session.handle _ _ _). Qed.

(** An event whose actions ask for no verdict is one step of the specification. *)
Lemma event_follows e p d ls :
  event_peer e = Some p -> PublicKey.wf p ->
  refines d (Policy.run (our_price cfg) ls) -> vouched d ls ->
  Forall verify_free (Session.handle e (clock (clock_reads d)) (Policy.session (Policy.run (our_price cfg) ls))).2 ->
  follows (let '(d', acts) := handle clock e d in dispatch clock mint acts d').
Proof.
  intros He Hw Hr Hv Hf. pose proof (handle_refines e p d _ He Hw Hr) as K.
  destruct (handle_keeps e d) as [Ef Ep].
  destruct (handle clock e d) as [d1 acts]. destruct K as (K1 & K2 & K3). cbn [fst] in Ef, Ep.
  rewrite <- K2 in Hf. cbn [snd] in Hf. rewrite dispatch_free by done.
  apply (follows_step d _ ls (Policy.Ev e (clock (clock_reads d)))); [done| |].
  - cbn [Policy.step]. rewrite <- K2. by apply executes_refine.
  - intros ip [Hin|(q & l & Hin & Hq & Hl)]%executes_allow; [left; by rewrite <- Ef|right].
    rewrite Forall_forall in K3. rewrite Ep in Hq.
    eapply opens_paid; [rewrite <- K2; exact Hin| |exact Hl].
    rewrite <- (rf_book _ _ Hr) by apply (K3 _ Hin). exact Hq.
Qed.

Lemma verify_token_refines tk d sp : refines d sp -> refines (verify_token mint tk d).1 sp.
Proof.
  intros [R1 R2 R3 R4]. unfold verify_token. destruct (from_utf8 tk); [|done].
  destruct (BootstrapWallet.verify _ _ _) as [w [a|er]]; by constructor.
Qed.

(** A message is one step of the specification, or two: the message and the verdict. *)
Lemma received_follows e p d :
  event_peer e = Some p -> PublicKey.wf p -> follows d ->
  follows (let '(d', acts) := handle clock e d in dispatch clock mint acts d').
Proof.
  intros He Hw (ls & Hr & Hvo).
  destruct (handle_verify e (clock (clock_reads d)) p
    (Policy.session (Policy.run (our_price cfg) ls)) He) as [Hv|(m & tk & E & Hv)];
    [by eapply event_follows|].
  pose proof (handle_refines e p d _ He Hw Hr) as K.
  destruct (handle_keeps e d) as [Ef _].
  destruct (handle clock e d) as [d1 acts]. destruct K as (K1 & K2 & _). cbn [fst] in Ef.
  rewrite <- K2 in Hv. cbn in Hv. subst acts. unfold dispatch. cbn [foldl dispatch_one].
  pose proof (verify_token_refines tk d1 _ K1) as K4.
  assert (firewall (verify_token mint tk d1).1 = firewall d1) as Ef2
    by (unfold verify_token; repeat case_match; by simplify_eq).
  destruct (verify_token mint tk d1) as [d2 [v am]]. cbn [fst] in K4, Ef2.
  set (ls' := ls ++ [Policy.Ev e (clock (clock_reads d))]).
  assert (refines d2 (Policy.run (our_price cfg) ls')) as K5.
  { unfold ls'. rewrite run_snoc. cbn [Policy.step]. rewrite <- K2. cbn.
    destruct K4 as [R1 R2 R3 R4]. by constructor. }
  assert (vouched d2 ls') as Hvo2
    by (intros ip Hin; apply paid_at_snoc, Hvo; by rewrite <- Ef, <- Ef2).
  destruct (handle_verify (Event.BootstrapVerified p am v) (clock (clock_reads d2)) p
    (Policy.session (Policy.run (our_price cfg) ls')) eq_refl) as [K8|(?&?&?&?)]; [|done].
  pose proof (event_follows (Event.BootstrapVerified p am v) p d2 ls' eq_refl Hw K5 Hvo2 K8) as K9.
  pose proof (handle_refines (Event.BootstrapVerified p am v) p d2 _ eq_refl Hw K5) as K7.
  destruct (handle clock (Event.BootstrapVerified p am v) d2) as [d3 acts].
  destruct K7 as (_ & K7 & _). rewrite <- K7 in K8. by rewrite dispatch_free in K9.
Qed.

Lemma enqueue_follows hex m d : follows d -> follows (enqueue hex m d).
Proof. by apply follows_same. Qed.

Lemma touch_follows hex d : follows d -> follows (touch clock hex d).
Proof. by apply follows_same. Qed.

(** An address under a name that is nobody's is not in the book. *)
Lemma insert_follows hex ip d :
  follows d -> follows (set_peer_ip (<[hex := ip]> (peer_ip d)) d).
Proof.
  intros (ls & [R1 R2 R3 R4] & Hv). destruct (decide (peer_to_hex (parse_peer hex) = hex)) as [E|Hne].
  - apply (follows_step d _ ls (Policy.At (parse_peer hex) ip)); [done| |by left].
    constructor; cbn; try done. intros q Hq. destruct (decide (q = parse_peer hex)) as [->|Hn].
    + by rewrite E, !lookup_insert_eq.
    + rewrite !lookup_insert_ne; [by apply R2|done|]. intros E2. rewrite E2, parse_to_hex in Hn; done.
  - exists ls. split; [|done]. constructor; cbn; try done. intros q Hq.
    rewrite lookup_insert_ne; [by apply R2|]. intros E. by apply (foreign_name hex Hne q Hq).
Qed.

Lemma delete_follows hex d :
  follows d -> follows (set_peer_ip (delete hex (peer_ip d)) d).
Proof.
  intros (ls & [R1 R2 R3 R4] & Hv). destruct (decide (peer_to_hex (parse_peer hex) = hex)) as [E|Hne].
  - apply (follows_step d _ ls (Policy.Gone (parse_peer hex))); [done| |by left].
    constructor; cbn; try done. intros q Hq. destruct (decide (q = parse_peer hex)) as [->|Hn].
    + by rewrite E, !lookup_delete_eq.
    + rewrite !lookup_delete_ne; [by apply R2|done|]. intros E2. rewrite E2, parse_to_hex in Hn; done.
  - exists ls. split; [|done]. constructor; cbn; try done. intros q Hq.
    rewrite lookup_delete_ne; [by apply R2|]. intros E. by apply (foreign_name hex Hne q Hq).
Qed.

Lemma connected_follows hex ip d :
  follows d -> follows (peer_connected clock mint cfg hex ip d).1.
Proof.
  intros Hd. unfold peer_connected.
  set (d1 := match ip with Some ip => _ | None => d end).
  assert (follows (touch clock hex d1)) as H1'
    by (apply touch_follows; unfold d1; destruct ip; [by apply insert_follows|done]).
  pose proof (received_follows (Event.PeerConnected (parse_peer hex)) _ _ eq_refl (parse_wf hex) H1') as H2'.
  destruct (handle clock _ (touch clock hex d1)) as [d2 acts]. cbn.
  destruct (bool_decide _); repeat apply enqueue_follows; exact H2'.
Qed.

Lemma message_follows hex msg d :
  follows d -> follows (message_received clock mint hex msg d).
Proof.
  intros Hd. apply (received_follows (Event.MessageReceived (parse_peer hex) msg) _ _ eq_refl (parse_wf hex)).
  by apply touch_follows.
Qed.

Lemma disconnect_metered p d :
  metered (let '(d', acts) := handle clock (Event.PeerDisconnected p) d in
           dispatch clock mint acts d') = metered d ∖ {[peer_to_hex p]}.
Proof.
  unfold handle, now_millis. cbn [Session.handle]. rewrite tear_down_eq. unfold dispatch.
  cbn [foldl dispatch_one execute AccessLevel.allows_delivery peer_ip set_session tick_clock].
  by destruct (peer_ip d !! _).
Qed.

Lemma disconnected_follows hex d :
  follows d -> follows (peer_disconnected clock mint hex d).
Proof.
  intros Hd. unfold peer_disconnected.
  pose proof (received_follows (Event.PeerDisconnected (parse_peer hex)) _ d eq_refl (parse_wf hex) Hd) as H1'.
  pose proof (disconnect_metered (parse_peer hex) d) as Hm.
  destruct (handle clock _ d) as [d1 acts].
  eapply follows_same; [| | | |exact (delete_follows hex _ H1')]; try done.
  intros q Hq. cbn. rewrite Hm, !elem_of_difference, !elem_of_singleton.
  split; [tauto|]. intros [Hin Hne]. split; [done|]. intros E. apply Hne.
  by rewrite <- (parse_to_hex q Hq), E.
Qed.

Lemma exchange_follows ip body d : follows d -> follows (http_exchange clock mint cfg ip body d).1.
Proof.
  intros Hd. unfold http_exchange. destruct (decode_frames body) as [[frames|e]|]; [|done..].
  pose proof (foldl_inv (fun st : t * option string => follows st.1)
    (exchange_frame clock mint cfg ip) frames (d, None)) as K.
  assert (follows (foldl (exchange_frame clock mint cfg ip) (d, None) frames).1) as K'.
  { apply K; [|done]. intros [d' ph] frame Hd'. unfold exchange_frame.
    destruct (peek_type frame) as [[]|]; try done; cbn [fst] in *;
      try (destruct ph; [by apply message_follows|done]).
    destruct (Announce.decode frame); [|done]. by apply connected_follows. }
  destruct (foldl _ (d, None) frames) as [d1 [hex|]]; [|exact K'].
  by apply (follows_same d1).
Qed.

Lemma op_follows d o : follows d -> follows (op_step clock mint cfg d o).1.
Proof.
  intros Hd. destruct o as [ip body|read|now idle|hex|url ev|url]; cbn.
  - pose proof (exchange_follows ip body d Hd). by destruct (http_exchange _ _ _ _ _ _).
  - unfold metering_pass. apply foldl_inv; [|done]. intros d' [hex ip] Hd'.
    exact (received_follows (Event.MeterSample (parse_peer hex) (read ip)) _ _ eq_refl (parse_wf hex) Hd').
  - unfold reap_idle. apply foldl_inv; [|done]. intros d' hex Hd'.
    destruct (bool_decide _); [done|]. by apply disconnected_follows.
  - by apply disconnected_follows.
  - apply (follows_same d); try done; unfold record_upstream, now_millis;
      destruct (upstreams d !! url); by destruct (ConsumeEvent.report ev).
  - apply (follows_same d); try done; unfold mark_upstream_offline; by destruct (upstreams d !! url).
Qed.

Lemma boot_follows w : follows (Driver.new cfg w).
Proof. exists []. split; [by constructor|]. by intros ip Hin%not_elem_of_nil. Qed.
End simulation.

(** ** Properties *)

(** C5: the driver refines the specification. Whatever happens to a node from its
    start, in any number and order of exchanges, metering passes, sweeps, disconnects
    and upstream events, with any clock and any answers of the mint, some run of the
    specification at the node's price ends in the same session, the same address for
    every peer, the same peers metered and the same firewall rules. *)
Theorem driver_refines_policy `{Minicbor, HexCodec, Cashu, UrlParser, !HexLaws}
    clock mint cfg wallet ops :
  exists ls, refines (run (op_step clock mint cfg) (Driver.new cfg wallet) ops).1
    (Policy.run (Driver.our_price cfg) ls).
Proof.
  assert (follows cfg (run (op_step clock mint cfg) (Driver.new cfg wallet) ops).1) as (ls & Hr & _)
    by (apply (run_keeps _ (follows cfg)); [intros; by apply op_follows|apply boot_follows]).
  by exists ls.
Qed.

Lemma driver_refines_policy_witness :
  exists ls, refines (H := ConsumeDemo.hex) (run NodeDemo.step NodeDemo.boot NodeDemo.ops).1
    (Policy.run (H := Toy.toy) (Driver.our_price NodeDemo.cfg) ls).
Proof.
  exact (driver_refines_policy (H := Toy.toy) (H0 := ConsumeDemo.hex) (H3 := NodeDemo.hex_laws)
    NodeDemo.clock NodeDemo.mint NodeDemo.cfg WalletDemo.wallet NodeDemo.ops).
Defined.

(** C6: the firewall follows payment. In every run of the specification, an address is
    open only if some peer had that address when a payment of its own was verified.
    For a peer with an address of its own, the rule of that address is open exactly
    when the session's last decision lets the peer through: it is open while the peer
    is [Active], shut while it is [Suspended], not open when it is gone, and if it is
    open, a payment of the peer's was verified with no disconnect and no failed
    verification since. *)
Theorem policy_rules_follow_payment `{Minicbor} price ls p ip :
  let sp := Policy.run price ls in
  (Policy.rules sp !! ip = Some true ->
   exists pre q amount now post,
     ls = pre ++ Policy.Ev (Event.BootstrapVerified q amount true) now :: post /\
     Policy.book (Policy.run price pre) !! q = Some ip) /\
  (Policy.settled price p ip ls ->
   match Session.peer_phase (Policy.session sp) p with
   | Some PeerPhase.Active => Policy.rules sp !! ip = Some true
   | Some PeerPhase.Suspended => Policy.rules sp !! ip = Some false
   | None => Policy.rules sp !! ip <> Some true
   | Some _ => True
   end /\
   (Policy.rules sp !! ip = Some true -> paid_since (Policy.events ls) p)).
Proof.
  intros sp. split; [apply open_rule_paid|]. intros Hs%settled_rule. fold sp in Hs. rewrite Hs.
  destruct (reachable_access_inv _ _ _ _ _ p (run_reachable price ls)) as (I1 & I2 & I3).
  fold sp in I1, I2, I3. split.
  - unfold Session.peer_phase. destruct (Session.peers (Policy.session sp) !! p) as [ps|]; cbn.
    + destruct I3 as (_ & I4 & I5). destruct (PeerSession.phase ps); try done.
      * by destruct (I4 eq_refl) as [-> _].
      * by destruct (I5 eq_refl) as [-> _].
    + by destruct I3 as [[-> | ->] _].
  - destruct (Host.access (Policy.host sp) !! p) as [[]|]; try done. by intros _; apply I1.
Qed.

Lemma policy_rules_follow_payment_witness :
  Policy.settled (H := PolicyDemo.codec) (Price.mk 0 1) alice PolicyDemo.home PolicyDemo.life /\
  Policy.rules (Policy.run (H := PolicyDemo.codec) (Price.mk 0 1) PolicyDemo.life) !! PolicyDemo.home = Some true.
Proof.
  assert (Policy.settled (H := PolicyDemo.codec) (Price.mk 0 1) alice PolicyDemo.home PolicyDemo.life) as Hs.
  { split.
    - intros q Hq. unfold PolicyDemo.life in Hq.
      repeat (apply elem_of_cons in Hq as [Hq|Hq]; [by simplify_eq|]). by apply not_elem_of_nil in Hq.
    - intros pre e now post Hl _. unfold PolicyDemo.life in Hl.
      do 5 (destruct pre as [|? pre]; [by simplify_eq; vm_compute|injection Hl as <- Hl]).
      by destruct pre. }
  split; [exact Hs|].
  pose proof (proj1 (proj2 (policy_rules_follow_payment (H := PolicyDemo.codec) (Price.mk 0 1) PolicyDemo.life alice
    PolicyDemo.home) Hs)) as K.
  exact K.
Defined.

(** ** Departures *)

(** A paid peer that announces itself from another address leaves the rule of the old
    one open: the disconnect shuts the new address only. *)
Theorem moving_leaves_the_door_open :
  let moved := (run NodeDemo.step NodeDemo.boot [
    Exchange (Some "10.0.0.2"%string) (encode_frames [NodeDemo.announce; NodeDemo.token] []).1;
    Exchange (Some "10.0.0.3"%string) (encode_frames [NodeDemo.announce; NodeDemo.token] []).1;
    Disconnected (Driver.peer_to_hex (H0 := ConsumeDemo.hex) NodeDemo.alice)]).1 in
  Session.peer_count (Driver.session moved) = 0%nat /\
  rules_of (Driver.firewall moved) !! "10.0.0.2"%string = Some true /\
  rules_of (Driver.firewall moved) !! "10.0.0.3"%string = Some false.
Proof. vm_compute. by split_and!. Qed.
