(* ===== verification/Races.v ===== *)
(** * The driver, lock by lock

    [NetDriver.v] makes every operation of the driver one step. In [driver.rs] an
    operation awaits: each map has its own lock, the session's is released before its
    actions are carried out, and the mint is asked in between, so that requests, the
    metering loop and the reaper interleave. Here an operation is a program of steps,
    one for each section under a lock or between awaits, and a node is a set of programs
    that take turns in any order. A program that runs alone does what [NetDriver.v]
    says; what else holds in every order, and what does not, follows. *)

From S2P Require Import Prelude F64 Wire ToyCodec Frames Pricing Session SessionFacts SessionProps.
From S2P Require Import Wallet Consume NetDriver NetDriverFacts NodeSpec.

(** ** Steps *)

Module Micro.
Inductive t : Type :=
| SetIp (hex : string) (ip : IpAddr)
| Touch (hex : string)
(** [handle] reads the clock, then takes the session's lock; [follow] says whether the
    actions are those that follow a verification, which [dispatch] executes directly. *)
| Handle (follow : bool) (e : Event.t)
| HandleAt (follow : bool) (now : Z) (e : Event.t)
(** An action, and, the address of its peer looked up, the call of the adapter. *)
| Do (follow : bool) (a : Action.t)
| Adapter (p : PeerId) (level : AccessLevel.t) (ip : IpAddr)
(** A verification: after the local check, after the mint's answer. *)
| AskMint (p : PeerId) (token_str : string) (token : Token) (ys : list string)
| Commit (p : PeerId) (ys : list string) (amount_sat : Z)
| Enqueue (hex : string) (message : bytes)
| ForgetIp (hex : string)
| ForgetSeen (hex : string)
| ForgetMetered (hex : string)
| ForgetOutbox (hex : string)
| Drain (hex : string)
(** A sweep lists the idle peers, then looks at each; a metering pass lists its targets. *)
| Sweep (now_ms idle_ms : Z)
| ReapOne (hex : string)
| ReadMetered (read_counters : IpAddr -> Counters.t)
| Observe (url : string) (ev : ConsumeEvent.t)
| GoOffline (url : string).
End Micro.
Import Micro.

#[local] Ltac micro_cases m :=
  destruct m as [hex addr|hex|f e|f now e|f a|q l addr|q s tk ys|q ys a|hex msg|hex|hex|hex|hex|hex|now idle
    |hex|rd|u ev|u].

(** What a step leaves to do, and what it has done: the actions carried out, the events
    the session has handled, the messages drained. *)
Record result_ : Type := mkResult {
  next : list Micro.t;
  carried_out : list Action.t;
  handled_now : list stamped;
  drained : option (list bytes)
}.
Definition quiet : result_ := mkResult [] [] [] None.
Definition then_do (ms : list Micro.t) : result_ := mkResult ms [] [] None.

Section micro.
Context `{Minicbor, HexCodec, Cusp : Cashu, UrlParser}.
Context (clock : nat -> Z) (mint : nat -> CheckState) (cfg : Driver.config).

(** ** Programs *)

Definition disconnect (hex : string) : list Micro.t :=
  [Handle false (Event.PeerDisconnected (Driver.parse_peer hex));
   ForgetIp hex; ForgetSeen hex; ForgetMetered hex; ForgetOutbox hex].
Definition connect (hex : string) (ip : option IpAddr) : list Micro.t :=
  match ip with Some ip => [SetIp hex ip] | None => [] end ++
  [Touch hex; Handle false (Event.PeerConnected (Driver.parse_peer hex));
   Enqueue hex (Driver.our_announce cfg)] ++
  (if bool_decide (Driver.price_sheet cfg = []) then [] else [Enqueue hex (Driver.price_sheet cfg)]).
Definition receive (hex : string) (msg : bytes) : list Micro.t :=
  [Touch hex; Handle false (Event.MessageReceived (Driver.parse_peer hex) msg)].

(** One frame of an exchange, with the peer established so far. *)
Definition frame_steps (ip : option IpAddr) (st : list Micro.t * option string) (frame : bytes)
    : list Micro.t * option string :=
  let '(ms, peer_hex) := st in
  match peek_type frame with
  | Some MessageType.Announce =>
      match Announce.decode frame with
      | Some announce =>
          let hex := hex_encode (PublicKey.as_bytes (Announce.public_key announce)) in
          (ms ++ connect hex ip, Some hex)
      | None => (ms, peer_hex)
      end
  | Some _ => match peer_hex with Some hex => (ms ++ receive hex frame, peer_hex) | None => (ms, peer_hex) end
  | None => (ms, peer_hex)
  end.
Definition exchange_steps (ip : option IpAddr) (body : bytes) : list Micro.t :=
  match decode_frames body with
  | Some (Ok frames) =>
      let '(ms, peer_hex) := foldl (frame_steps ip) ([], None) frames in
      ms ++ match peer_hex with Some hex => [Drain hex] | None => [] end
  | _ => []
  end.

Definition program (o : op) : list Micro.t :=
  match o with
  | Exchange ip body => exchange_steps ip body
  | MeteringPass read => [ReadMetered read]
  | Reap now idle => [Sweep now idle]
  | Disconnected hex => disconnect hex
  | Upstream url ev => [Observe url ev]
  | UpstreamOffline url => [GoOffline url]
  end.

(** ** One step *)

Definition refused (p : PeerId) : result_ := then_do [Handle true (Event.BootstrapVerified p 0 false)].

(** An action under way; [None] where nothing is left of it. *)
Definition do_action (follow : bool) (a : Action.t) (d : Driver.t) : Driver.t * result_ :=
  match a with
  | Action.SetAccess p level =>
      (d, match Driver.peer_ip d !! Driver.peer_to_hex p with
          | Some ip => then_do [Adapter p level ip]
          | None => mkResult [] [a] [] None
          end)
  | Action.VerifyBootstrapToken p token =>
      (d, if follow then quiet
          else match from_utf8 token with
          | None => refused p
          | Some s =>
              match BootstrapWallet.precheck s (Driver.wallet d) with
              | Err _ => refused p
              | Ok (token, ys) => then_do [AskMint p s token ys]
              end
          end)
  | _ => (Driver.execute d a, mkResult [] [a] [] None)
  end.

Definition micro_step (m : Micro.t) (d : Driver.t) : Driver.t * result_ :=
  match m with
  | SetIp hex ip => (Driver.set_peer_ip (<[hex := ip]> (Driver.peer_ip d)) d, quiet)
  | Touch hex => (Driver.touch clock hex d, quiet)
  | Handle follow e =>
      let '(d, now) := Driver.now_millis clock d in (d, then_do [HandleAt follow now e])
  | HandleAt follow now e =>
      let '(s, acts) := Session.handle e now (Driver.session d) in
      (Driver.set_session s d, mkResult (Do follow <$> acts) [] [(e, now)] None)
  | Do follow a => do_action follow a d
  | Adapter p level ip =>
      (Driver.call_firewall (if AccessLevel.allows_delivery level then Allow ip else Deny ip) d,
       mkResult [] [Action.SetAccess p level] [] None)
  | AskMint p s token ys =>
      (d, match BootstrapWallet.ask_mint (mint (Driver.clock_reads d)) s token ys (Driver.wallet d) with
          | Err _ => refused p
          | Ok amount_sat => then_do [Commit p ys amount_sat]
          end)
  | Commit p ys amount_sat =>
      (Driver.set_wallet (BootstrapWallet.mark_spent ys (Driver.wallet d)) d,
       then_do [Handle true (Event.BootstrapVerified p (wrap_u64 (amount_sat * 1000)) true)])
  | Enqueue hex message => (Driver.enqueue hex message d, quiet)
  | ForgetIp hex => (Driver.set_peer_ip (delete hex (Driver.peer_ip d)) d, quiet)
  | ForgetSeen hex => (Driver.set_last_seen (delete hex (Driver.last_seen d)) d, quiet)
  | ForgetMetered hex => (Driver.set_metered (Driver.metered d ∖ {[hex]}) d, quiet)
  | ForgetOutbox hex => (Driver.set_outbox (delete hex (Driver.outbox d)) d, quiet)
  | Drain hex => let '(d, messages) := Driver.drain_outbox hex d in (d, mkResult [] [] [] (Some messages))
  | Sweep now_ms idle_ms =>
      (d, then_do (ReapOne <$> ((fun p => p.1) <$>
            filter (fun p => (idle_ms <=? sat_sub_u64 now_ms p.2) = true) (btree_iter str_le (Driver.last_seen d)))))
  | ReapOne hex =>
      (d, if bool_decide (Session.peer_phase (Driver.session d) (Driver.parse_peer hex) = Some PeerPhase.Active)
          then quiet else then_do (disconnect hex))
  | ReadMetered read =>
      (d, then_do ((fun '(hex, ip) => Handle false (Event.MeterSample (Driver.parse_peer hex) (read ip)))
            <$> Driver.metering_targets d))
  | Observe url ev => (Driver.record_upstream clock url ev d, quiet)
  | GoOffline url => (Driver.mark_upstream_offline url d, quiet)
  end.
End micro.

(** ** A program alone *)

Section solo.
Context `{Minicbor, HexCodec, Cusp : Cashu, UrlParser}.
Context (clock : nat -> Z) (mint : nat -> CheckState) (cfg : Driver.config).

(** A program run to its end with nothing in between, and what it drains. *)
Inductive solo : Driver.t -> list Micro.t -> Driver.t -> list (list bytes) -> Prop :=
| solo_done d : solo d [] d []
| solo_step d m ms d1 r d2 out :
    micro_step clock mint m d = (d1, r) -> solo d1 (next r ++ ms) d2 out ->
    solo d (m :: ms) d2 (option_list (drained r) ++ out).

Lemma solo_app d ms d1 out ms' d2 out' :
  solo d ms d1 out -> solo d1 ms' d2 out' -> solo d (ms ++ ms') d2 (out ++ out').
Proof.
  induction 1 as [d|d m ms d0 r d1 out Hm _ IH]; intros Hs; [done|].
  rewrite <- (app_assoc (option_list (drained r)) out out'). cbn [app]. eapply solo_step; [exact Hm|].
  rewrite (app_assoc (next r) ms ms'). by apply IH.
Qed.

Lemma solo_seq d ms d1 ms' d2 : solo d ms d1 [] -> solo d1 ms' d2 [] -> solo d (ms ++ ms') d2 [].
Proof. intros Ha Hb. exact (solo_app _ _ _ _ _ _ _ Ha Hb). Qed.

Lemma solo_then d m ms d1 r d2 out :
  micro_step clock mint m d = (d1, r) -> drained r = None -> solo d1 (next r ++ ms) d2 out -> solo d (m :: ms) d2 out.
Proof. intros Hm Hr Hs. pose proof (solo_step _ _ _ _ _ _ _ Hm Hs) as Hd. by rewrite Hr in Hd. Qed.

Lemma solo_quiet d m d1 : micro_step clock mint m d = (d1, quiet) -> solo d [m] d1 [].
Proof. intros Hm. by eapply solo_then; [exact Hm|done|apply solo_done]. Qed.

(** An action carried out as [execute] has it. *)
Lemma solo_execute follow a d :
  (follow = true \/ forall p tok, a <> Action.VerifyBootstrapToken p tok) ->
  solo d [Do follow a] (Driver.execute d a) [].
Proof.
  intros Hf. destruct a as [p m|p l|p tok|p|p|p].
  1, 4, 5, 6: (eapply solo_then; [reflexivity|done|apply solo_done]).
  - cbn. destruct (Driver.peer_ip d !! Driver.peer_to_hex p) as [ip|] eqn:E.
    + eapply solo_then; [cbn; by rewrite E|done|]. cbn [next then_do app].
      replace (if AccessLevel.allows_delivery l then _ else _)
        with (Driver.call_firewall (if AccessLevel.allows_delivery l then Allow ip else Deny ip) d)
        by (by destruct (AccessLevel.allows_delivery l)).
      eapply solo_then; [reflexivity|done|apply solo_done].
    + eapply solo_then; [cbn; by rewrite E|done|apply solo_done].
  - destruct Hf as [->|Hf]; [|by destruct (Hf p tok)]. by apply solo_quiet.
Qed.

Lemma solo_follow acts d : solo d (Do true <$> acts) (foldl Driver.execute d acts) [].
Proof.
  revert d. induction acts as [|a acts IH]; intros d; [constructor|].
  change (Do true <$> a :: acts) with ([Do true a] ++ (Do true <$> acts)).
  eapply solo_seq; [apply solo_execute; by left|apply IH].
Qed.

Lemma solo_handle_follow e d :
  solo d [Handle true e] (let '(d', acts) := Driver.handle clock e d in foldl Driver.execute d' acts) [].
Proof.
  unfold Driver.handle. cbn. eapply solo_then; [reflexivity|done|]. cbn [next then_do app].
  destruct (Session.handle e _ _) as [s acts] eqn:E.
  eapply solo_then; [cbn; by rewrite E|done|]. cbn [next]. rewrite app_nil_r. apply solo_follow.
Qed.

Lemma solo_refused p d :
  solo d (next (refused p))
    (let '(d', acts) := Driver.handle clock (Event.BootstrapVerified p 0 false) d in foldl Driver.execute d' acts) [].
Proof. apply solo_handle_follow. Qed.

Lemma solo_dispatch_one a d : solo d [Do false a] (Driver.dispatch_one clock mint d a) [].
Proof.
  destruct a as [p m|p l|p tok|p|p|p]; try (by apply solo_execute; right).
  cbn [Driver.dispatch_one]. unfold Driver.verify_token.
  destruct (from_utf8 tok) as [s|] eqn:E.
  2: { eapply solo_then; [cbn; by rewrite E|done|]. rewrite app_nil_r. apply solo_refused. }
  unfold BootstrapWallet.verify.
  destruct (BootstrapWallet.precheck s (Driver.wallet d)) as [[token ys]|e] eqn:Ep.
  2: { replace (Driver.set_wallet (Driver.wallet d) d) with d by (by destruct d).
       eapply solo_then; [cbn; by rewrite E, Ep|done|]. rewrite app_nil_r. apply solo_refused. }
  eapply solo_then; [cbn; by rewrite E, Ep|done|]. cbn [next then_do app].
  destruct (BootstrapWallet.ask_mint (mint (Driver.clock_reads d)) s token ys (Driver.wallet d)) as [amount|e] eqn:Ea.
  - eapply solo_then; [cbn; by rewrite Ea|done|]. cbn [next then_do app].
    eapply solo_then; [reflexivity|done|]. apply solo_handle_follow.
  - replace (Driver.set_wallet (Driver.wallet d) d) with d by (by destruct d).
    eapply solo_then; [cbn; by rewrite Ea|done|]. rewrite app_nil_r. apply solo_refused.
Qed.

Lemma solo_dispatch acts d : solo d (Do false <$> acts) (Driver.dispatch clock mint acts d) [].
Proof.
  unfold Driver.dispatch. revert d. induction acts as [|a acts IH]; intros d; [constructor|].
  change (Do false <$> a :: acts) with ([Do false a] ++ (Do false <$> acts)).
  eapply solo_seq; [apply solo_dispatch_one|apply IH].
Qed.

Lemma solo_handle e d :
  solo d [Handle false e] (let '(d', acts) := Driver.handle clock e d in Driver.dispatch clock mint acts d') [].
Proof.
  unfold Driver.handle. cbn. eapply solo_then; [reflexivity|done|]. cbn [next then_do app].
  destruct (Session.handle e _ _) as [s acts] eqn:E.
  eapply solo_then; [cbn; by rewrite E|done|]. cbn [next]. rewrite app_nil_r. apply solo_dispatch.
Qed.

(** *** The operations *)

Lemma solo_quiet_then d m d1 ms d2 out :
  micro_step clock mint m d = (d1, quiet) -> solo d1 ms d2 out -> solo d (m :: ms) d2 out.
Proof. intros Hm Hs. by eapply solo_then. Qed.

Lemma solo_disconnect hex d : solo d (disconnect hex) (Driver.peer_disconnected clock mint hex d) [].
Proof.
  unfold disconnect, Driver.peer_disconnected.
  change (?m :: ?ms) with ([m] ++ ms). eapply solo_seq; [apply solo_handle|]. destruct (Driver.handle _ _ _) as [d1 acts].
  repeat (eapply solo_quiet_then; [reflexivity|]). constructor.
Qed.

Lemma solo_receive hex msg d : solo d (receive hex msg) (Driver.message_received clock mint hex msg d) [].
Proof. unfold receive. eapply solo_quiet_then; [reflexivity|]. apply solo_handle. Qed.

Lemma solo_connect hex ip d : solo d (connect cfg hex ip) (Driver.peer_connected clock mint cfg hex ip d).1 [].
Proof.
  unfold connect, Driver.peer_connected.
  set (d0 := match ip with Some ip => _ | None => d end).
  apply (solo_seq _ _ d0).
  { unfold d0. destruct ip; [|constructor]. by apply solo_quiet. }
  cbn [app].
  eapply solo_quiet_then; [reflexivity|].
  change (?m :: ?ms) with ([m] ++ ms). eapply solo_seq; [apply solo_handle|].
  destruct (Driver.handle _ _ _) as [d1 acts]. cbn [app].
  eapply solo_quiet_then; [reflexivity|]. case_bool_decide; [constructor|by apply solo_quiet].
Qed.

Lemma solo_frames ip frames : forall d ms ph d0,
  solo d0 ms d [] ->
  let st := foldl (frame_steps cfg ip) (ms, ph) frames in
  let st' := foldl (Driver.exchange_frame clock mint cfg ip) (d, ph) frames in
  solo d0 st.1 st'.1 [] /\ st.2 = st'.2.
Proof.
  induction frames as [|f frames IH]; intros d ms ph d0 Hs; [done|].
  cbn [foldl frame_steps Driver.exchange_frame].
  destruct (peek_type f) as [ty|]; [|by apply IH].
  destruct ty; try (destruct ph as [hex|]; [|by apply IH]; apply IH;
    change [] with ([] ++ [] : list (list bytes)); by eapply solo_seq, solo_receive).
  destruct (Announce.decode f) as [a|]; [|by apply IH]. apply IH.
  by eapply solo_seq, solo_connect.
Qed.

Lemma solo_all {A} (prog : A -> list Micro.t) (f : Driver.t -> A -> Driver.t) xs :
  (forall x d, solo d (prog x) (f d x) []) -> forall d, solo d (xs ≫= prog) (foldl f d xs) [].
Proof.
  intros Hp. induction xs as [|x xs IH]; intros d; [constructor|].
  cbn. eapply solo_seq; [apply Hp|apply IH].
Qed.

Lemma fmap_bind_ret {A B} (f : A -> B) xs : f <$> xs = xs ≫= (fun x => [f x]).
Proof. induction xs as [|x xs IH]; [done|]. cbn. by f_equal. Qed.

(** A program run alone is the operation of [NetDriver.v], and what it drains, framed,
    is the answer. *)
Lemma solo_program o d :
  exists out, solo d (program cfg o) (op_step clock mint cfg d o).1 out /\
    match o with
    | Exchange _ _ => (op_step clock mint cfg d o).2 = [None] /\ out = [] \/
        (op_step clock mint cfg d o).2 = [Some (unwrap_or (Driver.encode_response <$> head out) [])]
    | _ => out = []
    end.
Proof.
  destruct o as [ip body|read|now idle|hex|url ev|url].
  - cbn. unfold Driver.http_exchange, exchange_steps.
    destruct (decode_frames body) as [[frames|e]|].
    2, 3: (exists []; split; [constructor|by left]).
    destruct (solo_frames ip frames d [] None d (solo_done _)) as [Hs Hp]. cbv zeta in Hs, Hp.
    destruct (foldl (frame_steps cfg ip) _ _) as [ms ph].
    destruct (foldl (Driver.exchange_frame _ _ _ _) _ _) as [d1 ph']. cbn in Hs, Hp. subst ph'.
    destruct ph as [hex|].
    + exists [unwrap_or (Driver.outbox d1 !! hex) []]. split; [|by right].
      refine (solo_app _ _ _ _ [Drain hex] _ [_] Hs _).
      refine (solo_step _ (Drain hex) [] _ _ _ [] eq_refl _). constructor.
    + exists []. split; [|by right]. rewrite app_nil_r. exact Hs.
  - exists []. split; [|done]. cbn. eapply solo_then; [reflexivity|done|]. rewrite app_nil_r. cbn.
    rewrite fmap_bind_ret. apply solo_all. intros [hex ip] d'. apply solo_handle.
  - exists []. split; [|done]. cbn. eapply solo_then; [reflexivity|done|]. rewrite app_nil_r. cbn.
    rewrite fmap_bind_ret. apply solo_all. intros hex d'.
    eapply solo_then; [reflexivity|cbn; by case_bool_decide|]. cbn.
    case_bool_decide; [constructor|]. rewrite app_nil_r. apply solo_disconnect.
  - exists []. split; [apply solo_disconnect|done].
  - exists []. split; [by apply solo_quiet|done].
  - exists []. split; [by apply solo_quiet|done].
Qed.
End solo.

(** ** A node whose operations interleave *)

(** What is under way, the host as the actions carried out have made it, and the
    events the session has handled, in the order it handled them. *)
Record node : Type := mkNode {
  driver : Driver.t;
  host : Host.t;
  threads : list (list Micro.t);
  events : list stamped
}.

(** An operation begins, or one that is under way takes its next step. *)
Inductive turn : Type := Arrive (o : op) | Turn (i : nat).

Section node.
Context `{Minicbor, HexCodec, Cusp : Cashu, UrlParser}.
Context (clock : nat -> Z) (mint : nat -> CheckState) (cfg : Driver.config).

Definition boot_node (w : BootstrapWallet.t) : node := mkNode (Driver.new cfg w) Host.new [] [].

Definition thread (n : node) (i : nat) : list Micro.t := unwrap_or (threads n !! i) [].

Definition take (n : node) (t : turn) : node :=
  match t with
  | Arrive o => mkNode (driver n) (host n) (threads n ++ [program cfg o]) (events n)
  | Turn i =>
      match thread n i with
      | [] => n
      | m :: ms =>
          let '(d, r) := micro_step clock mint m (driver n) in
          mkNode d (Host.apply_all (host n) (carried_out r)) (<[i := next r ++ ms]> (threads n))
            (events n ++ handled_now r)
      end
  end.
Definition play (n : node) (ts : list turn) : node := foldl take n ts.

(** The actions about [p] that have been decided and not carried out. *)
Definition pending_of (p : PeerId) (m : Micro.t) : list Action.t :=
  match m with
  | Do _ a => if bool_decide (action_peer a = p) then [a] else []
  | Adapter q l _ => if bool_decide (q = p) then [Action.SetAccess q l] else []
  | _ => []
  end.
Definition pendings (p : PeerId) (ms : list Micro.t) : list Action.t := ms ≫= pending_of p.
Definition settled (p : PeerId) (n : node) : bool :=
  forallb (fun ms => bool_decide (length (pendings p ms) = 0%nat)) (threads n).

(** An order in which no event about [p] is handled while an action about [p] waits. *)
Definition about_p (p : PeerId) (m : Micro.t) : bool :=
  match m with HandleAt _ _ e => bool_decide (event_peer e = Some p) | _ => false end.
Definition orderly_turn (p : PeerId) (n : node) (t : turn) : bool :=
  match t with
  | Turn i => match thread n i with m :: _ => negb (about_p p m) || settled p n | [] => true end
  | Arrive _ => true
  end.
Fixpoint orderly (p : PeerId) (n : node) (ts : list turn) : bool :=
  match ts with
  | [] => true
  | t :: ts => orderly_turn p n t && orderly p (take n t) ts
  end.

(** ** Lemmas: threads *)

Lemma thread_insert_eq n i ms : (i < length (threads n))%nat ->
  unwrap_or (<[i := ms]> (threads n) !! i) [] = ms.
Proof. intros Hi. by rewrite list_lookup_insert_eq. Qed.

Lemma thread_lt n i m ms : thread n i = m :: ms -> (i < length (threads n))%nat.
Proof. unfold thread. intros E. apply lookup_lt_is_Some. destruct (threads n !! i); [by eexists|done]. Qed.

Lemma thread_in n i m ms : thread n i = m :: ms -> (m :: ms) ∈ threads n.
Proof.
  unfold thread. intros E. destruct (threads n !! i) as [x|] eqn:El; [|done]. cbn in E. subst x.
  by eapply list_elem_of_lookup_2.
Qed.

(** What a step leaves about its driver's session and its events. *)
Lemma step_session m d d' r :
  micro_step clock mint m d = (d', r) ->
  match m with
  | HandleAt f now e =>
      Driver.session d' = (Session.handle e now (Driver.session d)).1 /\
      r = mkResult (Do f <$> (Session.handle e now (Driver.session d)).2) [] [(e, now)] None
  | _ => Driver.session d' = Driver.session d /\ handled_now r = []
  end.
Proof.
  micro_cases m; cbn; intros E; try (injection E as <- <-; done).
  - destruct (Session.handle e now (Driver.session d)) as [s acts]. injection E as <- <-. done.
  - destruct a as [p msg|p l|p tok|p|p|p]; cbn in E; try (injection E as <- <-; done).
    + injection E as <- <-. by destruct (Driver.peer_ip d !! _).
    + injection E as <- <-. destruct f; [done|]. destruct (from_utf8 tok); [|done].
      by destruct (BootstrapWallet.precheck _ _) as [[]|].
  - injection E as <- <-. by destruct (BootstrapWallet.ask_mint _ _ _ _ _).
  - injection E as <- <-. by case_bool_decide.
  - injection E as <- <-. unfold Driver.record_upstream, Driver.now_millis.
    by destruct (Driver.upstreams d !! u), (ConsumeEvent.report ev).
  - injection E as <- <-. unfold Driver.mark_upstream_offline. by destruct (Driver.upstreams d !! u).
Qed.

(** ** Lemmas: what holds in every order *)

(** A token is asked for in the message that brought it. *)
Lemma token_presented e now p s tk :
  Action.VerifyBootstrapToken p tk ∈ (Session.handle e now s).2 ->
  exists msg m, e = Event.MessageReceived p msg /\ BootstrapToken.decode msg = Some m /\
    tk = BootstrapToken.token_bytes m.
Proof.
  intros Hin. destruct (event_peer e) as [q|] eqn:He; [|by destruct e; try done; apply not_elem_of_nil in Hin].
  destruct (handle_verify e now q s He) as [Hv|(msg & tk' & -> & E)].
  { rewrite Forall_forall in Hv. by destruct (Hv _ Hin p tk). }
  rewrite E in Hin. apply list_elem_of_singleton in Hin as [= -> ->]. exists msg. revert E.
  cbn [Session.handle]. unfold Session.on_message.
  destruct (peek_type msg) as [[]|]; try done;
    unfold Session.on_bootstrap_token, Session.on_reject, Session.on_disconnect, Session.on_price_sheet,
      Session.on_accept, Session.on_metering_report; case_match; try done;
    rewrite ?tear_down_eq; unfold Session.with_peer; try (destruct (Session.peers s !! q); try done);
    try (case_decide; try done; case_bool_decide; done); try done.
  cbn. intros [= <-]. by eexists.
Qed.

(** The node after a history, and what may be said of it. *)
Section history.
Context (w0 : BootstrapWallet.t).
Definition at_ (hist : list turn) : node := play (boot_node w0) hist.

(** [p] sent a token that reads [str], before the end of the history. *)
Definition presented (hist : list turn) (p : PeerId) (str : string) : Prop :=
  exists msg m now, (Event.MessageReceived p msg, now) ∈ events (at_ hist) /\
    BootstrapToken.decode msg = Some m /\ from_utf8 (BootstrapToken.token_bytes m) = Some str.

(** [p] presented a token, which passed the node's wallet as it was at some point, and
    the mint that the wallet as it was at a later point asked answered with [amount_sat]. *)
Definition checked (hist : list turn) (p : PeerId) (str : string) (token : Token) (ys : list string) : Prop :=
  exists h h', hist = h ++ h' /\ presented h p str /\
    BootstrapWallet.precheck str (Driver.wallet (driver (at_ h))) = Ok (token, ys).
Definition vouched (hist : list turn) (p : PeerId) (ys : list string) (amount_sat : Z) : Prop :=
  exists h h' str token, hist = h ++ h' /\ checked h p str token ys /\
    BootstrapWallet.ask_mint (mint (Driver.clock_reads (driver (at_ h)))) str token ys
      (Driver.wallet (driver (at_ h))) = Ok amount_sat.
Definition accepted (hist : list turn) (p : PeerId) (amount : Z) : Prop :=
  exists ys amount_sat, vouched hist p ys amount_sat /\ amount = wrap_u64 (amount_sat * 1000).

(** [p] has paid, by the end of the history. *)
Definition paid_by (hist : list turn) (p : PeerId) : Prop :=
  exists amount now, (Event.BootstrapVerified p amount true, now) ∈ events (at_ hist).
(** [p] had paid when it was found at [ip]. *)
Definition housed (hist : list turn) (p : PeerId) (ip : IpAddr) : Prop :=
  exists h h', hist = h ++ h' /\ paid_by h p /\
    Driver.peer_ip (driver (at_ h)) !! Driver.peer_to_hex p = Some ip.

Definition backed (hist : list turn) (e : Event.t) : Prop :=
  match e with Event.BootstrapVerified p amount true => accepted hist p amount | _ => True end.
Definition good (hist : list turn) (m : Micro.t) : Prop :=
  match m with
  | Do _ (Action.SetAccess p l) => AccessLevel.allows_delivery l = true -> paid_by hist p
  | Do _ (Action.VerifyBootstrapToken p tk) => forall str, from_utf8 tk = Some str -> presented hist p str
  | Adapter p l ip => AccessLevel.allows_delivery l = true -> housed hist p ip
  | Handle _ e | HandleAt _ _ e => backed hist e
  | AskMint p str token ys => checked hist p str token ys
  | Commit p ys amount_sat => vouched hist p ys amount_sat
  | _ => True
  end.

Lemma at_snoc hist t : at_ (hist ++ [t]) = take (at_ hist) t.
Proof. unfold at_, play. by rewrite foldl_app. Qed.

Lemma events_grow hist h : exists l, events (at_ (hist ++ h)) = events (at_ hist) ++ l.
Proof.
  induction h as [|t h (l & IH)] using rev_ind; [exists []; by rewrite !app_nil_r|].
  rewrite app_assoc, at_snoc. set (n := at_ (hist ++ h)) in *.
  destruct t as [o|i]; cbn; [by exists l|]. destruct (thread n i); [by exists l|].
  destruct (micro_step _ _ _ _) as [d r]. cbn. exists (l ++ handled_now r). by rewrite IH, app_assoc.
Qed.

Lemma event_stays hist h e : e ∈ events (at_ hist) -> e ∈ events (at_ (hist ++ h)).
Proof. intros Hin. destruct (events_grow hist h) as [l ->]. apply elem_of_app. by left. Qed.

Lemma presented_more hist h p str : presented hist p str -> presented (hist ++ h) p str.
Proof. intros (msg & m & now & Hin & Hm). exists msg, m, now. split; [by apply event_stays|done]. Qed.
Lemma checked_more hist h p str token ys : checked hist p str token ys -> checked (hist ++ h) p str token ys.
Proof. intros (k & k' & -> & Hk). exists k, (k' ++ h). by rewrite app_assoc. Qed.
Lemma vouched_more hist h p ys a : vouched hist p ys a -> vouched (hist ++ h) p ys a.
Proof. intros (k & k' & str & token & -> & Hk). exists k, (k' ++ h), str, token. by rewrite app_assoc. Qed.
Lemma accepted_more hist h p a : accepted hist p a -> accepted (hist ++ h) p a.
Proof. intros (ys & sat & Hv & Ha). exists ys, sat. split; [by apply vouched_more|done]. Qed.
Lemma paid_more hist h p : paid_by hist p -> paid_by (hist ++ h) p.
Proof. intros (a & now & Hin). exists a, now. by apply event_stays. Qed.
Lemma housed_more hist h p ip : housed hist p ip -> housed (hist ++ h) p ip.
Proof. intros (k & k' & -> & Hk). exists k, (k' ++ h). by rewrite app_assoc. Qed.

Lemma backed_more hist h e : backed hist e -> backed (hist ++ h) e.
Proof. destruct e as [| | | |p a []|]; cbn; auto using accepted_more. Qed.
Lemma good_more hist h m : good hist m -> good (hist ++ h) m.
Proof.
  destruct m as [| |f e|f now e|f []| | | | | | | | | | | | | |]; cbn;
    auto using backed_more, paid_more, housed_more, checked_more, vouched_more, presented_more.
Qed.

Definition plain (m : Micro.t) : bool :=
  match m with
  | Do _ (Action.SetAccess _ _) | Do _ (Action.VerifyBootstrapToken _ _) | Adapter _ _ _ | AskMint _ _ _ _ | Commit _ _ _ => false
  | Handle _ (Event.BootstrapVerified _ _ true) | HandleAt _ _ (Event.BootstrapVerified _ _ true) => false
  | _ => true
  end.
Lemma plain_good hist m : plain m = true -> good hist m.
Proof.
  destruct m as [| |f e|f now e|f a| | | | | | | | | | | | | |]; cbn; try done.
  - destruct e as [| | | |p a []|]; cbn; done.
  - destruct e as [| | | |p a []|]; cbn; done.
  - by destruct a.
Qed.

(** Programs start without actions, and without a word from a mint. *)
Definition fresh (m : Micro.t) : bool :=
  match m with Do _ _ | Adapter _ _ _ | HandleAt _ _ _ => false | _ => plain m end.
Lemma fresh_plain m : fresh m = true -> plain m = true.
Proof. by destruct m. Qed.
Lemma fresh_pending p m : fresh m = true -> pending_of p m = [].
Proof. by destruct m. Qed.

Lemma frames_fresh ip frames ms ph :
  Forall (fun m => fresh m = true) ms -> Forall (fun m => fresh m = true) (foldl (frame_steps cfg ip) (ms, ph) frames).1.
Proof.
  revert ms ph. induction frames as [|f frames IH]; intros ms ph Hm; [done|].
  assert (forall hex, Forall (fun m => fresh m = true) (connect cfg hex ip)) as Kc.
  { intros hex. unfold connect. destruct ip; case_bool_decide; repeat constructor. }
  cbn [foldl]. unfold frame_steps at 2.
  destruct (peek_type f) as [ty|]; [|by apply IH].
  destruct ty; try (destruct ph; [|by apply IH]; apply IH, Forall_app; split; [done|]; repeat constructor).
  destruct (Announce.decode f); [|by apply IH]. apply IH, Forall_app. split; [done|apply Kc].
Qed.

Lemma program_fresh o : Forall (fun m => fresh m = true) (program cfg o).
Proof.
  destruct o as [ip body|read|now idle|hex|url ev|url]; try (repeat constructor; fail).
  cbn. unfold exchange_steps. destruct (decode_frames body) as [[frames|]|]; [|constructor..].
  pose proof (frames_fresh ip frames [] None (Forall_nil_2 _)) as K.
  destruct (foldl _ _ _) as [ms ph]. apply Forall_app. split; [exact K|].
  destruct ph; repeat constructor.
Qed.

(** The steps a step leaves are good if it was, once its events count. *)
Lemma next_good hist i m ms d r :
  thread (at_ hist) i = m :: ms -> micro_step clock mint m (driver (at_ hist)) = (d, r) ->
  good hist m -> Forall (good (hist ++ [Turn i])) (next r).
Proof.
  intros Et E Hg.
  assert (events (at_ (hist ++ [Turn i])) = events (at_ hist) ++ handled_now r) as Ee
    by (rewrite at_snoc; cbn; by rewrite Et, E).
  assert (forall p hist', Forall (good hist') (next (refused p))) as Kr by (repeat constructor).
  set (n := at_ hist) in *. clear Et.
  micro_cases m; cbn in E, Hg; try (injection E as <- <-; by constructor).
  - injection E as <- <-. repeat constructor. by apply backed_more.
  - destruct (Session.handle e now (Driver.session (driver n))) as [s acts] eqn:Eh. injection E as <- <-. cbn.
    assert (acts = (Session.handle e now (Driver.session (driver n))).2) as Ea by by rewrite Eh.
    apply Forall_fmap, Forall_forall. intros a Ha. rewrite Ea in Ha.
    destruct a as [|p l|p tk| | |]; try exact I; cbn.
    + intros Hl. destruct (event_peer e) as [q|] eqn:He; [|by destruct e; try done; apply not_elem_of_nil in Ha].
      pose proof (handle_targets e now q (Driver.session (driver n)) He) as Ht.
      rewrite Forall_forall in Ht. pose proof (Ht _ Ha) as Eq. cbn in Eq. subst q.
      destruct (allow_needs_payment e now p _ l He Ha Hl) as [a ->].
      exists a, now. rewrite Ee. set_solver.
    + intros str Hs. destruct (token_presented _ _ _ _ _ Ha) as (msg & tm & -> & Hd & ->).
      exists msg, tm, now. rewrite Ee. set_solver.
  - destruct a as [p msg|p l|p tok|p|p|p]; cbn in E; try (injection E as <- <-; by constructor).
    + injection E as <- <-. destruct (Driver.peer_ip (driver n) !! Driver.peer_to_hex p) as [ip|] eqn:Ei;
        cbn; [|by constructor].
      repeat constructor. cbn. intros Hl. exists hist, [Turn i]. split_and!; [done|by apply Hg|done].
    + injection E as <- <-. destruct f; [by constructor|]. destruct (from_utf8 tok) as [s|] eqn:Eu; [|apply Kr].
      destruct (BootstrapWallet.precheck s (Driver.wallet (driver n))) as [[tk ys]|] eqn:Ep; [|apply Kr].
      repeat constructor. exists hist, [Turn i]. split_and!; [done|by apply Hg|done].
  - injection E as <- <-.
    destruct (BootstrapWallet.ask_mint _ s tk ys _) as [sat|] eqn:Ea; [|apply Kr].
    repeat constructor. by exists hist, [Turn i], s, tk.
  - injection E as <- <-. repeat constructor. cbn. exists ys, a. split; [by apply vouched_more|done].
  - injection E as <- <-. cbn. rewrite !Forall_fmap. apply Forall_forall. by intros.
  - injection E as <- <-. case_bool_decide; [by constructor|]. repeat constructor.
  - injection E as <- <-. cbn. apply Forall_fmap, Forall_forall. by intros [].
Qed.
End history.

(** Queues, and calls of the adapter. *)
Lemma step_one_report m d d' r :
  micro_step clock mint m d = (d', r) -> one_report d -> one_report d'.
Proof.
  micro_cases m; cbn; intros E Hd; try (injection E as <- <-; done).
  - destruct (Session.handle _ _ _). injection E as <- <-. done.
  - destruct a; cbn in E; injection E as <- <-; try done; by apply enqueue_one_report.
  - injection E as <- <-. by apply enqueue_one_report.
  - injection E as <- <-. by apply drop_one_report.
  - injection E as <- <-. by apply drop_one_report.
  - injection E as <- <-. apply (same_outbox_one_report d); [|done].
    unfold Driver.record_upstream, Driver.now_millis.
    by destruct (Driver.upstreams d !! u), (ConsumeEvent.report ev).
  - injection E as <- <-. apply (same_outbox_one_report d); [|done].
    unfold Driver.mark_upstream_offline. by destruct (Driver.upstreams d !! u).
Qed.

Lemma step_firewall m d d' r ip :
  micro_step clock mint m d = (d', r) -> Allow ip ∈ Driver.firewall d' ->
  Allow ip ∈ Driver.firewall d \/ exists p l, m = Adapter p l ip /\ AccessLevel.allows_delivery l = true.
Proof.
  micro_cases m; cbn; intros E Hin; try (injection E as <- <-; by left).
  - destruct (Session.handle _ _ _). injection E as <- <-. by left.
  - destruct a; cbn in E; injection E as <- <-; by left.
  - injection E as <- <-. cbn in Hin. apply elem_of_app in Hin as [Hin|Hin]; [by left|].
    apply list_elem_of_singleton in Hin. destruct (AccessLevel.allows_delivery l) eqn:El; [|done].
    injection Hin as ->. right. by exists q, l.
  - injection E as <- <-. left. unfold Driver.record_upstream, Driver.now_millis in Hin.
    by destruct (Driver.upstreams d !! u), (ConsumeEvent.report ev).
  - injection E as <- <-. left. unfold Driver.mark_upstream_offline in Hin.
    by destruct (Driver.upstreams d !! u).
Qed.

Definition sound (w0 : BootstrapWallet.t) (hist : list turn) : Prop :=
  let n := at_ w0 hist in
  (exists h, reachable (Driver.our_price cfg) MeteringPolicy.default (events n) (Driver.session (driver n)) h) /\
  one_report (driver n) /\
  Forall (Forall (good w0 hist)) (threads n) /\
  (forall p amount now, (Event.BootstrapVerified p amount true, now) ∈ events n -> accepted w0 hist p amount) /\
  (forall ip, Allow ip ∈ Driver.firewall (driver n) -> exists p, housed w0 hist p ip).

Lemma boot_sound w0 : sound w0 [].
Proof.
  split_and!; [|..|constructor| |]; cbn.
  - exists Host.new. apply reach_new.
  - intros hex. unfold queue_of. cbn. rewrite lookup_empty. cbn. lia.
  - intros p a now Hin. by apply not_elem_of_nil in Hin.
  - intros ip Hin. by apply not_elem_of_nil in Hin.
Qed.

Lemma take_sound w0 hist t : sound w0 hist -> sound w0 (hist ++ [t]).
Proof.
  intros ((h & Hr) & Hq & Hg & Hv & Hf).
  assert (Forall (Forall (good w0 (hist ++ [t]))) (threads (at_ w0 hist))) as Hg'.
  { eapply Forall_impl; [exact Hg|]. intros ms Hms. eapply Forall_impl; [exact Hms|].
    intros m. apply good_more. }
  assert (forall ip, Allow ip ∈ Driver.firewall (driver (at_ w0 hist)) ->
    exists p, housed w0 (hist ++ [t]) p ip) as Hf'
    by (intros ip [p Hp]%Hf; exists p; by apply housed_more).
  unfold sound. rewrite at_snoc. destruct t as [o|i]; cbn [take].
  { split_and!; cbn; [eauto|done| |intros p a now Hin; by eapply accepted_more, Hv|done].
    apply Forall_app. split; [done|]. constructor; [|constructor].
    eapply Forall_impl; [apply program_fresh|]. intros m Hm. by apply plain_good, fresh_plain. }
  destruct (thread (at_ w0 hist) i) as [|m ms] eqn:Et.
  { split_and!; [eauto|done|done|intros p a now Hin; by eapply accepted_more, Hv|done]. }
  destruct (micro_step clock mint m (driver (at_ w0 hist))) as [d r] eqn:Em.
  rewrite Forall_forall in Hg, Hg'. pose proof (Hg _ (thread_in _ _ _ _ Et)) as Hm.
  apply Forall_cons in Hm as [Hm Hms].
  pose proof (Hg' _ (thread_in _ _ _ _ Et)) as [_ Hms']%Forall_cons.
  pose proof (step_session _ _ _ _ Em) as Hs.
  split_and!; cbn.
  - destruct m; try (destruct Hs as [-> ->]; rewrite app_nil_r; by exists h).
    destruct Hs as [-> ->]. eexists. by apply reach_step.
  - by eapply step_one_report.
  - apply Forall_insert; [by apply Forall_forall|].
    apply Forall_app. split; [by eapply next_good|done].
  - intros p a t [Hin|Hin]%elem_of_app; [by eapply accepted_more, Hv|].
    destruct m; try (destruct Hs as [_ E]; rewrite E in Hin; by apply not_elem_of_nil in Hin).
    destruct Hs as [_ ->]. apply list_elem_of_singleton in Hin as [= <- <-]. by apply accepted_more.
  - intros ip Hin. apply (step_firewall _ _ _ _ ip Em) in Hin as [Hin|(p & l & -> & Hl)]; [by apply Hf'|].
    exists p. by apply housed_more, Hm.
Qed.

Lemma play_sound w0 ts : sound w0 ts.
Proof. induction ts as [|t ts IH] using rev_ind; [apply boot_sound|]. by apply take_sound. Qed.

(** ** Lemmas: one peer, in an orderly order *)

(** Hosts that agree about [p]. *)
Definition same_for (p : PeerId) (h h' : Host.t) : Prop :=
  Host.access h !! p = Host.access h' !! p /\ (p ∈ Host.metered h <-> p ∈ Host.metered h').

#[local] Instance same_for_equiv p : Equivalence (same_for p).
Proof.
  split; [by intros h|by intros h h' [Ha Hm]; split|].
  intros h1 h2 h3 [Ha Hm] [Ha' Hm']. split; [by rewrite Ha|by rewrite Hm].
Qed.

#[local] Instance apply_all_same p : Proper (same_for p ==> eq ==> same_for p) Host.apply_all.
Proof.
  intros h h' Hh acts _ <-. revert h h' Hh. induction acts as [|a acts IH]; intros h h' [Ha Hm]; [done|].
  apply IH. destruct a as [q msg|q l|q tok|q|q|q]; try done.
  - split; [|done]. cbn. destruct (decide (q = p)) as [->|Hne];
      [by rewrite !lookup_insert_eq|by rewrite !lookup_insert_ne].
  - split; [done|]. cbn. rewrite !elem_of_union, Hm. done.
  - split; [done|]. cbn. rewrite !elem_of_difference, Hm. done.
Qed.

#[local] Instance access_inv_same evs p o : Proper (same_for p ==> iff) (access_inv evs p o).
Proof. intros h h' [Ha Hm]. unfold access_inv. rewrite Ha. destruct o; by rewrite Hm. Qed.

Lemma apply_all_other p acts h : Forall (fun a => action_peer a <> p) acts -> same_for p (Host.apply_all h acts) h.
Proof. exact (apply_all_ne p acts h). Qed.

Lemma pendings_app p a b : pendings p (a ++ b) = pendings p a ++ pendings p b.
Proof. apply bind_app. Qed.
Lemma pendings_cons p m ms : pendings p (m :: ms) = pending_of p m ++ pendings p ms.
Proof. done. Qed.
Lemma pendings_fresh p ms : Forall (fun m => fresh m = true) ms -> pendings p ms = [].
Proof. induction 1 as [|m ms Hm _ IH]; [done|]. by rewrite pendings_cons, IH, fresh_pending. Qed.
Lemma pendings_do p f acts : Forall (fun a => action_peer a = p) acts -> pendings p (Do f <$> acts) = acts.
Proof. induction 1 as [|a acts Ha _ IH]; [done|].
  rewrite fmap_cons, pendings_cons, IH. cbn. by rewrite bool_decide_eq_true_2. Qed.
Lemma pendings_do_other p f acts : Forall (fun a => action_peer a <> p) acts -> pendings p (Do f <$> acts) = [].
Proof. induction 1 as [|a acts Ha _ IH]; [done|].
  rewrite fmap_cons, pendings_cons, IH. cbn. by rewrite bool_decide_eq_false_2. Qed.

(** Steps that are no action, of their own or of an event about [p]. *)
Definition acting (m : Micro.t) : bool := match m with Do _ _ | Adapter _ _ _ => true | _ => false end.
Lemma pendings_idle p ms : Forall (fun m => acting m = false) ms -> pendings p ms = [].
Proof. induction 1 as [|m ms Hm _ IH]; [done|]. rewrite pendings_cons, IH. by destruct m. Qed.

Lemma step_idle p m d d' r :
  micro_step clock mint m d = (d', r) -> acting m = false -> about_p p m = false ->
  carried_out r = [] /\ pendings p (next r) = [].
Proof.
  intros E Ha Hp. micro_cases m; cbn in E, Ha, Hp; try done.
  4: { destruct (Session.handle e now (Driver.session d)) as [s acts] eqn:Eh. injection E as _ <-. split; [done|].
    apply bool_decide_eq_false in Hp. apply pendings_do_other. destruct (event_peer e) as [q|] eqn:He.
    - pose proof (handle_targets e now q (Driver.session d) He) as Ht. rewrite Eh in Ht.
      eapply Forall_impl; [exact Ht|]. intros a Ea Eq. apply Hp. cbn in Ea. congruence.
    - destruct e; try done. cbn in Eh. injection Eh as _ <-. constructor. }
  all: injection E as _ <-; try done.
  - by destruct (BootstrapWallet.ask_mint _ _ _ _ _).
  - split; [done|]. apply pendings_idle. cbn. rewrite !Forall_fmap. by apply Forall_forall.
  - by case_bool_decide.
  - split; [done|]. apply pendings_idle. cbn. apply Forall_fmap, Forall_forall. by intros [].
Qed.

(** A step that does not handle an event about [p]: what was pending is still pending
    or has been carried out, and nothing becomes pending. *)
Lemma step_pending p m d d' r h :
  micro_step clock mint m d = (d', r) -> about_p p m = false ->
  same_for p (Host.apply_all (Host.apply_all h (carried_out r)) (pendings p (next r)))
    (Host.apply_all h (pending_of p m)) /\
  (pending_of p m = [] -> pendings p (next r) = []).
Proof.
  intros E Hp. destruct (acting m) eqn:Ha.
  2: { destruct (step_idle _ _ _ _ _ E Ha Hp) as [-> ->]. split; [|done]. by destruct m. }
  destruct m as [| | | |f a|q l ip| | | | | | | | | | | | |]; try done.
  - assert (forall (r' : result_), carried_out r' = [a] -> next r' = [] ->
      same_for p (Host.apply_all (Host.apply_all h (carried_out r')) (pendings p (next r')))
        (Host.apply_all h (pending_of p (Do f a))) /\
      (pending_of p (Do f a) = [] -> pendings p (next r') = [])) as K.
    { intros r' -> ->. split; [|done]. cbn [pending_of]. case_bool_decide as Hq; [done|].
      apply (apply_all_other p [a]). by constructor. }
    destruct a as [q msg|q l|q tok|q|q|q]; cbn in E; try (injection E as _ <-; by apply K).
    + injection E as _ <-. destruct (Driver.peer_ip d !! _); [|by apply K].
      cbn. case_bool_decide; done.
    + injection E as _ <-.
      assert (forall r', carried_out r' = [] -> Forall (fun m => acting m = false) (next r') ->
        same_for p (Host.apply_all (Host.apply_all h (carried_out r')) (pendings p (next r')))
          (Host.apply_all h (pending_of p (Do f (Action.VerifyBootstrapToken q tok)))) /\
        (pending_of p (Do f (Action.VerifyBootstrapToken q tok)) = [] -> pendings p (next r') = [])) as K'.
      { intros r' -> Hr. rewrite (pendings_idle p _ Hr). split; [|done]. cbn. by case_bool_decide. }
      destruct f; [by apply K'; repeat constructor|].
      destruct (from_utf8 tok); [|apply K'; by repeat constructor].
      destruct (BootstrapWallet.precheck _ _) as [[]|]; apply K'; by repeat constructor.
  - injection E as _ <-. cbn. split; [|done]. case_bool_decide; [done|].
    apply (apply_all_other p [Action.SetAccess q l]). by constructor.
Qed.

(** The invariant: at most one thread has actions about [p] pending, and the host as
    it will be once they are carried out is what [p]'s session says. *)
Definition focused (p : PeerId) (n : node) : Prop :=
  exists i, (forall j, j <> i -> pendings p (thread n j) = []) /\
    access_inv (events n) p (Session.peers (Driver.session (driver n)) !! p)
      (Host.apply_all (host n) (pendings p (thread n i))).

Lemma settled_thread p n : settled p n = true <-> forall j, pendings p (thread n j) = [].
Proof.
  unfold settled. rewrite forallb_forall. split.
  - intros Hs j. unfold thread. destruct (threads n !! j) as [ms|] eqn:E; [|done]. cbn.
    apply list_elem_of_lookup_2, list_elem_of_In, Hs, bool_decide_eq_true, nil_length_inv in E. done.
  - intros Hs ms [j Hj]%list_elem_of_In%list_elem_of_lookup. apply bool_decide_eq_true.
    specialize (Hs j). unfold thread in Hs. rewrite Hj in Hs.
    change (pendings p ms = []) in Hs. by rewrite Hs.
Qed.

Lemma pendings_arrive p n o j :
  pendings p (thread (take n (Arrive o)) j) = pendings p (thread n j).
Proof.
  unfold thread. cbn. destruct (decide (j < length (threads n))%nat) as [Hj|Hj]; [by rewrite lookup_app_l|].
  rewrite lookup_app_r by lia. rewrite (lookup_ge_None_2 (threads n)) by lia. cbn.
  destruct (j - length (threads n))%nat eqn:E; cbn; [|done]. apply pendings_fresh, program_fresh.
Qed.

Lemma thread_turn n i m ms d r j :
  thread n i = m :: ms -> micro_step clock mint m (driver n) = (d, r) ->
  thread (take n (Turn i)) j = if decide (j = i) then next r ++ ms else thread n j.
Proof.
  intros Et Em. cbn. rewrite Et, Em. unfold thread. cbn. case_decide as Hj.
  - subst j. by apply thread_insert_eq, (thread_lt _ _ m ms).
  - by rewrite list_lookup_insert_ne.
Qed.

(** Events of other peers, and steps that handle none, leave [p]'s statement alone. *)
Lemma access_kept p n m d r h :
  micro_step clock mint m (driver n) = (d, r) -> about_p p m = false ->
  access_inv (events n) p (Session.peers (Driver.session (driver n)) !! p) h ->
  access_inv (events n ++ handled_now r) p (Session.peers (Driver.session d) !! p) h.
Proof.
  intros Em Hp Ha. pose proof (step_session _ _ _ _ Em) as Hs.
  destruct m; try (destruct Hs as [-> ->]; by rewrite app_nil_r).
  destruct Hs as [-> ->]. cbn in Hp |- *. apply bool_decide_eq_false in Hp.
  destruct (event_peer e) as [q|] eqn:He.
  - assert (q <> p) as Hq by congruence.
    pose proof (access_inv_other _ e now p q _ h He Hq Ha) as K.
    refine (proj1 (access_inv_same _ p _ _ _ _) K). apply apply_all_other.
    eapply Forall_impl; [by apply (handle_targets e now q)|]. by intros a ->.
  - destruct e; try done. destruct Ha as (I1 & I2). split; [|done].
    intros Hx. apply paid_since_extend; auto; done.
Qed.

Lemma access_handled p evs e now s h :
  event_peer e = Some p -> access_inv evs p (Session.peers s !! p) h ->
  access_inv (evs ++ [(e, now)]) p (Session.peers (Session.handle e now s).1 !! p)
    (Host.apply_all h (Session.handle e now s).2).
Proof.
  intros He Ha. destruct (Session.peers s !! p) as [ps|] eqn:El.
  - eapply access_inv_known; [by apply handle_known|done].
  - by apply access_inv_unknown.
Qed.

Lemma take_focused p n t : orderly_turn p n t = true -> focused p n -> focused p (take n t).
Proof.
  intros Ho (i & Hi & Ha). destruct t as [o|j].
  { exists i. split; [intros j Hj; rewrite pendings_arrive; auto|]. rewrite pendings_arrive. exact Ha. }
  cbn in Ho. destruct (thread n j) as [|m ms] eqn:Et; [cbn; rewrite Et; by exists i|].
  destruct (micro_step clock mint m (driver n)) as [d r] eqn:Em.
  pose proof (thread_turn _ _ _ _ _ _ j Et Em) as Ej. rewrite decide_True in Ej by done.
  assert (forall k, k <> j -> thread (take n (Turn j)) k = thread n k) as Ek.
  { intros k Hk. rewrite (thread_turn _ _ _ _ _ _ k Et Em). by rewrite decide_False. }
  assert (pendings p (thread n j) = pending_of p m ++ pendings p ms) as Epj by (rewrite Et; apply pendings_cons).
  assert (take n (Turn j) = mkNode d (Host.apply_all (host n) (carried_out r))
    (<[j := next r ++ ms]> (threads n)) (events n ++ handled_now r)) as En by (cbn; by rewrite Et, Em).
  destruct (about_p p m) eqn:Hp.
  - destruct m as [| | |f now e| | | | | | | | | | | | | | |]; try done. cbn in Ho, Hp.
    rewrite settled_thread in Ho. apply bool_decide_eq_true in Hp.
    exists j. split; [intros k Hk; rewrite Ek by done; apply Ho|].
    pose proof (Ho j) as Hj. rewrite Epj in Hj. apply app_nil in Hj as [_ Hj].
    rewrite Ej, pendings_app, Hj, app_nil_r. rewrite En. cbn [driver host events].
    destruct (step_session _ _ _ _ Em) as [-> ->]. cbn [carried_out next handled_now].
    rewrite pendings_do by (by apply handle_targets).
    rewrite (Ho i) in Ha. by apply access_handled.
  - pose proof (step_pending p m _ d r (host n) Em Hp) as [Hs Hn].
    destruct (decide (j = i)) as [->|Hji].
    + exists i. split; [intros k Hk; rewrite Ek by done; auto|]. rewrite Ej, pendings_app, apply_all_app.
      rewrite En. cbn [driver host events]. apply (access_kept p n m d r); [done..|].
      rewrite Epj, apply_all_app in Ha. by rewrite Hs.
    + assert (pending_of p m = [] /\ pendings p ms = []) as [E1 E2].
      { apply app_nil. rewrite <- Epj. auto. }
      exists i. split.
      * intros k Hk. destruct (decide (k = j)) as [->|Hkj]; [|rewrite Ek by done; auto].
        by rewrite Ej, pendings_app, (Hn E1), E2.
      * rewrite Ek by done. rewrite En. cbn [driver host events]. apply (access_kept p n m d r); [done..|].
        rewrite (Hn E1), E1 in Hs. cbn in Hs. by rewrite Hs.
Qed.

Lemma boot_focused p w : focused p (boot_node w).
Proof.
  exists 0%nat. split; [by intros [|]|]. unfold access_inv. cbn. rewrite !lookup_empty.
  split_and!; [done|done|by left|set_solver].
Qed.

Lemma play_focused p n ts : orderly p n ts = true -> focused p n -> focused p (play n ts).
Proof.
  revert n. induction ts as [|t ts IH]; intros n Ho Hn; [done|].
  cbn [orderly] in Ho. apply andb_true_iff in Ho as [Ht Ho]. apply IH; [done|]. by apply take_focused.
Qed.
End node.

(** ** Orders that go wrong *)

Module RaceDemo.
Import NodeDemo.
#[local] Existing Instances Toy.toy WalletDemo.cashu WalletDemo.urls ConsumeDemo.hex.
Definition pay (proof : string) : op :=
  Exchange (Some "10.0.0.2"%string)
    (encode_frames [announce; BootstrapToken.encode (BootstrapToken.new (as_bytes proof))] []).1.
Definition pass (delivered : Z) : op := MeteringPass (fun _ => Counters.mk delivered 0).
Definition go (n : Races.node) (ts : list turn) : Races.node := play clock mint cfg n ts.
Definition boot_up : Races.node := boot_node cfg WalletDemo.wallet.
(** An operation that runs alone to its end, as thread [i]. *)
Definition alone (i : nat) (o : op) : list turn := Arrive o :: replicate 40 (Turn i).
(** [alice] pays 5000 milli-sat and has a first sample taken. *)
Definition paid : Races.node := go boot_up (alone 0 (pay "proof-1") ++ alone 1 (pass 0)).
Definition orderly_life : list turn :=
  alone 0 (pay "proof-1") ++ alone 1 (pass 0) ++ alone 2 (pass 6000).
End RaceDemo.

(** What is to be seen of [alice]: her phase and balance, her rule and her meter. *)
Definition seen (n : node) : option PeerPhase.t * Z * option AccessLevel.t * bool :=
  (Session.peer_phase (Driver.session (driver n)) NodeDemo.alice,
   balance_of NodeDemo.alice (Driver.session (driver n)),
   Host.access (host n) !! NodeDemo.alice, bool_decide (NodeDemo.alice ∈ Host.metered (host n))).

(** The metering loop finds her exhausted; before its cut is carried out she pays
    again, and is answered. The cut then lands on a paid peer: she is shut out with her
    money on account, and, unmetered, will be until she pays once more. *)
Example paid_peer_shut_out :
  seen (RaceDemo.go RaceDemo.paid
    ([Arrive (RaceDemo.pass 6000); Turn 2; Turn 2; Turn 2] ++
     RaceDemo.alone 3 (RaceDemo.pay "proof-2") ++ replicate 9 (Turn 2))) =
  (Some PeerPhase.Active, 5000, Some AccessLevel.Suspended, false).
Proof. vm_compute. reflexivity. Qed.

(** A payment is credited; before she is let in, a second exchange of hers brings a bad
    token, which sets her session back to [New]. She is then let in, and no sample of
    hers is ever charged, here one of a million units. *)
Example free_ride :
  let n := RaceDemo.go RaceDemo.paid (Arrive (RaceDemo.pay "proof-2") :: replicate 13 (Turn 2) ++
    RaceDemo.alone 3 (RaceDemo.pay " ") ++ replicate 9 (Turn 2)) in
  seen n = (Some PeerPhase.New, 10000, Some AccessLevel.Active, true) /\
  seen (RaceDemo.go n (RaceDemo.alone 4 (RaceDemo.pass 1000000))) = seen n.
Proof. vm_compute. done. Qed.

(** The reaper finds an idle peer unpaid; she pays before it disconnects her, and what
    she paid is gone with her session. *)
Example paid_peer_reaped :
  seen (RaceDemo.go RaceDemo.boot_up
    (RaceDemo.alone 0 (Exchange (Some "10.0.0.2"%string) (encode_frames [NodeDemo.announce] []).1) ++
     [Arrive (Reap 100000 1000); Turn 1; Turn 1] ++ RaceDemo.alone 2 (RaceDemo.pay "proof-1") ++
     replicate 12 (Turn 1))) =
  (None, 0, Some AccessLevel.None, false).
Proof. vm_compute. reflexivity. Qed.

(** The reaper has told the session that an idle peer is gone; she comes back with a
    payment, and her address is noted; the reaper then forgets it. She is let in as far
    as the session goes, and the firewall is never told. *)
Example paid_peer_unhoused :
  let n := RaceDemo.go RaceDemo.boot_up
    (RaceDemo.alone 0 (Exchange (Some "10.0.0.2"%string) (encode_frames [NodeDemo.announce] []).1) ++
     Arrive (Reap 100000 1000) :: replicate 7 (Turn 1) ++
     [Arrive (RaceDemo.pay "proof-1"); Turn 2] ++ replicate 4 (Turn 1) ++ replicate 40 (Turn 2)) in
  seen n = (Some PeerPhase.Active, 5000, Some AccessLevel.Active, true) /\
  Driver.firewall (driver n) = [Deny "10.0.0.2"; Deny "10.0.0.2"].
Proof. vm_compute. done. Qed.

(** ** Properties *)

(** C12: nothing is lost in taking the operations apart. Whatever the state, the
    program of an operation, run with nothing in between, comes to an end in the state
    that the operation of [NetDriver.v] leaves; and the answer to an exchange is what
    the program drains, framed, or a refusal of a badly framed body. *)
Theorem program_alone `{Minicbor, HexCodec, Cusp : Cashu, UrlParser} clock mint cfg o d :
  exists out, solo clock mint d (program cfg o) (op_step clock mint cfg d o).1 out /\
    match o with
    | Exchange _ _ => (op_step clock mint cfg d o).2 = [None] /\ out = [] \/
        (op_step clock mint cfg d o).2 = [Some (unwrap_or (Driver.encode_response <$> head out) [])]
    | _ => out = []
    end.
Proof. apply solo_program. Qed.

#[local] Abbreviation toy_life := (play (H := Toy.toy) (H0 := ConsumeDemo.hex) (Cusp := WalletDemo.cashu)
  (H1 := WalletDemo.urls) NodeDemo.clock NodeDemo.mint NodeDemo.cfg (boot_node NodeDemo.cfg WalletDemo.wallet)
  RaceDemo.orderly_life).



(** C9: access follows payment in any order that handles a peer's events one after
    another. Let the operations of a node interleave in any order in which no event
    about a peer is handled while an action about that same peer waits; the other
    peers' operations may run in between as they like. Whenever nothing about the peer
    waits, its rule and its meter are what its session says, and it is let in only if a
    payment of its was verified, with no disconnect and no failed verification since. *)
Theorem orderly_access_settles `{Minicbor, HexCodec, Cusp : Cashu, UrlParser} clock mint cfg w p ts :
  orderly clock mint cfg p (boot_node cfg w) ts = true ->
  let n := play clock mint cfg (boot_node cfg w) ts in
  settled p n = true ->
  match Session.peer_phase (Driver.session (driver n)) p with
  | None =>
      (Host.access (host n) !! p = None \/ Host.access (host n) !! p = Some AccessLevel.None) /\
      p ∉ Host.metered (host n)
  | Some PeerPhase.Active =>
      Host.access (host n) !! p = Some AccessLevel.Active /\ p ∈ Host.metered (host n)
  | Some PeerPhase.Suspended =>
      Host.access (host n) !! p = Some AccessLevel.Suspended /\ p ∉ Host.metered (host n)
  | Some PeerPhase.Closed => False
  | Some _ => True
  end /\
  (Host.access (host n) !! p = Some AccessLevel.Active -> paid_since (events n) p).
Proof.
  intros Ho. cbv zeta. intros Hs. pose proof (play_focused clock mint cfg p _ ts Ho (boot_focused cfg p w)) as (i & _ & Ha).
  rewrite settled_thread in Hs. rewrite Hs in Ha. destruct Ha as (I1 & _ & I2). split; [|exact I1].
  unfold Session.peer_phase. destruct (Session.peers _ !! p) as [ps|]; cbn; [|done].
  destruct I2 as (I2 & I3 & I4). destruct (PeerSession.phase ps); auto.
Qed.

Lemma orderly_access_settles_witness :
  orderly (H := Toy.toy) (H0 := ConsumeDemo.hex) NodeDemo.clock NodeDemo.mint NodeDemo.cfg NodeDemo.alice
    (boot_node NodeDemo.cfg WalletDemo.wallet) RaceDemo.orderly_life = true /\
  settled NodeDemo.alice toy_life = true /\
  Host.access (host toy_life) !! NodeDemo.alice = Some AccessLevel.Suspended.
Proof.
  assert (orderly (H := Toy.toy) (H0 := ConsumeDemo.hex) NodeDemo.clock NodeDemo.mint NodeDemo.cfg NodeDemo.alice
    (boot_node NodeDemo.cfg WalletDemo.wallet) RaceDemo.orderly_life = true) as Ho by (vm_compute; reflexivity).
  assert (settled NodeDemo.alice toy_life = true) as Hs
    by (vm_compute; reflexivity).
  split; [exact Ho|]. split; [exact Hs|].
  pose proof (orderly_access_settles (H := Toy.toy) (H0 := ConsumeDemo.hex) NodeDemo.clock NodeDemo.mint
    NodeDemo.cfg WalletDemo.wallet NodeDemo.alice RaceDemo.orderly_life Ho Hs) as [K _].
  assert (Session.peer_phase (Driver.session (driver toy_life)) NodeDemo.alice = Some PeerPhase.Suspended) as Ep
    by (vm_compute; reflexivity).
  rewrite Ep in K. exact (proj1 K).
Defined.
