(* ===== verification/Market.v ===== *)
(** * A buyer and a seller

    The consumer of [client.rs] and the session of [session.rs] each keep an account of
    the same prepaid usage: the seller deducts the cost of every sampling interval from
    a balance, the buyer takes the cost of the whole session, as the seller reports it,
    from what it paid. The first part compares the two accounts; the second runs the
    consumer's loop against the driver of [driver.rs], exchange by exchange. *)

From S2P Require Import Prelude F64 Wire ToyCodec Frames Pricing Session SessionFacts SessionProps SessionIso.
From S2P Require Import Wallet Consume NetDriver NetDriverFacts.

(** ** One metering session *)

(** What happens in it: a sample of the counters, or the buyer's acknowledgement of
    what it received, the report that [poll_request] sends. *)
Inductive usage : Type :=
| Used (c : Counters.t) (now : Z)
| Acked (received : Z) (now : Z).

Section usage.
Context `{Minicbor}.
Definition usage_event (p : PeerId) (u : usage) : stamped :=
  match u with
  | Used c now => (Event.MeterSample p c, now)
  | Acked r now => (Event.MessageReceived p (MeteringReport.encode (MeteringReport.new 0 0 r)), now)
  end.
End usage.

(** The counters, the acknowledgements and the samples' times only grow, from [d], [r]
    and [t]. *)
Fixpoint forward (d r t : Z) (us : list usage) : bool :=
  match us with
  | [] => true
  | Used c now :: us =>
      (d <=? Counters.delivered c) && (Counters.delivered c <=? U64_MAX) &&
      (t <=? now) && (now <=? U64_MAX) && forward (Counters.delivered c) r now us
  | Acked r' _ :: us => (r <=? r') && (r' <=? U64_MAX) && forward d r' t us
  end.

(** What the buyer has acknowledged last. *)
Definition last_ack (r : Z) (us : list usage) : Z :=
  foldl (fun r u => match u with Acked r' _ => r' | Used _ _ => r end) r us.

Definition ack_fits (u : usage) : Prop := match u with Acked r _ => is_u64 r | Used _ _ => True end.

(** A price that charges, and whose unit part fits the 128-bit sum for any usage. *)
Definition fair (p : Price.t) : Prop :=
  0 <= Price.per_second p <= I64_MAX /\ 0 <= Price.per_unit p <= 2 ^ 62.

(** The cost of a period, unbounded. *)
Definition cost_of (p : Price.t) (elapsed units : Z) : Z :=
  elapsed * Price.per_second p / 1000 + units * Price.per_unit p.

(** ** Lemmas: the cost *)

Lemma fair_cost p e u :
  fair p -> is_u64 e -> is_u64 u ->
  0 <= cost_of p e u /\ Price.cost_scaled p e u = Z.min I64_MAX (cost_of p e u).
Proof.
  intros [Hs Hu] He Hun.
  assert (0 <= e * Price.per_second p) by (apply Z.mul_nonneg_nonneg; lia).
  assert (0 <= u * Price.per_unit p) by (apply Z.mul_nonneg_nonneg; lia).
  assert (0 <= e * Price.per_second p / 1000) by (apply Z.div_pos; lia).
  split; [unfold cost_of; lia|]. rewrite cost_scaled_ideal; [|done| |].
  - unfold ideal_cost, cost_of. rewrite Z.quot_div_nonneg by lia. unfold clamp_i64. ints.
  - change (2 ^ 62) with 4611686018427387904 in Hu. split; ints.
  - unfold units_fit. rewrite Z.abs_eq by lia.
    transitivity (U64_MAX * 2 ^ 62); [apply Z.mul_le_mono_nonneg; lia|]. by vm_compute.
Qed.

(** Cutting a period in two loses less than one scaled unit. *)
Lemma cost_of_add p e1 u1 e2 u2 :
  cost_of p e1 u1 + cost_of p e2 u2 <= cost_of p (e1 + e2) (u1 + u2)
    <= cost_of p e1 u1 + cost_of p e2 u2 + 1.
Proof.
  unfold cost_of. rewrite !Z.mul_add_distr_r.
  set (a := e1 * _). set (b := e2 * _). set (x := u1 * _). set (y := u2 * _).
  clearbody a b x y. Z.to_euclidean_division_equations. lia.
Qed.

Lemma cost_of_nothing p : cost_of p 0 0 = 0.
Proof. unfold cost_of. by rewrite !Z.mul_0_l. Qed.

Lemma cost_of_mono p e u u' : fair p -> u <= u' -> cost_of p e u <= cost_of p e u'.
Proof.
  intros [_ Hu] Hle. unfold cost_of. apply Z.add_le_mono_l, Z.mul_le_mono_nonneg_r; lia.
Qed.

(** ** Lemmas: the seller's account *)

Section account.
Context `{MinicborLaws}.
Context (pr : Price.t) (po : MeteringPolicy.t) (p : PeerId).

(** What a step does to the peer's own session. *)
Definition apply_usage (u : usage) (ps : PeerSession.t) : PeerSession.t :=
  match u with
  | Used c now =>
      if decide (PeerSession.phase ps = PeerPhase.Active) then
        match PeerSession.last_counters ps with
        | None => PeerSession.reset_metering c now ps
        | Some _ => (Session.meter_interval pr po p c now ps).1
        end
      else ps
  | Acked r _ => PeerSession.set_report (Some (Counters.mk 0 r)) ps
  end.

Lemma step_usage u s ps :
  Session.price s = pr -> Session.policy s = po -> Session.peers s !! p = Some ps ->
  ack_fits u ->
  (step s (usage_event p u)).1 = set_peer p (apply_usage u ps) s.
Proof.
  intros Ep Eo El Hu. destruct u as [c now|r now]; cbn [usage_event].
  - unfold step. cbn [Session.handle fst snd]. unfold Session.on_meter_sample.
    rewrite (with_peer_some _ _ _ _ El). cbn [apply_usage fst].
    rewrite Ep, Eo. case_decide; [|done]. by destruct (PeerSession.last_counters ps).
  - rewrite (step_report p 0 0 r now s ps); [done|ints|ints|done|done].
Qed.

(** Neither a sample nor an acknowledgement readmits a peer. *)
Lemma usage_inactive us ps :
  PeerSession.phase ps <> PeerPhase.Active ->
  PeerSession.phase (foldl (fun ps u => apply_usage u ps) ps us) <> PeerPhase.Active.
Proof.
  revert ps. induction us as [|u us IH]; intros ps Hp; [done|]. apply IH.
  destruct u; cbn; [by case_decide|done].
Qed.

(** The account after some usage: what was spent of [b] is the cost of the units
    billed, to one scaled unit per sample. *)
Record account (b : Z) (c0 : Counters.t) (t0 n d r t : Z) (ps : PeerSession.t) : Prop := {
  ac_phase : PeerSession.phase ps = PeerPhase.Active;
  ac_last : is_Some (PeerSession.last_counters ps);
  ac_at : PeerSession.last_meter_at ps = t;
  ac_base : PeerSession.metering_baseline ps = c0;
  ac_start : PeerSession.metering_start ps = t0;
  ac_report : unwrap_or (Session.peer_received ps) 0 = r;
  ac_billed : 0 <= PeerSession.billed_units ps <= Z.max (d - Counters.delivered c0) r;
  ac_left : 0 <= PeerSession.balance ps <= b;
  ac_spent : PeerSession.balance ps + cost_of pr (t - t0) (PeerSession.billed_units ps) - n <= b
    <= PeerSession.balance ps + cost_of pr (t - t0) (PeerSession.billed_units ps)
}.

Lemma meter_interval_keeps c now ps :
  let ps' := (Session.meter_interval pr po p c now ps).1 in
  PeerSession.metering_baseline ps' = PeerSession.metering_baseline ps /\
  PeerSession.metering_start ps' = PeerSession.metering_start ps /\
  PeerSession.peer_report ps' = PeerSession.peer_report ps.
Proof.
  cbv zeta. unfold Session.meter_interval, Session.check_drift, Session.cut_off.
  destruct (Session.peer_received _); [destruct (Session.drift_over _ _ _)|]; by destruct (_ || _).
Qed.

Lemma billable_max c ps r :
  unwrap_or (Session.peer_received ps) 0 = r -> 0 <= r ->
  Session.billable ps c = Z.max (Session.our_delivered ps c) r.
Proof.
  intros <- Hr. unfold Session.billable. destruct (Session.peer_received ps) as [x|]; cbn in *.
  - by rewrite reconcile_max.
  - unfold Session.our_delivered. ints.
Qed.

Lemma account_sample b c0 t0 n d r t ps c now :
  fair pr -> b <= I64_MAX -> account b c0 t0 n d r t ps ->
  0 <= Counters.delivered c0 -> Counters.delivered c0 <= d <= Counters.delivered c ->
  Counters.delivered c <= U64_MAX -> 0 <= t0 <= t -> t <= now <= U64_MAX -> 0 <= r <= U64_MAX ->
  let ps' := (Session.meter_interval pr po p c now ps).1 in
  PeerSession.phase ps' = PeerPhase.Active ->
  account b c0 t0 (n + 1) (Counters.delivered c) r now ps' /\
  PeerSession.billed_units ps' = Z.max (Counters.delivered c - Counters.delivered c0) r.
Proof.
  intros Hf Hb [Ap [l Al] Aa Ab As Ar Abi Ale Asp] H0' Hd Hc Ht0 Ht Hr ps' Hact.
  destruct (meter_interval_fields pr po p c now ps) as (_ & E2 & E3 & E4).
  destruct (meter_interval_keeps c now ps) as (E5 & E6 & E7). fold ps' in E2, E3, E4, E5, E6, E7.
  destruct (meter_interval_result pr po p c now ps Ap (proj1 Ale)) as (R1 & R2 & _). fold ps' in R1, R2.
  assert (Session.our_delivered ps c = Counters.delivered c - Counters.delivered c0) as Eo
    by (unfold Session.our_delivered; rewrite Ab; ints).
  pose proof (billable_max c ps r Ar (proj1 Hr)) as Ebl. rewrite Eo in Ebl.
  set (u := PeerSession.billed_units ps) in *. set (u' := Session.billable ps c) in *.
  assert (Session.interval_cost pr ps c now = Z.min I64_MAX (cost_of pr (now - t) (u' - u)) /\
    0 <= cost_of pr (now - t) (u' - u)) as [Ec Hpos].
  { unfold Session.interval_cost, Session.new_units. fold u u'.
    replace (Millis.since now (PeerSession.last_meter_at ps)) with (now - t)
      by (unfold Millis.since; rewrite Aa; ints).
    replace (sat_sub_u64 u' u) with (u' - u) by ints.
    destruct (fair_cost pr (now - t) (u' - u)); [done|ints|ints|done]. }
  rewrite Ec in R1, R2. set (k := cost_of pr (now - t) (u' - u)) in *.
  pose proof (cost_of_add pr (t - t0) u (now - t) (u' - u)) as Hadd. fold k in Hadd.
  replace (t - t0 + (now - t)) with (now - t0) in Hadd by lia.
  replace (u + (u' - u)) with u' in Hadd by lia.
  assert (0 <= cost_of pr (t - t0) u) as Hpos' by (apply fair_cost; [done|ints|ints]).
  assert (PeerSession.balance ps' = PeerSession.balance ps - k /\ 0 <= PeerSession.balance ps - k) as [Eb Hb'].
  { rewrite R1 in Hact. rewrite R2. clear - Hact Hpos Hpos' Asp Hb Ale.
    destruct (Z.ltb_spec 0 (Z.min I64_MAX k)); cbn [andb orb] in Hact.
    - destruct (Z.leb_spec (PeerSession.balance ps - Z.max 0 (Z.min I64_MAX k)) 0); [done|]. ints.
    - ints. }
  split; [|by rewrite E2]. split; try done; try by eexists.
  - by rewrite E5.
  - by rewrite E6.
  - unfold Session.peer_received. by rewrite E7.
  - rewrite E2. lia.
  - lia.
  - rewrite Eb, E2. lia.
Qed.

Definition apply_usages (us : list usage) (ps : PeerSession.t) : PeerSession.t :=
  foldl (fun ps u => apply_usage u ps) ps us.

Lemma account_run b c0 t0 us rest n d r t ps :
  fair pr -> b <= I64_MAX -> account b c0 t0 n d r t ps ->
  0 <= Counters.delivered c0 <= d -> 0 <= t0 <= t -> 0 <= r <= U64_MAX ->
  forward d r t (us ++ rest) = true -> PeerSession.phase (apply_usages us ps) = PeerPhase.Active ->
  exists n' d' t', account b c0 t0 n' d' (last_ack r us) t' (apply_usages us ps) /\
    n' <= n + Z.of_nat (length us) /\ d <= d' /\ t <= t' /\ 0 <= last_ack r us <= U64_MAX /\
    forward d' (last_ack r us) t' rest = true.
Proof.
  intros Hf Hb. revert n d r t ps.
  induction us as [|u us IH]; intros n d r t ps Ha Hd Ht Hr Hfw Hp.
  { exists n, d, t. split_and!; done || (cbn; lia). }
  assert (PeerSession.phase (apply_usage u ps) = PeerPhase.Active) as Hp1.
  { destruct (decide (PeerSession.phase (apply_usage u ps) = PeerPhase.Active)) as [|Hn]; [done|].
    by destruct (usage_inactive us (apply_usage u ps) Hn). }
  change (apply_usages (u :: us) ps) with (apply_usages us (apply_usage u ps)) in *.
  replace (Z.of_nat (length (u :: us))) with (Z.of_nat (length us) + 1) by (cbn [length]; lia).
  destruct u as [c now|r' now]; cbn [app forward] in Hfw.
  - repeat rewrite andb_true_iff in Hfw. destruct Hfw as [[[[D1 D2] T1] T2] Hfw].
    apply Z.leb_le in D1, D2, T1, T2.
    pose proof (ac_phase _ _ _ _ _ _ _ _ Ha) as Ap. destruct (ac_last _ _ _ _ _ _ _ _ Ha) as [l Al].
    cbn [apply_usage] in *. rewrite decide_True, Al in * by done.
    destruct (account_sample b c0 t0 n d r t ps c now) as [Ha1 _]; try done; try lia.
    destruct (IH (n + 1) (Counters.delivered c) r now _ Ha1) as (n' & d' & t' & A & B1 & B2 & B3 & B4 & B5);
      try done; try lia.
    change (last_ack r (Used c now :: us)) with (last_ack r us).
    exists n', d', t'. split_and!; done || lia.
  - repeat rewrite andb_true_iff in Hfw. destruct Hfw as [[R1 R2] Hfw]. apply Z.leb_le in R1, R2.
    destruct (IH n d r' t (apply_usage (Acked r' now) ps)) as (n' & d' & t' & A & B1 & B2 & B3 & B4 & B5);
      try done; try lia.
    + destruct Ha. split; try done. cbn. lia.
    + change (last_ack r (Acked r' now :: us)) with (last_ack r' us).
      exists n', d', t'. split_and!; done || lia.
Qed.
End account.

(** The run as a fold over the peer's own session. *)
Lemma run_usages `{MinicborLaws} p us s ps :
  Session.peers s !! p = Some ps ->
  Forall ack_fits us ->
  (run step s (usage_event p <$> us)).1 =
    match us with [] => s | _ => set_peer p (apply_usages (Session.price s) (Session.policy s) p us ps) s end.
Proof.
  intros El Hu. revert s ps El. induction Hu as [|u us Hu Hus IH]; intros s ps El; [done|].
  rewrite fmap_cons, run_cons_fst, (step_usage _ _ p u s ps) by done.
  rewrite (IH _ _ (set_peer_lookup _ _ _)). destruct us as [|u' us]; [done|].
  unfold set_peer, Session.set_peers. cbn [Session.peers Session.price Session.policy].
  by rewrite insert_insert_eq.
Qed.

Lemma forward_acks d r t us :
  0 <= r -> forward d r t us = true ->
  Forall ack_fits us.
Proof.
  revert d r t. induction us as [|[c now|r' now] us IH]; intros d r t Hr Hf; [constructor|..];
    cbn [forward] in Hf; repeat rewrite andb_true_iff in Hf.
  - destruct Hf as [_ Hf]. constructor; [done|by eapply IH].
  - destruct Hf as [[R1 R2] Hf]. apply Z.leb_le in R1, R2. constructor; [cbn; ints|]. eapply IH; [|done]. lia.
Qed.

(** Every sample of a metered peer sends it a report. *)
Lemma sample_reports `{Minicbor} p c now s ps :
  Session.peers s !! p = Some ps -> PeerSession.phase ps = PeerPhase.Active ->
  is_Some (PeerSession.last_counters ps) -> 0 <= PeerSession.balance ps ->
  Action.Send p (MeteringReport.encode (usage_report c now ps)) ∈
    (step s (Event.MeterSample p c, now)).2.
Proof.
  intros El Ha [l Hl] Hb. unfold step. cbn [Session.handle fst snd]. unfold Session.on_meter_sample.
  rewrite (with_peer_some _ _ _ _ El), decide_True, Hl by done. cbn [snd].
  destruct (meter_interval_result (Session.price s) (Session.policy s) p c now ps Ha Hb) as (_ & _ & _ & ->).
  apply elem_of_app. right. by left.
Qed.

(** A payment and a first sample open a session; usage then is a fold over it. *)
Lemma session_opens `{MinicborLaws} p s ps c0 t0 us :
  Session.peers s !! p = Some ps -> PeerSession.phase ps = PeerPhase.Active ->
  PeerSession.last_counters ps = None -> Forall ack_fits us ->
  (run step s (usage_event p <$> Used c0 t0 :: us)).1 =
    set_peer p (apply_usages (Session.price s) (Session.policy s) p us (PeerSession.reset_metering c0 t0 ps)) s.
Proof.
  intros El Hp Hl Hus. rewrite (run_usages p _ s ps El) by (by constructor).
  cbn [apply_usages foldl apply_usage]. by rewrite decide_True, Hl by done.
Qed.

Lemma account_opens pr ps c0 t0 :
  PeerSession.phase ps = PeerPhase.Active -> 0 <= PeerSession.balance ps ->
  account pr (PeerSession.balance ps) c0 t0 0 (Counters.delivered c0) 0 t0 (PeerSession.reset_metering c0 t0 ps).
Proof.
  intros Hp Hb. split; try done; [cbn; lia|].
  cbn -[cost_of]. rewrite Z.sub_diag, cost_of_nothing. lia.
Qed.

(** The whole session, from the payment to a last sample. *)
Lemma session_account `{MinicborLaws} p s ps c0 t0 us c now :
  let pr := Session.price s in
  Session.peers s !! p = Some ps -> PeerSession.phase ps = PeerPhase.Active ->
  PeerSession.last_counters ps = None -> 0 <= PeerSession.balance ps <= I64_MAX ->
  fair pr -> is_u64 (Counters.delivered c0) -> is_u64 t0 ->
  forward (Counters.delivered c0) 0 t0 (us ++ [Used c now]) = true ->
  let before := (run step s (usage_event p <$> Used c0 t0 :: us)).1 in
  let after := step before (Event.MeterSample p c, now) in
  Session.peer_phase after.1 p = Some PeerPhase.Active ->
  exists n ps', Session.peers after.1 !! p = Some ps' /\ n <= Z.of_nat (S (length us)) /\
    account pr (PeerSession.balance ps) c0 t0 n (Counters.delivered c) (last_ack 0 us) now ps' /\
    PeerSession.billed_units ps' = Z.max (Counters.delivered c - Counters.delivered c0) (last_ack 0 us) /\
    0 <= last_ack 0 us <= U64_MAX /\ Counters.delivered c0 <= Counters.delivered c <= U64_MAX /\
    t0 <= now <= U64_MAX /\
    Action.Send p (MeteringReport.encode (MeteringReport.new (now - t0)
      (Counters.delivered c - Counters.delivered c0)
      (sat_sub_u64 (Counters.received c) (Counters.received c0)))) ∈ after.2.
Proof.
  cbv zeta. intros El Hp Hl Hb Hf Hc0 Ht0 Hfw Hact.
  set (pr := Session.price s) in *. set (po := Session.policy s).
  set (ps0 := PeerSession.reset_metering c0 t0 ps). set (ps1 := apply_usages pr po p us ps0).
  assert (Forall ack_fits us) as Hus.
  { apply (Forall_app _ us [Used c now]). eapply forward_acks; [|exact Hfw]. done. }
  pose proof (session_opens p s ps c0 t0 us El Hp Hl Hus) as Eb. fold pr po ps0 ps1 in Eb.
  rewrite Eb in *. set (s1 := set_peer p ps1 s) in *.
  assert (Session.peers s1 !! p = Some ps1) as El1 by apply set_peer_lookup.
  pose proof (step_usage pr po p (Used c now) s1 ps1 eq_refl eq_refl El1 I) as Es. cbn [usage_event] in Es.
  assert (PeerSession.phase ps1 = PeerPhase.Active) as Hp1.
  { destruct (decide (PeerSession.phase ps1 = PeerPhase.Active)) as [|Hn]; [done|].
    rewrite Es in Hact. unfold Session.peer_phase in Hact. rewrite set_peer_lookup in Hact.
    cbn [apply_usage fmap option_fmap option_map] in Hact. rewrite decide_False in Hact by done. congruence. }
  destruct (account_run pr po p (PeerSession.balance ps) c0 t0 us [Used c now] 0 (Counters.delivered c0) 0 t0 ps0)
    as (n & d & t & Ha & Hn & Hd & Ht & Hr & Hfr); try done; try lia.
  { apply account_opens; [done|lia]. }
  cbn [forward] in Hfr. repeat rewrite andb_true_iff in Hfr. destruct Hfr as [[[[D1 D2] T1] T2] _].
  apply Z.leb_le in D1, D2, T1, T2. fold ps1 in Ha. 
  pose proof Ha as [_ [l Al] _ Ab As _ _ Ale _].
  assert (apply_usage pr po p (Used c now) ps1 = (Session.meter_interval pr po p c now ps1).1) as Eu
    by (cbn [apply_usage]; by rewrite decide_True, Al).
  rewrite Eu in Es. set (ps2 := (Session.meter_interval pr po p c now ps1).1) in *.
  rewrite Es in Hact |- *. unfold Session.peer_phase in Hact. rewrite set_peer_lookup in Hact |- *.
  injection Hact as Hact.
  destruct (account_sample pr po p (PeerSession.balance ps) c0 t0 n d (last_ack 0 us) t ps1 c now)
    as [Ha2 Eb2]; try done; try lia.
  exists (n + 1), ps2. split_and!; try done; try lia.
  replace (MeteringReport.new (now - t0) _ _) with (usage_report c now ps1).
  { apply sample_reports; [done..|by eexists|lia]. }
  unfold usage_report, Session.our_delivered, Session.our_received, Millis.since. rewrite Ab, As. f_equal; ints.
Qed.

(** *** A buyer that is late *)

Section late.
Context `{MinicborLaws}.
Context (pr : Price.t) (p : PeerId).
Abbreviation po := MeteringPolicy.default.

(** Cut, or metered from [d] with the acknowledgement [r] and a streak of [k]. *)
Definition cut_or (d : Z) (r : option Z) (k : Z) (ps : PeerSession.t) : Prop :=
  PeerSession.phase ps = PeerPhase.Suspended \/
  (PeerSession.phase ps = PeerPhase.Active /\ is_Some (PeerSession.last_counters ps) /\
   Counters.delivered (PeerSession.metering_baseline ps) = d /\ Session.peer_received ps = r /\
   PeerSession.over_tolerance_streak ps = k /\ 0 <= PeerSession.balance ps).

Lemma cut_or_sample d r k ps c now k' :
  cut_or d r k ps -> 0 <= d <= Counters.delivered c ->
  match r with
  | None => k' = k
  | Some r =>
      0 <= r /\ 0 <= k < U8_MAX /\ k' = k + 1 /\
      0 < Counters.delivered c - d /\
      (Counters.delivered c - d) * 500 < (Counters.delivered c - d - r) * 10000
  end ->
  cut_or d r k' (apply_usage pr po p (Used c now) ps) /\
  (3 <= k' -> PeerSession.phase (apply_usage pr po p (Used c now) ps) = PeerPhase.Suspended).
Proof.
  intros [Hp|(Ha & [l Hl] & Hd & Hr & Hk & Hb)] Hc Hk'; cbn [apply_usage].
  { rewrite decide_False by congruence. split; [by left|done]. }
  rewrite decide_True, Hl by done.
  destruct (meter_interval_result pr po p c now ps Ha Hb) as (R1 & R2 & R3 & _).
  destruct (meter_interval_keeps pr po p c now ps) as (E1 & _ & E3).
  destruct (meter_interval_fields pr po p c now ps) as (_ & _ & _ & E4).
  assert (next_streak po c ps = k') as Es.
  { unfold next_streak. rewrite Hr. destruct r as [r|]; [|congruence].
    destruct Hk' as (Hr0 & Hk0 & -> & Hpos & Hlate).
    assert (Session.our_delivered ps c = Counters.delivered c - d) as ->
      by (unfold Session.our_delivered; rewrite Hd; ints).
    unfold Session.drift_over. cbn [MeteringPolicy.tolerance_bps po].
    rewrite (proj2 (Z.ltb_lt _ _)) by done. rewrite (proj2 (Z.ltb_lt _ _)) by ints. cbn [andb]. rewrite Hk. ints. }
  rewrite Es in R1, R3. cbn [MeteringPolicy.max_streak po] in R1. split.
  - unfold cut_or. rewrite R1. destruct (_ || _); [by left|]. right.
    split_and!; [done|by eexists|by rewrite E1|unfold Session.peer_received; by rewrite E3|done|lia].
  - intros H3. rewrite R1. rewrite (proj2 (Z.leb_le 3 k')) by done. by rewrite orb_true_r.
Qed.

Lemma cut_or_ack d r k ps r' now :
  cut_or d r k ps -> cut_or d (Some r') k (apply_usage pr po p (Acked r' now) ps).
Proof. intros [Hp|(Ha & Hl & Hd & _ & Hk & Hb)]; [by left|]. right. done. Qed.

(** Two intervals behind, at the latest in the thirty-ninth. *)
Lemma cut_or_steady d u k rec j ps now :
  0 <= d -> 0 < u -> 2 <= k < 40 -> 0 <= j < U8_MAX -> cut_or d (Some ((k - 2) * u)) j ps ->
  let ps' := apply_usage pr po p (Used (Counters.mk (d + k * u) rec) now) ps in
  cut_or d (Some ((k - 2) * u)) (j + 1) ps' /\ (3 <= j + 1 -> PeerSession.phase ps' = PeerPhase.Suspended).
Proof.
  intros Hd Hu Hk Hj Hc. apply (cut_or_sample d _ j); [done|cbn; nia|].
  cbn [Counters.delivered]. split_and!; try done; try lia; nia.
Qed.
End late.

(** ** The loop against the driver *)

Module Market.
(** A node that sells, and a consumer in its loop with what it has shown so far. *)
Record t : Type := mk {
  node : Driver.t;
  buyer : Client.state;
  shown : list ConsumeEvent.t
}.

(** The node's metering loop passes; the consumer polls, with a token at hand for the
    payment it may make. *)
Inductive turn : Type :=
| Meter (read_counters : IpAddr -> Counters.t)
| Poll (raw : Z) (token : string).

Section market.
Context `{Minicbor, HexCodec, Cashu, UrlParser}.
Context (clock : nat -> Z) (mint : nat -> CheckState) (cfg : Driver.config).
Context (public_key : PublicKey.t) (unit : string) (ip : IpAddr) (opts : ConsumeOpts.t).

(** [exchange]: the messages of a 200 answer; [None] is an error. *)
Definition exchange (body : option bytes) (d : Driver.t) : Driver.t * option (list bytes) :=
  match body with
  | Some body =>
      let '(d, r) := Driver.http_exchange clock mint cfg (Some ip) body d in
      (d, resp ← r; match decode_frames resp with Some (Ok ms) => Some ms | _ => None end)
  | None => (d, None)
  end.
Definition pay (token : string) (d : Driver.t) : Driver.t * option (list bytes) :=
  exchange (Client.pay_request public_key unit (as_bytes token)) d.

(** The first payment; [None] when it is refused or lost. *)
Definition open (token : string) (d : Driver.t) : option (Client.session * t) :=
  let '(d, reply) := pay token d in
  paid ← reply ≫= Client.pay;
  if Paid.accepted paid then
    let '(s, st, ev) := Client.start opts paid false 0 in Some (s, mk d st [ev])
  else None.

(** One poll. The consumer pays when its step would read an answer to a payment; [None]
    when the loop ends with an error. *)
Definition poll (s : Client.session) (raw : Z) (token : string) (m : t) : option t :=
  let '(d, messages) := exchange (Client.poll_request public_key unit (buyer m)) (node m) in
  let step reply := Client.poll_step s (buyer m) (Client.mkIo messages raw raw reply) in
  match step None with
  | Some (st, ev) => Some (mk d st (shown m ++ [ev]))
  | None =>
      let '(d, reply) := pay token d in
      '(st, ev) ← step reply; Some (mk d st (shown m ++ [ev]))
  end.

Definition take (s : Client.session) (m : t) (u : turn) : option t :=
  match u with
  | Meter read => Some (mk (Driver.metering_pass clock mint read (node m)) (buyer m) (shown m))
  | Poll raw token => poll s raw token m
  end.
Definition play (token : string) (us : list turn) (d : Driver.t) : option t :=
  '(s, m) ← open token d; foldl (fun m u => m ≫= fun m => take s m u) (Some m) us.
End market.
End Market.

Module MarketDemo.
#[local] Existing Instances Toy.toy WalletDemo.cashu WalletDemo.urls ConsumeDemo.hex.
Import NodeDemo.
(** One milli-sat per unit, advertised; tokens are worth 5000. *)
Definition sheet : PriceSheet.t :=
  PriceSheet.new [ProductEntry.new [] [] 1000 [MintOption.new [] EmptyString 0 1 EmptyString]]
    (IntervalRange.new 5000 60000).
Definition cfg : Driver.config :=
  Driver.mkConfig ConsumeDemo.key "bytes" (Price.mk 0 1) (PriceSheet.encode sheet).
Definition opts : ConsumeOpts.t := ConsumeOpts.mk 5 5 1000 None 0 None false.
Definition pass (delivered : Z) : Market.turn := Market.Meter (fun _ => Counters.mk delivered 0).
(** The tokens are different each time. *)
Fixpoint life (delivered : Z) (token : string) (steps : list Z) : list Market.turn :=
  match steps with
  | [] => []
  | n :: steps => let d := delivered + n in
      pass d :: Market.Poll 0 (token +:+ "x") :: life d (token +:+ "x") steps
  end.
Definition play (steps : list Z) : option Market.t :=
  Market.play clock mint cfg alice "bytes" "10.0.0.2" opts "proof" (life 1000 "proof" steps)
    (Driver.new cfg WalletDemo.wallet).
(** The balance the consumer shows last, whether it paid or was cut off, and what the
    node holds for it. *)
Definition view (m : Market.t) : option (Z * bool * bool) * Z * option PeerPhase.t :=
  ((fun ev => (ConsumeEvent.remaining_scaled ev, ConsumeEvent.topped_up ev, ConsumeEvent.cut_off ev))
     <$> last (Market.shown m),
   balance_of alice (Driver.session (Market.node m)),
   Session.peer_phase (Driver.session (Market.node m)) alice).
End MarketDemo.

(** A buyer that uses as much in every interval and acknowledges all of it, as the loop
    does at its next poll, is always some intervals behind. Early in a session that is
    more than the tolerance, three times in a row: the node suspends it, paid up, and
    neither side does anything more about it. *)
Example steady_buyer_is_cut :
  MarketDemo.view <$> MarketDemo.play (replicate 7 1000) =
    Some (Some (6000, false, false), 5000, Some PeerPhase.Suspended) /\
  MarketDemo.view <$> MarketDemo.play (replicate 25 1000) =
    Some (Some (10000, false, false), 5000, Some PeerPhase.Suspended).
Proof. vm_compute. done. Qed.

(** A buyer that uses 1000 units in every third interval tops up twice. Each top-up
    restarts the node's reports at zero, which the buyer takes for the whole usage so
    far; and what it had acknowledged before is billed again. Having used 8000 units of
    the 15000 it paid for, it is shown 14000, and the node holds 2000. *)
Example topups_mislead_buyer :
  MarketDemo.view <$> MarketDemo.play (0 :: concat (replicate 8 [1000; 0; 0])) =
    Some (Some (14000, false, false), 2000, Some PeerPhase.Active).
Proof. vm_compute. reflexivity. Qed.

(** ** Properties *)

(** C10: within a metering session the two accounts agree. Take a peer that has just
    paid, so that its next sample opens a session, and any samples and acknowledgements
    after that, with counters, acknowledgements and clock that only grow, at a price
    that charges. If the peer is still [Active] after a last sample, that sample's
    report lets a consumer that paid the same balance at the same price reckon what it
    has left: at most what the node still holds for it, provided its own measurement, or
    the report's figure where it has none, covers what it acknowledged; and, unless it
    measured more than the report says, at least that less one scaled unit per event. *)
Theorem accounts_agree `{MinicborLaws, HexCodec} p s ps c0 t0 us c now cs measured :
  Session.peers s !! p = Some ps -> PeerSession.phase ps = PeerPhase.Active ->
  PeerSession.last_counters ps = None -> 0 <= PeerSession.balance ps <= I64_MAX ->
  fair (Session.price s) -> Client.price cs = Session.price s ->
  is_u64 (Counters.delivered c0) -> is_u64 t0 ->
  forward (Counters.delivered c0) 0 t0 (us ++ [Used c now]) = true ->
  (forall m, measured = Some m -> is_u64 m) ->
  let before := (run step s (usage_event p <$> Used c0 t0 :: us)).1 in
  let after := step before (Event.MeterSample p c, now) in
  Session.peer_phase after.1 p = Some PeerPhase.Active ->
  let rep := MeteringReport.new (now - t0) (Counters.delivered c - Counters.delivered c0)
    (sat_sub_u64 (Counters.received c) (Counters.received c0)) in
  let left := sat_sub_i64 (as_i64 (PeerSession.balance ps)) (Client.reckon cs measured (Some rep)).1 in
  Action.Send p (MeteringReport.encode rep) ∈ after.2 /\
  (last_ack 0 us <= unwrap_or measured (MeteringReport.delivered rep) -> left <= balance_of p after.1) /\
  ((forall m, measured = Some m -> m <= MeteringReport.delivered rep) ->
   balance_of p after.1 <= left + Z.of_nat (S (length us))).
Proof.
  intros El Hp Hl Hb Hf Hcs Hc0 Ht0 Hfw Hm. cbv zeta. intros Hact.
  destruct (session_account p s ps c0 t0 us c now) as (n & ps' & El' & Hn & Ha & Eu & Hr & Hc & Hnow & Hs);
    try done.
  split; [exact Hs|]. unfold balance_of. rewrite El'. cbn [map_or].
  destruct Ha as [_ _ _ _ _ _ _ Ale Asp]. set (D := Counters.delivered c - Counters.delivered c0) in *.
  set (U := PeerSession.billed_units ps') in *. set (pr := Session.price s) in *.
  assert (forall m, is_u64 m -> forall rep', MeteringReport.elapsed_ms rep' = now - t0 ->
    MeteringReport.delivered rep' = D -> map_or measured D (fun m => Z.max D m) = m ->
    sat_sub_i64 (as_i64 (PeerSession.balance ps)) (Client.reckon cs measured (Some rep')).1 =
      PeerSession.balance ps - Z.min I64_MAX (cost_of pr (now - t0) m)) as K.
  { intros m Hm' rep' E1 E2 E3. cbn [Client.reckon fst]. rewrite Hcs, E1, E2, E3.
    destruct (fair_cost pr (now - t0) m Hf) as [C1 C2]; [ints|done|]. rewrite C2, as_i64_id by ints. ints. }
  set (M := map_or measured D (fun m => Z.max D m)) in *.
  assert (is_u64 M) as HM.
  { unfold M. destruct measured as [m|]; cbn; [specialize (Hm m eq_refl)|]; ints. }
  rewrite (K M HM) by done. cbn [MeteringReport.delivered MeteringReport.new]. split.
  - intros Hack. assert (U <= M) as HUM.
    { rewrite Eu. unfold M. destruct measured as [m|]; cbn in *; lia. }
    pose proof (cost_of_mono pr (now - t0) U M Hf HUM). lia.
  - intros Hmd. assert (M <= U) as HMU.
    { rewrite Eu. unfold M. destruct measured as [m|]; cbn in *; [specialize (Hmd m eq_refl)|]; lia. }
    pose proof (cost_of_mono pr (now - t0) M U Hf HMU). lia.
Qed.

Definition paid_node : Session.t :=
  (run (step (H := Toy.toy)) Demo.node
    [(Event.PeerConnected alice, 0); (Event.BootstrapVerified alice 1000 true, 20)]).1.
Definition paid_alice : PeerSession.t :=
  PeerSession.mk PeerPhase.Active 1000 None 20 Counters.default 0 None 0 0 None None.

Lemma accounts_agree_witness :
  let rep := MeteringReport.new 20 160 6 in
  let left := sat_sub_i64 (as_i64 1000) (Client.reckon ConsumeDemo.session None (Some rep)).1 in
  left <= 840 /\ 840 <= left + 3.
Proof.
  assert (Session.peers paid_node !! alice = Some paid_alice) as El by (vm_compute; reflexivity).
  destruct (@accounts_agree Toy.toy Toy.toy_laws ConsumeDemo.hex alice paid_node paid_alice (Counters.mk 1000 0)
    30 [Used (Counters.mk 1100 4) 40; Acked 100 45] (Counters.mk 1160 6) 50 ConsumeDemo.session None El)
    as (_ & L1 & L2).
  - reflexivity.
  - reflexivity.
  - by vm_compute.
  - by vm_compute.
  - reflexivity.
  - by vm_compute.
  - by vm_compute.
  - reflexivity.
  - done.
  - vm_compute. reflexivity.
  - split.
    + etransitivity; [apply L1; by vm_compute|]. by vm_compute.
    + etransitivity; [|apply L2; done]. by vm_compute.
Defined.

(** C11: steady honest use is cut off. At the default tolerance, a peer that is
    delivered the same amount in every metering interval, and acknowledges all of it
    two intervals later, is suspended at the fifth sample after its first, whatever it
    has paid, whatever the amount and the price. *)
Theorem steady_use_is_cut `{MinicborLaws} p s ps c0 u (r t : nat -> Z) :
  Session.peers s !! p = Some ps -> PeerSession.phase ps = PeerPhase.Active ->
  PeerSession.last_counters ps = None -> 0 <= PeerSession.balance ps ->
  Session.policy s = MeteringPolicy.default ->
  0 <= Counters.delivered c0 -> 0 < u -> Counters.delivered c0 + 5 * u <= U64_MAX ->
  let used (k : nat) := Used (Counters.mk (Counters.delivered c0 + Z.of_nat k * u) (r k)) (t k) in
  Session.peer_phase (run step s (usage_event p <$>
    [Used c0 (t 0%nat); used 1%nat; used 2%nat; Acked u (t 2%nat); used 3%nat; Acked (2 * u) (t 3%nat);
     used 4%nat; Acked (3 * u) (t 4%nat); used 5%nat])).1 p = Some PeerPhase.Suspended.
Proof.
  intros El Ha Hl Hb Epo Hc Hu Hmax used. rewrite (session_opens p s ps) by (try done; repeat constructor; cbn; ints).
  unfold Session.peer_phase. rewrite set_peer_lookup, Epo. cbn [fmap option_fmap option_map]. f_equal.
  set (d := Counters.delivered c0) in *. set (pr := Session.price s).
  assert (cut_or d None 0 (PeerSession.reset_metering c0 (t 0%nat) ps)) as K0 by (right; by split_and!).
  pose proof (proj1 (cut_or_sample pr p d None 0 _ (Counters.mk (d + 1 * u) (r 1%nat)) (t 1%nat) 0 K0
    ltac:(cbn; lia) eq_refl)) as K1.
  pose proof (proj1 (cut_or_sample pr p d None 0 _ (Counters.mk (d + 2 * u) (r 2%nat)) (t 2%nat) 0 K1
    ltac:(cbn; lia) eq_refl)) as K2.
  pose proof (cut_or_ack pr p d None 0 _ ((3 - 2) * u) (t 2%nat) K2) as K3.
  pose proof (proj1 (cut_or_steady pr p d u 3 (r 3%nat) 0 _ (t 3%nat) Hc Hu ltac:(lia) ltac:(ints) K3)) as K4.
  pose proof (cut_or_ack pr p d _ _ _ ((4 - 2) * u) (t 3%nat) K4) as K5.
  pose proof (proj1 (cut_or_steady pr p d u 4 (r 4%nat) 1 _ (t 4%nat) Hc Hu ltac:(lia) ltac:(ints) K5)) as K6.
  pose proof (cut_or_ack pr p d _ _ _ ((5 - 2) * u) (t 4%nat) K6) as K7.
  pose proof (proj2 (cut_or_steady pr p d u 5 (r 5%nat) 2 _ (t 5%nat) Hc Hu ltac:(lia) ltac:(ints) K7)) as K8.
  replace ((3 - 2) * u) with u in K8 by lia. apply K8. lia.
Qed.

(** Plenty of credit, all of it left. *)
Lemma steady_use_is_cut_witness :
  let used (k : nat) := Used (Counters.mk (1000 + Z.of_nat k * 40) 0) (40 + 10 * Z.of_nat k) in
  let s := (run (step (H := Toy.toy)) paid_node (usage_event (H := Toy.toy) alice <$>
    [Used (Counters.mk 1000 0) 40; used 1%nat; used 2%nat; Acked 40 60; used 3%nat; Acked (2 * 40) 70;
     used 4%nat; Acked (3 * 40) 80; used 5%nat])).1 in
  Session.peer_phase s alice = Some PeerPhase.Suspended /\ balance_of alice s = 800.
Proof.
  intros used s. split; [|vm_compute; reflexivity].
  assert (Session.peers paid_node !! alice = Some paid_alice) as El by (vm_compute; reflexivity).
  refine (@steady_use_is_cut Toy.toy Toy.toy_laws alice paid_node paid_alice (Counters.mk 1000 0) 40 (fun _ => 0)
    (fun k => 40 + 10 * Z.of_nat k) El _ _ _ _ _ _ _).
  - reflexivity.
  - reflexivity.
  - by vm_compute.
  - reflexivity.
  - by vm_compute.
  - done.
  - by vm_compute.
Defined.
