(* ===== verification/Json.v ===== *)
(** * JSON values and text

    [serde_json::Value] with the accessors the program uses, shared by the components
    that read third-party JSON, and the ways to split a string that several of them use. Parsing JSON text is [serde_json]'s and a class. *)

From S2P Require Import Prelude F64 Wallet.

(** A number is an integer of 64 bits, or a double. *)
#[warnings="-register-all"]
Inductive Value : Set :=
| VNull
| VBool (b : bool)
| VInt (n : Z)
| VFloat (x : f64)
| VString (s : string)
| VArray (l : list Value)
| VObject (fields : list (string * Value)).

Class SerdeJson : Type := {
  json_from_str : string -> option Value;
  json_from_slice : bytes -> option Value
}.

Definition get (v : Value) (key : string) : option Value :=
  match v with
  | VObject fields => snd <$> find (fun p => bool_decide (p.1 = key)) fields
  | _ => None
  end.
Definition as_str (v : Value) : option string := match v with VString s => Some s | _ => None end.
Definition as_array (v : Value) : option (list Value) := match v with VArray l => Some l | _ => None end.
Definition as_object (v : Value) : option (list (string * Value)) :=
  match v with VObject f => Some f | _ => None end.
Definition value_as_u64 (v : Value) : option Z :=
  match v with VInt n => if (0 <=? n) && (n <=? U64_MAX) then Some n else None | _ => None end.
Definition value_as_i64 (v : Value) : option Z :=
  match v with VInt n => if (I64_MIN <=? n) && (n <=? I64_MAX) then Some n else None | _ => None end.

(** ** Strings *)

(** [s.split_whitespace()]: the maximal runs of other characters. *)
Fixpoint word_chars (l : list Ascii.ascii) : list (list Ascii.ascii) :=
  match l with
  | [] => [[]]
  | c :: l =>
      if is_whitespace c then [] :: word_chars l
      else match word_chars l with w :: ws => (c :: w) :: ws | [] => [[c]] end
  end.
Definition split_whitespace (s : string) : list string :=
  of_chars <$> filter (fun w => w <> []) (word_chars (chars s)).

(** [s.split(sep)] at a character. *)
Fixpoint split_chars (sep : Ascii.ascii) (l : list Ascii.ascii) : list (list Ascii.ascii) :=
  match l with
  | [] => [[]]
  | c :: l =>
      if decide (c = sep) then [] :: split_chars sep l
      else match split_chars sep l with
           | w :: ws => (c :: w) :: ws
           | [] => [[c]]
           end
  end.
Definition split_on (sep : Ascii.ascii) (s : string) : list string :=
  of_chars <$> split_chars sep (chars s).

(** [s.strip_prefix(p)], [s.starts_with(p)], [s.strip_suffix(p)]. *)
Fixpoint strip_prefix (p s : string) : option string :=
  match p, s with
  | EmptyString, _ => Some s
  | String a p, String b s => if decide (a = b) then strip_prefix p s else None
  | String _ _, EmptyString => None
  end.
Definition starts_with (p s : string) : bool := is_some (strip_prefix p s).
Definition rev_string (s : string) : string := of_chars (rev (chars s)).
Definition strip_suffix (p s : string) : option string :=
  rev_string <$> strip_prefix (rev_string p) (rev_string s).

(** [haystack.contains(needle)]. *)
Fixpoint contains (needle haystack : string) : bool :=
  starts_with needle haystack ||
  match haystack with EmptyString => false | String _ h => contains needle h end.

(** [s.split(pat)] at a string: what is before its first occurrence, and what is after
    it, if it occurs. *)
Fixpoint before (pat s : string) : string :=
  if starts_with pat s then EmptyString
  else match s with EmptyString => EmptyString | String c s => String c (before pat s) end.
Fixpoint after (pat s : string) : option string :=
  match strip_prefix pat s with
  | Some rest => Some rest
  | None => match s with EmptyString => None | String _ s => after pat s end
  end.
(** [s.split(pat).next()] and [s.split(pat).nth(1)]. *)
Definition split_first (pat s : string) : string := before pat s.
Definition split_second (pat s : string) : option string := before pat <$> after pat s.

(** [s.replace(c, by)] at a character. *)
Fixpoint replace_char (c : Ascii.ascii) (by_ s : string) : string :=
  match s with
  | EmptyString => EmptyString
  | String x s => if decide (x = c) then by_ +:+ replace_char c by_ s else String x (replace_char c by_ s)
  end.

(** ** Lemmas *)

Lemma split_chars_none sep l : sep ∉ l -> split_chars sep l = [l].
Proof.
  induction l as [|x l IH]; intros Hx; [done|]. apply not_elem_of_cons in Hx as [Hne Hx].
  cbn [split_chars]. destruct (decide (x = sep)); [congruence|]. by rewrite IH.
Qed.

Lemma strip_prefix_app p s : strip_prefix p (p +:+ s) = Some s.
Proof.
  induction p as [|c p IH]; [done|].
  change (String c p +:+ s) with (String c (p +:+ s)). cbn [strip_prefix].
  by destruct (decide (c = c)).
Qed.

