(* ===== verification/IpAdapter.v ===== *)
(** * The firewall adapter

    Models [crates/tollgate-net/src/adapter.rs] on Linux: the paid-peer sets and the
    byte counters kept in the kernel through the [nft] tool. The tool and the kernel's
    tables are third-party code, a class with the documented behaviour of an [add element]
    and a [delete element] that are served (one that is refused changes nothing); what the adapter sends it is written out. An address is its
    printed form, and is an IPv6 address when it has a colon. *)

From S2P Require Import Prelude F64 Wire ToyCodec Frames Pricing Session SessionFacts SessionProps.
From S2P Require Import Wallet Consume NetDriver NetDriverFacts NodeSpec Json.

(** The [nft] tool: one command of separate arguments, answering its standard output
    when it succeeds, and one script on its standard input. *)
Class Nft : Type := {
  kernel : Type;
  nft : list string -> kernel -> kernel * option string;
  nft_f : string -> kernel -> kernel * bool;
  member : string -> string -> kernel -> Prop
}.

Definition NFT_TABLE : string := "tollgate".

Definition colon : Ascii.ascii := Ascii.ascii_of_N 58.
Definition dot : Ascii.ascii := Ascii.ascii_of_N 46.
Definition is_v6 (ip : IpAddr) : bool := bool_decide (colon ∈ chars ip).

(** ** What is sent to the tool *)

Definition paid_set (ip : IpAddr) : string := if is_v6 ip then "paid_peers_v6" else "paid_peers_v4".
Definition braced (addr : string) : string := "{ " +:+ addr +:+ " }".

Definition nft_element_args (ip : IpAddr) (add : bool) : list string :=
  [if add then "add"%string else "delete"%string; "element"%string; "inet"%string; NFT_TABLE; paid_set ip;
   braced ip].

Definition counter_key (ip : IpAddr) : string := replace_char dot "_" (replace_char colon "_" ip).
Definition counter_names (ip : IpAddr) : string * string :=
  ("tg_d_" +:+ counter_key ip, "tg_r_" +:+ counter_key ip).
Definition upstream_counter_name (ip : IpAddr) : string := "tg_up_" +:+ counter_key ip.

(** The lines of a script. *)
Definition script (l : list string) : string :=
  foldr (fun line rest => line +:+ String newline rest) EmptyString l.

Definition base_ruleset : list string :=
  ["add table inet " +:+ NFT_TABLE; "delete table inet " +:+ NFT_TABLE; "add table inet " +:+ NFT_TABLE;
   "add set inet " +:+ NFT_TABLE +:+ " paid_peers_v4 { type ipv4_addr; flags interval; }";
   "add set inet " +:+ NFT_TABLE +:+ " paid_peers_v6 { type ipv6_addr; flags interval; }"].
Definition forward_chain : list string :=
  let rule r := "add rule inet " +:+ NFT_TABLE +:+ " forward " +:+ r in
  ["add chain inet " +:+ NFT_TABLE +:+ " forward { type filter hook forward priority 0; policy drop; }";
   rule "ct state established,related accept"; rule "ip saddr @paid_peers_v4 accept";
   rule "ip daddr @paid_peers_v4 accept"; rule "ip6 saddr @paid_peers_v6 accept";
   rule "ip6 daddr @paid_peers_v6 accept"].
Definition ruleset (install_forward_chain : bool) : string :=
  script (base_ruleset ++ if install_forward_chain then forward_chain else []).

Definition counters_batch (ip : IpAddr) : string :=
  let '(delivered, received) := counter_names ip in
  let proto := if is_v6 ip then "ip6"%string else "ip"%string in
  let rule dir name :=
    "insert rule inet " +:+ NFT_TABLE +:+ " forward " +:+ proto +:+ dir +:+ ip +:+ " counter name " +:+ name in
  script ["add counter inet " +:+ NFT_TABLE +:+ " " +:+ delivered;
          "add counter inet " +:+ NFT_TABLE +:+ " " +:+ received;
          rule " daddr "%string delivered; rule " saddr "%string received].

Definition upstream_batch (ip : IpAddr) (mac : string) : string :=
  let name := upstream_counter_name ip in
  script ["add table inet " +:+ NFT_TABLE;
          "add chain inet " +:+ NFT_TABLE +:+ " ingress { type filter hook prerouting priority -300; }";
          "add counter inet " +:+ NFT_TABLE +:+ " " +:+ name;
          "insert rule inet " +:+ NFT_TABLE +:+ " ingress ether saddr " +:+ mac +:+ " counter name " +:+ name].

Definition list_counters_args : list string :=
  ["-j"%string; "list"%string; "counters"%string; "table"%string; "inet"%string; NFT_TABLE].

(** ** What is read back *)

(** The MAC of [ip] in the text of [/proc/net/arp]: the fourth column of the first line
    whose first column is [ip], unless all zero. *)
Fixpoint arp_mac (ip : string) (rows : list (list string)) : option string :=
  match rows with
  | [] => None
  | cols :: rows =>
      if bool_decide (cols !! 0%nat = Some ip) then
        match cols !! 3%nat with
        | Some mac => if bool_decide (mac <> "00:00:00:00:00:00"%string) then Some mac else None
        | None => None
        end
      else arp_mac ip rows
  end.
Definition parse_arp_mac (arp_table ip : string) : option string :=
  arp_mac ip (split_whitespace <$> drop 1 (lines arp_table)).

(** The byte total of the first counter called [name]. *)
Fixpoint counter_bytes (name : string) (items : list Value) : option Z :=
  match items with
  | [] => None
  | item :: items =>
      match get item "counter" with
      | None => counter_bytes name items
      | Some counter =>
          if bool_decide ((get counter "name" ≫= as_str) = Some name)
          then get counter "bytes" ≫= value_as_u64
          else counter_bytes name items
      end
  end.
Definition parse_counter_bytes `{SerdeJson} (json name : string) : option Z :=
  value ← json_from_str json; nftables ← get value "nftables"; items ← as_array nftables;
  counter_bytes name items.

(** The statistics files of an interface, and 0 for what cannot be read or parsed. *)
Definition read_iface_counters (read_to_string : string -> option string) (parse : string -> option Z)
    (iface : string) : Counters.t :=
  let stat kind :=
    unwrap_or (read_to_string ("/sys/class/net/" +:+ iface +:+ "/statistics/" +:+ kind +:+ "_bytes")
               ≫= fun s => parse (trim s)) 0 in
  Counters.mk (stat "tx"%string) (stat "rx"%string).

Module IpAdapter.
Section adapter.
Context `{Nft}.

(** The kernel, the flag set at [init], and the two sets of addresses whose rules
    have been installed. *)
Record t : Type := mk {
  tables : kernel;
  counters_available : bool;
  installed : gset IpAddr;
  installed_up : gset IpAddr
}.
Definition new (k : kernel) : t := mk k false ∅ ∅.
Definition set_tables (k : kernel) (a : t) : t :=
  mk k (counters_available a) (installed a) (installed_up a).
Definition set_installed (s : gset IpAddr) (a : t) : t :=
  mk (tables a) (counters_available a) s (installed_up a).
Definition set_installed_up (s : gset IpAddr) (a : t) : t :=
  mk (tables a) (counters_available a) (installed a) s.

(** [run_batch]. *)
Definition run_batch (text : string) (a : t) : t * bool :=
  let '(k, ok) := nft_f text (tables a) in (set_tables k a, ok).

Definition nft_init (install_forward_chain : bool) (a : t) : t * bool :=
  run_batch (ruleset install_forward_chain) a.
Definition init (install_forward_chain : bool) (a : t) : t * bool :=
  nft_init install_forward_chain
    (mk (tables a) install_forward_chain (installed a) (installed_up a)).

(** [nft::apply]: a failure is logged. *)
Definition apply (ip : IpAddr) (add : bool) (a : t) : t :=
  set_tables (nft (nft_element_args ip add) (tables a)).1 a.

Definition ensure_counters (ip : IpAddr) (a : t) : t :=
  if decide (ip ∈ installed a) then a
  else
    let a := set_installed ({[ip]} ∪ installed a) a in
    let '(a, ok) := run_batch (counters_batch ip) a in
    if ok then a else set_installed (installed a ∖ {[ip]}) a.

Definition allow (ip : IpAddr) (a : t) : t :=
  let a := apply ip true a in
  if counters_available a then ensure_counters ip a else a.
Definition deny (ip : IpAddr) (a : t) : t := apply ip false a.

Definition ensure_upstream_counter (arp : option string) (ip : IpAddr) (a : t) : t :=
  if decide (ip ∈ installed_up a) then a
  else match arp ≫= fun table => parse_arp_mac table ip with
       | None => a
       | Some mac =>
           let '(a, ok) := run_batch (upstream_batch ip mac) a in
           if ok then set_installed_up ({[ip]} ∪ installed_up a) a else a
       end.

Definition read_counters `{SerdeJson} (ip : IpAddr) (a : t) : Counters.t :=
  let '(delivered_name, received_name) := counter_names ip in
  match (nft list_counters_args (tables a)).2 with
  | Some json => Counters.mk (unwrap_or (parse_counter_bytes json delivered_name) 0)
                             (unwrap_or (parse_counter_bytes json received_name) 0)
  | None => Counters.default
  end.
Definition read_upstream_received `{SerdeJson} (ip : IpAddr) (a : t) : Z :=
  match (nft list_counters_args (tables a)).2 with
  | Some json => unwrap_or (parse_counter_bytes json (upstream_counter_name ip)) 0
  | None => 0
  end.

(** The driver's calls. *)
Definition call (a : t) (c : Firewall) : t :=
  match c with Allow ip => allow ip a | Deny ip => deny ip a end.
End adapter.
Arguments t {_}.
End IpAdapter.

(** ** The documented behaviour of the tool *)

Class NftLaws `{Nft} : Prop := {
  (** [add element] and [delete element], when they succeed, change that element only. *)
  nft_added ip k k' out : nft (nft_element_args ip true) k = (k', Some out) ->
    forall s a, member s a k' <-> (s = paid_set ip /\ a = ip) \/ member s a k;
  nft_deleted ip k k' out : nft (nft_element_args ip false) k = (k', Some out) ->
    forall s a, member s a k' <-> ~ (s = paid_set ip /\ a = ip) /\ member s a k;
  (** A command that fails, for whatever reason, or could not be run, changes nothing:
      a command is one transaction. *)
  nft_refused args k k' : nft args k = (k', None) -> k' = k;
  (** Counters and their rules are not elements of sets. *)
  nft_counters ip k s a : member s a (nft_f (counters_batch ip) k).1 <-> member s a k;
  (** The base ruleset creates the sets anew. *)
  nft_fresh b k k' s a : nft_f (ruleset b) k = (k', true) -> ~ member s a k'
}.

(** No [add element] of the log is refused. *)
Fixpoint adds_served `{Nft} (a : IpAdapter.t) (log : list Firewall) : bool :=
  match log with
  | [] => true
  | c :: log =>
      match c with
      | Allow ip => is_some (nft (nft_element_args ip true) (IpAdapter.tables a)).2
      | Deny _ => true
      end && adds_served (IpAdapter.call a c) log
  end.

(** Every [delete element] of the log that had something to delete went through. *)
Fixpoint deletes_served `{Nft} (a : IpAdapter.t) (log : list Firewall) : Prop :=
  match log with
  | [] => True
  | c :: log =>
      match c with
      | Allow _ => True
      | Deny ip => member (paid_set ip) ip (IpAdapter.tables a) ->
          is_some (nft (nft_element_args ip false) (IpAdapter.tables a)).2 = true
      end /\ deletes_served (IpAdapter.call a c) log
  end.

(** ** Installing counters from several tasks

    [allow] may run in several tasks at once. Each holds the lock of [INSTALLED] to
    claim the address, releases it, runs the batch, and takes the lock again to give
    the claim up when the batch failed. *)

Module Install.
Inductive pc : Type := Batch (ip : IpAddr) | GiveUp (ip : IpAddr).
(** The claimed addresses, what each task is about to do, the addresses of the batches
    that succeeded. *)
Record t : Type := mk { installed : gset IpAddr; tasks : gmap nat pc; done : list IpAddr }.
Inductive event : Type := Claim (task : nat) (ip : IpAddr) | RunBatch (task : nat) (ok : bool)
| Release (task : nat).

Definition step (s : t) (e : event) : t :=
  match e with
  | Claim k ip =>
      if decide (is_Some (tasks s !! k) \/ ip ∈ installed s) then s
      else mk ({[ip]} ∪ installed s) (<[k := Batch ip]> (tasks s)) (done s)
  | RunBatch k ok =>
      match tasks s !! k with
      | Some (Batch ip) =>
          if ok : bool then mk (installed s) (delete k (tasks s)) (done s ++ [ip])
          else mk (installed s) (<[k := GiveUp ip]> (tasks s)) (done s)
      | _ => s
      end
  | Release k =>
      match tasks s !! k with
      | Some (GiveUp ip) => mk (installed s ∖ {[ip]}) (delete k (tasks s)) (done s)
      | _ => s
      end
  end.
Definition init : t := mk ∅ ∅ [].
Definition on (c : pc) : IpAddr := match c with Batch ip | GiveUp ip => ip end.

(** [ensure_upstream_counter] looks the address up first and enters it last. *)
Inductive up_event : Type := Look (task : nat) (ip : IpAddr) | UpBatch (task : nat) (ok : bool).
Definition up_step (s : t) (e : up_event) : t :=
  match e with
  | Look k ip =>
      if decide (is_Some (tasks s !! k) \/ ip ∈ installed s) then s
      else mk (installed s) (<[k := Batch ip]> (tasks s)) (done s)
  | UpBatch k ok =>
      match tasks s !! k with
      | Some (Batch ip) =>
          if ok : bool then mk ({[ip]} ∪ installed s) (delete k (tasks s)) (done s ++ [ip])
          else mk (installed s) (delete k (tasks s)) (done s)
      | _ => s
      end
  end.

(** Every claimed address is one task's or installed, never both, never twice. *)
Record exclusive (s : t) : Prop := {
  ex_done : NoDup (done s);
  ex_installed ip : ip ∈ done s -> ip ∈ installed s;
  ex_apart k c : tasks s !! k = Some c -> on c ∈ installed s /\ on c ∉ done s;
  ex_once k k' c c' : tasks s !! k = Some c -> tasks s !! k' = Some c' -> on c = on c' -> k = k'
}.
End Install.

(** ** Lemmas *)

Section laws.
Context `{NftLaws}.

(** What one decision does to the sets. *)
Lemma call_member a c s ip :
  member s ip (IpAdapter.tables (IpAdapter.call a c)) <->
  match c with
  | Allow ip' =>
      if is_some (nft (nft_element_args ip' true) (IpAdapter.tables a)).2
      then (s = paid_set ip' /\ ip = ip') \/ member s ip (IpAdapter.tables a)
      else member s ip (IpAdapter.tables a)
  | Deny ip' =>
      if is_some (nft (nft_element_args ip' false) (IpAdapter.tables a)).2
      then ~ (s = paid_set ip' /\ ip = ip') /\ member s ip (IpAdapter.tables a)
      else member s ip (IpAdapter.tables a)
  end.
Proof.
  destruct c as [ip'|ip']; cbn [IpAdapter.call].
  - set (a' := IpAdapter.apply ip' true a).
    assert (member s ip (IpAdapter.tables (IpAdapter.allow ip' a)) <->
            member s ip (IpAdapter.tables a')) as ->.
    { unfold IpAdapter.allow. fold a'. destruct (IpAdapter.counters_available a'); [|done].
      unfold IpAdapter.ensure_counters. destruct (decide _); [done|].
      pose proof (nft_counters ip' (IpAdapter.tables a') s ip) as E.
      unfold IpAdapter.run_batch. cbn. destruct (nft_f _ _) as [k []]; exact E. }
    unfold a', IpAdapter.apply. cbn.
    destruct (nft (nft_element_args ip' true) (IpAdapter.tables a)) as [k [out|]] eqn:E; cbn.
    + exact (nft_added _ _ _ _ E s ip).
    + by rewrite (nft_refused _ _ _ E).
  - unfold IpAdapter.deny, IpAdapter.apply. cbn.
    destruct (nft (nft_element_args ip' false) (IpAdapter.tables a)) as [k [out|]] eqn:E; cbn.
    + exact (nft_deleted _ _ _ _ E s ip).
    + by rewrite (nft_refused _ _ _ E).
Qed.

Lemma rules_snoc log c ip :
  rules_of (log ++ [c]) !! ip =
    match c with
    | Allow ip' => if decide (ip' = ip) then Some true else rules_of log !! ip
    | Deny ip' => if decide (ip' = ip) then Some false else rules_of log !! ip
    end.
Proof.
  unfold rules_of. rewrite foldl_app. cbn.
  destruct c as [ip'|ip']; destruct (decide (ip' = ip)) as [->|Hne];
    by rewrite ?lookup_insert_eq, ?lookup_insert_ne.
Qed.

Lemma adds_served_snoc a log c :
  adds_served a (log ++ [c]) = true ->
  adds_served a log = true /\
  (forall ip, c = Allow ip ->
   is_some (nft (nft_element_args ip true) (IpAdapter.tables (foldl IpAdapter.call a log))).2 = true).
Proof.
  revert a. induction log as [|c' log IH]; intros a; cbn.
  - intros [Hc _]%andb_prop. split; [done|]. by intros ip ->.
  - intros [Hc Hl]%andb_prop. destruct (IH _ Hl) as [H1 H2]. by rewrite Hc, H1.
Qed.

Lemma deletes_served_snoc a log c :
  deletes_served a (log ++ [c]) ->
  deletes_served a log /\
  (forall ip, c = Deny ip -> member (paid_set ip) ip (IpAdapter.tables (foldl IpAdapter.call a log)) ->
   is_some (nft (nft_element_args ip false) (IpAdapter.tables (foldl IpAdapter.call a log))).2 = true).
Proof.
  revert a. induction log as [|c' log IH]; intros a; cbn.
  - intros [Hc _]. split; [done|]. by intros ip ->.
  - intros [Hc Hl]. destruct (IH _ Hl) as [H1 H2]. by split.
Qed.

(** Whatever fails, the paid sets hold only addresses that were let in, in their set. *)
Lemma members_in_log a log s ip :
  (forall s ip, ~ member s ip (IpAdapter.tables a)) ->
  member s ip (IpAdapter.tables (foldl IpAdapter.call a log)) ->
  s = paid_set ip /\ Allow ip ∈ log.
Proof.
  intros Ha. induction log as [|c log IH] using rev_ind; [by intros ?%Ha|].
  rewrite foldl_app, elem_of_app. cbn [foldl]. rewrite call_member.
  destruct c as [ip'|ip']; destruct (is_some _).
  - intros [[-> ->]|[-> ?]%IH]; (split; [done|]); [right; by left|by left].
  - intros [-> ?]%IH. by auto.
  - intros [_ [-> ?]%IH]. by auto.
  - intros [-> ?]%IH. by auto.
Qed.

(** When the deletes went through, the last decision about them was to allow. *)
Lemma members_allowed a log s ip :
  (forall s ip, ~ member s ip (IpAdapter.tables a)) -> deletes_served a log ->
  member s ip (IpAdapter.tables (foldl IpAdapter.call a log)) ->
  rules_of log !! ip = Some true.
Proof.
  intros Ha. induction log as [|c log IH] using rev_ind; [by intros _ ?%Ha|].
  intros [Hs Hc]%deletes_served_snoc Hm.
  destruct (members_in_log _ _ _ _ Ha Hm) as [-> _]. revert Hm.
  rewrite foldl_app, rules_snoc. cbn [foldl]. rewrite call_member.
  destruct c as [ip'|ip']; destruct (decide (ip' = ip)) as [->|Hne]; destruct (is_some _) eqn:E; auto.
  - intros [[_ ->]|Hm]; [done|by apply IH].
  - intros [Hn _]. by destruct Hn.
  - intros Hm. by rewrite (Hc ip eq_refl Hm) in E.
  - intros [_ Hm]. by apply IH.
Qed.

Lemma allowed_members a log ip :
  adds_served a log = true -> rules_of log !! ip = Some true ->
  member (paid_set ip) ip (IpAdapter.tables (foldl IpAdapter.call a log)).
Proof.
  induction log as [|c log IH] using rev_ind; [done|].
  intros [Hs Hc]%adds_served_snoc. rewrite foldl_app, rules_snoc. cbn [foldl].
  rewrite call_member. destruct c as [ip'|ip']; destruct (decide (ip' = ip)) as [->|Hne]; intros Hr.
  - rewrite (Hc ip eq_refl). by left.
  - destruct (is_some _); [right|]; by apply IH.
  - done.
  - destruct (is_some _); [split; [|by apply IH]|by apply IH]. by intros [_ ->].
Qed.
End laws.

Lemma install_exclusive s e : Install.exclusive s -> Install.exclusive (Install.step s e).
Proof.
  intros [D I A O]. destruct e as [k ip|k ok|k]; cbn.
  - destruct (decide _) as [|Hn]; [by constructor|]. apply Decidable.not_or in Hn as [Hk Hip].
    apply eq_None_not_Some in Hk. constructor; cbn; [done|set_solver| |].
    + intros k' c. destruct (decide (k' = k)) as [->|Hne].
      * rewrite lookup_insert_eq. intros [= <-]. cbn. split; [set_solver|]. by intros ?%I.
      * rewrite lookup_insert_ne by done. intros [? ?]%A. set_solver.
    + intros k1 k2 c1 c2. destruct (decide (k1 = k)) as [->|H1], (decide (k2 = k)) as [->|H2];
        rewrite ?lookup_insert_eq, ?lookup_insert_ne by done; try done.
      * intros [= <-] E2 Eq. cbn in Eq. destruct (A _ _ E2). by rewrite <- Eq in *.
      * intros E1 [= <-] Eq. cbn in Eq. destruct (A _ _ E1). by rewrite Eq in *.
      * apply O.
  - destruct (Install.tasks s !! k) as [[ip|ip]|] eqn:Ek; [|by constructor..].
    destruct (A _ _ Ek) as [A1 A2]. cbn in A1, A2. destruct ok; constructor; cbn.
    + apply NoDup_app. split_and!; [done|set_solver|apply NoDup_singleton].
    + intros ip'. rewrite elem_of_app, list_elem_of_singleton. intros [?| ->]; [by apply I|done].
    + intros k' c. destruct (decide (k' = k)) as [->|Hne]; [by rewrite lookup_delete_eq|].
      rewrite lookup_delete_ne by done. intros Ec. destruct (A _ _ Ec). split; [done|].
      rewrite elem_of_app, list_elem_of_singleton. intros [?|Eq]; [done|]. by destruct Hne; eapply O.
    + intros k1 k2 c1 c2. rewrite !lookup_delete_Some. intros [_ E1] [_ E2]. by apply O.
    + done.
    + done.
    + intros k' c. destruct (decide (k' = k)) as [->|Hne];
        [rewrite lookup_insert_eq; by intros [= <-]|rewrite lookup_insert_ne by done; apply A].
    + intros k1 k2 c1 c2. destruct (decide (k1 = k)) as [->|H1], (decide (k2 = k)) as [->|H2];
        rewrite ?lookup_insert_eq, ?lookup_insert_ne by done; try done.
      * intros [= <-] E2 Eq. by apply (O _ _ _ _ Ek E2).
      * intros E1 [= <-] Eq. by apply (O _ _ _ _ E1 Ek).
      * apply O.
  - destruct (Install.tasks s !! k) as [[ip|ip]|] eqn:Ek; [by constructor| |by constructor].
    destruct (A _ _ Ek) as [A1 A2]. cbn in A1, A2. constructor; cbn; [done| | |].
    + intros ip' Hin. apply elem_of_difference. split; [by apply I|set_solver].
    + intros k' c. rewrite lookup_delete_Some. intros [Hne Ec]. destruct (A _ _ Ec). split; [|done].
      apply elem_of_difference. split; [done|]. intros Eq%elem_of_singleton. by destruct Hne; eapply O.
    + intros k1 k2 c1 c2. rewrite !lookup_delete_Some. intros [_ E1] [_ E2]. by apply O.
Qed.

Lemma install_runs_exclusive es : Install.exclusive (foldl Install.step Install.init es).
Proof.
  induction es as [|e es IH] using rev_ind.
  - constructor; cbn; [constructor|set_solver|done|done].
  - rewrite foldl_app. by apply install_exclusive.
Qed.

(** One task running alone is [ensure_counters]. *)
Lemma install_alone `{Nft} ip a ok :
  (nft_f (counters_batch ip) (IpAdapter.tables a)).2 = ok ->
  let s := Install.mk (IpAdapter.installed a) ∅ [] in
  IpAdapter.installed (IpAdapter.ensure_counters ip a) =
    Install.installed (foldl Install.step s [Install.Claim 0 ip; Install.RunBatch 0 ok; Install.Release 0]).
Proof.
  intros Hok s. unfold IpAdapter.ensure_counters, IpAdapter.run_batch, s. cbn.
  destruct (decide (ip ∈ IpAdapter.installed a)) as [Hin|Hin].
  - rewrite decide_True by (by right). by destruct ok.
  - rewrite decide_False by (rewrite lookup_empty; intros [[? ?]|?]; done). cbn.
    rewrite lookup_insert_eq. destruct (nft_f _ _) as [k ok']. cbn in *. subst ok'.
    destruct ok; cbn; rewrite ?lookup_insert_eq, ?lookup_delete_eq; done.
Qed.

Lemma braced_inj a b : braced a = braced b -> a = b.
Proof.
  unfold braced. intros E%(f_equal chars). rewrite !chars_app in E.
  apply app_inv_head, app_inv_tail in E. by rewrite <- (of_chars_chars a), E, of_chars_chars.
Qed.

Definition underscore : Ascii.ascii := Ascii.ascii_of_N 95.

Lemma replace_char_none c by_ s : c ∉ chars s -> replace_char c by_ s = s.
Proof.
  induction s as [|x s IH]; intros Hn; [done|]. cbn [replace_char].
  change (c ∉ x :: chars s) in Hn. apply not_elem_of_cons in Hn as [Hne Hn].
  destruct (decide (x = c)); [congruence|]. by rewrite IH.
Qed.

Lemma replace_char_inj c a b :
  underscore ∉ chars a -> underscore ∉ chars b ->
  replace_char c "_" a = replace_char c "_" b -> a = b.
Proof.
  revert b. induction a as [|x a IH]; intros [|y b] Ha Hb; cbn [replace_char]; try done;
    repeat match goal with H : underscore ∉ chars (String ?x ?s) |- _ =>
      change (underscore ∉ x :: chars s) in H; apply not_elem_of_cons in H as [? ?] end.
  - by destruct (decide (y = c)).
  - by destruct (decide (x = c)).
  - destruct (decide (x = c)) as [->|], (decide (y = c)) as [->|]; intros E; injection E;
      intros; subst; try done; by f_equal; apply IH.
Qed.

(** Two IPv4 addresses never share a counter. *)
Lemma counter_key_inj a b :
  is_v6 a = false -> is_v6 b = false -> underscore ∉ chars a -> underscore ∉ chars b ->
  counter_key a = counter_key b -> a = b.
Proof.
  unfold is_v6, counter_key. intros Ha%bool_decide_eq_false_1 Hb%bool_decide_eq_false_1 Ua Ub.
  rewrite !(replace_char_none colon) by done. by apply replace_char_inj.
Qed.

(** ** A tool, for the witnesses *)

Module NftDemo.
Definition run_args (args : list string) (k : gset (string * string))
    : gset (string * string) * option string :=
  match args with
  | [op; _; _; _; s; e] =>
      if decide (op = "add"%string) then ({[(s, e)]} ∪ k, Some EmptyString)
      else if decide ((s, e) ∈ k) then (k ∖ {[(s, e)]}, Some EmptyString) else (k, None)
  | _ => (k, None)
  end.
#[export] Instance tool : Nft := {
  kernel := gset (string * string);
  nft := run_args;
  nft_f text k := (if starts_with "add table" text then ∅ else k, true);
  member s a k := (s, braced a) ∈ k
}.
#[export] Instance tool_laws : NftLaws.
Proof.
  split.
  - intros ip k k' out [= <- <-] s a. cbn. rewrite elem_of_union, elem_of_singleton.
    split; (intros [E|?]; [left|by right]).
    + by apply pair_equal_spec in E as [-> ->%braced_inj].
    + by destruct E as [-> ->].
  - intros ip k k' out E s a. cbn in *.
    repeat case_decide; simplify_eq.
    rewrite elem_of_difference, elem_of_singleton.
    split; [intros [Hin' Hne]; split; [by intros [-> ->]|done]|intros [Hne Hin']; split; [done|]].
    by intros [-> ->%braced_inj]%pair_equal_spec; apply Hne.
  - intros args k k' E. cbn in E. unfold run_args in E. repeat case_match; by simplify_eq.
  - done.
  - intros b k k' s a E. cbn in E. destruct b; simplify_eq; cbn; set_solver.
Qed.
Definition booted : IpAdapter.t := (IpAdapter.init true (IpAdapter.new (∅ : @kernel tool))).1.

(** The calls the node of [NodeDemo] makes, and the sets after them. *)
Definition log : list Firewall := [Deny "10.0.0.2"; Allow "10.0.0.2"].
Definition listed : gset (string * string) := IpAdapter.tables (foldl IpAdapter.call booted log).
Lemma alice_listed : ("paid_peers_v4"%string, braced "10.0.0.2") ∈ listed.
Proof.
  assert (elements listed = [("paid_peers_v4"%string, braced "10.0.0.2")]) as E
    by (vm_compute; reflexivity).
  apply elem_of_elements. rewrite E. by left.
Qed.
End NftDemo.

(** ** Properties *)

(** C7: the kernel's paid sets follow payment. Take a node in any state it can reach
    from its start, and the firewall calls it made, carried out with the tool on paid
    sets that begin empty. Some run of the specification stands behind the node, and:
    (1) whichever calls of the tool fail, an address is in a paid set only if some peer
    had that address when a payment of its own was verified, and it is then in the set
    of its own family; (2) if every [delete] of an element that was there succeeded,
    only addresses whose rule the specification has open are in the sets; (3) if every
    [add] succeeded, every address whose rule is open is in its set. Under (2) and (3)
    together the addresses in the sets are exactly those with an open rule. *)
Theorem kernel_follows_payment `{Minicbor, HexCodec, Cashu, UrlParser, !HexLaws, NftLaws}
    clock mint cfg wallet ops a :
  (forall s ip, ~ member s ip (IpAdapter.tables a)) ->
  let d := (run (NetDriverFacts.op_step clock mint cfg) (Driver.new cfg wallet) ops).1 in
  let kernel := IpAdapter.tables (foldl IpAdapter.call a (Driver.firewall d)) in
  exists ls, refines d (Policy.run (Driver.our_price cfg) ls) /\
    (forall s ip, member s ip kernel -> s = paid_set ip /\
       exists pre q amount now post,
         ls = pre ++ Policy.Ev (Session.Event.BootstrapVerified q amount true) now :: post /\
         Policy.book (Policy.run (Driver.our_price cfg) pre) !! q = Some ip) /\
    (deletes_served a (Driver.firewall d) -> forall s ip, member s ip kernel ->
       Policy.rules (Policy.run (Driver.our_price cfg) ls) !! ip = Some true) /\
    (adds_served a (Driver.firewall d) = true -> forall ip,
       Policy.rules (Policy.run (Driver.our_price cfg) ls) !! ip = Some true ->
       member (paid_set ip) ip kernel).
Proof.
  intros Ha d kernel.
  assert (follows cfg d) as (ls & Hr & Hv)
    by (apply (run_keeps _ (follows cfg)); [intros; by apply op_follows|apply boot_follows]).
  exists ls. split; [done|]. rewrite <- (rf_rules _ _ Hr). split_and!.
  - intros s ip [Hs Hin]%(members_in_log _ _ _ _ Ha). split; [done|]. by apply Hv.
  - intros Hd s ip. by apply members_allowed.
  - intros Hok ip. by apply allowed_members.
Qed.

Lemma kernel_follows_payment_witness :
  let d := (run NetDriverFacts.NodeDemo.step NetDriverFacts.NodeDemo.boot NetDriverFacts.NodeDemo.ops).1 in
  adds_served NftDemo.booted (Driver.firewall d) = true /\
  deletes_served NftDemo.booted NftDemo.log /\
  exists pre q amount now post (ls : list Policy.label),
    ls = pre ++ Policy.Ev (Session.Event.BootstrapVerified q amount true) now :: post.
Proof.
  intros d.
  assert (forall s ip, ~ member s ip (IpAdapter.tables NftDemo.booted)) as Ha
    by (intros s ip; exact (nft_fresh (NftLaws := NftDemo.tool_laws) true ∅ _ s ip eq_refl)).
  split; [vm_compute; reflexivity|].
  split; [split; [intros Hin; by destruct (Ha _ _ Hin)|split; exact I]|].
  destruct (kernel_follows_payment (H := ToyCodec.Toy.toy) (H0 := Consume.ConsumeDemo.hex)
    (H3 := NodeDemo.hex_laws) (H5 := NftDemo.tool_laws)
    NetDriverFacts.NodeDemo.clock NetDriverFacts.NodeDemo.mint NetDriverFacts.NodeDemo.cfg
    WalletDemo.wallet NetDriverFacts.NodeDemo.ops NftDemo.booted Ha) as (ls & _ & Hm & _).
  match type of Hm with context [Driver.firewall ?x] =>
    assert (Driver.firewall x = NftDemo.log) as E by (vm_compute; reflexivity) end.
  rewrite E in Hm. clear E.
  destruct (Hm "paid_peers_v4"%string "10.0.0.2"%string) as (_ & pre & q & am & now & post & E & _).
  - exact NftDemo.alice_listed.
  - by exists pre, q, am, now, post, ls.
Defined.

(** A [delete] that fails leaves the peer's address where it was: the driver, which is
    not told, has shut the rule, and the kernel forwards for the peer as before. *)
Theorem failed_revocation_keeps_access `{NftLaws} a ip :
  member (paid_set ip) ip (IpAdapter.tables a) ->
  (nft (nft_element_args ip false) (IpAdapter.tables a)).2 = None ->
  member (paid_set ip) ip (IpAdapter.tables (IpAdapter.call a (Deny ip))).
Proof. intros Hm Hf. rewrite call_member, Hf. exact Hm. Qed.

(** A peer's counter rules are installed once. However the tasks that allow peers
    interleave, and whichever batches fail, no address has two successful batches, so
    no byte is counted twice; an address whose batch succeeded stays claimed, and two
    tasks never work on the same address at once. *)
Theorem counters_installed_once es :
  let s := foldl Install.step Install.init es in
  NoDup (Install.done s) /\
  (forall ip, ip ∈ Install.done s -> ip ∈ Install.installed s) /\
  (forall k k' c c', Install.tasks s !! k = Some c -> Install.tasks s !! k' = Some c' ->
     Install.on c = Install.on c' -> k = k').
Proof. by destruct (install_runs_exclusive es). Qed.

(** ** Departures *)

(** The upstream counter is looked up before its batch and entered after it, so two
    tasks may both install the rule, and each received byte is then counted twice. *)
Theorem upstream_rule_installed_twice :
  Install.done (foldl Install.up_step Install.init
    [Install.Look 0 "10.0.0.1"; Install.Look 1 "10.0.0.1"; Install.UpBatch 0 true; Install.UpBatch 1 true])
  = ["10.0.0.1"; "10.0.0.1"]%string.
Proof. vm_compute. reflexivity. Qed.

(** Two different IPv6 addresses, as [Display] prints them, with the same counters. *)
Theorem mapped_address_shares_counters :
  counter_names "::ffff:1.2.3.4" = counter_names "::ffff:1:2:3:4".
Proof. vm_compute. reflexivity. Qed.
