(* ===== verification/LnQuotes.v ===== *)
(** * Lightning quotes: the store, the monitors and the janitor

    Models [crates/tollgate-net/src/v1_compat/ln_quotes.rs]. The store is a map behind
    a lock, so each of its methods is one step. A monitor polls one quote; between two
    of its awaits any other task may run, so it is a state machine that remembers which
    await it is at and the copy of the record it works on. The mint and the access
    controller are the [QuoteProcessor] of the caller: their answers are arguments. *)

From S2P Require Import Prelude Wallet.

Module QuoteState.
Inductive t : Set := Unpaid | Paid | Issued.
#[export] Instance eq_dec : EqDecision t.
Proof. solve_decision. Defined.
Definition display (s : t) : string :=
  match s with Unpaid => "UNPAID" | Paid => "PAID" | Issued => "ISSUED" end.
End QuoteState.
Export (hints) QuoteState.

Module Quote.
(** [LightningQuoteRecord]. *)
Record t : Set := mk {
  quote_id : string;
  mac_address : string;
  mint_url : string;
  amount : Z;
  expiry : Z;
  allotment : Z;
  created_at : Z;
  completed_at : option Z;
  session_granted : bool;
  processing : bool;
  invoice : string;
  cached_state : option QuoteState.t;
  cached_state_at : option Z
}.
Definition set_cached (s : QuoteState.t) (at_ : Z) (r : t) : t :=
  mk (quote_id r) (mac_address r) (mint_url r) (amount r) (expiry r) (allotment r) (created_at r)
    (completed_at r) (session_granted r) (processing r) (invoice r) (Some s) (Some at_).
Definition set_processing (b : bool) (r : t) : t :=
  mk (quote_id r) (mac_address r) (mint_url r) (amount r) (expiry r) (allotment r) (created_at r)
    (completed_at r) (session_granted r) b (invoice r) (cached_state r) (cached_state_at r).
(** The record of a granted quote; [processing] stays as it was. *)
Definition granted (allotment : Z) (now : Z) (r : t) : t :=
  mk (quote_id r) (mac_address r) (mint_url r) (amount r) (expiry r) allotment (created_at r)
    (Some now) true (processing r) (invoice r) (Some QuoteState.Issued) (cached_state_at r).
End Quote.

(** ** The store *)

Module Store.
Abbreviation t := (gmap string Quote.t).
Definition insert (record : Quote.t) (m : t) : t := <[Quote.quote_id record := record]> m.
Definition get (quote_id : string) (m : t) : option Quote.t := m !! quote_id.
Definition get_for_mac (quote_id mac : string) (m : t) : option Quote.t :=
  match m !! quote_id with
  | Some record => if decide (Quote.mac_address record = mac) then Some record else None
  | None => None
  end.
Definition update (quote_id : string) (record : Quote.t) (m : t) : t := <[quote_id := record]> m.
Definition remove (quote_id : string) (m : t) : t := delete quote_id m.

(** The filter of [list_stale]: an old quote nobody works on; a granted one ten minutes
    after it was completed; one five minutes past its expiry. *)
Definition stale (max_age_secs now : Z) (r : Quote.t) : bool :=
  (negb (Quote.processing r) && negb (Quote.session_granted r) &&
   (max_age_secs <? wrap_i64 (now - Quote.created_at r))) ||
  (Quote.session_granted r &&
   match Quote.completed_at r with
   | Some completed => 600 <? wrap_i64 (now - completed)
   | None => false
   end) ||
  ((0 <? Quote.expiry r) && (wrap_i64 (Quote.expiry r + 300) <? now)).
Definition list_stale (max_age_secs now : Z) (m : t) : list Quote.t :=
  filter (fun r => stale max_age_secs now r = true) (snd <$> map_to_list m).

Definition list_paid_unprocessed (m : t) : list Quote.t :=
  filter (fun r => negb (Quote.processing r) && negb (Quote.session_granted r) &&
    bool_decide (Quote.cached_state r = Some QuoteState.Paid \/
                 Quote.cached_state r = Some QuoteState.Issued) = true)
    (snd <$> map_to_list m).
End Store.

(** ** The monitor of one quote *)

Definition MAX_LIFETIME_MS : Z := 30 * 60 * 1000.
Definition MAX_AGE_SECS : Z := 1800.

Module Monitor.
(** Which await it is at: the sleep, the status check, the mint, the grant. *)
Inductive phase : Type :=
| Sleeping
| Checking (record : Quote.t)
| Minting (record : Quote.t) (now : Z)
| Granting (record : Quote.t) (now : Z).
Record t : Type := mk { quote : string; start : Z; at_ : phase }.
Definition goto (p : phase) (m : t) : t := mk (quote m) (start m) p.

(** What an answer lets it do: go on at another await, or return; and the store. *)
Definition outcome : Type := option t * Store.t.

(** [SystemTime::now().duration_since(start).unwrap_or(max_lifetime) >= max_lifetime]. *)
Definition expired (now_ms : Z) (m : t) : bool :=
  (now_ms <? start m) || (MAX_LIFETIME_MS <=? now_ms - start m).

(** After the sleep: the lifetime, the record, its flags. *)
Definition wake (now_ms : Z) (m : t) (st : Store.t) : outcome :=
  if expired now_ms m then (None, st)
  else match Store.get (quote m) st with
       | None => (None, st)
       | Some record =>
           if Quote.session_granted record then (None, st)
           else if Quote.processing record then (Some (goto Sleeping m), st)
           else (Some (goto (Checking record) m), st)
       end.

(** The answer of [check_status], and the time in seconds. *)
Definition checked (record : Quote.t) (answer : result QuoteState.t string) (now : Z) (m : t)
    (st : Store.t) : outcome :=
  match answer with
  | Err _ => (Some (goto Sleeping m), st)
  | Ok s =>
      let record := Quote.set_cached s now record in
      if decide (s <> QuoteState.Paid /\ s <> QuoteState.Issued) then
        (Some (goto Sleeping m), Store.update (quote m) record st)
      else
        let record := Quote.set_processing true record in
        let st := Store.update (quote m) record st in
        (Some (goto (if decide (s = QuoteState.Paid) then Minting record now
                     else Granting record now) m), st)
  end.

(** A failed mint or grant gives the quote up until the next poll. *)
Definition set_back (record : Quote.t) (m : t) (st : Store.t) : outcome :=
  (Some (goto Sleeping m), Store.update (quote m) (Quote.set_processing false record) st).

Definition minted (record : Quote.t) (now : Z) (ok : bool) (m : t) (st : Store.t) : outcome :=
  if ok then (Some (goto (Granting record now) m), st) else set_back record m st.

Definition access_granted (record : Quote.t) (now : Z) (answer : result Z string) (m : t)
    (st : Store.t) : outcome :=
  match answer with
  | Ok allotment => (None, Store.update (quote m) (Quote.granted allotment now record) st)
  | Err _ => set_back record m st
  end.
End Monitor.

(** ** All the tasks together *)

Module Quotes.
(** The store, the monitors running, the quotes the janitor has listed and not yet
    removed; the monitors ever started and the grants made, each with its quote. *)
Record t : Type := mk {
  store : Store.t;
  monitors : gmap nat Monitor.t;
  doomed : list string;
  started : list (nat * string);
  grants : list (nat * string)
}.
Definition init : t := mk ∅ ∅ [] [] [].

Inductive event : Type :=
| Insert (record : Quote.t)
| Spawn (k : nat) (quote_id : string) (now_ms : Z)
| Wake (k : nat) (now_ms : Z)
| Status (k : nat) (answer : result QuoteState.t string) (now : Z)
| Minted (k : nat) (ok : bool)
| Granted (k : nat) (answer : result Z string)
| JanitorLists (now : Z)
| JanitorRemoves.

(** Put the outcome of monitor [k]'s step back. *)
Definition settle (k : nat) (o : Monitor.outcome) (s : t) : t :=
  mk o.2 (match o.1 with Some m => <[k := m]> (monitors s) | None => delete k (monitors s) end)
    (doomed s) (started s) (grants s).
Definition record_grant (k : nat) (q : string) (s : t) : t :=
  mk (store s) (monitors s) (doomed s) (started s) (grants s ++ [(k, q)]).

(** A pass of the janitor: list the stale quotes, then remove them one by one. *)
Definition janitor_lists (now : Z) (s : t) : t :=
  mk (store s) (monitors s) (Quote.quote_id <$> Store.list_stale MAX_AGE_SECS now (store s))
    (started s) (grants s).
Definition janitor_removes (s : t) : t :=
  match doomed s with
  | q :: rest => mk (Store.remove q (store s)) (monitors s) rest (started s) (grants s)
  | [] => s
  end.

Definition step (s : t) (e : event) : t :=
  match e with
  | Insert record => mk (Store.insert record (store s)) (monitors s) (doomed s) (started s) (grants s)
  | Spawn k q now =>
      if decide (k ∈ (fst <$> started s)) then s
      else mk (store s) (<[k := Monitor.mk q now Monitor.Sleeping]> (monitors s)) (doomed s)
             (started s ++ [(k, q)]) (grants s)
  | Wake k now =>
      match monitors s !! k with
      | Some (Monitor.mk _ _ Monitor.Sleeping as m) => settle k (Monitor.wake now m (store s)) s
      | _ => s
      end
  | Status k answer now =>
      match monitors s !! k with
      | Some (Monitor.mk _ _ (Monitor.Checking r) as m) =>
          settle k (Monitor.checked r answer now m (store s)) s
      | _ => s
      end
  | Minted k ok =>
      match monitors s !! k with
      | Some (Monitor.mk _ _ (Monitor.Minting r now) as m) =>
          settle k (Monitor.minted r now ok m (store s)) s
      | _ => s
      end
  | Granted k answer =>
      match monitors s !! k with
      | Some (Monitor.mk q _ (Monitor.Granting r now) as m) =>
          let s' := settle k (Monitor.access_granted r now answer m (store s)) s in
          if is_ok answer then record_grant k q s' else s'
      | _ => s
      end
  | JanitorLists now => janitor_lists now s
  | JanitorRemoves => janitor_removes s
  end.
Definition run (es : list event) : t := foldl step init es.

(** The copy of the record a monitor holds. *)
Definition held (m : Monitor.t) : option Quote.t :=
  match Monitor.at_ m with
  | Monitor.Sleeping => None
  | Monitor.Checking r | Monitor.Minting r _ | Monitor.Granting r _ => Some r
  end.

Definition granted_by (q : string) (s : t) : nat := length (filter (fun p => p.2 = q) (grants s)).
Definition started_for (q : string) (s : t) : nat := length (filter (fun p => p.2 = q) (started s)).

(** Each monitor runs under the quote it was started for, and grants at most once, at
    its end; a record says granted only after a grant. *)
Record sound (s : t) : Prop := {
  so_started : NoDup (fst <$> started s);
  so_grants : NoDup (fst <$> grants s);
  so_subset p : p ∈ grants s -> p ∈ started s;
  so_running k m : monitors s !! k = Some m ->
    (k, Monitor.quote m) ∈ started s /\ (k ∉ (fst <$> grants s)) /\
    (forall r, held m = Some r -> Quote.session_granted r = false);
  so_stored q r : store s !! q = Some r -> Quote.session_granted r = true ->
    exists k, (k, q) ∈ grants s
}.

(** Callers insert quotes that have not been granted. *)
Definition fresh (e : event) : Prop :=
  match e with Insert r => Quote.session_granted r = false | _ => True end.
End Quotes.

(** ** Lemmas *)

Section sound.
Import Quotes.

(** A step of monitor [k] that grants nothing. *)
Lemma settle_sound k m o s :
  sound s -> monitors s !! k = Some m ->
  (forall m', o.1 = Some m' -> Monitor.quote m' = Monitor.quote m /\
     forall r, held m' = Some r -> Quote.session_granted r = false) ->
  (forall q r, o.2 !! q = Some r -> Quote.session_granted r = true -> store s !! q = Some r) ->
  sound (settle k o s).
Proof.
  intros [S1 S2 S3 S4 S5] Hk Hm Hst. constructor; cbn; try done.
  - intros k' m'. destruct (S4 k m Hk) as (K1 & K2 & _).
    destruct (decide (k' = k)) as [->|Hne].
    + destruct o.1 as [m1|]; [|by rewrite lookup_delete_eq]. rewrite lookup_insert_eq. intros [= <-].
      destruct (Hm m1 eq_refl) as [-> ?]. done.
    + destruct o.1; rewrite ?lookup_insert_ne, ?lookup_delete_ne by done; apply S4.
  - intros q r Hq Hg. by apply (S5 q r); [apply Hst|].
Qed.

(** A store changed in one quote's ungranted record. *)
Lemma update_ungranted q r (st : Store.t) q' r' :
  Quote.session_granted r = false ->
  Store.update q r st !! q' = Some r' -> Quote.session_granted r' = true -> st !! q' = Some r'.
Proof.
  intros Hr. unfold Store.update. destruct (decide (q' = q)) as [->|Hne].
  - rewrite lookup_insert_eq. intros [= <-]. congruence.
  - by rewrite lookup_insert_ne.
Qed.

Lemma set_back_sound k m r s :
  sound s -> monitors s !! k = Some m -> Quote.session_granted r = false ->
  sound (settle k (Monitor.set_back r m (store s)) s).
Proof.
  intros Hs Hk Hr. apply (settle_sound k m); [done|done| |].
  - by intros m' [= <-].
  - intros q r'. by apply update_ungranted.
Qed.

Lemma wake_sound k m now s :
  sound s -> monitors s !! k = Some m -> sound (settle k (Monitor.wake now m (store s)) s).
Proof.
  intros Hs Hk. unfold Monitor.wake, Store.get. destruct (Monitor.expired now m).
  { by apply (settle_sound k m). }
  destruct (store s !! Monitor.quote m) as [r|]; [|by apply (settle_sound k m)].
  destruct (Quote.session_granted r) eqn:Eg; [by apply (settle_sound k m)|].
  destruct (Quote.processing r); apply (settle_sound k m); try done; intros m' [= <-]; [done|].
  split; [done|]. by intros r' [= <-].
Qed.

Lemma checked_sound k m r a now s :
  sound s -> monitors s !! k = Some m -> Quote.session_granted r = false ->
  sound (settle k (Monitor.checked r a now m (store s)) s).
Proof.
  intros Hs Hk Hr. unfold Monitor.checked. destruct a as [st|e].
  - destruct (decide _); apply (settle_sound k m); try done.
    + by intros m' [= <-].
    + intros q r'. by apply update_ungranted.
    + intros m' [= <-]. split; [done|]. intros r'. by destruct (decide _); intros [= <-].
    + intros q r'. by apply update_ungranted.
  - apply (settle_sound k m); try done. by intros m' [= <-].
Qed.

Lemma granted_sound k m r now a s :
  sound s -> monitors s !! k = Some m ->
  sound (record_grant k (Monitor.quote m) (settle k (Monitor.access_granted r now (Ok a) m (store s)) s)).
Proof.
  intros [S1 S2 S3 S4 S5] Hk. destruct (S4 k m Hk) as (K1 & K2 & _). constructor; cbn.
  - done.
  - rewrite fmap_app. cbn. apply NoDup_app. split_and!; [done| |apply NoDup_singleton].
    intros k' Hk' ->%list_elem_of_singleton. done.
  - intros p [?| ->%list_elem_of_singleton]%elem_of_app; [by apply S3|done].
  - intros k' m'. destruct (decide (k' = k)) as [->|Hne]; [by rewrite lookup_delete_eq|].
    rewrite lookup_delete_ne by done. intros Hm'. destruct (S4 k' m' Hm') as (L1 & L2 & L3).
    split_and!; [done| |done]. rewrite fmap_app. cbn. set_solver.
  - intros q r'. unfold Store.update. destruct (decide (q = Monitor.quote m)) as [->|Hne].
    + intros _ _. exists k. set_solver.
    + rewrite lookup_insert_ne by done. intros Hq Hg. destruct (S5 q r' Hq Hg) as [k' ?].
      exists k'. set_solver.
Qed.

Lemma step_sound s e : sound s -> fresh e -> sound (step s e).
Proof.
  intros Hs He. destruct e as [r|k q now|k now|k a now|k ok|k a|now|]; cbn [step].
  - destruct Hs as [S1 S2 S3 S4 S5]. constructor; cbn; try done. intros q r' Hq Hg.
    apply (S5 q r'); [|done]. by eapply update_ungranted.
  - destruct (decide _) as [|Hk]; [done|]. destruct Hs as [S1 S2 S3 S4 S5].
    constructor; cbn; try done.
    + rewrite fmap_app. cbn. apply NoDup_app. split_and!; [done| |apply NoDup_singleton].
      intros k' Hk' ->%list_elem_of_singleton. done.
    + intros p Hp. apply elem_of_app. left. by apply S3.
    + intros k' m. destruct (decide (k' = k)) as [->|Hne].
      * rewrite lookup_insert_eq. intros [= <-]. split_and!; [set_solver| |done].
        intros (p & -> & Hp)%list_elem_of_fmap. apply Hk, list_elem_of_fmap. exists p. auto.
      * rewrite lookup_insert_ne by done. intros Hm. destruct (S4 k' m Hm) as (? & ? & ?).
        split_and!; [set_solver|done|done].
  - destruct (monitors s !! k) as [[q st []]|] eqn:Hk; try done. by apply wake_sound.
  - destruct (monitors s !! k) as [[q st [|r| |]]|] eqn:Hk; try done.
    apply checked_sound; [done|done|]. by apply (so_running _ Hs k _ Hk).
  - destruct (monitors s !! k) as [[q st [| |r t|]]|] eqn:Hk; try done.
    assert (Quote.session_granted r = false) as Hr by (by apply (so_running _ Hs k _ Hk)).
    destruct ok; cbn; [|by apply set_back_sound]. apply (settle_sound k (Monitor.mk q st (Monitor.Minting r t)));
      try done. intros m' [= <-]. split; [done|]. by intros r' [= <-].
  - destruct (monitors s !! k) as [[q st [| | |r t]]|] eqn:Hk; try done.
    assert (Quote.session_granted r = false) as Hr by (by apply (so_running _ Hs k _ Hk)).
    destruct a as [a|er]; cbn [is_ok]; [by apply (granted_sound k _ r t a s Hs Hk)|by apply set_back_sound].
  - by destruct Hs; constructor.
  - unfold janitor_removes. destruct (doomed s) as [|q rest]; [done|]. destruct Hs as [S1 S2 S3 S4 S5].
    constructor; cbn; try done. intros q' r. unfold Store.remove. rewrite lookup_delete_Some.
    intros [_ Hq]. by apply S5.
Qed.

Lemma run_sound es : Forall fresh es -> sound (run es).
Proof.
  induction es as [|e es IH] using rev_ind; intros He.
  - constructor; cbn; try done; constructor.
  - apply Forall_app in He as [He He1]. unfold run. rewrite foldl_app.
    apply step_sound; [by apply IH|]. by inversion He1.
Qed.

Lemma grants_bounded q s : sound s -> (granted_by q s <= started_for q s)%nat.
Proof.
  intros [S1 S2 S3 _ _]. apply submseteq_length, NoDup_submseteq.
  - apply NoDup_filter. by eapply NoDup_fmap_1.
  - intros p. rewrite !list_elem_of_filter. intros [? ?]. auto.
Qed.
End sound.

(** ** Tasks, for the witnesses *)

Module QuotesDemo.
Import Quotes.
Definition record : Quote.t :=
  Quote.mk "q" "aa:bb:cc:dd:ee:ff" "https://mint" 8 0 0 1000 None false false "lnbc1" None None.
Definition life : list event := [
  Insert record; Spawn 0 "q" 0; Wake 0 2000; Status 0 (Ok QuoteState.Unpaid) 1002;
  Wake 0 4000; JanitorLists 1004; Status 0 (Ok QuoteState.Paid) 1004; Minted 0 false;
  Wake 0 6000; Status 0 (Ok QuoteState.Paid) 1006; Minted 0 true; Granted 0 (Ok 60000);
  JanitorLists 9999; JanitorRemoves].
End QuotesDemo.

(** ** Properties *)

(** A quote is granted at most once by each monitor started for it. Whatever the
    tasks do, in any interleaving of any number of monitors, of the janitor and of
    insertions of ungranted quotes, and whatever the mint and the access controller
    answer, a quote is never granted more often than monitors were started for it, and
    a stored record says it was granted only if it was. *)
Theorem grants_per_monitor es q :
  Forall Quotes.fresh es ->
  let s := Quotes.run es in
  (Quotes.granted_by q s <= Quotes.started_for q s)%nat /\
  (forall r, Store.get q (Quotes.store s) = Some r -> Quote.session_granted r = true ->
     (0 < Quotes.granted_by q s)%nat).
Proof.
  intros He s. pose proof (run_sound es He) as Hs. split; [by apply grants_bounded|].
  intros r Hq Hg. destruct (Quotes.so_stored _ Hs q r Hq Hg) as [k Hk].
  assert ((k, q) ∈ filter (fun p => p.2 = q) (Quotes.grants s)) as Hf by (by apply list_elem_of_filter).
  unfold Quotes.granted_by. destruct (filter _ _); [by apply not_elem_of_nil in Hf|cbn; lia].
Qed.

Lemma grants_per_monitor_witness :
  Forall Quotes.fresh QuotesDemo.life /\
  Quotes.granted_by "q" (Quotes.run QuotesDemo.life) = 1%nat /\
  (Quotes.granted_by "q" (Quotes.run QuotesDemo.life) <= Quotes.started_for "q" (Quotes.run QuotesDemo.life))%nat.
Proof.
  assert (Forall Quotes.fresh QuotesDemo.life) as He by (by repeat constructor).
  split; [exact He|]. split; [vm_compute; reflexivity|].
  exact (proj1 (grants_per_monitor QuotesDemo.life "q" He)).
Defined.

(** ** Departures *)

(** The flag [processing] is read in one step and set in another, after the mint's
    answer: two monitors of a quote both mint and both grant. *)
Theorem two_monitors_grant_twice :
  Quotes.granted_by "q" (Quotes.run [
    Quotes.Insert QuotesDemo.record; Quotes.Spawn 0 "q" 0; Quotes.Spawn 1 "q" 0;
    Quotes.Wake 0 2000; Quotes.Wake 1 2000;
    Quotes.Status 0 (Ok QuoteState.Paid) 1002; Quotes.Status 1 (Ok QuoteState.Paid) 1002;
    Quotes.Minted 0 true; Quotes.Minted 1 true; Quotes.Granted 0 (Ok 60000); Quotes.Granted 1 (Ok 60000)])
  = 2%nat.
Proof. vm_compute. reflexivity. Qed.

(** [update] is an upsert of the copy read before the mint was asked: a quote the
    janitor removed meanwhile comes back. *)
Theorem removed_quote_comes_back :
  let es := [Quotes.Insert QuotesDemo.record; Quotes.Spawn 0 "q" 0; Quotes.Wake 0 2000;
             Quotes.JanitorLists 2801; Quotes.JanitorRemoves] in
  Store.get "q" (Quotes.store (Quotes.run es)) = None /\
  is_some (Store.get "q" (Quotes.store (Quotes.run (es ++ [Quotes.Status 0 (Ok QuoteState.Unpaid) 2802]))))
  = true.
Proof. vm_compute. by split. Qed.
