(* ===== verification/Shell.v ===== *)
(** * How a shell reads a command line

    The token recognition of the POSIX shell, for one command line, as far as the
    program's commands need it: quoting, blanks, operators and the characters that
    start an expansion. It is the specification the quoting of [Uci.v] is judged by. *)

From S2P Require Import Prelude Json.

Definition code (c : Ascii.ascii) : Z := Z.of_N (Ascii.N_of_ascii c).

(** What an unquoted character is to the shell. *)
Inductive class : Set := Literal | Blank | Operator | Expansion | Pattern | SingleQuote | DoubleQuote
| Backslash | Hash | Tilde.
#[export] Instance class_eq_dec : EqDecision class.
Proof. solve_decision. Defined.

Definition class_of (c : Ascii.ascii) : class :=
  let n := code c in
  if (n =? 32) || (n =? 9) then Blank
  else if (n =? 10) || (n =? 59) || (n =? 38) || (n =? 124) || (n =? 60) || (n =? 62)
          || (n =? 40) || (n =? 41) then Operator
  else if (n =? 36) || (n =? 96) then Expansion
  else if (n =? 42) || (n =? 63) || (n =? 91) then Pattern
  else if n =? 39 then SingleQuote
  else if n =? 34 then DoubleQuote
  else if n =? 92 then Backslash
  else if n =? 35 then Hash
  else if n =? 126 then Tilde
  else Literal.

(** A word with its quotes removed, and whether an unquoted character of it starts a
    file name pattern; or an operator character. *)
Inductive token : Set := Word (text : list Ascii.ascii) (pattern : bool) | Op (c : Ascii.ascii).
#[export] Instance token_eq_dec : EqDecision token.
Proof. solve_decision. Defined.

(** A command line is literal words and operators; or the shell expands something in
    it: a variable, a command, a home directory; or a quote is left open. *)
Inductive outcome : Set := Tokens (ts : list token) | Expands | Unfinished.

Inductive mode : Set := Plain | InSingle | InDouble | InComment.

(** The word read so far, if a word has begun. *)
Abbreviation partial := (option (list Ascii.ascii * bool)).
Definition flush (w : partial) (ts : list token) : list token :=
  match w with Some (text, p) => Word text p :: ts | None => ts end.
Definition push (c : Ascii.ascii) (pat : bool) (w : partial) : partial :=
  match w with
  | Some (text, p) => Some (text ++ [c], p || pat)
  | None => Some ([c], pat)
  end.
Definition begin_word (w : partial) : partial :=
  match w with Some _ => w | None => Some ([], false) end.

Definition and_then (o : outcome) (f : list token -> list token) : outcome :=
  match o with Tokens ts => Tokens (f ts) | other => other end.

(** The reader: outside quotes, inside them, or in a comment, which ends with its line.
    Within double quotes a backslash quotes only the characters that are special there. *)
Fixpoint lex (m : mode) (w : partial) (l : list Ascii.ascii) {struct l} : outcome :=
  match m, l with
  | Plain, [] => Tokens (flush w [])
  | InComment, [] => Tokens []
  | InComment, c :: l =>
      if code c =? 10 then and_then (lex Plain None l) (cons (Op c)) else lex InComment None l
  | InSingle, [] | InDouble, [] => Unfinished
  | InSingle, c :: l =>
      if decide (class_of c = SingleQuote) then lex Plain w l else lex InSingle (push c false w) l
  | InDouble, c :: l =>
      match class_of c with
      | DoubleQuote => lex Plain w l
      | Expansion => Expands
      | Backslash =>
          match l with
          | [] => Unfinished
          | d :: l =>
              match class_of d with
              | DoubleQuote | Expansion | Backslash => lex InDouble (push d false w) l
              | _ => lex InDouble (push d false (push c false w)) l
              end
          end
      | _ => lex InDouble (push c false w) l
      end
  | Plain, c :: l =>
      match class_of c with
      | Literal => lex Plain (push c false w) l
      | Pattern => lex Plain (push c true w) l
      | Blank => and_then (lex Plain None l) (flush w)
      | Operator => and_then (lex Plain None l) (fun ts => flush w (Op c :: ts))
      | Expansion => Expands
      | SingleQuote => lex InSingle (begin_word w) l
      | DoubleQuote => lex InDouble (begin_word w) l
      | Backslash =>
          match l with
          | [] => Unfinished
          | d :: l => lex Plain (push d false w) l
          end
      | Hash =>
          match w with
          | None => lex InComment None l
          | Some _ => lex Plain (push c false w) l
          end
      | Tilde =>
          match w with
          | None => Expands
          | Some _ => lex Plain (push c false w) l
          end
      end
  end.

Definition read_line (s : string) : outcome := lex Plain None (chars s).

(** ** Lemmas *)

(** Characters that stand for themselves outside quotes. *)
Definition plain (c : Ascii.ascii) : Prop := class_of c = Literal \/ class_of c = Pattern.
Definition is_pattern (c : Ascii.ascii) : bool := bool_decide (class_of c = Pattern).

Definition extend (w : partial) (text : list Ascii.ascii) (pat : bool) : partial :=
  match w with
  | Some (t, p) => Some (t ++ text, p || pat)
  | None => Some (text, pat)
  end.

Lemma extend_push w c pat text p : extend (push c pat w) text p = extend w (c :: text) (pat || p).
Proof. destruct w as [[t q]|]; cbn; [by rewrite <- app_assoc, orb_assoc|done]. Qed.

Lemma extend_nil w : extend (begin_word w) [] false = begin_word w.
Proof. destruct w as [[t p]|]; cbn; [by rewrite app_nil_r, orb_false_r|done]. Qed.

Lemma extend_begin w text p : extend (begin_word w) text p = extend w text p.
Proof. by destruct w as [[]|]. Qed.

Lemma lex_plain_chars w text rest :
  text <> [] -> Forall plain text ->
  lex Plain w (text ++ rest) = lex Plain (extend w text (existsb is_pattern text)) rest.
Proof.
  intros Hne Hp. revert w Hne. induction Hp as [|c text Hc Hp IH]; intros w Hne; [done|].
  destruct (decide (text = [])) as [->|Hne'].
  - cbn [app existsb]. rewrite orb_false_r. unfold is_pattern.
    destruct Hc as [E|E]; cbn [lex]; rewrite E; by destruct w as [[]|].
  - cbn [app existsb]. unfold is_pattern at 1.
    destruct Hc as [E|E]; cbn [lex]; rewrite E, (IH _ Hne'), extend_push; done.
Qed.

Lemma lex_single_chars w text rest :
  Forall (fun c => class_of c <> SingleQuote) text ->
  lex InSingle (begin_word w) (text ++ rest) = lex InSingle (extend (begin_word w) text false) rest.
Proof.
  intros Ht. revert w. induction Ht as [|c text Hc Ht IH]; intros w; [by rewrite extend_nil|].
  cbn [app lex]. rewrite decide_False by done.
  assert (push c false (begin_word w) = begin_word (push c false (begin_word w))) as E
    by (by destruct w as [[]|]).
  by rewrite E, IH, <- E, extend_push.
Qed.
