(* ===== verification/Text.v ===== *)
(** * Trimming and lines

    The standard library's [str::trim]: the characters with the Unicode property
    [White_Space] are removed from both ends of a text; and what it leaves of a text
    whose ends are solid; the lines of a text made of lines; where a pattern is found;
    and bytes read as text, what is not UTF-8 replaced. *)

From S2P Require Import Prelude NetDriver Json Shell.

(** The UTF-8 forms of the characters with the property [White_Space]. *)
Definition white_space : list (list Z) :=
  [[9]; [10]; [11]; [12]; [13]; [32]; [194; 133]; [194; 160]; [225; 154; 128]] ++
  ((fun k => [226; 128; 128 + Z.of_nat k]) <$> seq 0 11) ++
  [[226; 128; 168]; [226; 128; 169]; [226; 128; 175]; [226; 129; 159]; [227; 128; 128]].

Fixpoint strip_codes (p : list Z) (l : list Ascii.ascii) : option (list Ascii.ascii) :=
  match p, l with
  | [], _ => Some l
  | z :: p, c :: l => if code c =? z then strip_codes p l else None
  | _ :: _, [] => None
  end.
Fixpoint strip_any (ps : list (list Z)) (l : list Ascii.ascii) : option (list Ascii.ascii) :=
  match ps with
  | [] => None
  | p :: ps => match strip_codes p l with Some rest => Some rest | None => strip_any ps l end
  end.
(** Each turn removes a character; the length of the text is fuel enough. *)
Fixpoint strip_all (fuel : nat) (ps : list (list Z)) (l : list Ascii.ascii) : list Ascii.ascii :=
  match fuel with
  | O => l
  | S fuel => match strip_any ps l with Some rest => strip_all fuel ps rest | None => l end
  end.
Definition trim_start (l : list Ascii.ascii) : list Ascii.ascii := strip_all (length l) white_space l.
Definition trim_end (l : list Ascii.ascii) : list Ascii.ascii :=
  rev (strip_all (length l) ((@rev Z) <$> white_space) (rev l)).
(** [str::trim] *)
Definition trim (s : string) : string := of_chars (trim_end (trim_start (chars s))).

(** ** Lemmas *)

Definition blank : Ascii.ascii := Ascii.ascii_of_N 32.

(** No pattern starts with this character. *)
Definition starts_none (ps : list (list Z)) (c : Ascii.ascii) : bool :=
  forallb (fun p => match p with z :: _ => negb (code c =? z) | [] => false end) ps.
(** A text that begins and ends with characters that are not white space. *)
Definition solid_list (l : list Ascii.ascii) : bool :=
  match l with c :: _ => starts_none white_space c | [] => false end &&
  match rev l with d :: _ => starts_none ((@rev Z) <$> white_space) d | [] => false end.
Definition solid (s : string) : bool := solid_list (chars s).

Lemma strip_any_none ps c l : starts_none ps c = true -> strip_any ps (c :: l) = None.
Proof.
  induction ps as [|p ps IH]; [done|]. cbn. intros [Hp Hps]%andb_true_iff.
  destruct p as [|z p]; [done|]. apply negb_true_iff in Hp. cbn. rewrite Hp. by apply IH.
Qed.

Lemma strip_all_none fuel ps l : strip_any ps l = None -> strip_all fuel ps l = l.
Proof. intros Hl. destruct fuel; [done|]. cbn. by rewrite Hl. Qed.

Lemma trim_start_blanks n l :
  strip_any white_space l = None -> trim_start (replicate n blank ++ l) = l.
Proof.
  intros Hl. unfold trim_start. rewrite length_app, length_replicate.
  generalize (length l) as k. induction n as [|n IH]; intros k; [by apply strip_all_none|].
  rewrite Nat.add_succ_l. cbn [replicate app strip_all].
  replace (strip_any white_space (blank :: (replicate n blank ++ l))) with (Some (replicate n blank ++ l))
    by reflexivity.
  apply IH.
Qed.

Lemma trim_end_solid l c r :
  rev l = c :: r -> starts_none ((@rev Z) <$> white_space) c = true -> trim_end l = l.
Proof.
  intros Hr Hc. unfold trim_end. rewrite Hr, strip_all_none by by apply strip_any_none.
  by rewrite <- Hr, rev_involutive.
Qed.

(** Blanks before a solid text are what is trimmed from it. *)
Lemma trim_blanks n l : solid_list l = true -> trim (of_chars (replicate n blank ++ l)) = of_chars l.
Proof.
  unfold solid_list. destruct l as [|c l]; [done|]. intros [Hc Hd]%andb_true_iff.
  destruct (rev (c :: l)) as [|d r] eqn:Er; [done|]. unfold trim. rewrite chars_of_chars, trim_start_blanks.
  - by rewrite (trim_end_solid _ _ _ Er Hd).
  - by apply strip_any_none.
Qed.

Lemma trim_solid s : solid s = true -> trim s = s.
Proof.
  intros Hs. pose proof (trim_blanks 0 (chars s) Hs) as Ht. cbn [replicate app] in Ht.
  by rewrite of_chars_chars in Ht.
Qed.

Lemma trim_blank_solid s : solid s = true -> trim (" " +:+ s) = s.
Proof.
  intros Hs. pose proof (trim_blanks 1 (chars s) Hs) as Ht.
  change (of_chars (replicate 1 blank ++ chars s)) with (" " +:+ of_chars (chars s)) in Ht.
  by rewrite of_chars_chars in Ht.
Qed.

(** One blank, or one newline, after a solid text. *)
Lemma trim_solid_then w s :
  strip_any ((@rev Z) <$> white_space) (w :: rev (chars s)) = Some (rev (chars s)) ->
  solid s = true -> trim (s +:+ String w EmptyString) = s.
Proof.
  intros Hw. unfold solid, solid_list. intros [Ha Hb]%andb_true_iff. unfold trim. rewrite chars_app.
  change (chars (String w EmptyString)) with [w].
  assert (trim_start (chars s ++ [w]) = chars s ++ [w]) as ->.
  { destruct (chars s) as [|c l]; [done|]. apply (trim_start_blanks 0). by apply strip_any_none. }
  unfold trim_end. rewrite rev_app_distr, length_app. change (length [w]) with 1%nat.
  rewrite Nat.add_1_r. cbn [strip_all rev app]. rewrite Hw.
  cbn iota. destruct (rev (chars s)) as [|d r] eqn:E; [done|].
  rewrite strip_all_none by by apply strip_any_none. rewrite <- E, rev_involutive. apply of_chars_chars.
Qed.
Lemma trim_solid_blank s : solid s = true -> trim (s +:+ " ") = s.
Proof. by apply trim_solid_then. Qed.

(** ** The lines of a text *)

Definition newline_string : string := of_chars [newline].
Definition unlines (ls : list string) : string := foldr (fun l rest => l +:+ newline_string +:+ rest) EmptyString ls.

Definition line_ok (l : string) : Prop := (newline ∉ chars l) /\ head (rev (chars l)) <> Some carriage_return.

Lemma lines_unlines ls : Forall line_ok ls -> lines (unlines ls) = ls.
Proof.
  induction 1 as [|l ls [Hn Hc] _ IH]; [done|]. unfold lines in *. cbn [unlines foldr].
  fold (unlines ls). rewrite !chars_app. unfold newline_string. rewrite chars_of_chars.
  cbn [app]. rewrite line_chars_cons by done. cbn [fmap list_fmap]. rewrite strip_cr_none by done.
  by rewrite of_chars_chars, IH.
Qed.

(** ** Patterns *)

Lemma string_app_assoc (a b c : string) : (a +:+ b) +:+ c = a +:+ (b +:+ c).
Proof.
  rewrite <- (of_chars_chars ((a +:+ b) +:+ c)), <- (of_chars_chars (a +:+ (b +:+ c))), !chars_app.
  by rewrite app_assoc.
Qed.

Lemma solid_app a m b :
  match chars a with c :: _ => starts_none white_space c | [] => false end = true ->
  solid b = true -> solid (a +:+ m +:+ b) = true.
Proof.
  unfold solid, solid_list. rewrite !chars_app, !rev_app_distr.
  intros Ha [_ Hb]%andb_true_iff. destruct (chars a) as [|c l]; [done|].
  destruct (rev (chars b)) as [|d r]; [done|]. cbn [app]. by rewrite Ha, Hb.
Qed.

(** What is looked for is not there. *)
Lemma strip_prefix_absent x pat s : x ∈ chars pat -> x ∉ chars s -> strip_prefix pat s = None.
Proof.
  revert s. induction pat as [|a pat IH]; intros s Hx Hs; [by apply elem_of_nil in Hx|].
  destruct s as [|b s]; [done|]. change (chars (String b s)) with (b :: chars s) in Hs.
  apply not_elem_of_cons in Hs as [Hb Hs]. change (chars (String a pat)) with (a :: chars pat) in Hx.
  cbn [strip_prefix]. destruct (decide (a = b)) as [->|]; [|done].
  apply elem_of_cons in Hx as [->|Hx]; [done|]. by apply IH.
Qed.

Lemma after_absent x pat s : x ∈ chars pat -> x ∉ chars s -> after pat s = None.
Proof.
  intros Hx. induction s as [|c s IH]; intros Hs; cbn [after];
    rewrite (strip_prefix_absent x) by done; [done|].
  apply IH. change (chars (String c s)) with (c :: chars s) in Hs. by apply not_elem_of_cons in Hs as [_ ?].
Qed.

Lemma before_absent x pat s : x ∈ chars pat -> x ∉ chars s -> before pat s = s.
Proof.
  intros Hx. induction s as [|c s IH]; intros Hs; cbn [before]; unfold starts_with;
    rewrite (strip_prefix_absent x) by done; cbn [is_some]; [done|].
  f_equal. apply IH. change (chars (String c s)) with (c :: chars s) in Hs.
  by apply not_elem_of_cons in Hs as [_ ?].
Qed.

(** It is not in what comes first: its first character is not. *)
Lemma after_skip a pat p s : a ∉ chars p -> after (String a pat) (p +:+ s) = after (String a pat) s.
Proof.
  induction p as [|c p IH]; intros Hp; [done|].
  change (chars (String c p)) with (c :: chars p) in Hp. apply not_elem_of_cons in Hp as [Hc Hp].
  change (String c p +:+ s) with (String c (p +:+ s)). cbn [after strip_prefix].
  rewrite decide_False by done. by apply IH.
Qed.

Lemma after_found pat s : after pat (pat +:+ s) = Some s.
Proof.
  pose proof (strip_prefix_app pat s) as E. revert E. generalize (pat +:+ s) as t.
  intros [|c t] E; cbn [after]; by rewrite E.
Qed.

Lemma before_hit pat t : is_Some (strip_prefix pat t) -> before pat t = EmptyString.
Proof. intros [r E]. destruct t as [|c t]; cbn [before]; unfold starts_with; by rewrite E. Qed.

Lemma before_found a pat p s : a ∉ chars p -> before (String a pat) (p +:+ String a pat +:+ s) = p.
Proof.
  induction p as [|c p IH]; intros Hp.
  - change ("" +:+ String a pat +:+ s) with (String a pat +:+ s). apply before_hit.
    rewrite strip_prefix_app. by eexists.
  - change (chars (String c p)) with (c :: chars p) in Hp. apply not_elem_of_cons in Hp as [Hc Hp].
    specialize (IH Hp). revert IH.
    change (String c p +:+ String a pat +:+ s) with (String c (p +:+ String a pat +:+ s)).
    generalize (p +:+ String a pat +:+ s) as t. intros t IH. cbn [before].
    unfold starts_with. cbn [strip_prefix]. rewrite decide_False by done. cbn [is_some]. by rewrite IH.
Qed.

Lemma trim_solid_newline s : solid s = true -> trim (s +:+ newline_string) = s.
Proof. by apply trim_solid_then. Qed.

(** Splitting around a separator. *)
Lemma split_chars_cons sep l : exists w ws, split_chars sep l = w :: ws.
Proof. destruct l as [|c l]; cbn; [eauto|]. destruct (decide _); [eauto|]. destruct (split_chars sep l); eauto. Qed.

Lemma split_chars_cat sep a b : split_chars sep (a ++ sep :: b) = split_chars sep a ++ split_chars sep b.
Proof.
  induction a as [|c a IH]; cbn [app split_chars]; [by rewrite decide_True|].
  destruct (decide (c = sep)); [by rewrite IH|]. rewrite IH.
  by destruct (split_chars_cons sep a) as (w & ws & ->).
Qed.

(** ** Bytes as text *)

Definition replacement : list Z := [239; 191; 189].

(** [String::from_utf8_lossy]: each maximal prefix of a character that cannot be completed
    becomes one replacement character. *)
Fixpoint utf8_lossy (bs : list Z) : list Z :=
  match bs with
  | [] => []
  | b :: r =>
      if b <? 128 then b :: utf8_lossy r
      else if between 194 b 223 then
        match r with
        | c1 :: r1 => if cont c1 then b :: c1 :: utf8_lossy r1 else replacement ++ utf8_lossy r
        | [] => replacement
        end
      else if between 224 b 239 then
        match r with
        | c1 :: r1 =>
            if (if b =? 224 then between 160 c1 191
                else if b =? 237 then between 128 c1 159 else cont c1) then
              match r1 with
              | c2 :: r2 => if cont c2 then b :: c1 :: c2 :: utf8_lossy r2 else replacement ++ utf8_lossy r1
              | [] => replacement
              end
            else replacement ++ utf8_lossy r
        | [] => replacement
        end
      else if between 240 b 244 then
        match r with
        | c1 :: r1 =>
            if (if b =? 240 then between 144 c1 191
                else if b =? 244 then between 128 c1 143 else cont c1) then
              match r1 with
              | c2 :: r2 =>
                  if cont c2 then
                    match r2 with
                    | c3 :: r3 =>
                        if cont c3 then b :: c1 :: c2 :: c3 :: utf8_lossy r3 else replacement ++ utf8_lossy r2
                    | [] => replacement
                    end
                  else replacement ++ utf8_lossy r1
              | [] => replacement
              end
            else replacement ++ utf8_lossy r
        | [] => replacement
        end
      else replacement ++ utf8_lossy r
  end.

Definition string_of_codes (l : list Z) : string := of_chars ((fun z => Ascii.ascii_of_N (Z.to_N z)) <$> l).

Definition byte_code (z : Z) : Prop := 0 <= z < 256.

(** Text that is UTF-8 is kept. *)
Lemma lossy_keeps l : utf8_ok l = true -> utf8_lossy l = l.
Proof.
  remember (length l) as n eqn:En. revert l En.
  induction (lt_wf n) as [n _ IH]. intros l -> Hok.
  destruct l as [|b r]; [done|]. cbn [utf8_ok utf8_lossy] in *.
  destruct (b <? 128); [rewrite (IH (length r)) by (cbn; lia || done); done|].
  destruct r as [|c1 r1]; [done|]. destruct (between 194 b 223).
  { apply andb_true_iff in Hok as [-> Hr]. by rewrite (IH (length r1)) by (cbn; lia || done). }
  destruct r1 as [|c2 r2]; [done|]. destruct (between 224 b 239).
  { rewrite !andb_true_iff in Hok. destruct Hok as [[-> ->] Hr]. by rewrite (IH (length r2)) by (cbn; lia || done). }
  destruct r2 as [|c3 r3]; [done|]. rewrite !andb_true_iff in Hok.
  destruct Hok as [[[[-> ->] ->] ->] Hr]. by rewrite (IH (length r3)) by (cbn; lia || done).
Qed.

(** What comes out is UTF-8, whatever came in. *)
Lemma lossy_valid l : utf8_ok (utf8_lossy l) = true.
Proof.
  assert (forall r, utf8_ok (replacement ++ r) = utf8_ok r) as Hrep by reflexivity.
  remember (length l) as n eqn:En. revert l En.
  induction (lt_wf n) as [n _ IH]. intros l ->. destruct l as [|b r]; [done|].
  assert (forall r', (length r' < length (b :: r))%nat -> utf8_ok (utf8_lossy r') = true) as IHr
    by (intros r' Hlt; by apply (IH _ Hlt)).
  cbn [utf8_lossy]. destruct (b <? 128) eqn:E1.
  { cbn [utf8_ok]. rewrite E1. apply IHr. cbn. lia. }
  destruct (between 194 b 223) eqn:E2.
  { destruct r as [|c1 r1]; [done|]. destruct (cont c1) eqn:C1; [|rewrite Hrep; apply IHr; cbn; lia].
    cbn [utf8_ok]. rewrite E1, E2, C1. apply IHr. cbn. lia. }
  destruct (between 224 b 239) eqn:E3.
  { destruct r as [|c1 r1]; [done|].
    destruct (if b =? 224 then _ else _) eqn:C1; [|rewrite Hrep; apply IHr; cbn; lia].
    destruct r1 as [|c2 r2]; [done|]. destruct (cont c2) eqn:C2; [|rewrite Hrep; apply IHr; cbn; lia].
    cbn [utf8_ok]. rewrite E1, E2, E3, C1, C2. apply IHr. cbn. lia. }
  destruct (between 240 b 244) eqn:E4; [|rewrite Hrep; apply IHr; cbn; lia].
  destruct r as [|c1 r1]; [done|].
  destruct (if b =? 240 then _ else _) eqn:C1; [|rewrite Hrep; apply IHr; cbn; lia].
  destruct r1 as [|c2 r2]; [done|]. destruct (cont c2) eqn:C2; [|rewrite Hrep; apply IHr; cbn; lia].
  destruct r2 as [|c3 r3]; [done|]. destruct (cont c3) eqn:C3; [|rewrite Hrep; apply IHr; cbn; lia].
  cbn [utf8_ok]. rewrite E1, E2, E3, E4, C1, C2, C3. apply IHr. cbn. lia.
Qed.

Lemma lossy_ascii l : Forall (fun z => z < 128) l -> utf8_lossy l = l.
Proof.
  induction 1 as [|z l Hz _ IH]; [done|]. cbn [utf8_lossy]. by rewrite (proj2 (Z.ltb_lt z 128)), IH.
Qed.
