(* ===== verification/Serde.v ===== *)
(** * Serde: structs as JSON text

    What the derived [Serialize] and [Deserialize] of a struct do with JSON, shared by
    the programs that talk JSON to each other: the tree a value is written as, the
    reading of a struct's fields from a tree, and [serde_json::to_value]. The text
    itself is written and read by [serde_json]: the class [JsonText]. *)

From Stdlib Require Import Floats.SpecFloat.
From S2P Require Import Prelude F64 Json Shell Text.

(** [serde_json::to_string], and the tree [serde_json::from_str] walks: the fields of
    an object in the order of the text, repetitions kept. A double is printed in decimal
    and need not be read back to the last bit, which takes a feature of the crate:
    [reread] is what comes back. *)
Class JsonText : Type := {
  json_to_string : Value -> string;
  json_tree : string -> option Value;
  reread : f64 -> f64
}.

(** ** Trees *)

Definition is_finite (x : f64) : bool :=
  match x with S754_zero _ | S754_finite _ _ _ => true | S754_infinity _ | S754_nan => false end.

Fixpoint map_floats (f : f64 -> f64) (v : Value) : Value :=
  match v with
  | VFloat x => VFloat (f x)
  | VArray l => VArray (map (map_floats f) l)
  | VObject fields => VObject (map (fun p => (p.1, map_floats f p.2)) fields)
  | VNull | VBool _ | VInt _ | VString _ => v
  end.

(** What [serde_json] can write as such: integers of 64 bits, finite doubles. *)
Fixpoint writable (v : Value) : bool :=
  match v with
  | VInt n => (I64_MIN <=? n) && (n <=? U64_MAX)
  | VFloat x => is_finite x
  | VArray l => forallb writable l
  | VObject fields => forallb (fun p => writable p.2) fields
  | VNull | VBool _ | VString _ => true
  end.

Fixpoint depth (v : Value) : nat :=
  match v with
  | VArray l => S (foldr max O (map depth l))
  | VObject fields => S (foldr max O (map (fun p => depth p.2) fields))
  | VNull | VBool _ | VInt _ | VFloat _ | VString _ => O
  end.
(** [serde_json]'s limit on nesting. *)
Definition RECURSION_LIMIT : nat := 128.

(** The documented behaviour of [serde_json]: compact text on one line with nothing
    around it, which reads back as the tree; and a word that begins neither [false], nor
    [null], nor [true] is no JSON. *)
Class JsonTextLaws `{JsonText} : Prop := {
  json_reads v : writable v = true -> (depth v < RECURSION_LIMIT)%nat ->
    json_tree (json_to_string v) = Some (map_floats reread v);
  json_one_line v : newline ∉ chars (json_to_string v);
  json_solid v : solid (json_to_string v) = true;
  json_refuses_word c s : 97 <= code c <= 122 -> ~ (code c ∈ [102; 110; 116]) ->
    json_tree (String c s) = None;
  reread_finite x : is_finite x = true -> is_finite (reread x) = true
}.

(** ** Writing *)

(** A double: [null] when it is not a number. *)
Definition float_value (x : f64) : Value := if is_finite x then VFloat x else VNull.
Definition option_value {A} (ser : A -> Value) (o : option A) : Value :=
  match o with Some a => ser a | None => VNull end.
Definition list_value {A} (ser : A -> Value) (l : list A) : Value := VArray (ser <$> l).

(** [serde_json::to_value]: the same tree with the fields of every object in the order
    of their names, as [serde_json::Map] keeps them. *)
Definition field_le (p q : string * Value) : Prop := str_le p.1 q.1.
#[export] Instance field_le_dec p q : Decision (field_le p q) := decide (str_le p.1 q.1).

Fixpoint to_value (v : Value) : Value :=
  match v with
  | VArray l => VArray (map to_value l)
  | VObject fields => VObject (merge_sort field_le (map (fun p => (p.1, to_value p.2)) fields))
  | VNull | VBool _ | VInt _ | VFloat _ | VString _ => v
  end.

(** ** Reading *)

Definition de_string (v : Value) : option string := as_str v.
Definition de_u32 (v : Value) : option Z :=
  match v with VInt n => if (0 <=? n) && (n <=? U32_MAX) then Some n else None | _ => None end.
Definition de_u64 (v : Value) : option Z := value_as_u64 v.
Definition de_i64 (v : Value) : option Z := value_as_i64 v.
Definition de_f64 (v : Value) : option f64 :=
  match v with VFloat x => Some x | VInt n => Some (f64_of_Z n) | _ => None end.
Definition de_option {A} (de : Value -> option A) (v : Value) : option (option A) :=
  match v with VNull => Some None | _ => Some <$> de v end.
Definition de_vec {A} (de : Value -> option A) (v : Value) : option (list A) :=
  l ← as_array v; mapM de l.
(** A [HashMap<String, A>]: a repeated key keeps its last value. *)
Definition de_map {A} (de : Value -> option A) (v : Value) : option (gmap string A) :=
  fields ← as_object v;
  entries ← mapM (fun p => pair p.1 <$> de p.2) fields;
  Some (foldl (fun m p => <[p.1 := p.2]> m) ∅ entries).

(** The fields of a struct, by their names: from an object, whose other fields are
    ignored and where a repeated one is an error, or from an array of at most as many
    values. A field that is absent is [None]. *)
Definition one_field (fields : list (string * Value)) (name : string) : option (option Value) :=
  match filter (fun p => p.1 = name) fields with
  | [] => Some None
  | [p] => Some (Some p.2)
  | _ :: _ :: _ => None
  end.
Definition struct_fields (names : list string) (v : Value) : option (list (option Value)) :=
  match v with
  | VObject fields => mapM (one_field fields) names
  | VArray l =>
      if decide (length l <= length names)%nat
      then Some ((Some <$> l) ++ replicate (length names - length l) None) else None
  | VNull | VBool _ | VInt _ | VFloat _ | VString _ => None
  end.

(** A required field, an [Option] field, a field with [#[serde(default)]]. *)
Definition required {A} (de : Value -> option A) (fs : list (option Value)) (i : nat) : option A :=
  match fs !! i with Some (Some v) => de v | _ => None end.
Definition defaulted {A} (de : Value -> option A) (d : A) (fs : list (option Value)) (i : nat) : option A :=
  match fs !! i with Some (Some v) => de v | _ => Some d end.
Definition optional {A} (de : Value -> option A) (fs : list (option Value)) (i : nat) : option (option A) :=
  defaulted (de_option de) None fs i.

(** ** Lemmas *)

(** Trees by structural induction. *)
Lemma Value_tree_ind (P : Value -> Prop) :
  P VNull -> (forall b, P (VBool b)) -> (forall n, P (VInt n)) -> (forall x, P (VFloat x)) ->
  (forall s, P (VString s)) -> (forall l, Forall P l -> P (VArray l)) ->
  (forall fields, Forall (fun p => P p.2) fields -> P (VObject fields)) -> forall v, P v.
Proof.
  intros Hn Hb Hi Hf Hs Ha Ho. fix go 1. intros [|b|n|x|s|l|fields].
  - apply Hn.
  - apply Hb.
  - apply Hi.
  - apply Hf.
  - apply Hs.
  - apply Ha. induction l as [|v l IH]; constructor; [apply go|exact IH].
  - apply Ho. induction fields as [|p l IH]; constructor; [apply go|exact IH].
Qed.

Lemma map_floats_id v : map_floats id v = v.
Proof.
  induction v as [| | | | |l IH|fields IH] using Value_tree_ind; try done; cbn; f_equal.
  - induction IH; cbn; congruence.
  - induction IH as [|[k v] l Hv _ IHl]; cbn in *; congruence.
Qed.

Lemma one_field_zip names vals name v i :
  NoDup names -> names !! i = Some name -> vals !! i = Some v ->
  one_field (zip names vals) name = Some (Some v).
Proof.
  intros Hn. unfold one_field. revert vals i. induction Hn as [|x names Hx Hn IH]; intros vals i; [done|].
  destruct vals as [|w vals]; [by rewrite lookup_nil|]. change (zip (x :: names) (w :: vals)) with ((x, w) :: zip names vals). destruct i as [|i].
  - cbn [lookup list_lookup]. intros [= ->] [= ->]. rewrite filter_cons_True by done.
    destruct (filter _ (zip names vals)) as [|[k u] l] eqn:E; [done|].
    assert ((k, u) ∈ filter (fun p => p.1 = name) (zip names vals)) as [Hk Hz]%list_elem_of_filter
      by (rewrite E; left).
    apply elem_of_zip_l in Hz. cbn in Hk. congruence.
  - cbn [lookup list_lookup]. intros Hi Hv. rewrite filter_cons_False; [by eapply IH|]. cbn. intros ->.
    by apply list_elem_of_lookup_2 in Hi.
Qed.

(** An object written with a struct's fields is read as those fields. *)
Lemma struct_fields_zip names vals :
  NoDup names -> length names = length vals ->
  struct_fields names (VObject (zip names vals)) = Some (Some <$> vals).
Proof.
  intros Hn Hl. cbn. apply mapM_Some, Forall2_same_length_lookup_2.
  - by rewrite length_fmap.
  - intros i name o Hi Ho. apply list_lookup_fmap_Some in Ho as (v & -> & Hv).
    by eapply one_field_zip.
Qed.

Lemma mapM_fmap_roundtrip {A B} (f : A -> B) (g : B -> option A) l :
  (forall x, x ∈ l -> g (f x) = Some x) -> mapM g (f <$> l) = Some l.
Proof.
  intros Hg. apply mapM_Some. induction l as [|x l IH]; [constructor|]. constructor.
  - apply Hg. by left.
  - apply IH. intros y Hy. apply Hg. by right.
Qed.

(** ** A writer and reader that satisfy the laws

    The tree's number in an enumeration of the trees, in binary between braces. It is
    not JSON and stands for no code of the program. *)

Module ToyJson.
#[export] Instance spec_float_eq_dec : EqDecision spec_float.
Proof. solve_decision. Defined.
Definition float_code (x : spec_float) : (bool * Z) + (bool * positive * Z) :=
  match x with
  | S754_zero s => inl (s, 0)
  | S754_infinity s => inl (s, 1)
  | S754_nan => inl (true, 2)
  | S754_finite s m e => inr (s, m, e)
  end.
Definition float_decode (c : (bool * Z) + (bool * positive * Z)) : spec_float :=
  match c with
  | inl (s, 0) => S754_zero s
  | inl (s, 1) => S754_infinity s
  | inl _ => S754_nan
  | inr (s, m, e) => S754_finite s m e
  end.
#[export] Program Instance spec_float_countable : Countable spec_float :=
  inj_countable' float_code float_decode _.
Next Obligation. by intros []. Qed.

Definition leaf : Set := option (bool + Z + spec_float + string).
Fixpoint to_tree (v : Value) : gen_tree leaf :=
  match v with
  | VNull => GenLeaf None
  | VBool b => GenLeaf (Some (inl (inl (inl b))))
  | VInt n => GenLeaf (Some (inl (inl (inr n))))
  | VFloat x => GenLeaf (Some (inl (inr x)))
  | VString s => GenLeaf (Some (inr s))
  | VArray l => GenNode 0 (map to_tree l)
  | VObject fields =>
      GenNode 1 (map (fun p => GenNode 2 [GenLeaf (Some (inr p.1)); to_tree p.2]) fields)
  end.
Fixpoint of_tree (t : gen_tree leaf) : Value :=
  match t with
  | GenLeaf None => VNull
  | GenLeaf (Some (inl (inl (inl b)))) => VBool b
  | GenLeaf (Some (inl (inl (inr n)))) => VInt n
  | GenLeaf (Some (inl (inr x))) => VFloat x
  | GenLeaf (Some (inr s)) => VString s
  | GenNode 0 l => VArray (map of_tree l)
  | GenNode _ l =>
      VObject (map (fun t => match t with
                             | GenNode _ [GenLeaf (Some (inr s)); t] => (s, of_tree t)
                             | _ => (EmptyString, VNull)
                             end) l)
  end.

Lemma of_to_tree v : of_tree (to_tree v) = v.
Proof.
  induction v as [| | | | |l IH|fields IH] using Value_tree_ind; try done; cbn; f_equal.
  - induction IH; cbn; congruence.
  - induction IH as [|[k v] l Hv _ IHl]; cbn in *; congruence.
Qed.

Definition opening : Ascii.ascii := Ascii.ascii_of_N 123.
Definition closing : Ascii.ascii := Ascii.ascii_of_N 125.
Definition zero : Ascii.ascii := Ascii.ascii_of_N 48.
Definition one : Ascii.ascii := Ascii.ascii_of_N 49.
Fixpoint bit_chars (p : positive) : list Ascii.ascii :=
  match p with xH => [closing] | xO p => zero :: bit_chars p | xI p => one :: bit_chars p end.
Fixpoint of_bit_chars (l : list Ascii.ascii) : option positive :=
  match l with
  | [] => None
  | c :: l =>
      if decide (c = closing) then Some xH
      else p ← of_bit_chars l; Some (if decide (c = zero) then xO p else xI p)
  end.

#[export] Instance json : JsonText := {|
  json_to_string v := String opening (of_chars (bit_chars (encode (to_tree v))));
  json_tree s :=
    match s with
    | String c s =>
        if decide (c = opening) then p ← of_bit_chars (chars s); of_tree <$> decode p else None
    | EmptyString => None
    end;
  reread := id
|}.

Lemma of_bits p : of_bit_chars (bit_chars p) = Some p.
Proof. induction p as [p IH|p IH|]; cbn; rewrite ?IH; done. Qed.

Lemma bit_chars_last p : exists l, bit_chars p = l ++ [closing].
Proof.
  induction p as [p [l E]|p [l E]|]; cbn; rewrite ?E; [by exists (one :: l)|by exists (zero :: l)|by exists []].
Qed.

Lemma bit_chars_no_newline p : newline ∉ bit_chars p.
Proof. induction p as [p IH|p IH|]; cbn; rewrite not_elem_of_cons; split; try done. apply not_elem_of_nil. Qed.

#[export] Instance json_laws : JsonTextLaws.
Proof.
  split.
  - intros v _ _. cbn. rewrite chars_of_chars, of_bits. cbn. rewrite decode_encode. cbn.
    by rewrite of_to_tree, map_floats_id.
  - intros v. cbn -[encode]. unfold chars, of_chars. cbn -[encode]. fold (chars (of_chars (bit_chars (encode (to_tree v))))).
    rewrite chars_of_chars, not_elem_of_cons. split; [done|]. apply bit_chars_no_newline.
  - intros v. unfold solid, solid_list. cbn -[encode rev starts_none white_space].
    change (String.list_ascii_of_string ?s) with (chars s). rewrite chars_of_chars.
    destruct (bit_chars_last (encode (to_tree v))) as [l ->].
    match goal with |- context [rev (?a :: l ++ ?e)] => change (a :: l ++ e) with ((a :: l) ++ e) end.
    by rewrite rev_app_distr.
  - intros c s Hc _. cbn. rewrite decide_False; [done|]. intros ->. destruct Hc as [_ Hc]. by apply Hc.
  - done.
Qed.
End ToyJson.
