(* ===== verification/Control.v ===== *)
(** * The control socket and the admin API

    Models [crates/tollgate-net/src/control_server.rs], its client [control.rs], the
    JSON of [status.rs] and [config.rs], and the JSON handlers of [web_ui.rs]. The
    server answers each line with a line: a JSON request of the older program's form,
    or the plain word [status] that the client [query] sends. Accepting connections and
    the static dashboard page are not modelled. *)

From Stdlib Require Import Floats.SpecFloat.
From S2P Require Import Prelude F64 Wire ToyCodec Product Pricing Session Wallet Consume NetDriver.
From S2P Require Import SessionFacts NetDriverFacts Config Status Json Shell Text Serde.

(** ** The JSON of a status *)

Definition obj (names : list string) (vals : list Value) : Value := VObject (zip names vals).

Definition RATES_FIELDS : list string := ["price_per_second"; "price_per_unit"]%string.
Definition rates_tree (r : Rates.t) : Value :=
  obj RATES_FIELDS [VInt (Rates.price_per_second r); VInt (Rates.price_per_unit r)].
Definition rates_of (v : Value) : option Rates.t :=
  fs ← struct_fields RATES_FIELDS v;
  per_second ← required de_i64 fs 0;
  per_unit ← required de_i64 fs 1;
  Some (Rates.mk per_second per_unit).

Definition MINT_FIELDS : list string :=
  ["mint_url"; "mint_unit"; "price_per_second"; "price_per_unit"]%string.
Definition mint_tree (m : MintStatus.t) : Value :=
  obj MINT_FIELDS [VString (MintStatus.mint_url m); VString (MintStatus.mint_unit m);
    VInt (MintStatus.price_per_second m); VInt (MintStatus.price_per_unit m)].
Definition mint_of (v : Value) : option MintStatus.t :=
  fs ← struct_fields MINT_FIELDS v;
  url ← required de_string fs 0;
  unit ← required de_string fs 1;
  per_second ← required de_i64 fs 2;
  per_unit ← required de_i64 fs 3;
  Some (MintStatus.mk url unit per_second per_unit).

Definition PRODUCT_FIELDS : list string := ["product_id"; "pricing_scale"; "mints"]%string.
Definition product_tree (p : ProductStatus.t) : Value :=
  obj PRODUCT_FIELDS [VString (ProductStatus.product_id p); VInt (ProductStatus.pricing_scale p);
    list_value mint_tree (ProductStatus.mints p)].
Definition product_of (v : Value) : option ProductStatus.t :=
  fs ← struct_fields PRODUCT_FIELDS v;
  id ← required de_string fs 0;
  scale ← required de_u32 fs 1;
  mints ← required (de_vec mint_of) fs 2;
  Some (ProductStatus.mk id scale mints).

Definition PRICING_FIELDS : list string := ["products"; "min_interval_ms"; "max_interval_ms"]%string.
Definition pricing_tree (p : PricingStatus.t) : Value :=
  obj PRICING_FIELDS [list_value product_tree (PricingStatus.products p);
    VInt (PricingStatus.min_interval_ms p); VInt (PricingStatus.max_interval_ms p)].
Definition pricing_of (v : Value) : option PricingStatus.t :=
  fs ← struct_fields PRICING_FIELDS v;
  products ← required (de_vec product_of) fs 0;
  min_ms ← required de_u32 fs 1;
  max_ms ← required de_u32 fs 2;
  Some (PricingStatus.mk products min_ms max_ms).

Definition PEER_FIELDS : list string :=
  ["pubkey"; "ip"; "state"; "delivered"; "received"; "our_price"; "their_price";
   "their_balance"; "our_balance"; "metered_secs"; "idle_ms"; "drift"]%string.
Definition peer_tree (p : PeerStatus.t) : Value :=
  obj PEER_FIELDS [VString (PeerStatus.pubkey p); option_value VString (PeerStatus.ip p);
    VString (PeerStatus.state p); VInt (PeerStatus.delivered p); VInt (PeerStatus.received p);
    rates_tree (PeerStatus.our_price p); rates_tree (PeerStatus.their_price p);
    VInt (PeerStatus.their_balance p); VInt (PeerStatus.our_balance p);
    VInt (PeerStatus.metered_secs p); VInt (PeerStatus.idle_ms p);
    option_value float_value (PeerStatus.drift p)].
Definition peer_of (v : Value) : option PeerStatus.t :=
  fs ← struct_fields PEER_FIELDS v;
  pubkey ← required de_string fs 0;
  ip ← optional de_string fs 1;
  state ← required de_string fs 2;
  delivered ← required de_u64 fs 3;
  received ← required de_u64 fs 4;
  our_price ← defaulted rates_of Rates.default fs 5;
  their_price ← defaulted rates_of Rates.default fs 6;
  their_balance ← required de_i64 fs 7;
  our_balance ← required de_i64 fs 8;
  metered_secs ← required de_u64 fs 9;
  idle_ms ← required de_u64 fs 10;
  drift ← optional de_f64 fs 11;
  Some (PeerStatus.mk pubkey ip state delivered received our_price their_price their_balance
    our_balance metered_secs idle_ms drift).

Definition NODE_FIELDS : list string := ["pubkey"; "unit"; "peers"; "pricing"]%string.
Definition node_tree (s : NodeStatus.t) : Value :=
  obj NODE_FIELDS [VString (NodeStatus.pubkey s); VString (NodeStatus.unit s);
    list_value peer_tree (NodeStatus.peers s); pricing_tree (NodeStatus.pricing s)].
Definition node_of (v : Value) : option NodeStatus.t :=
  fs ← struct_fields NODE_FIELDS v;
  pubkey ← required de_string fs 0;
  unit ← required de_string fs 1;
  peers ← required (de_vec peer_of) fs 2;
  pricing ← defaulted pricing_of PricingStatus.default fs 3;
  Some (NodeStatus.mk pubkey unit peers pricing).

(** ** The JSON of a configuration *)

Definition PATH_ERROR : string := "path contains invalid UTF-8 characters".
Definition path_tree (p : PathBuf) : result Value string :=
  match from_utf8 (as_bytes p) with Some s => Ok (VString s) | None => Err PATH_ERROR end.

Definition product_config_tree (p : ProductConfig.t) : Value :=
  obj ["pricing_scale"; "price_per_second"; "price_per_unit"; "price_per_second_floor";
       "price_per_second_ceiling"; "price_per_unit_floor"; "price_per_unit_ceiling"]%string
    [VInt (ProductConfig.pricing_scale p); VInt (ProductConfig.price_per_second p);
     VInt (ProductConfig.price_per_unit p); option_value VInt (ProductConfig.price_per_second_floor p);
     option_value VInt (ProductConfig.price_per_second_ceiling p);
     option_value VInt (ProductConfig.price_per_unit_floor p);
     option_value VInt (ProductConfig.price_per_unit_ceiling p)].

(** [rename_all = "kebab-case"]. *)
Definition firewall_tree (m : FirewallMode.t) : Value :=
  VString match m with FirewallMode.Enforcing => "enforcing" | FirewallMode.SetsOnly => "sets-only" end.

Definition upstream_tree (u : UpstreamConfig.t) : Value :=
  obj ["peer"; "mint"; "amount"; "topup"; "interval_secs"; "meter_iface"; "meter_upstream"]%string
    [VString (UpstreamConfig.peer u); VString (UpstreamConfig.mint u); VInt (UpstreamConfig.amount u);
     VInt (UpstreamConfig.topup u); VInt (UpstreamConfig.interval_secs u);
     option_value VString (UpstreamConfig.meter_iface u); VBool (UpstreamConfig.meter_upstream u)].

Definition accepted_mint_tree (m : V1AcceptedMint.t) : Value :=
  obj ["url"; "price_per_step"; "unit"; "min_steps"]%string
    [VString (V1AcceptedMint.url m); VInt (V1AcceptedMint.price_per_step m);
     VString (V1AcceptedMint.unit m); VInt (V1AcceptedMint.min_steps m)].

Definition v1_compat_tree (v : V1CompatConfig.t) : Value :=
  obj ["metric"; "step_size"; "accepted_mints"; "nostr_secret_key"; "trust_proxy_headers"; "wallet_seed"]%string
    [VString (V1CompatConfig.metric v); VInt (V1CompatConfig.step_size v);
     list_value accepted_mint_tree (V1CompatConfig.accepted_mints v);
     option_value VString (V1CompatConfig.nostr_secret_key v);
     VBool (V1CompatConfig.trust_proxy_headers v);
     option_value VString (V1CompatConfig.wallet_seed v)].

(** The order of a [HashMap]'s entries is arbitrary; every use sorts them. *)
Definition map_tree {A} (ser : A -> Value) (m : gmap string A) : Value :=
  VObject (prod_map id ser <$> map_to_list m).

Definition dynamic_pricing_tree (c : DynamicPricingConfig.t) : Value :=
  obj ["enabled"; "strategy"; "metric_weights"; "active_peer_multiplier"; "max_active_peers"]%string
    [VBool (DynamicPricingConfig.enabled c); VString (DynamicPricingConfig.strategy c);
     map_tree float_value (DynamicPricingConfig.metric_weights c);
     option_value float_value (DynamicPricingConfig.active_peer_multiplier c);
     option_value VInt (DynamicPricingConfig.max_active_peers c)].

Definition peer_override_tree (o : PeerOverride.t) : Value :=
  obj ["price_multiplier"; "blocked"]%string
    [option_value float_value (PeerOverride.price_multiplier o); VBool (PeerOverride.blocked o)].

Definition CONFIG_FIELDS : list string :=
  ["secret_key_file"; "listen"; "mints"; "products"; "firewall"; "unit"; "control_socket";
   "metering_interval_secs"; "upstreams"; "v1_compat"; "dynamic_pricing"; "peer_overrides"]%string.

Section trees.
Open Scope tollgate_scope.

Definition config_tree (c : Config.t) : result Value string :=
  key_file <-? match Config.secret_key_file c with Some p => path_tree p | None => Ok VNull end;
  socket <-? path_tree (Config.control_socket c);
  Ok (obj CONFIG_FIELDS
    [key_file; VString (Config.listen c); list_value VString (Config.mints c);
     list_value product_config_tree (Config.products c); firewall_tree (Config.firewall c);
     VString (Config.unit c); socket; VInt (Config.metering_interval_secs c);
     list_value upstream_tree (Config.upstreams c); v1_compat_tree (Config.v1_compat c);
     dynamic_pricing_tree (Config.dynamic_pricing c);
     map_tree peer_override_tree (Config.peer_overrides c)]).
End trees.

(** [serde_json::to_value(config)]. *)
Definition config_value (c : Config.t) : result Value string :=
  match config_tree c with Ok v => Ok (to_value v) | Err e => Err e end.

(** ** The server *)

Module CLIMessage.
Record t : Set := mk {
  command : string;
  args : option (list string);
  flags : option (gmap string string)
}.
Definition of_tree (v : Value) : option t :=
  fs ← struct_fields ["command"; "args"; "flags"]%string v;
  command ← required de_string fs 0;
  args ← optional (de_vec de_string) fs 1;
  flags ← optional (de_map de_string) fs 2;
  Some (mk command args flags).
End CLIMessage.

Module CLIResponse.
Record t : Set := mk {
  success : bool;
  message : option string;
  data : option Value;
  error : option string
}.
Definition okay (data : Value) : t := mk true None (Some data) None.
Definition err (msg : string) : t := mk false None None (Some msg).
Definition tree (r : t) : Value :=
  obj ["success"; "message"; "data"; "error"]%string
    [VBool (success r); option_value VString (message r); option_value id (data r);
     option_value VString (error r)].
End CLIResponse.

(** What the build fixes: the version and the features of the crate. *)
Module Build.
Record t : Set := mk { version : string; v1_compat : bool; openwrt : bool; spilman : bool }.
Definition features (b : t) : list string :=
  (if v1_compat b then ["v1-compat"%string] else []) ++
  (if openwrt b then ["openwrt"%string] else []) ++ (if spilman b then ["spilman"%string] else []).
End Build.

Section server.
Context `{Minicbor, HexCodec, JsonText}.
Context (clock : nat -> Z) (node : Driver.config) (build : Build.t) (cfg : Config.t).

Definition version_response : CLIResponse.t :=
  CLIResponse.okay (to_value (obj ["version"; "features"]%string
    [VString (Build.version build); list_value VString (Build.features build)])).

Definition BALANCE_NOTE : string := "wallet balance not available in current architecture".
Definition wallet_response (sub : option string) : CLIResponse.t :=
  match sub with
  | Some other =>
      if decide (other = "balance"%string)
      then CLIResponse.okay (to_value (obj ["balance"; "note"]%string [VInt 0; VString BALANCE_NOTE]))
      else CLIResponse.err ("unknown wallet subcommand: " +:+ other)
  | None => CLIResponse.okay (to_value (obj ["balance"; "note"]%string [VInt 0; VString BALANCE_NOTE]))
  end.

Definition config_response (sub : option string) : CLIResponse.t :=
  let get := match config_value cfg with
             | Ok v => CLIResponse.okay v
             | Err e => CLIResponse.err ("serialize config: " +:+ e)
             end in
  match sub with
  | Some other =>
      if decide (other = "get"%string) then get
      else CLIResponse.err ("unknown config subcommand: " +:+ other)
  | None => get
  end.

(** A status is always written: its failure arm is never taken. *)
Definition route (msg : CLIMessage.t) (d : Driver.t) : Driver.t * CLIResponse.t :=
  let args := unwrap_or (CLIMessage.args msg) [] in
  let sub := head args in
  let command := CLIMessage.command msg in
  if decide (command = "status"%string) then
    let '(d, st) := status clock node d in (d, CLIResponse.okay (to_value (node_tree st)))
  else if decide (command = "version"%string) then (d, version_response)
  else if decide (command = "health"%string) then (d, CLIResponse.okay (obj ["ok"]%string [VBool true]))
  else if decide (command = "wallet"%string) then (d, wallet_response sub)
  else if decide (command = "config"%string) then (d, config_response sub)
  else (d, CLIResponse.err ("unknown command: " +:+ command)).

Definition parse_message (text : string) : option CLIMessage.t :=
  json_tree text ≫= CLIMessage.of_tree.

(** One line, and its reply; empty for none. *)
Definition process_line (line : string) (d : Driver.t) : Driver.t * string :=
  let trimmed := trim line in
  if decide (trimmed = EmptyString) then (d, EmptyString)
  else match parse_message trimmed with
  | Some msg => let '(d, resp) := route msg d in (d, json_to_string (CLIResponse.tree resp))
  | None =>
      if decide (trimmed = "status"%string) then
        let '(d, st) := status clock node d in (d, json_to_string (node_tree st))
      else (d, json_to_string (obj ["error"]%string [VString ("unknown command: " +:+ trimmed)]))
  end.

(** A connection: the lines received, in order; one that is not UTF-8 ends it. *)
Fixpoint handle (received : list string) (d : Driver.t) : Driver.t * string :=
  match received with
  | [] => (d, EmptyString)
  | line :: received =>
      match from_utf8 (as_bytes line) with
      | None => (d, EmptyString)
      | Some line =>
          let '(d, response) := process_line line d in
          let '(d, written) := handle received d in
          (d, if decide (response = EmptyString) then written
              else response +:+ newline_string +:+ written)
      end
  end.
End server.

(** ** The client *)

Module QueryError.
Inductive t : Set := Connecting | Empty | Parsing.
End QueryError.

(** [read_line]: up to the first newline. *)
Definition read_line (reply : string) : string := before newline_string reply.

(** [query]: [serve] is the socket, [None] when connecting, sending or reading fails. *)
Definition query `{JsonText} (serve : option (string -> string)) : result NodeStatus.t QueryError.t :=
  match serve with
  | None => Err QueryError.Connecting
  | Some serve =>
      let line := trim (read_line (serve ("status" +:+ newline_string))) in
      if decide (line = EmptyString) then Err QueryError.Empty
      else ok_or (json_tree line ≫= node_of) QueryError.Parsing
  end.

(** ** The admin API *)

Module Response.
Record t : Set := mk { status_code : Z; content_type : string; body : string }.
End Response.

Section web_ui.
Context `{Minicbor, HexCodec, JsonText}.
Context (clock : nat -> Z) (node : Driver.config) (cfg : Config.t).

Definition json_response (value : result Value string) (label : string) : Response.t :=
  match value with
  | Ok v => Response.mk 200 "application/json" (json_to_string v)
  | Err e =>
      Response.mk 500 "application/json"
        (json_to_string (obj ["error"]%string [VString (label +:+ ": " +:+ e)]))
  end.

Definition api_status (d : Driver.t) : Driver.t * Response.t :=
  let '(d, st) := status clock node d in
  (d, json_response (Ok (to_value (node_tree st))) "serialize status").
Definition api_config : Response.t := json_response (config_value cfg) "serialize config".
End web_ui.

(** ** Lemmas: what is written is read *)

(** The values of a status fit their Rust types. *)
Definition rates_fit (r : Rates.t) : Prop :=
  is_i64 (Rates.price_per_second r) /\ is_i64 (Rates.price_per_unit r).
Definition mint_fits (m : MintStatus.t) : Prop :=
  is_i64 (MintStatus.price_per_second m) /\ is_i64 (MintStatus.price_per_unit m).
Definition product_fits (p : ProductStatus.t) : Prop :=
  is_u32 (ProductStatus.pricing_scale p) /\ Forall mint_fits (ProductStatus.mints p).
Definition pricing_fits (p : PricingStatus.t) : Prop :=
  Forall product_fits (PricingStatus.products p) /\
  is_u32 (PricingStatus.min_interval_ms p) /\ is_u32 (PricingStatus.max_interval_ms p).
Definition peer_fits (p : PeerStatus.t) : Prop :=
  is_u64 (PeerStatus.delivered p) /\ is_u64 (PeerStatus.received p) /\
  rates_fit (PeerStatus.our_price p) /\ rates_fit (PeerStatus.their_price p) /\
  is_i64 (PeerStatus.their_balance p) /\ is_i64 (PeerStatus.our_balance p) /\
  is_u64 (PeerStatus.metered_secs p) /\ is_u64 (PeerStatus.idle_ms p).
Definition node_fits (s : NodeStatus.t) : Prop :=
  Forall peer_fits (NodeStatus.peers s) /\ pricing_fits (NodeStatus.pricing s).

#[export] Instance rates_fit_dec r : Decision (rates_fit r).
Proof. unfold rates_fit. apply _. Defined.
#[export] Instance mint_fits_dec m : Decision (mint_fits m).
Proof. unfold mint_fits. apply _. Defined.
#[export] Instance product_fits_dec p : Decision (product_fits p).
Proof. unfold product_fits. apply _. Defined.
#[export] Instance pricing_fits_dec p : Decision (pricing_fits p).
Proof. unfold pricing_fits. apply _. Defined.
#[export] Instance peer_fits_dec p : Decision (peer_fits p).
Proof. unfold peer_fits. apply _. Defined.
#[export] Instance node_fits_dec s : Decision (node_fits s).
Proof. unfold node_fits. apply _. Defined.

(** A status as it comes back: a drift that is a number is reread, another is lost. *)
Definition read_drift (f : f64 -> f64) (d : option f64) : option f64 :=
  x ← d; if is_finite x then Some (f x) else None.
Definition read_peer (f : f64 -> f64) (p : PeerStatus.t) : PeerStatus.t :=
  PeerStatus.mk (PeerStatus.pubkey p) (PeerStatus.ip p) (PeerStatus.state p) (PeerStatus.delivered p)
    (PeerStatus.received p) (PeerStatus.our_price p) (PeerStatus.their_price p)
    (PeerStatus.their_balance p) (PeerStatus.our_balance p) (PeerStatus.metered_secs p)
    (PeerStatus.idle_ms p) (read_drift f (PeerStatus.drift p)).
Definition read_node (f : f64 -> f64) (s : NodeStatus.t) : NodeStatus.t :=
  NodeStatus.mk (NodeStatus.pubkey s) (NodeStatus.unit s) (read_peer f <$> NodeStatus.peers s)
    (NodeStatus.pricing s).

Lemma map_floats_obj f names vals :
  map_floats f (obj names vals) = obj names (map_floats f <$> vals).
Proof.
  unfold obj. cbn. f_equal. revert vals. induction names as [|n names IH]; intros [|v vals]; [done..|].
  cbn. by rewrite IH.
Qed.

Lemma struct_fields_obj names vals :
  NoDup names -> length names = length vals ->
  struct_fields names (obj names vals) = Some (Some <$> vals).
Proof. apply struct_fields_zip. Qed.

Lemma de_i64_int n : is_i64 n -> de_i64 (VInt n) = Some n.
Proof. intros [Ha Hb]. unfold de_i64, value_as_i64. by rewrite (proj2 (Z.leb_le _ _) Ha), (proj2 (Z.leb_le _ _) Hb). Qed.
Lemma de_u64_int n : is_u64 n -> de_u64 (VInt n) = Some n.
Proof. intros [Ha Hb]. unfold de_u64, value_as_u64. by rewrite (proj2 (Z.leb_le _ _) Ha), (proj2 (Z.leb_le _ _) Hb). Qed.
Lemma de_u32_int n : is_u32 n -> de_u32 (VInt n) = Some n.
Proof. intros [Ha Hb]. unfold de_u32. by rewrite (proj2 (Z.leb_le _ _) Ha), (proj2 (Z.leb_le _ _) Hb). Qed.

Lemma de_vec_list {A} (de : Value -> option A) (ser : A -> Value) (g : A -> A) f l :
  (forall x, x ∈ l -> de (map_floats f (ser x)) = Some (g x)) ->
  de_vec de (map_floats f (list_value ser l)) = Some (g <$> l).
Proof.
  intros Hde. unfold de_vec, list_value. cbn. rewrite <- (list_fmap_compose ser (map_floats f)).
  apply mapM_Some. induction l as [|x l IH]; constructor.
  - apply Hde. by left.
  - apply IH. intros y Hy. apply Hde. by right.
Qed.

(** One field after the other. *)
Ltac read_fields :=
  rewrite map_floats_obj, struct_fields_obj by (done || by (apply (bool_decide_unpack _); vm_compute));
  cbn [mbind option_bind required optional defaulted fmap list_fmap lookup list_lookup map_floats].

Lemma rates_read f r : rates_fit r -> rates_of (map_floats f (rates_tree r)) = Some r.
Proof.
  intros [Hs Hu]. unfold rates_of, rates_tree. read_fields. by rewrite !de_i64_int; destruct r.
Qed.

Lemma mint_read f m : mint_fits m -> mint_of (map_floats f (mint_tree m)) = Some m.
Proof.
  intros [Hs Hu]. unfold mint_of, mint_tree. read_fields. cbn [de_string as_str].
  by rewrite !de_i64_int; destruct m.
Qed.

Lemma product_read f p : product_fits p -> product_of (map_floats f (product_tree p)) = Some p.
Proof.
  intros [Hs Hm]. unfold product_of, product_tree. read_fields. cbn [de_string as_str].
  rewrite de_u32_int by done. cbn [mbind option_bind]. rewrite (de_vec_list _ _ id).
  - cbn. rewrite list_fmap_id. by destruct p.
  - intros m Hin. apply mint_read. by eapply Forall_forall in Hm.
Qed.

Lemma pricing_read f p : pricing_fits p -> pricing_of (map_floats f (pricing_tree p)) = Some p.
Proof.
  intros (Hp & Hmin & Hmax). unfold pricing_of, pricing_tree. read_fields. rewrite (de_vec_list _ _ id).
  - cbn [mbind option_bind]. rewrite !de_u32_int by done. cbn. rewrite list_fmap_id. by destruct p.
  - intros q Hin. apply product_read. by eapply Forall_forall in Hp.
Qed.

Lemma text_read f o :
  de_option de_string (map_floats f (option_value VString o)) = Some o.
Proof. by destruct o. Qed.

Lemma drift_read f d :
  de_option de_f64 (map_floats f (option_value float_value d)) = Some (read_drift f d).
Proof. destruct d as [x|]; [|done]. cbn. unfold float_value. by destruct (is_finite x). Qed.

Lemma peer_read f p : peer_fits p -> peer_of (map_floats f (peer_tree p)) = Some (read_peer f p).
Proof.
  intros (Hd & Hr & Hop & Htp & Htb & Hob & Hm & Hi). unfold peer_of, peer_tree. read_fields.
  cbn [de_string as_str mbind option_bind].
  by rewrite text_read, !de_u64_int, !rates_read, !de_i64_int, drift_read by done.
Qed.

Lemma node_read f s : node_fits s -> node_of (map_floats f (node_tree s)) = Some (read_node f s).
Proof.
  intros [Hp Hpr]. unfold node_of, node_tree. read_fields. cbn [de_string as_str mbind option_bind].
  rewrite (de_vec_list _ _ (read_peer f)).
  - cbn [mbind option_bind]. by rewrite pricing_read.
  - intros p Hin. apply peer_read. by eapply Forall_forall in Hp.
Qed.

(** Trees that can be written: [n] bounds the nesting. *)
Definition written (n : nat) (v : Value) : Prop := writable v = true /\ (depth v <= n)%nat.

Lemma written_obj n names vals : Forall (written n) vals -> written (S n) (obj names vals).
Proof.
  intros Hv. unfold written, obj. cbn. revert vals Hv.
  induction names as [|x names IH]; intros [|v vals] Hv; try (cbn; split; [done|lia]).
  apply Forall_cons in Hv as [[Hw Hd] Hv]. destruct (IH vals Hv) as [Hws Hds]. cbn.
  split; [by rewrite Hw|lia].
Qed.

Lemma written_list {A} n (ser : A -> Value) l :
  (forall x, x ∈ l -> written n (ser x)) -> written (S n) (list_value ser l).
Proof.
  intros Hs. unfold written, list_value. cbn. induction l as [|x l IH]; [cbn; split; [done|lia]|].
  destruct (Hs x ltac:(left)) as [Hw Hd]. destruct IH as [Hws Hds]; [intros y Hy; apply Hs; by right|].
  cbn. split; [by rewrite Hw|lia].
Qed.

Lemma written_string n s : written n (VString s).
Proof. split; [done|cbn; lia]. Qed.
Lemma written_int n z : I64_MIN <= z <= U64_MAX -> written n (VInt z).
Proof. intros [Ha Hb]. split; [|cbn; lia]. cbn. by rewrite (proj2 (Z.leb_le _ _) Ha), (proj2 (Z.leb_le _ _) Hb). Qed.
Lemma written_text n o : written n (option_value VString o).
Proof. destruct o; split; first [done|cbn; lia]. Qed.
Lemma written_drift n d : written n (option_value float_value d).
Proof.
  destruct d as [x|]; [|split; first [done|cbn; lia]]. cbn. unfold float_value.
  destruct (is_finite x) eqn:E; split; first [done|cbn; lia].
Qed.

Create HintDb written.
#[export] Hint Resolve written_string written_text written_drift : written.
#[export] Hint Extern 1 (written _ (VInt _)) => apply written_int; ints : written.
(** A struct whose fields are written. *)
Ltac struct_written := apply written_obj; repeat apply Forall_cons_2; try apply Forall_nil_2; auto with written.

Lemma rates_written r : rates_fit r -> written 1 (rates_tree r).
Proof. intros [Hs Hu]. struct_written. Qed.
Lemma mint_written m : mint_fits m -> written 1 (mint_tree m).
Proof. intros [Hs Hu]. struct_written. Qed.
Lemma product_written p : product_fits p -> written 3 (product_tree p).
Proof.
  intros [Hs Hm]. struct_written. apply written_list. intros m Hin.
  apply mint_written. by eapply Forall_forall in Hm.
Qed.
Lemma pricing_written p : pricing_fits p -> written 5 (pricing_tree p).
Proof.
  intros (Hp & Hmin & Hmax). struct_written. apply written_list. intros q Hin.
  apply product_written. by eapply Forall_forall in Hp.
Qed.

Lemma peer_written p : peer_fits p -> written 2 (peer_tree p).
Proof.
  intros (Hd & Hr & Hop & Htp & Htb & Hob & Hm & Hi).
  struct_written; by apply rates_written.
Qed.

Lemma node_written s : node_fits s -> written 6 (node_tree s).
Proof.
  intros [Hp Hpr]. struct_written; [|by apply pricing_written].
  destruct (written_list 2 peer_tree (NodeStatus.peers s)) as [Hw Hd].
  - intros p Hin. apply peer_written. by eapply Forall_forall in Hp.
  - split; [done|lia].
Qed.

(** ** Lemmas: the conversation *)

Lemma from_utf8_same s t : from_utf8 (as_bytes s) = Some t -> t = s.
Proof.
  unfold from_utf8, as_bytes. destruct (utf8_ok _); [|done]. intros [= <-].
  apply String.string_of_list_byte_of_string.
Qed.

Section conversation.
Context `{Minicbor, HexCodec, JsonTextLaws}.
Context (clock : nat -> Z) (node : Driver.config) (build : Build.t) (cfg : Config.t).

Lemma json_not_empty v : json_to_string v <> EmptyString.
Proof. intros E. pose proof (json_solid v) as Hs. by rewrite E in Hs. Qed.

Lemma json_line_ok v : line_ok (json_to_string v).
Proof.
  split; [apply json_one_line|]. pose proof (json_solid v) as Hs. unfold solid, solid_list in Hs.
  apply andb_true_iff in Hs as [_ Hs]. intros Hc.
  destruct (rev (chars (json_to_string v))) as [|c r]; [done|]. cbn in Hc. by injection Hc as ->.
Qed.

Lemma read_line_json v : read_line (json_to_string v +:+ newline_string) = json_to_string v.
Proof.
  change newline_string with (String newline EmptyString +:+ "").
  apply (before_found newline EmptyString), json_one_line.
Qed.

Lemma json_tree_written n v :
  written n v -> (n < RECURSION_LIMIT)%nat -> json_tree (json_to_string v) = Some (map_floats reread v).
Proof. intros [Hw Hd] Hn. apply json_reads; [done|lia]. Qed.

(** What answers a line that asks for something: a response with either data or an
    error, the bare status, or a bare error. *)
Definition coherent (r : CLIResponse.t) : Prop :=
  match CLIResponse.data r, CLIResponse.error r with
  | Some _, None => CLIResponse.success r = true
  | None, Some _ => CLIResponse.success r = false
  | _, _ => False
  end.
Definition answers (line reply : string) : Prop :=
  match parse_message (trim line) with
  | Some _ => exists resp, coherent resp /\ reply = json_to_string (CLIResponse.tree resp)
  | None =>
      if decide (trim line = "status"%string)
      then exists d, reply = json_to_string (node_tree (status clock node d).2)
      else reply = json_to_string (obj ["error"]%string [VString ("unknown command: " +:+ trim line)])
  end.

Lemma route_coherent msg d :
  let '(d', resp) := route clock node build cfg msg d in
  coherent resp /\ (d' = d \/ d' = Driver.tick_clock d).
Proof.
  unfold route, wallet_response, config_response. destruct (status clock node d) as [d' st] eqn:E.
  unfold status in E. cbn in E. injection E as <- _.
  repeat case_decide; try (split; [done|auto]).
  - destruct (head _); repeat case_decide; split; auto; done.
  - destruct (head _); repeat case_decide; destruct (config_value cfg); split; auto; done.
Qed.

Lemma process_line_answers line d :
  let '(d', reply) := process_line clock node build cfg line d in
  (d' = d \/ d' = Driver.tick_clock d) /\
  if decide (trim line = EmptyString) then reply = EmptyString
  else answers line reply /\ reply <> EmptyString /\ line_ok reply.
Proof.
  unfold process_line, answers. destruct (decide (trim line = EmptyString)); [by auto|].
  destruct (parse_message (trim line)) as [msg|] eqn:Hm.
  - pose proof (route_coherent msg d) as Hr. destruct (route _ _ _ _ msg d) as [d' resp].
    destruct Hr as [Hc Hd]. split; [done|].
    split; [by exists resp|]. split; [apply json_not_empty|apply json_line_ok].
  - destruct (decide (trim line = "status"%string)).
    + destruct (status clock node d) as [d' st] eqn:E. split.
      * unfold status in E. cbn in E. injection E as <- _. by right.
      * split; [|split; [apply json_not_empty|apply json_line_ok]]. exists d. by rewrite E.
    + split; [by left|]. split; [done|]. split; [apply json_not_empty|apply json_line_ok].
Qed.

(** What a connection is written is lines, one for each line that is not blank. *)
Lemma handle_unlines received d d' out :
  Forall (fun l => is_Some (from_utf8 (as_bytes l))) received ->
  handle clock node build cfg received d = (d', out) ->
  exists rs, out = unlines rs /\
    Forall2 answers (filter (fun l => trim l <> EmptyString) received) rs /\ Forall line_ok rs /\
    exists k, (k <= length received)%nat /\ d' = Nat.iter k Driver.tick_clock d.
Proof.
  intros Hr. revert d d' out. induction Hr as [|l received [l' Hl] _ IH]; intros d d' out; cbn [handle].
  { intros [= <- <-]. exists []. split_and!; [done|constructor|constructor|]. by exists O. }
  rewrite Hl. apply from_utf8_same in Hl as ->. pose proof (process_line_answers l d) as Ha.
  destruct (process_line clock node build cfg l d) as [d1 reply].
  destruct (handle clock node build cfg received d1) as [d2 rest] eqn:E. destruct Ha as [Hd Ha].
  destruct (IH d1 d2 rest E) as (rs & -> & Hrs & Hok & k & Hk & Hd2).
  assert (exists j, (j <= S (length received))%nat /\ d2 = Nat.iter j Driver.tick_clock d) as Hj.
  { destruct Hd as [->| ->]; [exists k; split; [lia|done]|]. exists (S k). split; [lia|].
    by rewrite Nat.iter_succ_r. }
  case_decide as Et.
  - rewrite Ha, decide_True by done. intros [= <- <-]. exists rs. rewrite filter_cons_False by naive_solver.
    by split_and!.
  - destruct Ha as (Ha & Hne & Hlok). rewrite decide_False by done. intros [= <- <-].
    exists (reply :: rs). rewrite filter_cons_True by done. by split_and!; [|constructor|constructor|].
Qed.
End conversation.

(** ** Lemmas: sorted objects *)

Lemma find_key (l : list (string * Value)) name u :
  NoDup (fst <$> l) -> (name, u) ∈ l -> snd <$> find (fun p => bool_decide (p.1 = name)) l = Some u.
Proof.
  induction l as [|[k v] l IH]; [by intros _ ?%elem_of_nil|]. cbn. intros [Hk Hn]%NoDup_cons Hin.
  case_bool_decide as E; cbn in *.
  - subst k. apply elem_of_cons in Hin as [[= ->]|Hin]; [done|].
    destruct Hk. apply list_elem_of_fmap. by exists (name, u).
  - apply elem_of_cons in Hin as [[= -> ->]|Hin]; [done|]. by apply IH.
Qed.

Lemma zip_fst_prefix (names : list string) (vals : list Value) : NoDup names -> NoDup (fst <$> zip names vals).
Proof.
  intros Hn. revert vals. induction Hn as [|x names Hx Hn IH]; intros [|v vals]; try (cbn; constructor).
  - intros ([k w] & E & Hin)%list_elem_of_fmap. cbn in E. subst k. by apply elem_of_zip_l in Hin.
  - apply IH.
Qed.

(** A field of a struct, in what [to_value] makes of it. *)
Lemma get_to_value names vals i name v :
  NoDup names -> names !! i = Some name -> vals !! i = Some v ->
  get (to_value (obj names vals)) name = Some (to_value v).
Proof.
  intros Hn Hi Hv. unfold obj. cbn. apply find_key.
  - rewrite merge_sort_Permutation. change (map ?f ?l) with (f <$> l). rewrite <- list_fmap_compose.
    rewrite (list_fmap_ext _ fst) by done. by apply zip_fst_prefix.
  - rewrite merge_sort_Permutation. change (map ?f ?l) with (f <$> l).
    apply list_elem_of_fmap. exists (name, v). split; [done|].
    apply list_elem_of_lookup. exists i. apply lookup_zip_with_Some. by exists name, v.
Qed.

Lemma Ok_inj {T E} (a b : T) : @Ok T E a = Ok b -> a = b.
Proof. congruence. Qed.

Lemma config_value_compat cfg v :
  config_value cfg = Ok v -> get v "v1_compat" = Some (to_value (v1_compat_tree (Config.v1_compat cfg))).
Proof.
  unfold config_value, config_tree.
  destruct (match Config.secret_key_file cfg with Some p => path_tree p | None => Ok VNull end); [|done].
  cbn [res_bind]. destruct (path_tree (Config.control_socket cfg)); [|done].
  cbn [res_bind]. intros <-%Ok_inj.
  apply (get_to_value _ _ 9); [apply (bool_decide_unpack _); by vm_compute|done..].
Qed.

(** ** A node and its console *)

Module ControlDemo.
Definition build : Build.t := Build.mk "0.1.0" true false false.
(** The node of the status view, its funds under a seed. *)
Definition cfg : Config.t :=
  Config.mk None "0.0.0.0:4747" ["https://mint.a"]%string [] FirewallMode.Enforcing "bytes"
    "/tmp/tollgate.sock" 5 []
    (V1CompatConfig.mk "bytes" 0 [] (Some "4f5a") false (Some "c0ffee"))%string
    DynamicPricingConfig.default ∅.
Definition serve (received : list string) : Driver.t * string :=
  @handle Toy.toy ConsumeDemo.hex ToyJson.json NodeDemo.clock NodeDemo.cfg build cfg received
    StatusDemo.node.
End ControlDemo.

(** ** Properties *)

(** C23: the client reads the status that the node shows. Whatever the node's state, the
    line that [query] sends is answered, at the cost of one reading of the clock, with
    a line in which the client finds that very status: every peer with every field, the
    prices and the unit; only a drift is as its digits read back, and one that is not a
    number is absent. *)
Theorem query_reads_status `{Minicbor, HexCodec, JsonTextLaws} clock node build cfg d :
  let '(d', st) := status clock node d in
  let serve sent := handle clock node build cfg (lines sent) d in
  node_fits st ->
  query (Some (fun sent => (serve sent).2)) = Ok (read_node reread st) /\
  (serve ("status" +:+ newline_string)).1 = d'.
Proof.
  destruct (status clock node d) as [d' st] eqn:E. cbv zeta. intros Hst.
  assert (handle clock node build cfg (lines ("status" +:+ newline_string)) d =
    (d', json_to_string (node_tree st) +:+ newline_string)) as Hh.
  { change (lines ("status" +:+ newline_string)) with ["status"%string]. cbn [handle].
    change (from_utf8 (as_bytes "status")) with (Some "status"%string). cbn iota. unfold process_line.
    change (trim "status") with "status"%string. rewrite decide_False by done.
    unfold parse_message. rewrite json_refuses_word.
    - cbn [mbind option_bind]. rewrite decide_True, E by done. rewrite decide_False by apply json_not_empty.
      done.
    - by vm_compute.
    - apply (bool_decide_unpack _). by vm_compute. }
  unfold query. rewrite Hh. split; [|done]. cbn [snd].
  rewrite read_line_json.
  rewrite trim_solid by apply json_solid. rewrite decide_False by apply json_not_empty.
  rewrite (json_tree_written 6) by (by apply node_written || (unfold RECURSION_LIMIT; lia)).
  cbn [mbind option_bind]. by rewrite node_read.
Qed.

Lemma query_reads_status_witness :
  let st := (@status Toy.toy ConsumeDemo.hex NodeDemo.clock NodeDemo.cfg StatusDemo.node).2 in
  length (NodeStatus.peers st) = 2%nat /\
  @query ToyJson.json (Some (fun sent => (ControlDemo.serve (lines sent)).2)) = Ok (read_node id st).
Proof.
  cbv zeta. split; [by vm_compute|].
  pose proof (@query_reads_status Toy.toy ConsumeDemo.hex ToyJson.json ToyJson.json_laws NodeDemo.clock
    NodeDemo.cfg ControlDemo.build ControlDemo.cfg StatusDemo.node) as Hq.
  rewrite (surjective_pairing (@status Toy.toy ConsumeDemo.hex NodeDemo.clock NodeDemo.cfg StatusDemo.node)) in Hq.
  apply Hq, (bool_decide_unpack _). by vm_compute.
Defined.

(** Every line that asks for something is answered with one line, in order. A connection
    that sends text is written, for each line that is not blank, one line of JSON: a
    response with either data or an error to a request, the bare status to the word
    [status], an error to anything else; and nothing it sends changes the node, but for
    reading its clock at most once a line. *)
Theorem control_replies `{Minicbor, HexCodec, JsonTextLaws} clock node build cfg received d :
  Forall (fun l => is_Some (from_utf8 (as_bytes l))) received ->
  let '(d', out) := handle clock node build cfg received d in
  Forall2 (answers clock node) (filter (fun l => trim l <> EmptyString) received) (lines out) /\
  exists k, (k <= length received)%nat /\ d' = Nat.iter k Driver.tick_clock d.
Proof.
  intros Hr. destruct (handle clock node build cfg received d) as [d' out] eqn:E.
  destruct (handle_unlines clock node build cfg received d d' out Hr E) as (rs & -> & Ha & Hok & Hk).
  by rewrite lines_unlines.
Qed.

Lemma control_replies_witness :
  let '(d', out) := ControlDemo.serve ["status"; "  "; "bye"]%string in
  length (lines out) = 2%nat.
Proof.
  pose proof (@control_replies Toy.toy ConsumeDemo.hex ToyJson.json ToyJson.json_laws NodeDemo.clock
    NodeDemo.cfg ControlDemo.build ControlDemo.cfg ["status"; "  "; "bye"]%string StatusDemo.node) as Hc.
  unfold ControlDemo.serve. destruct (handle _ _ _ _ _ _) as [d' out]. destruct Hc as [Hf _].
  - repeat constructor; eexists; by vm_compute.
  - apply Forall2_length in Hf. by rewrite <- Hf.
Defined.

(** ** Departures *)

(** The admin API keeps no secret. The configuration it serves to whoever reaches the
    node's listener holds the seed of the wallet's funds and the node's Nostr key, for
    there is no authentication and no field is left out. *)
Theorem admin_api_tells_seed `{Minicbor, HexCodec, JsonText} cfg v :
  config_value cfg = Ok v ->
  api_config cfg = Response.mk 200 "application/json" (json_to_string v) /\
  (compat ← get v "v1_compat"; get compat "wallet_seed") =
    Some (option_value VString (V1CompatConfig.wallet_seed (Config.v1_compat cfg))) /\
  (compat ← get v "v1_compat"; get compat "nostr_secret_key") =
    Some (option_value VString (V1CompatConfig.nostr_secret_key (Config.v1_compat cfg))).
Proof.
  intros Hv. split; [unfold api_config; by rewrite Hv|].
  rewrite (config_value_compat cfg v Hv). cbn [mbind option_bind]. unfold v1_compat_tree.
  rewrite (get_to_value _ _ 5 _ (option_value VString (V1CompatConfig.wallet_seed (Config.v1_compat cfg))));
    [|by apply (bool_decide_unpack _); vm_compute|done..].
  rewrite (get_to_value _ _ 3 _ (option_value VString (V1CompatConfig.nostr_secret_key (Config.v1_compat cfg))));
    [|by apply (bool_decide_unpack _); vm_compute|done..].
  split; f_equal; by destruct (_ (Config.v1_compat cfg)).
Qed.

Lemma admin_api_tells_seed_witness :
  exists v, config_value ControlDemo.cfg = Ok v /\
    (compat ← get v "v1_compat"; get compat "wallet_seed") = Some (VString "c0ffee").
Proof.
  destruct (config_value ControlDemo.cfg) as [v|e] eqn:E; [|by vm_compute in E].
  exists v. split; [done|].
  exact (proj1 (proj2 (@admin_api_tells_seed Toy.toy ConsumeDemo.hex ToyJson.json ControlDemo.cfg v E))).
Defined.
