(* ===== verification/Uci.v ===== *)
(** * UCI operations and their two transports: the shell

    Models [crates/tollgate-net/src/openwrt/uci_ops.rs]: the operations, their
    rendering as shell commands with quoting, their execution one command at a time,
    and the builder. What a shell makes of a rendered command is read off [Shell.v]. *)

From S2P Require Import Prelude Json Shell.

Definition quote_char : Ascii.ascii := Ascii.ascii_of_N 39.
Definition backslash : Ascii.ascii := Ascii.ascii_of_N 92.
Definition quote_string : string := of_chars [quote_char].

(** [value.replace('\'', "'\\''")], then quotes around it. *)
Definition sh_quote (value : string) : string :=
  quote_string +:+
    replace_char quote_char (of_chars [quote_char; backslash; quote_char; quote_char]) value
  +:+ quote_string.

Inductive UciOpError : Set :=
| InvalidIdentifier (msg : string)
| ShellFailed (msg : string)
| UbusError (msg : string).

Definition identifier_char (c : Ascii.ascii) : bool :=
  let n := code c in
  ((97 <=? n) && (n <=? 122)) || ((65 <=? n) && (n <=? 90)) || ((48 <=? n) && (n <=? 57)) ||
  (n =? 95) || (n =? 45) || (n =? 46) || (n =? 64) || (n =? 91) || (n =? 93).
(** The first character that is not allowed, with the bytes it has in UTF-8. *)
Definition utf8_width (c : Ascii.ascii) : nat :=
  if code c <? 192 then 1 else if code c <? 224 then 2 else if code c <? 240 then 3 else 4.
Fixpoint first_invalid (l : list Ascii.ascii) : option (list Ascii.ascii) :=
  match l with
  | [] => None
  | c :: l' => if identifier_char c then first_invalid l' else Some (take (utf8_width c) l)
  end.
Definition validate_identifier (name : string) : result unit UciOpError :=
  if bool_decide (name = EmptyString) then Err (InvalidIdentifier "empty identifier")
  else match first_invalid (chars name) with
       | Some ch => Err (InvalidIdentifier ("invalid character '" +:+ of_chars ch +:+ "' in identifier"))
       | None => Ok tt
       end.

Inductive OpValue : Set := Single (v : string) | List (items : list string).

Inductive ServiceAction : Set := Start | Stop | Restart | Enable | Disable.
Definition action_str (a : ServiceAction) : string :=
  match a with
  | Start => "start" | Stop => "stop" | Restart => "restart" | Enable => "enable"
  | Disable => "disable"
  end.

Module UciOp.
Inductive t : Set :=
| Set_ (config section : string) (values : list (string * OpValue))
| Add (config type_name name : string) (values : list (string * OpValue))
| Delete (config section : string) (option : option string)
| AddList (config section option value : string)
| Commit (config : string)
| Shell (command : string)
| Service (name : string) (action : ServiceAction)
| Comment (text : string).
End UciOp.

(** ** Rendering *)

Definition path (config section key : string) : string := config +:+ "." +:+ section +:+ "." +:+ key.
Definition render_set (p value : string) : string := "uci set " +:+ p +:+ "=" +:+ sh_quote value.
Definition render_add_list (p item : string) : string :=
  "uci add_list " +:+ p +:+ "=" +:+ sh_quote item.

Definition render_value (config section : string) (kv : string * OpValue) : list string :=
  let p := path config section kv.1 in
  match kv.2 with
  | Single v => [render_set p v]
  | List items =>
      ("uci delete " +:+ p +:+ " 2>/dev/null || true") :: (render_add_list p <$> items)
  end.
Definition render_new_value (config section : string) (kv : string * OpValue) : list string :=
  let p := path config section kv.1 in
  match kv.2 with
  | Single v => [render_set p v]
  | List items => render_add_list p <$> items
  end.

(** The arms of [render_shell], for one operation. *)
Definition render_op (op : UciOp.t) : list string :=
  match op with
  | UciOp.Set_ config section values => values ≫= render_value config section
  | UciOp.Add config type_name name values =>
      (if bool_decide (name = EmptyString) then "uci add " +:+ config +:+ " " +:+ type_name
       else render_set (config +:+ "." +:+ name) type_name) ::
      (values ≫= render_new_value config
         (if bool_decide (name = EmptyString) then "@" +:+ type_name +:+ "[-1]" else name))
  | UciOp.Delete config section option =>
      [match option with
       | Some opt => "uci delete " +:+ path config section opt
       | None => "uci delete " +:+ config +:+ "." +:+ section
       end]
  | UciOp.AddList config section option value => [render_add_list (path config section option) value]
  | UciOp.Commit config => ["uci commit " +:+ config]
  | UciOp.Shell command => [command]
  | UciOp.Service name action => ["/etc/init.d/" +:+ name +:+ " " +:+ action_str action]
  | UciOp.Comment text => ["# " +:+ text]
  end.
Definition render_shell (ops : list UciOp.t) : list string := ops ≫= render_op.

(** ** Execution *)

Section execute.
(** The world the commands act on, and what running one does: whether it was started,
    and if so whether it succeeded and what it wrote to its standard error. *)
Context {World : Type} (sh : string -> World -> World * result (bool * string) string).

(** The first failure of an operation is the one reported. *)
Definition run_command (cmd : string) (op_result : result unit UciOpError) (w : World)
    : World * result unit UciOpError :=
  if starts_with "# " cmd then (w, op_result)
  else
    let '(w, output) := sh cmd w in
    let failed msg := if is_ok op_result then Err (ShellFailed (cmd +:+ ": " +:+ msg)) else op_result in
    (w, match output with
        | Ok (true, _) => op_result
        | Ok (false, stderr) => failed stderr
        | Err e => failed e
        end).

(** The inner loop: as many of the remaining rendered commands as the operation has. *)
Fixpoint run_some (n : nat) (cmds : list string) (r : result unit UciOpError) (w : World)
    : World * list string * result unit UciOpError :=
  match n, cmds with
  | S n, cmd :: cmds => let '(w, r) := run_command cmd r w in run_some n cmds r w
  | _, _ => (w, cmds, r)
  end.

Fixpoint execute_ops (ops : list UciOp.t) (cmds : list string) (w : World)
    : World * list (result unit UciOpError) :=
  match ops with
  | [] => (w, [])
  | op :: ops =>
      let '(w, cmds, r) := run_some (length (render_op op)) cmds (Ok tt) w in
      let '(w, rs) := execute_ops ops cmds w in
      (w, r :: rs)
  end.
Definition execute_shell (ops : list UciOp.t) (w : World) : World * list (result unit UciOpError) :=
  execute_ops ops (render_shell ops) w.

(** What it comes to: each operation by itself, its commands in order. *)
Definition run_op (op : UciOp.t) (w : World) : World * result unit UciOpError :=
  foldl (fun '(w, r) cmd => run_command cmd r w) (w, Ok tt) (render_op op).
Fixpoint run_ops (ops : list UciOp.t) (w : World) : World * list (result unit UciOpError) :=
  match ops with
  | [] => (w, [])
  | op :: ops => let '(w, r) := run_op op w in let '(w, rs) := run_ops ops w in (w, r :: rs)
  end.
End execute.

(** ** The builder *)

Module UciOpBuilder.
Definition t : Set := list UciOp.t.
Definition new : t := [].
Definition singles (values : list (string * string)) : list (string * OpValue) :=
  (fun kv => (kv.1, Single kv.2)) <$> values.
Definition set (config section : string) (values : list (string * string)) (b : t) : t :=
  b ++ [UciOp.Set_ config section (singles values)].
Definition add (config type_name name : string) (values : list (string * string)) (b : t) : t :=
  b ++ [UciOp.Add config type_name name (singles values)].
Definition delete (config section : string) (b : t) : t := b ++ [UciOp.Delete config section None].
Definition delete_option (config section option : string) (b : t) : t :=
  b ++ [UciOp.Delete config section (Some option)].
Definition add_list (config section option value : string) (b : t) : t :=
  b ++ [UciOp.AddList config section option value].
Definition commit (config : string) (b : t) : t := b ++ [UciOp.Commit config].
Definition shell (command : string) (b : t) : t := b ++ [UciOp.Shell command].
Definition service (name : string) (action : ServiceAction) (b : t) : t := b ++ [UciOp.Service name action].
Definition comment (text : string) (b : t) : t := b ++ [UciOp.Comment text].
Definition build (b : t) : list UciOp.t := b.
End UciOpBuilder.

(** ** What the operations ask for *)

(** A word that stands for itself. *)
Definition word (s : string) : token := Word (chars s) (existsb is_pattern (chars s)).
Definition op_char (s : string) : list token := Op <$> chars s.

(** [p=value]: only the path may hold pattern characters. *)
Definition assignment (p value : string) : token :=
  Word (chars p ++ chars "=" ++ chars value) (existsb is_pattern (chars p)).

Definition set_words (p value : string) : list token := [word "uci"; word "set"; assignment p value].
Definition add_list_words (p item : string) : list token :=
  [word "uci"; word "add_list"; assignment p item].
Definition delete_words (p : string) : list token := [word "uci"; word "delete"; word p].
(** [2>/dev/null || true] *)
Definition ignore_failure : list token :=
  [word "2"] ++ op_char ">" ++ [word "/dev/null"] ++ op_char "||" ++ [word "true"].

Definition value_words (config section : string) (kv : string * OpValue) : list (list token) :=
  let p := path config section kv.1 in
  match kv.2 with
  | Single v => [set_words p v]
  | List items => (delete_words p ++ ignore_failure) :: (add_list_words p <$> items)
  end.
Definition new_value_words (config section : string) (kv : string * OpValue) : list (list token) :=
  let p := path config section kv.1 in
  match kv.2 with
  | Single v => [set_words p v]
  | List items => add_list_words p <$> items
  end.
Definition intended (op : UciOp.t) : list (list token) :=
  match op with
  | UciOp.Set_ config section values => values ≫= value_words config section
  | UciOp.Add config type_name name values =>
      (if bool_decide (name = EmptyString) then [word "uci"; word "add"; word config; word type_name]
       else set_words (config +:+ "." +:+ name) type_name) ::
      (values ≫= new_value_words config
         (if bool_decide (name = EmptyString) then "@" +:+ type_name +:+ "[-1]" else name))
  | UciOp.Delete config section (Some opt) => [delete_words (path config section opt)]
  | UciOp.Delete config section None => [delete_words (config +:+ "." +:+ section)]
  | UciOp.AddList config section option value => [add_list_words (path config section option) value]
  | UciOp.Commit config => [[word "uci"; word "commit"; word config]]
  | UciOp.Shell command => []
  | UciOp.Service name action => [[word ("/etc/init.d/" +:+ name); word (action_str action)]]
  | UciOp.Comment text => []
  end.

(** The names of an operation, which are not quoted. *)
Definition named (op : UciOp.t) : list string :=
  match op with
  | UciOp.Set_ config section values => config :: section :: values.*1
  | UciOp.Add config type_name name values =>
      config :: (if bool_decide (name = EmptyString) then [type_name] else [name]) ++ values.*1
  | UciOp.Delete config section option => config :: section :: option_list option
  | UciOp.AddList config section option _ => [config; section; option]
  | UciOp.Commit config => [config]
  | UciOp.Service name _ => [name]
  | UciOp.Shell _ | UciOp.Comment _ => []
  end.
(** Raw commands are the caller's; comments are not run. *)
Definition is_raw (op : UciOp.t) : bool :=
  match op with UciOp.Shell _ | UciOp.Comment _ => true | _ => false end.
Definition validated (op : UciOp.t) : Prop :=
  is_raw op = false /\ Forall (fun name => validate_identifier name = Ok tt) (named op).

(** ** Lemmas: quoting *)

Lemma chars_cons c s : chars (String c s) = c :: chars s.
Proof. done. Qed.

Definition escaped (v : string) : string :=
  replace_char quote_char (of_chars [quote_char; backslash; quote_char; quote_char]) v.

Lemma begin_push c p w : begin_word (push c p w) = push c p w.
Proof. by destruct w as [[]|]. Qed.

Lemma class_quote c : class_of c = SingleQuote <-> c = quote_char.
Proof.
  split; [|intros ->; reflexivity]. destruct c as [[] [] [] [] [] [] [] []]; vm_compute; congruence.
Qed.

Lemma lex_close w l : lex InSingle w (quote_char :: l) = lex Plain w l.
Proof. reflexivity. Qed.
Lemma lex_open w l : lex Plain w (quote_char :: l) = lex InSingle (begin_word w) l.
Proof. reflexivity. Qed.
Lemma lex_backslash w c l : lex Plain w (backslash :: c :: l) = lex Plain (push c false w) l.
Proof. reflexivity. Qed.

(** Inside its quotes, the escaped value is the value. *)
Lemma lex_escaped w v rest :
  lex InSingle (begin_word w) (chars (escaped v) ++ rest) = lex InSingle (extend (begin_word w) (chars v) false) rest.
Proof.
  revert w. induction v as [|c v IH]; intros w; [by rewrite extend_nil|].
  unfold escaped. cbn [replace_char]. fold (escaped v).
  destruct (decide (c = quote_char)) as [->|Hc].
  - rewrite chars_app, chars_of_chars, <- app_assoc. cbn [app].
    rewrite lex_close, lex_backslash, lex_open, IH, begin_push, extend_push. done.
  - rewrite !chars_cons. cbn [app lex]. rewrite decide_False by (by rewrite class_quote).
    by rewrite <- (begin_push c false (begin_word w)), IH, begin_push, extend_push.
Qed.

(** A quoted value is its characters, wherever it stands in a word. *)
Lemma lex_quoted w v rest :
  lex Plain w (chars (sh_quote v) ++ rest) = lex Plain (extend w (chars v) false) rest.
Proof.
  unfold sh_quote, quote_string. rewrite !chars_app, !chars_of_chars, <- !app_assoc.
  change (chars (replace_char _ _ v)) with (chars (escaped v)). cbn [app].
  rewrite lex_open, lex_escaped, lex_close. by rewrite extend_begin.
Qed.

(** ** Lemmas: the words of a command *)

Definition plain_text (s : string) : Prop := Forall plain (chars s).
Definition plain_word (s : string) : Prop := chars s <> [] /\ plain_text s.
(** Literals are plain by computation. *)
Ltac plain_chars :=
  repeat (apply Forall_cons; split; [first [left; reflexivity|right; reflexivity]|]); apply Forall_nil_2.
Ltac plain_literal := first [split; [discriminate|plain_chars]|plain_chars].

Lemma plain_text_app a b : plain_text a -> plain_text b -> plain_text (a +:+ b).
Proof. unfold plain_text. rewrite chars_app. apply Forall_app_2. Qed.

Lemma plain_word_app a b : plain_word a -> plain_text b -> plain_word (a +:+ b).
Proof.
  intros [Hn Ha] Hb. split; [|by apply plain_text_app]. rewrite chars_app. by destruct (chars a).
Qed.

Lemma plain_text_app_word a b : plain_text a -> plain_word b -> plain_word (a +:+ b).
Proof.
  intros Ha [Hn Hb]. split; [|by apply plain_text_app]. rewrite chars_app.
  by destruct (chars a), (chars b).
Qed.

Lemma identifier_plain c : identifier_char c = true -> plain c.
Proof.
  assert (identifier_char c = true -> class_of c = Literal \/ class_of c = Pattern) as K; [|exact K].
  destruct c as [[] [] [] [] [] [] [] []]; vm_compute; auto; discriminate.
Qed.

Lemma first_invalid_none l : first_invalid l = None -> Forall plain l.
Proof.
  induction l as [|c l IH]; cbn [first_invalid]; [by constructor|].
  destruct (identifier_char c) eqn:E; [|done]. constructor; [by apply identifier_plain|by apply IH].
Qed.

Lemma validated_word name : validate_identifier name = Ok tt -> plain_word name.
Proof.
  unfold validate_identifier. destruct (bool_decide_reflect (name = EmptyString)) as [|Hne]; [done|].
  destruct (first_invalid _) eqn:Ef; [done|]. intros _. split; [|by apply first_invalid_none].
  intros E. apply Hne. rewrite <- (of_chars_chars name), E. done.
Qed.

Lemma lex_word s : plain_word s -> lex Plain None (chars s) = Tokens [word s].
Proof.
  intros [Hn Hp]. rewrite <- (app_nil_r (chars s)) at 1. by rewrite lex_plain_chars.
Qed.

Definition blank : Ascii.ascii := Ascii.ascii_of_N 32.

(** A plain word, a blank, and the rest of the line. *)
Lemma read_cons a s :
  plain_word a -> read_line (a +:+ " " +:+ s) = and_then (read_line s) (cons (word a)).
Proof.
  intros [Hn Hp]. unfold read_line. rewrite chars_app, lex_plain_chars by done.
  change (chars (" " +:+ s)) with (blank :: chars s). reflexivity.
Qed.

Lemma read_word s : plain_word s -> read_line s = Tokens [word s].
Proof. apply lex_word. Qed.

Lemma existsb_snoc_equals l : existsb is_pattern (l ++ chars "=") = existsb is_pattern l.
Proof. rewrite existsb_app. cbn. by rewrite orb_false_r. Qed.

Lemma read_assignment p v :
  plain_word p -> read_line (p +:+ "=" +:+ sh_quote v) = Tokens [assignment p v].
Proof.
  intros Hp. unfold read_line. rewrite !chars_app, app_assoc.
  assert (plain_word (p +:+ "=")) as [Hn Hq] by (apply plain_word_app; [done|plain_literal]).
  unfold plain_text in Hq. rewrite chars_app in Hn, Hq. rewrite lex_plain_chars by done.
  rewrite <- (app_nil_r (chars (sh_quote v))), lex_quoted, existsb_snoc_equals. cbn [lex extend flush].
  unfold assignment. by rewrite orb_false_r, <- app_assoc.
Qed.

Lemma read_set p v : plain_word p -> read_line (render_set p v) = Tokens (set_words p v).
Proof.
  intros Hp. change (render_set p v) with ("uci" +:+ " " +:+ ("set" +:+ " " +:+ (p +:+ "=" +:+ sh_quote v))).
  by rewrite !read_cons, read_assignment by (done || plain_literal).
Qed.

Lemma read_add_list p v : plain_word p -> read_line (render_add_list p v) = Tokens (add_list_words p v).
Proof.
  intros Hp.
  change (render_add_list p v) with ("uci" +:+ " " +:+ ("add_list" +:+ " " +:+ (p +:+ "=" +:+ sh_quote v))).
  by rewrite !read_cons, read_assignment by (done || plain_literal).
Qed.

Lemma read_delete p : plain_word p -> read_line ("uci delete " +:+ p) = Tokens (delete_words p).
Proof.
  intros Hp. change ("uci delete " +:+ p) with ("uci" +:+ " " +:+ ("delete" +:+ " " +:+ p)).
  by rewrite !read_cons, read_word by (done || plain_literal).
Qed.

Lemma read_delete_list p :
  plain_word p ->
  read_line ("uci delete " +:+ p +:+ " 2>/dev/null || true") = Tokens (delete_words p ++ ignore_failure).
Proof.
  intros Hp. change ("uci delete " +:+ p +:+ " 2>/dev/null || true") with
    ("uci" +:+ " " +:+ ("delete" +:+ " " +:+ (p +:+ " " +:+ "2>/dev/null || true"))).
  rewrite !read_cons by (done || plain_literal).
  assert (read_line "2>/dev/null || true" = Tokens ignore_failure) as -> by (vm_compute; reflexivity).
  done.
Qed.

Lemma path_word config section key :
  plain_word config -> plain_text section -> plain_text key -> plain_word (path config section key).
Proof.
  intros Hc Hs Hk. unfold path. apply plain_word_app; [done|].
  repeat (apply plain_text_app; try done); plain_literal.
Qed.

(** ** Lemmas: the operations *)

Lemma values_words config section values :
  plain_word config -> plain_text section ->
  Forall (fun name => validate_identifier name = Ok tt) values.*1 ->
  read_line <$> (values ≫= render_value config section) = Tokens <$> (values ≫= value_words config section).
Proof.
  intros Hc Hs. induction values as [|[k v] values IH]; intros Hk; [done|].
  apply Forall_cons in Hk as [Hk%validated_word Hks]. cbn [mbind list_bind].
  rewrite !fmap_app, (IH Hks). f_equal. unfold render_value, value_words. cbn [fst snd] in *.
  assert (plain_word (path config section k)) as Hp by (by apply path_word; destruct Hk).
  destruct v as [v|items]; cbn; [by rewrite read_set|]. f_equal; [by apply read_delete_list|].
  rewrite <- !list_fmap_compose. apply list_fmap_ext. intros i x _. by apply read_add_list.
Qed.

Lemma new_values_words config section values :
  plain_word config -> plain_text section ->
  Forall (fun name => validate_identifier name = Ok tt) values.*1 ->
  read_line <$> (values ≫= render_new_value config section) =
    Tokens <$> (values ≫= new_value_words config section).
Proof.
  intros Hc Hs. induction values as [|[k v] values IH]; intros Hk; [done|].
  apply Forall_cons in Hk as [Hk%validated_word Hks]. cbn [mbind list_bind].
  rewrite !fmap_app, (IH Hks). f_equal. unfold render_new_value, new_value_words. cbn [fst snd] in *.
  assert (plain_word (path config section k)) as Hp by (by apply path_word; destruct Hk).
  destruct v as [v|items]; cbn; [by rewrite read_set|].
  rewrite <- !list_fmap_compose. apply list_fmap_ext. intros i x _. by apply read_add_list.
Qed.

Lemma op_words op : validated op -> read_line <$> render_op op = Tokens <$> intended op.
Proof.
  intros [Hr Hn]. destruct op as [c s kvs|c ty n kvs|c s o|c s o v|c|cmd|n a|text]; cbn in Hr; try done;
    cbn [named render_op intended] in *; repeat (apply Forall_cons in Hn as [?%validated_word Hn]).
  - apply values_words; [done| |done]. by destruct H0.
  - rewrite !fmap_cons. destruct (bool_decide_reflect (n = EmptyString)) as [->|Hne].
    + apply Forall_cons in Hn as [Ht%validated_word Hn]. f_equal.
      * change ("uci add " +:+ c +:+ " " +:+ ty) with ("uci" +:+ " " +:+ ("add" +:+ " " +:+ (c +:+ " " +:+ ty))).
        by rewrite !read_cons, read_word by (done || plain_literal).
      * apply new_values_words; [done| |done]. destruct Ht.
        repeat (apply plain_text_app; try done); plain_literal.
    + apply Forall_cons in Hn as [Ht%validated_word Hn]. f_equal.
      * apply read_set, plain_word_app; [done|]. destruct Ht. apply plain_text_app; [plain_literal|done].
      * apply new_values_words; [done| |done]. by destruct Ht.
  - destruct o as [o|]; cbn in *.
    + apply Forall_cons in Hn as [Ho%validated_word _]. rewrite read_delete; [done|].
      destruct H0, Ho. by apply path_word.
    + rewrite read_delete; [done|]. destruct H0. apply plain_word_app; [done|].
      apply plain_text_app; [plain_literal|done].
  - cbn. rewrite read_add_list; [done|]. destruct H0, H1. by apply path_word.
  - cbn. change ("uci commit " +:+ c) with ("uci" +:+ " " +:+ ("commit" +:+ " " +:+ c)).
    by rewrite !read_cons, read_word by (done || plain_literal).
  - cbn. change ("/etc/init.d/" +:+ n +:+ " " +:+ action_str a) with
      (("/etc/init.d/" +:+ n) +:+ " " +:+ action_str a).
    rewrite read_cons, read_word; [done|by destruct a; plain_literal|].
    apply plain_text_app_word; [plain_literal|done].
Qed.

(** ** Lemmas: execution *)

Section execute.
Context {World : Type} (sh : string -> World -> World * result (bool * string) string).

Lemma run_some_all (cmds rest : list string) r w :
  run_some sh (length cmds) (cmds ++ rest) r w =
    let '(w, r) := foldl (fun '(w, r) cmd => run_command sh cmd r w) (w, r) cmds in (w, rest, r).
Proof.
  revert r w. induction cmds as [|cmd cmds IH]; intros r w; [by destruct rest|]. cbn.
  destruct (run_command sh cmd r w) as [w1 r1]. apply IH.
Qed.

Lemma execute_ops_run ops w : execute_ops sh ops (render_shell ops) w = run_ops sh ops w.
Proof.
  revert w. induction ops as [|op ops IH]; intros w; [done|].
  unfold render_shell. cbn [mbind list_bind execute_ops run_ops]. fold (render_shell ops).
  rewrite run_some_all. unfold run_op. destruct (foldl _ _ _) as [w1 r1]. by rewrite IH.
Qed.
End execute.

(** ** A command, for the witnesses *)

Module UciDemo.
(** An SSID that tries to leave its quotes. *)
Definition ssid : string := "x'; reboot; echo '$(id)".
Definition ops : list UciOp.t :=
  UciOpBuilder.build
    (UciOpBuilder.commit "wireless"
      (UciOpBuilder.set "wireless" "@wifi-iface[0]" [("ssid"%string, ssid)] UciOpBuilder.new)).
End UciDemo.

(** ** Properties *)

(** C16: no value escapes its quotes. If the names of some operations pass
    [validate_identifier], then whatever their values are, the shell reads each
    rendered command as the literal words that the operation asks for, with the value
    in one word after the equals sign, and no operators but those of the fixed
    [2>/dev/null || true]: nothing is expanded and nothing else is run. Only a bracket
    in a name may be taken for a file name pattern. *)
Theorem rendered_words ops :
  Forall validated ops -> read_line <$> render_shell ops = Tokens <$> (ops ≫= intended).
Proof.
  induction 1 as [|op ops Hop _ IH]; [done|].
  unfold render_shell. cbn [mbind list_bind]. fold (render_shell ops).
  by rewrite !fmap_app, op_words, <- IH.
Qed.

Lemma rendered_words_witness :
  Forall validated UciDemo.ops /\
  read_line <$> render_shell UciDemo.ops =
    [Tokens (set_words "wireless.@wifi-iface[0].ssid" UciDemo.ssid);
     Tokens [word "uci"; word "commit"; word "wireless"]].
Proof.
  assert (Forall validated UciDemo.ops) as Hv by (repeat constructor).
  split; [exact Hv|]. exact (rendered_words UciDemo.ops Hv).
Defined.

(** The executor is its operations one after the other. However the commands of
    the operations succeed, fail or cannot be started, walking the flat list of
    rendered commands does the same to the world, and reports the same, as running each
    operation by itself: every command that is not a comment is run, in order, and each
    operation has one result, its own first failure. *)
Theorem execute_shell_per_op {World : Type} (sh : string -> World -> World * result (bool * string) string)
    ops w :
  execute_shell sh ops w = run_ops sh ops w /\ length (execute_shell sh ops w).2 = length ops.
Proof.
  unfold execute_shell. rewrite execute_ops_run. split; [done|].
  revert w. induction ops as [|op ops IH]; intros w; [done|]. cbn.
  destruct (run_op sh op w) as [w1 r]. specialize (IH w1). destruct (run_ops sh ops w1). cbn in *. lia.
Qed.

(** ** Departures *)

(** Nothing calls [validate_identifier]: a name is rendered as it is, and may end the
    command and start another. *)
Theorem unvalidated_name_runs :
  read_line <$> render_shell [UciOp.Commit "wireless; reboot"] =
    [Tokens ([word "uci"; word "commit"; word "wireless"] ++ op_char ";" ++ [word "reboot"])].
Proof. vm_compute. reflexivity. Qed.
