(* ===== verification/Ubus.v ===== *)
(** * UCI operations over ubus

    Models [crates/tollgate-net/src/openwrt/ubus_client.rs]: the JSON-RPC client of the
    router's [rpcd], and the execution of the operations of [Uci.v] through it. The
    server is a transport that answers a request's parameters with the envelope's
    [result] and [error], or not at all. An object is its fields, in whatever order
    they are written. *)

From S2P Require Import Prelude Decimal Json Shell Text Serde Uci.

Inductive UbusErr : Set :=
| AuthFailed (msg : string)
| CallFailed (code : Z) (message : string)
| HttpFailed (msg : string)
| Connection (msg : string).
Definition show_ubus_error (e : UbusErr) : string :=
  match e with
  | AuthFailed msg => "authentication failed: " +:+ msg
  | CallFailed code message => "call failed with code " +:+ to_string code +:+ ": " +:+ message
  | HttpFailed msg => "HTTP error: " +:+ msg
  | Connection msg => "connection error: " +:+ msg
  end.

(** [JsonRpcRequest] and [JsonRpcResponse]; the fields that are constant or not read are
    left out. *)
Module Rpc.
Record request : Set := mkRequest { id : Z; params : Value }.
Record response : Set := mkResponse { result_ : option Value; error : option Value }.
End Rpc.

(** [LoginResult]: the session of a login's answer, and what [from_value] says of an
    answer without one. *)
Definition login_session (v : Value) : option string :=
  fs ← struct_fields ["ubus_rpc_session"%string] v; required de_string fs 0.

Module RadioInfo.
Record t : Set := mk { name : string; band : string; channel : string }.
End RadioInfo.

(** [serde_json::Map::insert]. *)
Definition map_insert (key : string) (v : Value) (fields : list (string * Value)) : list (string * Value) :=
  if existsb (fun p => bool_decide (p.1 = key)) fields
  then (fun p => if bool_decide (p.1 = key) then (key, v) else p) <$> fields
  else fields ++ [(key, v)].

Definition json_value (v : OpValue) : Value :=
  match v with Single s => VString s | List items => VArray (VString <$> items) end.
Definition json_values (values : list (string * OpValue)) : Value :=
  VObject (foldl (fun fields kv => map_insert kv.1 (json_value kv.2) fields) [] values).

(** ASCII letters; the names of bands have no others. *)
Definition lower_char (c : Ascii.ascii) : Ascii.ascii :=
  let n := code c in
  if (65 <=? n) && (n <=? 90) then Ascii.ascii_of_N (Z.to_N (n + 32)) else c.
Definition to_lowercase (s : string) : string := of_chars (lower_char <$> chars s).

Module UbusClient.
Record t : Set := mk { url : string; token : option string; id_counter : Z }.
Definition new (host port : string) : t := mk ("http://" +:+ host +:+ ":" +:+ port +:+ "/ubus") None 0.
Definition set_token (tok : string) (c : t) : t := mk (url c) (Some tok) (id_counter c).

(** What the envelope's [result] says: a status and the data. *)
Definition read_response (r : Rpc.response) : result Value UbusErr :=
  match Rpc.error r with
  | Some error =>
      Err (CallFailed (unwrap_or (get error "code" ≫= value_as_i64) (-1))
                      (unwrap_or (get error "message" ≫= as_str) "unknown error"))
  | None =>
      match Rpc.result_ r with
      | None => Err (Connection "missing result in JSON-RPC response")
      | Some result =>
          match as_array result with
          | None => Err (Connection "result is not an array")
          | Some [] => Err (Connection "empty result array")
          | Some (status :: data) =>
              let status_code := unwrap_or (value_as_i64 status) (-1) in
              if negb (status_code =? 0) then
                Err (CallFailed status_code
                       (unwrap_or (head data ≫= fun v => get v "message" ≫= as_str) "unknown ubus error"))
              else Ok (unwrap_or (head data) (VObject []))
          end
      end
  end.

Section calls.
Context {World : Type} (post : Rpc.request -> World -> World * result Rpc.response string).
(** [serde_json]'s account of a login's answer that holds no session. *)
Context (from_value_error : Value -> string).

(** The client's counter and the world after a call, and its answer. *)
Abbreviation call A := (t -> World -> t * World * result A UbusErr).

Definition rpc_call_raw (params : Value) : call Value := fun c w =>
  let id := wrap_u64 (id_counter c + 1) in
  let '(w, r) := post (Rpc.mkRequest id params) w in
  (mk (url c) (token c) id, w,
   match r with Err e => Err (HttpFailed e) | Ok response => read_response response end).

Definition rpc_call (ubus_obj method : string) (params : Value) : call Value := fun c w =>
  match token c with
  | None => (c, w, Err (Connection "not authenticated — call login() first"))
  | Some token => rpc_call_raw (VArray [VString token; VString ubus_obj; VString method; params]) c w
  end.

(** A call whose data are dropped. *)
Definition rpc_unit (ubus_obj method : string) (params : Value) : call unit := fun c w =>
  let '(c, w, r) := rpc_call ubus_obj method params c w in
  (c, w, match r with Ok _ => Ok tt | Err e => Err e end).

Definition login (username password : string) : call unit := fun c w =>
  let '(c, w, r) := rpc_call_raw (VArray [VString username; VString password]) c w in
  match r with
  | Err e => (c, w, Err e)
  | Ok response =>
      match login_session response with
      | Some session => (set_token session c, w, Ok tt)
      | None => (c, w, Err (AuthFailed ("failed to parse login response: " +:+ from_value_error response)))
      end
  end.

Definition uci_get (config section : string) : call Value :=
  rpc_call "uci" "get" (VObject [("config", VString config); ("section", VString section)]%string).
Definition uci_set (config section : string) (values : Value) : call unit :=
  rpc_unit "uci" "set"
    (VObject [("config", VString config); ("section", VString section); ("values", values)]%string).
Definition uci_add (config type_name : string) (values : Value) : call string := fun c w =>
  let '(c, w, r) := rpc_call "uci" "add"
    (VObject [("config", VString config); ("type", VString type_name); ("values", values)]%string) c w in
  (c, w, match r with
         | Err e => Err e
         | Ok result =>
             match get result "section" ≫= as_str with
             | Some section => Ok section
             | None => Err (Connection "missing 'section' in uci.add response")
             end
         end).
Definition uci_delete (config section : string) (option : option string) : call unit :=
  rpc_unit "uci" "delete"
    (VObject ([("config", VString config); ("section", VString section)]%string ++
              match option with Some opt => [("option"%string, VString opt)] | None => [] end)).
Definition uci_commit (config : string) : call unit :=
  rpc_unit "uci" "commit" (VObject [("config"%string, VString config)]).
Definition service_action (name action : string) : call unit :=
  rpc_unit ("rc." +:+ action) action (VObject [("name"%string, VString name)]).
Definition board : call Value := rpc_call "system" "board" (VObject []).

(** A section of the wireless configuration that is a radio. *)
Definition radio (p : string * Value) : option RadioInfo.t :=
  let '(name, section) := p in
  let typed := bool_decide ((get section ".type" ≫= as_str) = Some "wifi-device"%string) in
  if starts_with "radio" name || typed then
    let band_value := match get section "band" with Some v => Some v | None => get section "hwmode" end in
    Some (RadioInfo.mk name (unwrap_or (band_value ≫= as_str) "unknown")
            (unwrap_or (get section "channel" ≫= as_str) "auto"))
  else None.
Definition discover_radios : call (list RadioInfo.t) := fun c w =>
  let '(c, w, r) := uci_get "wireless" "" c w in
  (c, w, match r with
         | Err e => Err e
         | Ok wireless =>
             match as_object wireless with
             | None => Err (Connection "wireless config is not an object")
             | Some obj => Ok (omap radio obj)
             end
         end).
Definition find_radio_for_band (band : string) : call (option string) := fun c w =>
  let '(c, w, r) := discover_radios c w in
  (c, w, match r with
         | Err e => Err e
         | Ok radios =>
             Ok (RadioInfo.name <$>
                 find (fun r => bool_decide (to_lowercase (RadioInfo.band r) = to_lowercase band)) radios)
         end).

(** ** Executing operations *)

(** The outcome of a call as that of an operation. *)
Definition as_uci_error {A} (r : result A UbusErr) : result unit UciOpError :=
  match r with Ok _ => Ok tt | Err e => Err (UbusError (show_ubus_error e)) end.
Definition for_op {A} (f : call A) (c : t) (w : World) : t * World * result unit UciOpError :=
  let '(c, w, r) := f c w in (c, w, as_uci_error r).

Definition execute_one (op : UciOp.t) (c : t) (w : World) : t * World * result unit UciOpError :=
  match op with
  | UciOp.Set_ config section values => for_op (uci_set config section (json_values values)) c w
  | UciOp.Add config type_name _ values => for_op (uci_add config type_name (json_values values)) c w
  | UciOp.Delete config section option => for_op (uci_delete config section option) c w
  | UciOp.AddList config section option value =>
      for_op (uci_set config section (VObject [(option, VArray [VString value])])) c w
  | UciOp.Commit config => for_op (uci_commit config) c w
  | UciOp.Service name action => for_op (service_action name (action_str action)) c w
  | UciOp.Shell _ | UciOp.Comment _ => (c, w, Ok tt)
  end.
Fixpoint execute_ubus (ops : list UciOp.t) (c : t) (w : World)
    : t * World * list (result unit UciOpError) :=
  match ops with
  | [] => (c, w, [])
  | op :: ops =>
      let '(c, w, r) := execute_one op c w in
      let '(c, w, rs) := execute_ubus ops c w in
      (c, w, r :: rs)
  end.
End calls.
End UbusClient.

(** ** What is asked of the server *)

(** The object, the method and the arguments of an operation, if it makes a request. *)
Definition request_of (op : UciOp.t) : option (string * string * Value) :=
  match op with
  | UciOp.Set_ config section values =>
      Some ("uci", "set", VObject [("config", VString config); ("section", VString section);
                                   ("values", json_values values)])%string
  | UciOp.Add config type_name _ values =>
      Some ("uci", "add", VObject [("config", VString config); ("type", VString type_name);
                                   ("values", json_values values)])%string
  | UciOp.Delete config section None =>
      Some ("uci", "delete", VObject [("config", VString config); ("section", VString section)])%string
  | UciOp.Delete config section (Some opt) =>
      Some ("uci", "delete", VObject [("config", VString config); ("section", VString section);
                                      ("option", VString opt)])%string
  | UciOp.AddList config section option value =>
      Some ("uci", "set", VObject [("config", VString config); ("section", VString section);
                                   ("values", VObject [(option, VArray [VString value])])])%string
  | UciOp.Commit config => Some ("uci", "commit", VObject [("config", VString config)])%string
  | UciOp.Service name action =>
      Some ("rc." +:+ action_str action, action_str action, VObject [("name", VString name)])%string
  | UciOp.Shell _ | UciOp.Comment _ => None
  end.

(** A transport that keeps the requests, and answers them by [answer]. *)
Definition logging (answer : Rpc.request -> result Rpc.response string) (q : Rpc.request)
    (log : list Rpc.request) : list Rpc.request * result Rpc.response string := (log ++ [q], answer q).

(** The requests of some operations, numbered from [id]. *)
Fixpoint requests (token : string) (id : Z) (ops : list UciOp.t) : list Rpc.request :=
  match ops with
  | [] => []
  | op :: ops =>
      match request_of op with
      | None => requests token id ops
      | Some (obj, method, args) =>
          let id := wrap_u64 (id + 1) in
          Rpc.mkRequest id (VArray [VString token; VString obj; VString method; args]) :: requests token id ops
      end
  end.
Fixpoint answers (answer : Rpc.request -> result Rpc.response string) (token : string) (id : Z)
    (ops : list UciOp.t) : list (result unit UciOpError) :=
  match ops with
  | [] => []
  | op :: ops =>
      match request_of op with
      | None => Ok tt :: answers answer token id ops
      | Some (obj, method, args) =>
          let id := wrap_u64 (id + 1) in
          let r := match answer (Rpc.mkRequest id (VArray [VString token; VString obj; VString method; args])) with
                   | Err e => Err (HttpFailed e)
                   | Ok response => UbusClient.read_response response
                   end in
          UbusClient.as_uci_error
            match op, r with
            | UciOp.Add _ _ _ _, Ok data =>
                match get data "section" ≫= as_str with
                | Some _ => Ok data
                | None => Err (Connection "missing 'section' in uci.add response")
                end
            | _, _ => r
            end :: answers answer token id ops
      end
  end.

(** ** Lemmas *)

Lemma execute_one_request answer op c log :
  let '(c', log', r) := UbusClient.execute_one (logging answer) op c log in
  match UbusClient.token c with
  | None => c' = c /\ log' = log /\
            (r = Ok tt <-> request_of op = None)
  | Some tok =>
      UbusClient.token c' = Some tok /\
      log' = log ++ requests tok (UbusClient.id_counter c) [op] /\
      [r] = answers answer tok (UbusClient.id_counter c) [op] /\
      (forall ops, requests tok (UbusClient.id_counter c) (op :: ops) =
        requests tok (UbusClient.id_counter c) [op] ++ requests tok (UbusClient.id_counter c') ops) /\
      (forall ops, answers answer tok (UbusClient.id_counter c) (op :: ops) =
        answers answer tok (UbusClient.id_counter c) [op] ++ answers answer tok (UbusClient.id_counter c') ops)
  end.
Proof.
  destruct c as [u [tok|] n];
    destruct op as [cf s kvs|cf ty nm kvs|cf s [o|]|cf s o v|cf|cmd|nm a|text];
    cbn -[wrap_u64 UbusClient.read_response]; try (by split_and!);
    try (destruct (answer _) as [resp|e]; [destruct (UbusClient.read_response resp) as [data|e]|]);
    try (destruct (get data "section" ≫= as_str)); cbn -[wrap_u64]; rewrite ?app_nil_r; by split_and!.
Qed.

Lemma execute_requests answer tok ops u n log :
  let '(_, log', rs) := UbusClient.execute_ubus (logging answer) ops (UbusClient.mk u (Some tok) n) log in
  log' = log ++ requests tok n ops /\ rs = answers answer tok n ops.
Proof.
  revert u n log. induction ops as [|op ops IH]; intros u n log; [by rewrite app_nil_r|].
  cbn [UbusClient.execute_ubus].
  pose proof (execute_one_request answer op (UbusClient.mk u (Some tok) n) log) as H1.
  destruct (UbusClient.execute_one _ op _ log) as [[[u1 t1 n1] log1] r].
  cbn [UbusClient.token UbusClient.id_counter] in H1.
  destruct H1 as (-> & -> & Hr & Hq & Ha). specialize (IH u1 n1 (log ++ requests tok n [op])).
  destruct (UbusClient.execute_ubus _ ops _ _) as [[c2 log2] rs]. destruct IH as [-> ->].
  rewrite (Hq ops), (Ha ops), <- Hr. by rewrite <- app_assoc.
Qed.

Lemma execute_unauthenticated answer ops u n log :
  let '(c', log', rs) := UbusClient.execute_ubus (logging answer) ops (UbusClient.mk u None n) log in
  log' = log /\ (is_ok <$> rs) = (fun op => negb (is_some (request_of op))) <$> ops.
Proof.
  induction ops as [|op ops IH]; [done|]. cbn [UbusClient.execute_ubus].
  pose proof (execute_one_request answer op (UbusClient.mk u None n) log) as H1.
  destruct (UbusClient.execute_one _ op _ log) as [[c1 log1] r].
  cbn [UbusClient.token UbusClient.id_counter] in H1.
  destruct H1 as (-> & -> & Hr). destruct (UbusClient.execute_ubus _ ops _ _) as [[c2 log2] rs].
  destruct IH as [-> E]. split; [done|]. cbn. rewrite E. f_equal.
  destruct (request_of op), r as [[]|]; naive_solver.
Qed.

(** ** Properties *)

(** Each operation is one authenticated request. Executing operations sends, for
    those that are neither raw commands nor comments, one request each, in order, with
    consecutive ids, the session's token first; each result is what the answer to that
    request says, and a failed request does not stop the next. Without a token nothing is sent
    and every operation that needed a request fails. *)
Theorem ubus_requests answer ops c log :
  let '(_, log', rs) := UbusClient.execute_ubus (logging answer) ops c log in
  match UbusClient.token c with
  | Some tok =>
      log' = log ++ requests tok (UbusClient.id_counter c) ops /\
      rs = answers answer tok (UbusClient.id_counter c) ops
  | None => log' = log /\ (is_ok <$> rs) = (fun op => negb (is_some (request_of op))) <$> ops
  end.
Proof.
  destruct c as [u [tok|] n]; cbn [UbusClient.token UbusClient.id_counter].
  - apply execute_requests.
  - pose proof (execute_unauthenticated answer ops u n log) as E.
    by destruct (UbusClient.execute_ubus _ ops _ _) as [[c2 log2] rs].
Qed.

(** ** Departures *)

(** The login request carries the user and the password alone, not the session, object,
    method and arguments that every call has, so a server that reads calls as this
    module's own documentation describes them has nothing to log in with. *)
Theorem login_is_no_call answer from_value_error user password c :
  exists id, (UbusClient.login (logging answer) from_value_error user password c []).1.2 =
    [Rpc.mkRequest id (VArray [VString user; VString password])].
Proof.
  exists (wrap_u64 (UbusClient.id_counter c + 1)). unfold UbusClient.login, UbusClient.rpc_call_raw. cbn -[wrap_u64].
  destruct (answer _) as [resp|e]; [destruct (UbusClient.read_response resp) as [v|e]|]; try done.
  by destruct (login_session v).
Qed.

(** The name of an added section does not reach the server, and appending to a list
    replaces it. *)
Theorem ubus_drops_name config type_name name name' values :
  request_of (UciOp.Add config type_name name values) = request_of (UciOp.Add config type_name name' values).
Proof. done. Qed.
Theorem ubus_add_list_replaces config section option value :
  request_of (UciOp.AddList config section option value) =
    request_of (UciOp.Set_ config section [(option, List [value])]).
Proof. done. Qed.
