(* ===== verification/NetMonitor.v ===== *)
(** * The network monitor

    Models [crates/tollgate-net/src/openwrt/network_monitor.rs]: what becomes of each
    netlink message, the filter and the throttle, the initial scan, and the inference of
    a gateway. The kernel's answers to the queries a handler makes are a [Dump], its
    links, addresses and routes; an entry that cannot be read is [None]. *)

From S2P Require Import Prelude Json.

(** ** Netlink data *)

(** [std::net::IpAddr], an address as the number it is. *)
Module Ip.
Inductive t : Set := V4 (a : Z) | V6 (a : Z).
#[export] Instance eq_dec : EqDecision t.
Proof. solve_decision. Defined.
End Ip.

Inductive LinkAttribute : Set := IfName (name : string) | HwAddress (b : bytes) | OtherLink.
Module LinkMessage.
Record t : Set := mk {
  index : Z;
  flag_up : bool;
  flag_running : bool;
  flag_loopback : bool;
  attributes : list LinkAttribute
}.
End LinkMessage.

Inductive AddressAttribute : Set := Address (ip : Ip.t) | OtherAddress.
Module AddressMessage.
Record t : Set := mk { index : Z; prefix_len : Z; attributes : list AddressAttribute }.
End AddressMessage.

Inductive AddressFamily : Set := Inet | Inet6 | OtherFamily.
Inductive RouteAddress : Set := RInet (a : Z) | RInet6 (a : Z) | ROther.
Inductive RouteAttribute : Set := Oif (index : Z) | Gateway (gw : RouteAddress) | OtherRoute.
Module RouteMessage.
Record t : Set := mk {
  address_family : AddressFamily;
  destination_prefix_length : Z;
  attributes : list RouteAttribute
}.
End RouteMessage.

Module Dump.
Record t : Set := mk {
  links : list (option LinkMessage.t);
  (** [set_link_index_filter] *)
  addresses : Z -> list (option AddressMessage.t);
  routes : list (option RouteMessage.t)
}.
End Dump.

(** ** Reading messages *)

Fixpoint find_map {A B} (f : A -> option B) (l : list A) : option B :=
  match l with
  | [] => None
  | a :: l => match f a with Some b => Some b | None => find_map f l end
  end.

Definition link_name (msg : LinkMessage.t) : option string :=
  find_map (fun attr => match attr with IfName name => Some name | _ => None end) (LinkMessage.attributes msg).
Definition link_is_up (msg : LinkMessage.t) : bool := LinkMessage.flag_up msg && LinkMessage.flag_running msg.
Definition link_is_loopback (msg : LinkMessage.t) : bool := LinkMessage.flag_loopback msg.
Definition hex2 (b : Byte.byte) : string :=
  let d n := Ascii.ascii_of_N (Z.to_N (if n <? 10 then 48 + n else 87 + n)) in
  of_chars [d (byte_val b / 16); d (byte_val b mod 16)].
Definition link_mac_address (msg : LinkMessage.t) : option string :=
  find_map (fun attr =>
    match attr with
    | HwAddress [a; b; c; d; e; f] =>
        Some (hex2 a +:+ ":" +:+ hex2 b +:+ ":" +:+ hex2 c +:+ ":" +:+ hex2 d +:+ ":" +:+ hex2 e
              +:+ ":" +:+ hex2 f)
    | _ => None
    end) (LinkMessage.attributes msg).

Definition address_msg_to_ip (msg : AddressMessage.t) : option Ip.t :=
  find_map (fun attr => match attr with Address ip => Some ip | _ => None end) (AddressMessage.attributes msg).

Definition resolve_link_name (d : Dump.t) (link_index : Z) : option string :=
  find (fun link => LinkMessage.index link =? link_index) (omap id (Dump.links d)) ≫= link_name.
Definition find_link_index (d : Dump.t) (iface : string) : option Z :=
  LinkMessage.index <$>
    find (fun link => bool_decide (link_name link = Some iface)) (omap id (Dump.links d)).
Definition parse_address_message (d : Dump.t) (msg : AddressMessage.t) : option (string * Ip.t) :=
  addr ← address_msg_to_ip msg;
  name ← resolve_link_name d (AddressMessage.index msg);
  Some (name, addr).
Definition query_interface_addresses (d : Dump.t) (link_index : Z) : list Ip.t :=
  omap (fun item => item ≫= address_msg_to_ip) (Dump.addresses d link_index).

(** ** Gateway inference *)

Definition route_oif (route : RouteMessage.t) : option Z :=
  find_map (fun attr => match attr with Oif idx => Some idx | _ => None end) (RouteMessage.attributes route).
Definition is_default_route (route : RouteMessage.t) : bool :=
  match RouteMessage.address_family route with Inet | Inet6 => true | OtherFamily => false end &&
  (RouteMessage.destination_prefix_length route =? 0).
(** The first gateway attribute decides. *)
Fixpoint gateway_attr (attrs : list RouteAttribute) : option Ip.t :=
  match attrs with
  | [] => None
  | Gateway gw :: _ =>
      match gw with RInet a => Some (Ip.V4 a) | RInet6 a => Some (Ip.V6 a) | ROther => None end
  | _ :: attrs => gateway_attr attrs
  end.
Definition extract_gateway_from_route (route : RouteMessage.t) : option Ip.t :=
  gateway_attr (RouteMessage.attributes route).

(** Method 1; the first route that qualifies decides. *)
Fixpoint find_default_route_gateway (routes : list (option RouteMessage.t)) (link_index : option Z)
    : option Ip.t :=
  match routes with
  | [] => None
  | None :: routes => find_default_route_gateway routes link_index
  | Some route :: routes =>
      if negb (is_default_route route) then find_default_route_gateway routes link_index
      else match link_index with
           | Some idx =>
               if bool_decide (route_oif route <> Some idx)
               then find_default_route_gateway routes link_index
               else extract_gateway_from_route route
           | None => extract_gateway_from_route route
           end
  end.
(** Method 2. *)
Fixpoint find_global_default_gateway (routes : list (option RouteMessage.t)) (link_index : Z)
    : option Ip.t :=
  match routes with
  | [] => None
  | None :: routes => find_global_default_gateway routes link_index
  | Some route :: routes =>
      if negb (is_default_route route) then find_global_default_gateway routes link_index
      else if bool_decide (route_oif route = Some link_index) then extract_gateway_from_route route
      else find_global_default_gateway routes link_index
  end.

(** [Ipv4Network::new(v4, prefix).network()]: the address with its host bits cleared. *)
Definition network_of (a prefix_len : Z) : Z := Z.shiftl (Z.shiftr a (32 - prefix_len)) (32 - prefix_len).
(** The last octet plus one, saturating. *)
Definition network_plus_one (network : Z) : Z :=
  network / 256 * 256 + Z.min 255 (network mod 256 + 1).

(** Method 3; the loop returns at the first address that has no IP attribute, or is an
    IPv4 address. *)
Fixpoint heuristic (addrs : list (option AddressMessage.t)) : option Ip.t :=
  match addrs with
  | [] => None
  | None :: addrs => heuristic addrs
  | Some msg :: addrs =>
      match address_msg_to_ip msg with
      | None => None
      | Some (Ip.V4 v4) =>
          if AddressMessage.prefix_len msg <=? 32
          then Some (Ip.V4 (network_plus_one (network_of v4 (AddressMessage.prefix_len msg))))
          else None
      | Some (Ip.V6 _) => heuristic addrs
      end
  end.
Definition ip_heuristic_gateway (d : Dump.t) (link_index : Z) : option Ip.t :=
  heuristic (Dump.addresses d link_index).

Definition infer_gateway (link_index : Z) (d : Dump.t) : option Ip.t :=
  match find_default_route_gateway (Dump.routes d) (Some link_index) with
  | Some gw => Some gw
  | None =>
      match find_global_default_gateway (Dump.routes d) link_index with
      | Some gw => Some gw
      | None => ip_heuristic_gateway d link_index
      end
  end.

(** ** Events *)

Module InterfaceInfo.
Record t : Set := mk {
  name : string;
  mac_address : option string;
  ip_addresses : list Ip.t;
  is_up : bool;
  is_loopback : bool
}.
End InterfaceInfo.

Module NetworkEvent.
Inductive t : Set :=
| InterfaceUp (name : string) (gateway_ip : option Ip.t) (info : InterfaceInfo.t)
| InterfaceDown (name : string)
| AddressAdded (interface : string) (address : Ip.t) (gateway_ip : option Ip.t)
| AddressDeleted (interface : string) (address : Ip.t).
End NetworkEvent.

Module EventType.
Inductive t : Set := InterfaceUp | InterfaceDown | AddressAdded | AddressDeleted.
#[export] Instance eq_dec : EqDecision t.
Proof. solve_decision. Defined.
Definition num (e : t) : nat :=
  match e with InterfaceUp => 0 | InterfaceDown => 1 | AddressAdded => 2 | AddressDeleted => 3 end%nat.
Definition of_num (n : nat) : option t :=
  match n with
  | 0 => Some InterfaceUp | 1 => Some InterfaceDown | 2 => Some AddressAdded | 3 => Some AddressDeleted
  | _ => None
  end%nat.
#[export] Program Instance countable : Countable t := inj_countable num of_num _.
Next Obligation. by intros []. Qed.
End EventType.
Export (hints) EventType.

Module NetworkMonitorConfig.
Record t : Set := mk {
  ignore_interfaces : list string;
  only_interfaces : list string;
  throttle_ms : Z
}.
Definition default : t := mk ["lo"] [] 2000.
End NetworkMonitorConfig.

Inductive Message : Set :=
| NewLink (msg : LinkMessage.t)
| DelLink (msg : LinkMessage.t)
| NewAddress (msg : AddressMessage.t)
| DelAddress (msg : AddressMessage.t)
| OtherMessage.

Module NetworkMonitor.
(** The throttle: when each kind of event was last emitted on each interface. *)
Definition ThrottleKey : Set := string * EventType.t.
Abbreviation t := (gmap (string * EventType.t) Z).

Section monitor.
Context (cfg : NetworkMonitorConfig.t).

Definition should_process_interface (name : string) : bool :=
  if bool_decide (name ∈ NetworkMonitorConfig.ignore_interfaces cfg) then false
  else if negb (bool_decide (NetworkMonitorConfig.only_interfaces cfg = [])) &&
          negb (bool_decide (name ∈ NetworkMonitorConfig.only_interfaces cfg)) then false
  else true.

(** [Instant::duration_since] is 0 for an earlier instant. *)
Definition should_emit (interface : string) (event_type : EventType.t) (now : Z) (m : t) : t * bool :=
  match m !! (interface, event_type) with
  | Some last =>
      if Z.max 0 (now - last) <? NetworkMonitorConfig.throttle_ms cfg then (m, false)
      else (<[(interface, event_type) := now]> m, true)
  | None => (<[(interface, event_type) := now]> m, true)
  end.

(** Emit an event unless it is throttled. *)
Definition emit (interface : string) (event_type : EventType.t) (event : NetworkEvent.t) (now : Z) (m : t)
    : t * list NetworkEvent.t :=
  let '(m, ok) := should_emit interface event_type now m in (m, if ok then [event] else []).

Definition handle_new_link (msg : LinkMessage.t) (d : Dump.t) (now : Z) (m : t)
    : t * list NetworkEvent.t :=
  match link_name msg with
  | None => (m, [])
  | Some name =>
      if negb (should_process_interface name) then (m, [])
      else if negb (link_is_up msg) || link_is_loopback msg then (m, [])
      else
        let link_index := LinkMessage.index msg in
        let info := InterfaceInfo.mk name (link_mac_address msg) (query_interface_addresses d link_index)
                      true false in
        emit name EventType.InterfaceUp (NetworkEvent.InterfaceUp name (infer_gateway link_index d) info) now m
  end.

Definition handle_del_link (msg : LinkMessage.t) (now : Z) (m : t) : t * list NetworkEvent.t :=
  match link_name msg with
  | None => (m, [])
  | Some name =>
      if negb (should_process_interface name) then (m, [])
      else emit name EventType.InterfaceDown (NetworkEvent.InterfaceDown name) now m
  end.

Definition handle_new_address (msg : AddressMessage.t) (d : Dump.t) (now : Z) (m : t)
    : t * list NetworkEvent.t :=
  match parse_address_message d msg with
  | None => (m, [])
  | Some (iface_name, addr) =>
      if negb (should_process_interface iface_name) then (m, [])
      else emit iface_name EventType.AddressAdded
             (NetworkEvent.AddressAdded iface_name addr (infer_gateway (AddressMessage.index msg) d)) now m
  end.

Definition handle_del_address (msg : AddressMessage.t) (d : Dump.t) (now : Z) (m : t)
    : t * list NetworkEvent.t :=
  match parse_address_message d msg with
  | None => (m, [])
  | Some (iface_name, addr) =>
      if negb (should_process_interface iface_name) then (m, [])
      else emit iface_name EventType.AddressDeleted (NetworkEvent.AddressDeleted iface_name addr) now m
  end.

Definition process_netlink_message (msg : Message) (d : Dump.t) (now : Z) (m : t)
    : t * list NetworkEvent.t :=
  match msg with
  | NewLink link_msg => handle_new_link link_msg d now m
  | DelLink link_msg => handle_del_link link_msg now m
  | NewAddress addr_msg => handle_new_address addr_msg d now m
  | DelAddress addr_msg => handle_del_address addr_msg d now m
  | OtherMessage => (m, [])
  end.

Definition current_interface (d : Dump.t) (link_msg : LinkMessage.t) : option InterfaceInfo.t :=
  name ← link_name link_msg;
  if negb (should_process_interface name) then None
  else Some (InterfaceInfo.mk name (link_mac_address link_msg)
               (query_interface_addresses d (LinkMessage.index link_msg))
               (link_is_up link_msg) (link_is_loopback link_msg)).
Definition get_current_interfaces (d : Dump.t) : list InterfaceInfo.t :=
  omap (current_interface d) (omap id (Dump.links d)).

Definition emit_initial_scan (d : Dump.t) : list NetworkEvent.t :=
  omap (fun info =>
    if negb (InterfaceInfo.is_up info) || InterfaceInfo.is_loopback info then None
    else Some (NetworkEvent.InterfaceUp (InterfaceInfo.name info) None info))
    (get_current_interfaces d).

Definition get_gateway_for_interface (iface : string) (d : Dump.t) : option Ip.t :=
  find_link_index d iface ≫= fun link_index => infer_gateway link_index d.

(** A message as it comes in: with the kernel's state and the time. *)
Definition input : Type := Message * Dump.t * Z.
(** An event as it goes out: with its time. *)
Definition timed : Type := NetworkEvent.t * Z.
Definition step (m : t) (i : input) : t * list timed :=
  let '(msg, d, now) := i in
  let '(m, evs) := process_netlink_message msg d now m in (m, (fun e => (e, now)) <$> evs).

(** One connection, until its stream of messages ends: the scan passes by the throttle. *)
Definition run_once (d : Dump.t) (now : Z) (ins : list input) (m : t) : t * list timed :=
  let scan := emit_initial_scan d in
  let '(m, os) := run step m ins in (m, ((fun e => (e, now)) <$> scan) ++ os).

(** An attempt of [start]: no connection, or one with its scan and its messages, which
    ends with the monitor's token or with the stream. *)
Inductive attempt : Type :=
| NoConnection
| Connected (d : Dump.t) (now : Z) (ins : list input) (cancelled : bool).
Definition try_once (a : attempt) (m : t) : t * list timed * bool :=
  match a with
  | NoConnection => (m, [], false)
  | Connected d now ins cancelled => (run_once d now ins m, cancelled)
  end.
(** Attempts until the token is cancelled, during one or in the wait of five seconds after
    it; the last result says whether [start] has returned. *)
Fixpoint reconnect (attempts : list (attempt * bool)) (m : t) : t * list timed * bool :=
  match attempts with
  | [] => (m, [], false)
  | (a, cancelled_in_wait) :: attempts =>
      let '(m, os, cancelled) := try_once a m in
      if cancelled || cancelled_in_wait then (m, os, true)
      else let '(m, later, ended) := reconnect attempts m in (m, os ++ later, ended)
  end.
(** The token may be cancelled before [start]. *)
Definition start (cancelled : bool) (attempts : list (attempt * bool)) (m : t) : t * list timed * bool :=
  if cancelled then (m, [], true) else reconnect attempts m.
End monitor.
End NetworkMonitor.

(** ** The throttle *)

(** The key an event is throttled under. *)
Definition event_key (e : NetworkEvent.t) : string * EventType.t :=
  match e with
  | NetworkEvent.InterfaceUp name _ _ => (name, EventType.InterfaceUp)
  | NetworkEvent.InterfaceDown name => (name, EventType.InterfaceDown)
  | NetworkEvent.AddressAdded name _ _ => (name, EventType.AddressAdded)
  | NetworkEvent.AddressDeleted name _ => (name, EventType.AddressDeleted)
  end.

Section throttle.
Context (cfg : NetworkMonitorConfig.t).
Local Abbreviation window := (NetworkMonitorConfig.throttle_ms cfg).
Local Abbreviation processed e := (NetworkMonitor.should_process_interface cfg (event_key e).1 = true).

(** What a message announces is decided without the throttle. *)
Lemma process_emits msg d :
  exists o : option NetworkEvent.t,
    (forall e, o = Some e -> processed e) /\
    forall now m, NetworkMonitor.process_netlink_message cfg msg d now m =
      match o with
      | Some e => NetworkMonitor.emit cfg (event_key e).1 (event_key e).2 e now m
      | None => (m, [])
      end.
Proof.
  destruct msg as [l|l|a|a|]; simpl;
    unfold NetworkMonitor.handle_new_link, NetworkMonitor.handle_del_link,
      NetworkMonitor.handle_new_address, NetworkMonitor.handle_del_address.
  1,2: destruct (link_name l) as [name|]; [|by exists None].
  3,4: destruct (parse_address_message d a) as [[name ip]|]; [|by exists None].
  5: by exists None.
  all: destruct (NetworkMonitor.should_process_interface cfg name) eqn:Hp; simpl; [|by exists None].
  1: destruct (_ || _); [by exists None|].
  all: match goal with |- context [NetworkMonitor.emit _ _ _ ?e _ _] => exists (Some e) end.
  all: split; [by intros ? [= <-]|reflexivity].
Qed.

(** What one message does: nothing, or one event that the throttle lets through. *)
Definition effect (m m' : NetworkMonitor.t) (now : Z) (evs : list NetworkEvent.t) : Prop :=
  (m' = m /\ evs = []) \/
  exists e, evs = [e] /\ m' = <[event_key e := now]> m /\ processed e /\
    forall last, m !! event_key e = Some last -> window <= Z.max 0 (now - last).

Lemma process_effect msg d now m :
  effect m (NetworkMonitor.process_netlink_message cfg msg d now m).1 now
           (NetworkMonitor.process_netlink_message cfg msg d now m).2.
Proof.
  destruct (process_emits msg d) as ([e|] & Hp & ->); [|by left].
  unfold NetworkMonitor.emit, NetworkMonitor.should_emit. rewrite <- surjective_pairing.
  destruct (m !! event_key e) as [last|] eqn:E; [destruct (_ <? _) eqn:L|]; simpl; [by left| |]; right;
    exists e; split_and!; try done; try (by apply Hp); intros last' ?; simplify_eq; lia.
Qed.

(** Two events in the order they were emitted. *)
Definition apart (x y : NetworkMonitor.timed) : Prop :=
  event_key x.1 = event_key y.1 -> window <= y.2 - x.2.
Definition clock (i : NetworkMonitor.input) : Z := i.2.
Local Abbreviation run_from m ins := (run (NetworkMonitor.step cfg) m ins).2.

(** The map holds the last emission of each key, none of them in the future. *)
Lemma run_apart m ins T :
  0 <= window -> map_Forall (fun _ last => last <= T) m ->
  Sorted Z.le (clock <$> ins) -> Forall (fun i => T <= clock i) ins ->
  ForallOrdPairs apart (run_from m ins) /\
  Forall (fun x => processed x.1 /\ forall last, m !! event_key x.1 = Some last -> window <= x.2 - last)
    (run_from m ins).
Proof.
  intros Hw. revert m T. induction ins as [|[[msg d] now] ins IH]; intros m T Hm Hs Ht; [split; constructor|].
  apply Forall_cons in Ht as [Hnow _]. cbn in Hnow, Hs.
  assert (Forall (fun i => now <= clock i) ins) as Hlater.
  { apply Sorted_StronglySorted in Hs; [|intros ???; lia]. inversion Hs as [|?? _ Hall].
    by rewrite Forall_fmap in Hall. }
  apply Sorted_inv in Hs as [Hs _]. simpl.
  destruct (NetworkMonitor.process_netlink_message cfg msg d now m) as [m1 evs] eqn:E.
  pose proof (process_effect msg d now m) as He. rewrite E in He. simpl in He.
  destruct He as [[-> ->]|(e & -> & -> & Hp & Hlast)].
  - specialize (IH m T Hm Hs). destruct (run _ m ins) as [m2 os]. simpl in *. apply IH.
    eapply Forall_impl; [exact Hlater|]. intros i Hi. cbn in *. lia.
  - specialize (IH (<[event_key e := now]> m) now). destruct (run _ _ ins) as [m2 os]. simpl in *.
    destruct IH as [IH1 IH2]; [|done|done|].
    { apply map_Forall_insert_2; [lia|]. intros k v Hkv. pose proof (Hm k v Hkv). simpl in *. lia. }
    rewrite Forall_forall in IH2. split; constructor; try done.
    + apply Forall_forall. intros x Hx Hkey. apply (IH2 x Hx). by rewrite <- Hkey, lookup_insert_eq.
    + split; [done|]. intros last Hl. pose proof (Hlast last Hl). pose proof (Hm _ _ Hl). simpl in *. lia.
    + apply Forall_forall. intros x Hx. destruct (IH2 x Hx) as [? Hx2]. split; [done|]. intros last Hl.
      destruct (decide (event_key x.1 = event_key e)) as [Hk|Hk].
      * specialize (Hx2 now). rewrite Hk, lookup_insert_eq in Hx2. specialize (Hx2 eq_refl).
        rewrite Hk in Hl. pose proof (Hm _ _ Hl). simpl in *. lia.
      * apply Hx2. rewrite lookup_insert_ne; [done|congruence].
Qed.

(** Every entry of the map is the time of an emission. *)
Lemma run_recorded ins k t :
  (run (NetworkMonitor.step cfg) ∅ ins).1 !! k = Some t ->
  exists e, (e, t) ∈ run_from ∅ ins /\ event_key e = k.
Proof.
  induction ins as [|[[msg d] now] ins IH] using rev_ind; [done|].
  rewrite run_app. destruct (run _ ∅ ins) as [m os]. simpl in *.
  destruct (NetworkMonitor.process_netlink_message cfg msg d now m) as [m1 evs] eqn:E.
  pose proof (process_effect msg d now m) as He. rewrite E in He. simpl in He |- *.
  destruct He as [[-> ->]|(e & -> & -> & _)]; intros Hk.
  - destruct (IH Hk) as (e & ? & ?). exists e. split; [apply elem_of_app; by left|done].
  - destruct (decide (event_key e = k)) as [<-|Hne].
    + rewrite lookup_insert_eq in Hk. injection Hk as <-. exists e. split; [|done].
      apply elem_of_app. right. by left.
    + rewrite lookup_insert_ne in Hk by done. destruct (IH Hk) as (e' & ? & ?). exists e'.
      split; [apply elem_of_app; by left|done].
Qed.

Lemma withheld_recorded msg d now m e :
  (NetworkMonitor.process_netlink_message cfg msg d now ∅).2 = [e] ->
  (NetworkMonitor.process_netlink_message cfg msg d now m).2 = [] ->
  exists last, m !! event_key e = Some last /\ Z.max 0 (now - last) < window.
Proof.
  destruct (process_emits msg d) as ([e'|] & _ & Heq); rewrite !Heq; [|done].
  unfold NetworkMonitor.emit, NetworkMonitor.should_emit. rewrite <- !surjective_pairing.
  rewrite lookup_empty. intros [= ->]. destruct (m !! event_key e) as [last|]; [|done].
  destruct (Z.ltb_spec (Z.max 0 (now - last)) window); [|done]. by exists last.
Qed.
End throttle.

(** C32: an interface that flaps does not storm. Over any sequence of netlink messages,
    whatever the kernel answers, two events of one kind on one interface are at least
    the configured time apart, every event is about an interface the configuration
    asks for, and an event is withheld only when one of its kind and interface went
    out within that time. *)
Theorem events_spaced cfg ins :
  0 <= NetworkMonitorConfig.throttle_ms cfg -> Sorted Z.le (clock <$> ins) ->
  let '(m, os) := run (NetworkMonitor.step cfg) ∅ ins in
  ForallOrdPairs (apart cfg) os /\
  Forall (fun x => NetworkMonitor.should_process_interface cfg (event_key x.1).1 = true) os /\
  forall msg d now e,
    (NetworkMonitor.process_netlink_message cfg msg d now ∅).2 = [e] ->
    (NetworkMonitor.process_netlink_message cfg msg d now m).2 = [] ->
    exists x, x ∈ os /\ event_key x.1 = event_key e /\ now - x.2 < NetworkMonitorConfig.throttle_ms cfg.
Proof.
  intros Hw Hs.
  assert (exists T, Forall (fun i => T <= clock i) ins) as [T HT].
  { exists (foldr (fun i t => Z.min (clock i) t) 0 ins). clear. induction ins as [|i ins IH]; constructor; simpl; [lia|].
    eapply Forall_impl; [exact IH|]. intros j Hj. simpl in *. lia. }
  destruct (run_apart cfg ∅ ins T Hw (map_Forall_empty _) Hs HT) as [H1 H2].
  pose proof (run_recorded cfg ins) as H3.
  destruct (run _ ∅ ins) as [m os]. simpl in *. split_and!; [done| |].
  - eapply Forall_impl; [exact H2|]. by intros x [? _].
  - intros msg d now e He Hm. destruct (withheld_recorded cfg msg d now m e He Hm) as (last & Hl & Hlt).
    destruct (H3 _ _ Hl) as (e' & ? & ?). exists (e', last). split_and!; [done|done|simpl; lia].
Qed.

(** ** Reconnections *)

Definition inputs (a : NetworkMonitor.attempt) : list NetworkMonitor.input :=
  match a with NetworkMonitor.NoConnection => [] | NetworkMonitor.Connected _ _ ins _ => ins end.
Definition scanned (cfg : NetworkMonitorConfig.t) (a : NetworkMonitor.attempt) : list NetworkMonitor.timed :=
  match a with
  | NetworkMonitor.NoConnection => []
  | NetworkMonitor.Connected d now _ _ => (fun e => (e, now)) <$> NetworkMonitor.emit_initial_scan cfg d
  end.

Lemma try_once_spec cfg a m :
  (NetworkMonitor.try_once cfg a m).1 =
    ((run (NetworkMonitor.step cfg) m (inputs a)).1, scanned cfg a ++ (run (NetworkMonitor.step cfg) m (inputs a)).2).
Proof.
  destruct a as [|d now ins c]; [done|]. cbn. unfold NetworkMonitor.run_once. by destruct (run _ m ins).
Qed.

(** The throttle outlives a lost connection. However often the monitor reconnects, the
    messages of the attempts it has made are handled as one sequence, with one throttle;
    what goes out besides is the scan at the start of each connection. *)
Theorem reconnects_keep_throttle cfg cancelled attempts m :
  let '(m', os, ended) := NetworkMonitor.start cfg cancelled attempts m in
  exists made outs, made `prefix_of` attempts.*1 /\ (ended = false -> made = attempts.*1) /\
    length outs = length made /\
    run (NetworkMonitor.step cfg) m (made ≫= inputs) = (m', concat outs) /\
    os = concat (zip_with (fun a out => scanned cfg a ++ out) made outs).
Proof.
  destruct cancelled; [exists [], []; split_and!; [apply prefix_nil|done..]|]. unfold NetworkMonitor.start.
  revert m. induction attempts as [|[a c] attempts IH]; intros m; [by exists [], []|].
  cbn [NetworkMonitor.reconnect]. pose proof (try_once_spec cfg a m) as Ha.
  destruct (NetworkMonitor.try_once cfg a m) as [[m1 os1] ended]. cbn in Ha.
  destruct (run (NetworkMonitor.step cfg) m (inputs a)) as [m2 out] eqn:Er. injection Ha as -> ->.
  destruct (ended || c) eqn:Ec.
  - exists [a], [out]. split; [by eexists|]. split; [done|]. split; [done|]. cbn. by rewrite !app_nil_r, Er.
  - specialize (IH m2). destruct (NetworkMonitor.reconnect cfg attempts m2) as [[m' os] ended'].
    destruct IH as (made & outs & Hp & He & Hl & Hr & ->). exists (a :: made), (out :: outs).
    split; [by apply prefix_cons|]. split; [intros H; cbn; f_equal; by apply He|]. split; [cbn; by rewrite Hl|].
    cbn [mbind list_bind]. rewrite run_app, Er, Hr. done.
Qed.

(** ** The gateway *)

(** Method 2 asks what method 1 has asked. *)
Lemma methods_agree routes idx :
  find_global_default_gateway routes idx = find_default_route_gateway routes (Some idx).
Proof.
  induction routes as [|[route|] routes IH]; simpl; [done| |done].
  rewrite IH. destruct (is_default_route route); simpl; [|done].
  repeat case_bool_decide; tauto.
Qed.

Section subnet.
Context (a p : Z).
Context (Ha : 0 <= a < 2 ^ 32) (Hp : 0 <= p <= 31).
Local Abbreviation n := (network_of a p).
Local Abbreviation block := (2 ^ (32 - p)).

Lemma network_of_div b : network_of b p = b / block * block.
Proof using Hp. unfold network_of. rewrite Z.shiftl_mul_pow2, Z.shiftr_div_pow2 by lia. done. Qed.

Lemma block_even : exists k, 0 < k /\ block = 2 * k.
Proof using Hp.
  exists (2 ^ (31 - p)). split; [apply Z.pow_pos_nonneg; lia|].
  replace (32 - p) with (Z.succ (31 - p)) by lia. apply Z.pow_succ_r. lia.
Qed.

(** The host part of a network's number is even, so adding one does not saturate. *)
Lemma plus_one_exact : network_plus_one n = n + 1.
Proof using Hp.
  clear Ha. destruct block_even as (k & Hk & E). unfold network_plus_one. rewrite network_of_div, E.
  replace (a / (2 * k) * (2 * k)) with (2 * (a / (2 * k) * k)) by ring.
  generalize (a / (2 * k) * k). intros m.
  pose proof (Z.div_mod (2 * m) 256). assert ((2 * m) mod 256 <= 254); [|lia].
  pose proof (Z.mod_pos_bound (2 * m) 256). Z.div_mod_to_equations. lia.
Qed.

Lemma plus_one_inside : network_of (n + 1) p = n /\ n < n + 1 < n + block /\ 0 <= n /\ n + block <= 2 ^ 32.
Proof using Ha Hp.
  destruct block_even as (k & Hk & E). rewrite !network_of_div.
  assert (2 ^ 32 = 2 ^ p * block) as E32 by (rewrite <- Z.pow_add_r by lia; f_equal; lia).
  assert (0 < 2 ^ p) by (apply Z.pow_pos_nonneg; lia).
  assert (0 <= a / block) by (apply Z.div_pos; lia).
  assert (a / block < 2 ^ p) by (apply Z.div_lt_upper_bound; lia).
  rewrite E in *. split; [|nia].
  rewrite Z.add_comm, Z.div_add by lia. rewrite (Z.div_small 1) by lia. lia.
Qed.
End subnet.

(** The interface has no default route of its own. *)
Definition no_default_route (d : Dump.t) (idx : Z) : Prop :=
  Forall (fun item => forall route, item = Some route ->
    is_default_route route = true -> route_oif route <> Some idx) (Dump.routes d).

Lemma no_route_no_gateway d idx :
  no_default_route d idx -> find_default_route_gateway (Dump.routes d) (Some idx) = None.
Proof.
  unfold no_default_route. induction 1 as [|[route|] routes H _ IH]; simpl; [done| |done].
  destruct (is_default_route route) eqn:E; simpl; [|done]. by rewrite bool_decide_true by eauto.
Qed.

(** The gateway that is guessed is on the interface's network. Without a default
    route on the interface, an interface whose first readable address is an IPv4
    address with a prefix of at most 31 bits gets the address after its network's own:
    it is in range, in the same network, above the network's address, and at most the
    last address of the network. With a default route the first one's gateway is used,
    whether or not there is an address. *)
Theorem guessed_gateway_on_link d idx skipped msg rest a :
  Dump.addresses d idx = replicate skipped None ++ Some msg :: rest ->
  address_msg_to_ip msg = Some (Ip.V4 a) ->
  0 <= a < 2 ^ 32 -> 0 <= AddressMessage.prefix_len msg <= 31 ->
  let n := network_of a (AddressMessage.prefix_len msg) in
  let size := 2 ^ (32 - AddressMessage.prefix_len msg) in
  (no_default_route d idx -> infer_gateway idx d = Some (Ip.V4 (n + 1))) /\
  network_of (n + 1) (AddressMessage.prefix_len msg) = n /\ 0 <= n /\ n + 1 <= n + size - 1 /\ n + size - 1 <= U32_MAX /\
  forall gw, find_default_route_gateway (Dump.routes d) (Some idx) = Some gw -> infer_gateway idx d = Some gw.
Proof.
  intros Haddr Hip Ha Hp n size. pose proof (plus_one_inside a _ Ha Hp) as (Hn & [? ?] & ? & ?).
  split_and!; try (unfold U32_MAX, n, size; lia); [|].
  - intros Hr. unfold infer_gateway. rewrite methods_agree, no_route_no_gateway by done.
    unfold ip_heuristic_gateway. rewrite Haddr. clear Haddr.
    induction skipped as [|k IH]; simpl; [|done]. rewrite Hip.
    destruct (Z.leb_spec (AddressMessage.prefix_len msg) 32); [|lia]. by rewrite plus_one_exact.
  - intros gw Hgw. unfold infer_gateway. by rewrite Hgw.
Qed.

(** ** Departures *)

(** An administrator takes the interface down, or the carrier is lost: the kernel sends a
    link message without the flag, and no event is made of it, whatever the throttle. *)
Theorem link_down_is_silent cfg msg d now m :
  LinkMessage.flag_up msg && LinkMessage.flag_running msg = false ->
  NetworkMonitor.process_netlink_message cfg (NewLink msg) d now m = (m, []).
Proof.
  intros Hup. simpl. unfold NetworkMonitor.handle_new_link, link_is_up. rewrite Hup.
  destruct (link_name msg); [|done]. by destruct (NetworkMonitor.should_process_interface _ _).
Qed.

(** The initial scan is not throttled and leaves no trace in the throttle: the same event
    goes out again at once. *)
Example scan_then_again :
  let up := LinkMessage.mk 3 true true false [IfName "wlan0"%string] in
  let d := Dump.mk [Some up] (fun _ => []) [] in
  (fun x => (event_key x.1, x.2)) <$>
    (NetworkMonitor.run_once NetworkMonitorConfig.default d 0 [(NewLink up, d, 0)] ∅).2 =
  [("wlan0"%string, EventType.InterfaceUp, 0); ("wlan0"%string, EventType.InterfaceUp, 0)].
Proof. vm_compute. reflexivity. Qed.

(** With a prefix of 32 bits the guess is the next address, on no network of the
    interface; with a last octet of 255, the interface's own address. *)
Example host_prefix_guesses_outside :
  network_plus_one (network_of 3232235876 32) = 3232235877 /\
  network_plus_one (network_of 3232236031 32) = 3232236031.
Proof. done. Qed.

(** ** Witnesses *)

Module MonitorDemo.
Definition wlan : LinkMessage.t := LinkMessage.mk 3 true true false [IfName "wlan0"%string].
(** 192.168.1.100/24 *)
Definition addr : AddressMessage.t := AddressMessage.mk 3 24 [Address (Ip.V4 3232235876)].
Definition dump : Dump.t :=
  Dump.mk [Some wlan] (fun i => if i =? 3 then [None; Some addr] else []) [].
Definition ins : list NetworkMonitor.input :=
  [(NewLink wlan, dump, 0); (NewLink wlan, dump, 1500); (NewAddress addr, dump, 1600);
   (NewLink wlan, dump, 2500)].
End MonitorDemo.

Example ins_events :
  (fun x => (event_key x.1, x.2)) <$>
    (run (NetworkMonitor.step NetworkMonitorConfig.default) ∅ MonitorDemo.ins).2 =
  [("wlan0"%string, EventType.InterfaceUp, 0); ("wlan0"%string, EventType.AddressAdded, 1600);
   ("wlan0"%string, EventType.InterfaceUp, 2500)].
Proof. vm_compute. reflexivity. Qed.

Lemma events_spaced_witness :
  let os := (run (NetworkMonitor.step NetworkMonitorConfig.default) ∅ MonitorDemo.ins).2 in
  length os = 3%nat /\ ForallOrdPairs (apart NetworkMonitorConfig.default) os.
Proof.
  assert (0 <= NetworkMonitorConfig.throttle_ms NetworkMonitorConfig.default) as Hw by (simpl; lia).
  assert (Sorted Z.le (clock <$> MonitorDemo.ins)) as Hs by (simpl; repeat constructor; lia).
  split; [reflexivity|exact (proj1 (events_spaced _ _ Hw Hs))].
Defined.

(** 192.168.1.1 *)
Lemma guessed_gateway_on_link_witness :
  infer_gateway 3 MonitorDemo.dump = Some (Ip.V4 3232235777).
Proof.
  refine (proj1 (guessed_gateway_on_link MonitorDemo.dump 3 1 MonitorDemo.addr [] 3232235876 _ _ _ _) _);
    [reflexivity|reflexivity|lia|simpl; lia|constructor].
Defined.
