(* ===== verification/WifiScan.v ===== *)
(** * The WiFi scanner

    Models [crates/tollgate-net/src/openwrt/wifi_scanner.rs]: reading the output of
    [iwinfo], the radios of the system, the scan of one radio with its retries, and of
    all. Commands are run by the trait [CommandExecutor], a class here; the clock and
    [tokio::time::sleep] belong to the same world. *)

From S2P Require Import Prelude Decimal Json Shell Text Uci Ubus.

(** ** Text *)

(** [str::to_lowercase], as far as the needles of [detect_encryption] can see: the capital
    letters, and the Kelvin sign, the one other character whose lower case can complete
    one of them. *)
Fixpoint lower (l : list Ascii.ascii) : list Ascii.ascii :=
  match l with
  | [] => []
  | a :: l1 =>
      match l1 with
      | b :: c :: l2 =>
          if (code a =? 226) && (code b =? 132) && (code c =? 170) then Ascii.ascii_of_N 107 :: lower l2
          else lower_char a :: lower l1
      | _ => lower_char a :: lower l1
      end
  end.

(** ** Data *)

Module WifiScanError.
Inductive t : Set :=
| InvalidRadio (msg : string)
| CommandFailed (msg : string)
| Timeout (ms : Z)
| RetriesExhausted (radio : string) (attempts : Z) (last_error : string)
| NoRadios.

(** [Duration]'s debug form, for whole milliseconds. *)
Definition show_duration (ms : Z) : string :=
  if 1000 <=? ms then
    let f := ms mod 1000 in
    to_string (ms / 1000) +:+
      (if f =? 0 then ""
       else "." +:+ (if f mod 100 =? 0 then to_string (f / 100)
                     else if f mod 10 =? 0 then pad 2 (f / 10) else pad 3 f)) +:+ "s"
  else if 1 <=? ms then to_string ms +:+ "ms" else "0ns".
Definition to_string (e : t) : string :=
  match e with
  | InvalidRadio msg => "invalid radio identifier: " +:+ msg
  | CommandFailed msg => "command failed: " +:+ msg
  | Timeout ms => "command timed out after " +:+ show_duration ms
  | RetriesExhausted radio attempts last_error =>
      "scan failed after " +:+ Decimal.to_string attempts +:+ " attempts for radio " +:+ radio +:+ ": "
        +:+ last_error
  | NoRadios => "no radios found"
  end.
End WifiScanError.
Abbreviation WifiScanError := WifiScanError.t.

Module EncryptionType.
Inductive t : Set :=
| None_ | Wep | Psk | Psk2 | Psk2Ccmp | Sae | SaeMixed | Wpa2Eap
| Unknown (s : string).
#[export] Instance eq_dec : EqDecision t.
Proof. solve_decision. Defined.
Definition to_uci_value (e : t) : string :=
  match e with
  | None_ => "none"
  | Wep => "wep"
  | Psk => "psk"
  | Psk2 | Psk2Ccmp | Unknown _ => "psk2"
  | Sae => "sae"
  | SaeMixed => "sae-mixed"
  | Wpa2Eap => "wpa2-eap"
  end.
End EncryptionType.
Export (hints) EncryptionType.

Definition detect_encryption (enc_str : string) : EncryptionType.t :=
  let lower := of_chars (lower (chars enc_str)) in
  let has needle := contains needle lower in
  if has "none" || has "open" then EncryptionType.None_
  else if has "wep" then EncryptionType.Wep
  else if has "sae" && (has "mixed" || has "wpa2" || has "wpa3") then EncryptionType.SaeMixed
  else if has "sae" then EncryptionType.Sae
  else if has "eap" || has "802.1x" then EncryptionType.Wpa2Eap
  else if has "wpa2" && has "psk" then if has "ccmp" then EncryptionType.Psk2Ccmp else EncryptionType.Psk2
  else if has "wpa" && has "psk" then EncryptionType.Psk
  else if has "wpa2" then EncryptionType.Psk2
  else if has "wpa" then EncryptionType.Psk
  else if bool_decide (enc_str = EmptyString) then EncryptionType.None_
  else EncryptionType.Unknown enc_str.

Module ScanResult.
Record t : Set := mk {
  bssid : string;
  ssid : string;
  signal_dbm : Z;
  encryption : EncryptionType.t;
  channel : Z;
  radio : string
}.
(** [clamp], then the unsigned arithmetic of the normalised value. *)
Definition quality (r : t) : Z := (Z.min (-30) (Z.max (-90) (signal_dbm r)) + 90) * 100 / 60.
End ScanResult.

(** [sort_by_key(|b| Reverse(b.signal_dbm))], a stable sort. *)
Fixpoint insert_by_signal (r : ScanResult.t) (l : list ScanResult.t) : list ScanResult.t :=
  match l with
  | [] => [r]
  | x :: l =>
      if ScanResult.signal_dbm x <=? ScanResult.signal_dbm r then r :: x :: l
      else x :: insert_by_signal r l
  end.
Definition sort_by_signal (l : list ScanResult.t) : list ScanResult.t := foldr insert_by_signal [] l.

(** ** Reading the scan *)

Definition double_quote : Ascii.ascii := Ascii.ascii_of_N 34.
Definition quoted (s : string) : string := String double_quote (s +:+ of_chars [double_quote]).

Module Cell.
(** The loop's variables: the cell read so far. *)
Record t : Set := mk {
  bssid : string;
  ssid : string;
  signal : Z;
  encryption : EncryptionType.t;
  channel : Z
}.
Definition empty : t := mk EmptyString EmptyString (-100) EncryptionType.None_ 0.
Definition set_bssid (x : string) (c : t) : t := mk x (ssid c) (signal c) (encryption c) (channel c).
Definition set_ssid (x : string) (c : t) : t := mk (bssid c) x (signal c) (encryption c) (channel c).
Definition set_signal (x : Z) (c : t) : t := mk (bssid c) (ssid c) x (encryption c) (channel c).
Definition set_encryption (x : EncryptionType.t) (c : t) : t := mk (bssid c) (ssid c) (signal c) x (channel c).
Definition set_channel (x : Z) (c : t) : t := mk (bssid c) (ssid c) (signal c) (encryption c) x.

(** The result that is pushed when the cell ends, unless a name is missing. *)
Definition flush (radio : string) (c : t) : list ScanResult.t :=
  if bool_decide (ssid c <> EmptyString) && bool_decide (bssid c <> EmptyString)
  then [ScanResult.mk (bssid c) (ssid c) (signal c) (encryption c) (channel c) radio]
  else [].

Definition read_essid (line : string) (c : t) : t :=
  match strip_prefix "ESSID:" line with
  | Some essid =>
      let essid := trim essid in
      set_ssid (unwrap_or (strip_prefix (of_chars [double_quote]) essid
                           ≫= strip_suffix (of_chars [double_quote])) essid) c
  | None => c
  end.
Definition read_signal (line : string) (c : t) : t :=
  match split_second "Signal:" line with
  | Some signal_part =>
      match parse_i32 (trim (split_first "dBm" (trim signal_part))) with
      | Some signal => set_signal signal c
      | None => c
      end
  | None => c
  end.
Definition read_encryption (line : string) (c : t) : t :=
  match strip_prefix "Encryption:" line with
  | Some enc => set_encryption (detect_encryption (trim enc)) c
  | None => c
  end.
Definition read_channel (line : string) (c : t) : t :=
  match split_second "Channel:" line with
  | Some ch_part => match parse_u32 (trim ch_part) with Some ch => set_channel ch c | None => c end
  | None => c
  end.
End Cell.

(** One turn of the loop, on a trimmed line: the results pushed and the cell. *)
Definition read_cell_line (radio : string) (c : Cell.t) (line : string) : Cell.t * list ScanResult.t :=
  if starts_with "Cell" line then
    (match split_second "Address:" line with
     | Some addr => Cell.set_bssid (trim addr) Cell.empty
     | None => Cell.empty
     end, Cell.flush radio c)
  else
    (Cell.read_channel line (Cell.read_encryption line (Cell.read_signal line (Cell.read_essid line c))), []).

Definition parse_iwinfo_output (output radio : string) : list ScanResult.t :=
  let '(c, results) := run (read_cell_line radio) Cell.empty (trim <$> lines output) in
  sort_by_signal (results ++ Cell.flush radio c).

(** ** Commands *)

Module CommandOutput.
Record t : Set := mk { exit_code : Z; stdout : string; stderr : string }.
Definition success (o : t) : bool := exit_code o =? 0.
End CommandOutput.

(** [CommandExecutor], with the time it takes. *)
Class CommandExecutor (World : Type) : Type := {
  execute : string -> list string -> World -> World * result CommandOutput.t WifiScanError;
  (** [Instant::now], in milliseconds. *)
  now : World -> Z;
  (** [tokio::time::sleep] *)
  sleep : Z -> World -> World
}.

(** The system's processes. A process cannot be started, or ends after some time with the
    code it exits with, if any, and what it wrote, or does not end. *)
Inductive Process : Set :=
| NotStarted (e : string)
| Ended (ms : Z) (code : option Z) (stdout stderr : list Z)
| Hangs.
Class Processes (World : Type) : Type := {
  spawn : string -> list string -> World -> World * Process;
  (** [kill_on_drop]: the process last spawned is killed. *)
  kill : World -> World;
  clock : World -> Z;
  pass : Z -> World -> World
}.

Section executor.
Context `{Processes World} (timeout : Z).

Definition lossy (bs : list Z) : string := string_of_codes (utf8_lossy bs).
Definition timed_out (w : World) : World * result CommandOutput.t WifiScanError :=
  (kill (pass timeout w), Err (WifiScanError.Timeout timeout)).
Definition system_execute (program : string) (args : list string) (w : World)
    : World * result CommandOutput.t WifiScanError :=
  let '(w, p) := spawn program args w in
  match p with
  | NotStarted e => (w, Err (WifiScanError.CommandFailed (program +:+ " " +:+ String.concat " " args +:+ ": " +:+ e)))
  | Ended ms code stdout stderr =>
      if ms <=? timeout
      then (pass ms w, Ok (CommandOutput.mk (unwrap_or code (-1)) (lossy stdout) (lossy stderr)))
      else timed_out w
  | Hangs => timed_out w
  end.
Definition SystemCommandExecutor : CommandExecutor World :=
  {| execute := system_execute; now := clock; sleep := fun ms => pass (Z.max 0 ms) |}.
End executor.

(** ** Scanning *)

Section scanner.
Context `{CommandExecutor World}.
Context (max_retries : Z).

(** What a failed attempt leaves in [last_error]. *)
Definition attempt_error (r : result CommandOutput.t WifiScanError) : string :=
  match r with
  | Ok output =>
      "exit code " +:+ Decimal.to_string (CommandOutput.exit_code output) +:+ ": "
        +:+ trim (CommandOutput.stderr output)
  | Err e => WifiScanError.to_string e
  end.

Definition backoff (attempt : Z) : Z := wrap_u64 (1000 * wrap_u64 (2 ^ (attempt - 1))).

(** The attempts that are left, and the number of the next one. *)
Fixpoint scan_attempts (n : nat) (attempt : Z) (last_error radio : string) (w : World)
    : World * result (list ScanResult.t) WifiScanError :=
  match n with
  | O => (w, Err (WifiScanError.RetriesExhausted radio max_retries last_error))
  | S n =>
      let w := if 0 <? attempt then sleep (backoff attempt) w else w in
      let '(w, r) := execute "iwinfo" [radio; "scan"%string] w in
      match r with
      | Ok output =>
          if CommandOutput.success output
          then (w, Ok (parse_iwinfo_output (CommandOutput.stdout output) radio))
          else scan_attempts n (attempt + 1) (attempt_error r) radio w
      | Err _ => scan_attempts n (attempt + 1) (attempt_error r) radio w
      end
  end.

Definition show_uci_error (e : UciOpError) : string :=
  match e with
  | InvalidIdentifier msg => "invalid identifier: " +:+ msg
  | ShellFailed msg => "shell command failed: " +:+ msg
  | UbusError msg => "ubus error: " +:+ msg
  end.

Definition scan_radio (radio : string) (w : World) : World * result (list ScanResult.t) WifiScanError :=
  match validate_identifier radio with
  | Err e => (w, Err (WifiScanError.InvalidRadio (show_uci_error e)))
  | Ok _ => scan_attempts (Z.to_nat max_retries) 0 EmptyString radio w
  end.

(** The name of a radio, from a line of [uci show wireless]. *)
Definition radio_of_line (line : string) : option string :=
  rest ← strip_prefix "wireless." (trim line);
  if contains "=wifi-device" rest then
    let name := split_first "=" rest in
    match validate_identifier name with Ok _ => Some name | Err _ => None end
  else None.

(** [dedup]: of equal neighbours, the first. *)
Fixpoint dedup (l : list string) : list string :=
  match l with
  | [] => []
  | x :: l => match dedup l with
              | [] => [x]
              | y :: ys => if decide (x = y) then y :: ys else x :: y :: ys
              end
  end.

Definition get_radios (w : World) : World * result (list string) WifiScanError :=
  let '(w, r) := execute "uci" ["show"; "wireless"]%string w in
  (w, match r with
      | Err e => Err (WifiScanError.CommandFailed ("uci show wireless: " +:+ WifiScanError.to_string e))
      | Ok output =>
          if CommandOutput.success output
          then Ok (dedup (merge_sort str_le (omap radio_of_line (lines (CommandOutput.stdout output)))))
          else Err (WifiScanError.CommandFailed
                      ("uci show wireless: " +:+ trim (CommandOutput.stderr output)))
      end).

(** The radios one after the other; a radio that fails is passed over. *)
Fixpoint scan_each (radios : list string) (w : World) : World * list ScanResult.t :=
  match radios with
  | [] => (w, [])
  | radio :: radios =>
      let '(w, r) := scan_radio radio w in
      let '(w, rest) := scan_each radios w in
      (w, match r with Ok results => results ++ rest | Err _ => rest end)
  end.

Definition scan_all_radios (w : World) : World * result (list ScanResult.t) WifiScanError :=
  let '(w, r) := get_radios w in
  match r with
  | Err e => (w, Err e)
  | Ok [] => (w, Err WifiScanError.NoRadios)
  | Ok radios => let '(w, all_results) := scan_each radios w in (w, Ok (sort_by_signal all_results))
  end.

(** [max_by_key]: the last of the greatest. *)
Fixpoint max_by_signal (best : ScanResult.t) (l : list ScanResult.t) : ScanResult.t :=
  match l with
  | [] => best
  | r :: l => max_by_signal (if ScanResult.signal_dbm best <=? ScanResult.signal_dbm r then r else best) l
  end.
Definition best_radio (ssid : string) (results : list ScanResult.t) : option string :=
  match filter (fun r => ScanResult.ssid r = ssid) results with
  | [] => None
  | r :: l => Some (ScanResult.radio (max_by_signal r l))
  end.
Definition find_best_radio_for_ssid (ssid : string) (w : World)
    : World * result (option string) WifiScanError :=
  let '(w, r) := scan_all_radios w in
  (w, match r with Ok results => Ok (best_radio ssid results) | Err e => Err e end).
End scanner.

(** A scanner: its executor is the system's, with a timeout of its own. *)
Module WifiScanner.
Record t : Set := mk { command_timeout : Z; max_retries : Z; executor_timeout : Z }.
Definition new : t := mk 30000 3 30000.
Definition with_timeout (timeout : Z) (s : t) : t := mk timeout (max_retries s) (executor_timeout s).
Definition with_max_retries (retries : Z) (s : t) : t := mk (command_timeout s) retries (executor_timeout s).

Definition executor `{Processes World} (s : t) : CommandExecutor World :=
  SystemCommandExecutor (executor_timeout s).
Definition scan_all_radios `{Processes World} (s : t) : World -> World * result (list ScanResult.t) WifiScanError :=
  @scan_all_radios World (executor s) (max_retries s).
End WifiScanner.

(** ** What a scan's text says, cell by cell

    The reference for the loop: a cell is a line that begins with [Cell] and the lines up
    to the next such line, and each of its fields is what the last of its own lines that
    has the field says. *)

Definition is_header (line : string) : bool := starts_with "Cell" line.
Fixpoint body (ls : list string) : list string :=
  match ls with
  | [] => []
  | l :: ls => if is_header l then [] else l :: body ls
  end.
Fixpoint cells (ls : list string) : list (string * list string) :=
  match ls with
  | [] => []
  | l :: ls => if is_header l then (l, body ls) :: cells ls else cells ls
  end.

Definition unquote (s : string) : string :=
  unwrap_or (strip_prefix (of_chars [double_quote]) s ≫= strip_suffix (of_chars [double_quote])) s.
Definition name_of (line : string) : option string :=
  unquote <$> (trim <$> strip_prefix "ESSID:" line).
Definition signal_of (line : string) : option Z :=
  part ← split_second "Signal:" line; parse_i32 (trim (split_first "dBm" (trim part))).
Definition encryption_of (line : string) : option EncryptionType.t :=
  detect_encryption <$> (trim <$> strip_prefix "Encryption:" line).
Definition channel_of (line : string) : option Z := part ← split_second "Channel:" line; parse_u32 (trim part).

Definition last_said {A} (read : string -> option A) (ls : list string) (otherwise : A) : A :=
  unwrap_or (last (omap read ls)) otherwise.
(** A cell without an address or without a name, as that of a hidden network, says nothing. *)
Definition cell_result (radio : string) (cell : string * list string) : option ScanResult.t :=
  let '(header, ls) := cell in
  let address := map_or (split_second "Address:" header) EmptyString trim in
  let name := last_said name_of ls EmptyString in
  if bool_decide (address = EmptyString) || bool_decide (name = EmptyString) then None
  else Some (ScanResult.mk address name (last_said signal_of ls (-100))
               (last_said encryption_of ls EncryptionType.None_) (last_said channel_of ls 0) radio).

(** ** Lemmas: the loop and the cells *)

Definition read_fields (c : Cell.t) (line : string) : Cell.t :=
  Cell.read_channel line (Cell.read_encryption line (Cell.read_signal line (Cell.read_essid line c))).

Lemma read_fields_eq c line :
  read_fields c line =
    Cell.mk (Cell.bssid c) (unwrap_or (name_of line) (Cell.ssid c)) (unwrap_or (signal_of line) (Cell.signal c))
      (unwrap_or (encryption_of line) (Cell.encryption c)) (unwrap_or (channel_of line) (Cell.channel c)).
Proof.
  unfold read_fields, name_of, signal_of, encryption_of, channel_of, unquote,
    Cell.read_channel, Cell.read_encryption, Cell.read_signal, Cell.read_essid.
  destruct c. destruct (strip_prefix "ESSID:" line), (split_second "Signal:" line) as [sg|],
    (strip_prefix "Encryption:" line), (split_second "Channel:" line) as [ch|]; cbn;
    try destruct (parse_i32 _); try destruct (parse_u32 _); done.
Qed.

Lemma last_said_snoc {A} (read : string -> option A) ls l d :
  last_said read (ls ++ [l]) d = unwrap_or (read l) (last_said read ls d).
Proof.
  unfold last_said. rewrite omap_app. cbn. destruct (read l) as [x|]; cbn; [by rewrite last_snoc|by rewrite app_nil_r].
Qed.

Lemma fields_said c ls :
  foldl read_fields c ls =
    Cell.mk (Cell.bssid c) (last_said name_of ls (Cell.ssid c)) (last_said signal_of ls (Cell.signal c))
      (last_said encryption_of ls (Cell.encryption c)) (last_said channel_of ls (Cell.channel c)).
Proof.
  induction ls as [|l ls IH] using rev_ind; [by destruct c|].
  rewrite foldl_app. cbn [foldl]. by rewrite IH, read_fields_eq, !last_said_snoc.
Qed.

Lemma flush_said radio header ls :
  Cell.flush radio (foldl read_fields (match split_second "Address:" header with
    | Some addr => Cell.set_bssid (trim addr) Cell.empty | None => Cell.empty end) ls) =
  option_list (cell_result radio (header, ls)).
Proof.
  rewrite fields_said. unfold cell_result, Cell.flush. cbn [Cell.bssid Cell.ssid].
  replace (Cell.bssid _) with (map_or (split_second "Address:" header) EmptyString trim)
    by (by destruct (split_second "Address:" header)).
  replace (Cell.ssid (match split_second "Address:" header with Some _ => _ | None => _ end)) with EmptyString
    by (by destruct (split_second "Address:" header)).
  destruct (decide (map_or (split_second "Address:" header) EmptyString trim = EmptyString)) as [E|E],
    (decide (last_said name_of ls EmptyString = EmptyString)) as [E2|E2];
    rewrite ?(bool_decide_eq_true_2 _ E), ?(bool_decide_eq_true_2 _ E2), ?(bool_decide_eq_false_2 _ E),
      ?(bool_decide_eq_false_2 _ E2), ?(bool_decide_eq_true_2 (_ <> _)), ?(bool_decide_eq_false_2 (_ <> _)) by tauto;
    cbn; try done.
  by destruct (split_second "Address:" header).
Qed.

Lemma run_cells radio ls c :
  let '(c', os) := run (read_cell_line radio) c ls in
  os ++ Cell.flush radio c' =
    Cell.flush radio (foldl read_fields c (body ls)) ++ omap (cell_result radio) (cells ls).
Proof.
  revert c. induction ls as [|l ls IH]; intros c; [by cbn; rewrite app_nil_r|].
  cbn [run body cells]. unfold read_cell_line at 1, is_header. destruct (starts_with "Cell" l) eqn:El.
  - specialize (IH (match split_second "Address:" l with
      | Some addr => Cell.set_bssid (trim addr) Cell.empty | None => Cell.empty end)).
    destruct (run _ _ ls) as [c' os]. cbn [foldl]. rewrite <- app_assoc, IH, flush_said. f_equal.
    change (omap (cell_result radio) ((l, body ls) :: cells ls)) with
      (match cell_result radio (l, body ls) with
       | Some y => y :: omap (cell_result radio) (cells ls) | None => omap (cell_result radio) (cells ls) end).
    by destruct (cell_result radio (l, body ls)).
  - specialize (IH (read_fields c l)). unfold read_fields at 1 in IH.
    destruct (run _ _ ls) as [c' os]. exact IH.
Qed.

Lemma insert_by_signal_perm r l : insert_by_signal r l ≡ₚ r :: l.
Proof. induction l as [|x l IH]; [done|]. cbn. case_match; [done|]. rewrite IH. apply Permutation_swap. Qed.

Lemma sort_by_signal_perm l : sort_by_signal l ≡ₚ l.
Proof. induction l as [|r l IH]; [done|]. cbn. by rewrite insert_by_signal_perm, IH. Qed.

(** Strongest first. *)
Definition stronger (a b : ScanResult.t) : Prop := ScanResult.signal_dbm b <= ScanResult.signal_dbm a.

Lemma insert_by_signal_sorted r l : StronglySorted stronger l -> StronglySorted stronger (insert_by_signal r l).
Proof.
  induction 1 as [|x l Hl IH Hx]; [by repeat constructor|]. cbn. destruct (Z.leb_spec (ScanResult.signal_dbm x) (ScanResult.signal_dbm r)).
  - constructor; [by constructor|]. constructor; [done|]. eapply Forall_impl; [exact Hx|]. unfold stronger. lia.
  - constructor; [done|]. rewrite insert_by_signal_perm. constructor; [unfold stronger; lia|done].
Qed.

Lemma sort_by_signal_sorted l : StronglySorted stronger (sort_by_signal l).
Proof. induction l as [|r l IH]; [constructor|]. cbn. by apply insert_by_signal_sorted. Qed.

(** ** A scripted executor *)

Module Script.
(** The answers to come, the clock, and the commands run so far with their times. *)
Record t : Set := mk {
  answers : list (Prelude.result CommandOutput.t WifiScanError);
  time : Z;
  log : list (Z * string * list string)
}.
Definition run_command (program : string) (args : list string) (w : t)
    : t * Prelude.result CommandOutput.t WifiScanError :=
  match answers w with
  | [] => (mk [] (time w) (log w ++ [(time w, program, args)]), Err (WifiScanError.CommandFailed "no answer"))
  | a :: l => (mk l (time w) (log w ++ [(time w, program, args)]), a)
  end.
Definition wait (ms : Z) (w : t) : t := mk (answers w) (time w + Z.max 0 ms) (log w).
#[export] Instance executor : CommandExecutor t := {| execute := run_command; now := time; sleep := wait |}.
End Script.
Export (hints) Script.

Definition failed (r : result CommandOutput.t WifiScanError) : Prop :=
  match r with Ok output => CommandOutput.success output = false | Err _ => True end.

(** The commands of attempts [a], [a + 1], ..., [n] of them, the first of all at [t]: after
    a pause of 1 s, then 2 s, then 4 s. *)
Definition schedule (radio : string) (t a n : Z) : list (Z * string * list string) :=
  (fun i => (t + 1000 * (2 ^ i - 1), "iwinfo"%string, [radio; "scan"%string])) <$> seqZ a n.

Definition last_failure (e : string) (fails : list (result CommandOutput.t WifiScanError)) : string :=
  unwrap_or (attempt_error <$> last fails) e.

Lemma backoff_exact a : 1 <= a <= 50 -> backoff a = 1000 * 2 ^ (a - 1).
Proof.
  intros Ha. assert (1 <= 2 ^ (a - 1) <= 2 ^ 49) as Hp.
  { split; [change 1 with (2 ^ 0)|]; apply Z.pow_le_mono_r; lia. }
  unfold backoff, wrap_u. rewrite (Z.mod_small (2 ^ (a - 1))) by lia. apply Z.mod_small. lia.
Qed.

(** The clock of attempt [a], counted from the clock of the one before. *)
Lemma attempt_clock t0 t a w :
  0 <= a <= 50 -> Script.time w = (if 0 <? a then t0 + 1000 * (2 ^ (a - 1) - 1) else t0) ->
  t = (if 0 <? a then sleep (backoff a) w else w) ->
  Script.answers t = Script.answers w /\ Script.log t = Script.log w /\
  Script.time t = t0 + 1000 * (2 ^ a - 1).
Proof.
  intros Ha Hw ->. destruct (Z.ltb_spec 0 a); [|split_and!; try done; rewrite Hw; replace a with 0 by lia; lia].
  cbn. split_and!; try done. rewrite Hw, backoff_exact by lia.
  pose proof (Z.pow_pos_nonneg 2 (a - 1)). replace (2 ^ a) with (2 * 2 ^ (a - 1)); [lia|].
  rewrite <- Z.pow_succ_r by lia. f_equal. lia.
Qed.

Lemma schedule_cons radio t a n :
  0 < n -> schedule radio t a n = (t + 1000 * (2 ^ a - 1), "iwinfo"%string, [radio; "scan"%string]) :: schedule radio t (a + 1) (n - 1).
Proof. intros Hn. unfold schedule. rewrite seqZ_cons by done. by rewrite fmap_cons, Z.add_1_r, Z.sub_1_r. Qed.

Lemma last_failure_cons e r fails : last_failure e (r :: fails) = last_failure (attempt_error r) fails.
Proof. unfold last_failure. destruct fails; [done|]. rewrite last_cons_cons. by destruct (last _) eqn:E; [|apply last_None in E]. Qed.

Section attempts.
Context (max_retries : Z) (radio : string) (t0 : Z).

Lemma attempts_step n a e w r rest w' :
  0 <= a <= 50 -> Script.time w = (if 0 <? a then t0 + 1000 * (2 ^ (a - 1) - 1) else t0) ->
  Script.answers w = r :: rest ->
  w' = Script.mk rest (t0 + 1000 * (2 ^ a - 1))
         (Script.log w ++ [(t0 + 1000 * (2 ^ a - 1), "iwinfo"%string, [radio; "scan"%string])]) ->
  scan_attempts max_retries (S n) a e radio w =
    match r with
    | Ok output =>
        if CommandOutput.success output
        then (w', Ok (parse_iwinfo_output (CommandOutput.stdout output) radio))
        else scan_attempts max_retries n (a + 1) (attempt_error r) radio w'
    | Err _ => scan_attempts max_retries n (a + 1) (attempt_error r) radio w'
    end.
Proof.
  intros Ha Hw Hr ->. cbn [scan_attempts].
  destruct (attempt_clock t0 _ a w Ha Hw eq_refl) as (E1 & E2 & E3).
  cbn [execute Script.executor]. unfold Script.run_command. by rewrite E1, Hr, E2, E3.
Qed.

Lemma attempts_run fails n a e w rest :
  Forall failed fails -> 0 <= a -> a + Z.of_nat (length fails) <= 50 ->
  Script.time w = (if 0 <? a then t0 + 1000 * (2 ^ (a - 1) - 1) else t0) ->
  Script.answers w = fails ++ rest ->
  exists w', scan_attempts max_retries (length fails + n) a e radio w =
      scan_attempts max_retries n (a + Z.of_nat (length fails)) (last_failure e fails) radio w' /\
    Script.answers w' = rest /\ Script.log w' = Script.log w ++ schedule radio t0 a (Z.of_nat (length fails)) /\
    Script.time w' = (if 0 <? a + Z.of_nat (length fails)
                      then t0 + 1000 * (2 ^ (a + Z.of_nat (length fails) - 1) - 1) else t0).
Proof.
  intros Hf. revert a e w. induction Hf as [|r fails Hr _ IH]; intros a e w Ha Hb Hw Hans.
  - exists w. cbn [length]. rewrite Z.add_0_r, app_nil_r. done.
  - cbn [length app] in *. set (k := Z.of_nat (length fails)) in *.
    replace (Z.of_nat (S (length fails))) with (k + 1) in * by lia.
    set (w1 := Script.mk (fails ++ rest) (t0 + 1000 * (2 ^ a - 1))
                 (Script.log w ++ [(t0 + 1000 * (2 ^ a - 1), "iwinfo"%string, [radio; "scan"%string])])).
    destruct (IH (a + 1) (attempt_error r) w1) as (w' & E & Hw1 & Hw2 & Hw3); [lia|lia| |done|].
    { cbn. rewrite (proj2 (Z.ltb_lt 0 (a + 1))) by lia. by replace (a + 1 - 1) with a by lia. }
    exists w'. replace (a + (k + 1)) with (a + 1 + k) by lia. split.
    + cbn [Nat.add]. rewrite (attempts_step _ a e w r (fails ++ rest) w1) by (done || lia).
      rewrite last_failure_cons, <- E. destruct r as [output|err]; cbn in Hr; [rewrite Hr|]; reflexivity.
    + split_and!; [done| |done]. rewrite Hw2. cbn [Script.log w1].
      rewrite <- app_assoc, (schedule_cons _ _ a) by lia. by replace (k + 1 - 1) with k by lia.
Qed.
End attempts.

(** ** Properties *)

(** C29: a scan is read cell by cell. Whatever text the scanner is given, its results are
    those of the text's cells, where a cell is a line that begins with [Cell] and the
    lines up to the next such line: one result for every cell that has an address on its
    first line and a name that is not empty, and no other; with that address, and with
    the name, signal, encryption text and channel that the last of the cell's own lines
    with a readable one says, or -100 dBm, no encryption and channel 0 if none does; the
    strongest first. No cell's lines bear on another's result. What an encryption text
    means is what [detect_encryption] makes of it. *)
Theorem scan_reads_cells output radio :
  let results := parse_iwinfo_output output radio in
  let said := omap (cell_result radio) (cells (trim <$> lines output)) in
  results = sort_by_signal said /\ results ≡ₚ said /\ StronglySorted stronger results.
Proof.
  cbv zeta.
  assert (parse_iwinfo_output output radio =
    sort_by_signal (omap (cell_result radio) (cells (trim <$> lines output)))) as ->.
  { unfold parse_iwinfo_output. pose proof (run_cells radio (trim <$> lines output) Cell.empty) as Hr.
    destruct (run _ Cell.empty _) as [c os]. rewrite Hr, fields_said.
    unfold Cell.flush at 1. cbn [Cell.bssid Cell.empty].
    by rewrite (bool_decide_eq_false_2 (EmptyString <> EmptyString)), andb_false_r by tauto. }
  split_and!; [done|apply sort_by_signal_perm|apply sort_by_signal_sorted].
Qed.

(** The retries of a scan. For a valid radio name, as long as the command fails it is
    run again, at 0, 1, 3, 7, ... seconds, and no more often than configured. The first
    success ends the scan with the networks it printed; when all attempts have failed the
    scan fails with the last failure. No other command is run. *)
Theorem scan_retries max_retries radio t0 fails rest :
  validate_identifier radio = Ok tt -> 0 <= max_retries <= 50 ->
  Forall failed fails -> Z.of_nat (length fails) <= max_retries ->
  let '(w, r) := scan_radio max_retries radio (Script.mk (fails ++ rest) t0 []) in
  (Z.of_nat (length fails) = max_retries ->
     r = Err (WifiScanError.RetriesExhausted radio max_retries (last_failure "" fails)) /\
     Script.log w = schedule radio t0 0 max_retries) /\
  forall output rest', rest = Ok output :: rest' -> CommandOutput.success output = true ->
    Z.of_nat (length fails) < max_retries ->
    r = Ok (parse_iwinfo_output (CommandOutput.stdout output) radio) /\
    Script.log w = schedule radio t0 0 (Z.of_nat (length fails) + 1).
Proof.
  intros Hid Hm Hf Hle. unfold scan_radio. rewrite Hid.
  set (n := (Z.to_nat max_retries - length fails)%nat).
  replace (Z.to_nat max_retries) with (length fails + n)%nat by lia.
  destruct (attempts_run max_retries radio t0 fails n 0 EmptyString (Script.mk (fails ++ rest) t0 []) rest)
    as (w1 & -> & Ha & Hl & Ht); [done|lia|lia|done|done|]. cbn [Script.log app] in Hl. rewrite Z.add_0_l in *.
  destruct (decide (Z.of_nat (length fails) = max_retries)) as [E|Hne].
  - replace n with O by lia. cbn [scan_attempts]. split; [by rewrite Hl, E|lia].
  - destruct (scan_attempts _ _ _ _ _ w1) as [w2 r] eqn:E2. split; [lia|]. intros output rest' -> Hs _.
    replace n with (S (n - 1))%nat in E2 by lia.
    erewrite (attempts_step max_retries radio t0) in E2 by (eassumption || lia || reflexivity).
    cbn iota in E2. rewrite Hs in E2. injection E2 as <- <-. split; [done|]. cbn [Script.log]. rewrite Hl.
    unfold schedule. by rewrite seqZ_app, fmap_app by lia.
Qed.

(** *** The time a scan takes *)

(** Time passes as told; starting and killing a process take none. *)
Class ProcessesLaws `{Processes World} : Prop := {
  clock_pass ms w : clock (pass ms w) = clock w + ms;
  clock_spawn program args w : clock (spawn program args w).1 = clock w;
  clock_kill w : clock (kill w) = clock w;
  ended_later program args w ms code out err : (spawn program args w).2 = Ended ms code out err -> 0 <= ms
}.

Section time.
Context `{ProcessesLaws World} (timeout : Z).
Hypothesis Ht : 0 <= timeout.
#[local] Existing Instance SystemCommandExecutor.

Lemma execute_time program args w :
  clock w <= clock (system_execute timeout program args w).1 <= clock w + timeout.
Proof.
  unfold system_execute. pose proof (clock_spawn program args w) as Hs.
  pose proof (ended_later program args w) as Hl.
  destruct (spawn program args w) as [w1 [e|ms code out err|]]; cbn [fst snd] in *; [lia| |].
  - specialize (Hl _ _ _ _ eq_refl). destruct (Z.leb_spec ms timeout); cbn; rewrite ?clock_kill, clock_pass; lia.
  - cbn. rewrite clock_kill, clock_pass. lia.
Qed.

(** The pauses before attempts [a], ..., [a + n - 1]. *)
Lemma attempts_time max_retries n a e radio w :
  0 <= a -> a + Z.of_nat n <= 50 ->
  let w' := (@scan_attempts World (SystemCommandExecutor timeout) max_retries n a e radio w).1 in
  clock w <= clock w' <= clock w + Z.of_nat n * timeout + (2 ^ (a + Z.of_nat n) - 2 ^ a) * 500.
Proof.
  cbv zeta. intros Ha Hn. revert a e w Ha Hn. induction n as [|n IH]; intros a e w Ha Hn.
  { cbn [scan_attempts fst]. change (Z.of_nat 0) with 0. rewrite !Z.add_0_r, Z.sub_diag. lia. }
  cbn [scan_attempts].
  set (w1 := if 0 <? a then _ else w).
  assert (clock w <= clock w1 <= clock w + 500 * 2 ^ a) as Hw1.
  { unfold w1. destruct (Z.ltb_spec 0 a) as [Hp|Hz].
    - cbn [sleep SystemCommandExecutor]. rewrite clock_pass. unfold backoff.
      assert (0 < 2 ^ (a - 1) <= 2 ^ 49) as Hpow by (split; [lia|apply Z.pow_le_mono_r; lia]).
      change (2 ^ 49) with 562949953421312 in Hpow.
      rewrite (wrap_u64_id (2 ^ (a - 1))) by ints. rewrite wrap_u64_id by ints.
      assert (2 ^ a = 2 * 2 ^ (a - 1)) as -> by (rewrite <- Z.pow_succ_r by lia; f_equal; lia). lia.
    - assert (0 < 2 ^ a) by lia. lia. }
  pose proof (execute_time "iwinfo" [radio; "scan"%string] w1) as He.
  change (@execute World (SystemCommandExecutor timeout)) with (@system_execute World _ timeout).
  destruct (system_execute timeout "iwinfo" _ w1) as [w2 r]. cbn [fst] in He.
  assert (2 ^ (a + Z.of_nat (S n)) = 2 ^ (a + 1 + Z.of_nat n)) as E by (f_equal; lia).
  assert (2 ^ (a + 1) = 2 * 2 ^ a) as E1 by (rewrite Z.pow_add_r by lia; lia).
  assert (0 < 2 ^ a) by lia.
  assert (2 ^ a * 2 <= 2 ^ (a + 1 + Z.of_nat n)) as Hge
    by (rewrite Z.mul_comm, <- E1; apply Z.pow_le_mono_r; lia).
  assert (forall e', clock w2 <= clock (@scan_attempts World (SystemCommandExecutor timeout) max_retries n (a + 1) e' radio w2).1
    <= clock w2 + Z.of_nat n * timeout + (2 ^ (a + 1 + Z.of_nat n) - 2 ^ (a + 1)) * 500) as Hrec
    by (intros e'; apply IH; lia).
  replace (Z.of_nat (S n) * timeout) with (Z.of_nat n * timeout + timeout) by lia. rewrite E.
  assert (0 <= Z.of_nat n * timeout) by (apply Z.mul_nonneg_nonneg; lia).
  destruct r as [o|e']; [destruct (CommandOutput.success o)|]; cbn [fst]; [lia| |].
  - specialize (Hrec (attempt_error (Ok o))). lia.
  - specialize (Hrec (attempt_error (Err e'))). lia.
Qed.
End time.

(** A scan of a radio ends in time, even when [iwinfo] hangs: within the timeout for each
    attempt, and the pauses between them, 1 s, 2 s, 4 s, ...; a scanner with the default
    settings needs 93 seconds at most. *)
Theorem scan_ends_in_time `{ProcessesLaws World} max_retries timeout radio (w : World) :
  0 <= timeout -> 1 <= max_retries <= 50 ->
  let w' := (@scan_radio World (SystemCommandExecutor timeout) max_retries radio w).1 in
  clock w <= clock w' <= clock w + max_retries * timeout + (2 ^ (max_retries - 1) - 1) * 1000.
Proof.
  intros Ht Hm. cbv zeta. unfold scan_radio.
  assert (0 <= max_retries * timeout) by (apply Z.mul_nonneg_nonneg; lia).
  assert (0 < 2 ^ (max_retries - 1)) by (apply Z.pow_pos_nonneg; lia).
  destruct (validate_identifier radio); cbn [fst]; [|lia].
  destruct (Z.to_nat max_retries) as [|n] eqn:En; [lia|].
  (* the first attempt comes without a pause *)
  cbn [scan_attempts]. change (0 <? 0) with false. cbn iota.
  pose proof (execute_time timeout Ht "iwinfo" [radio; "scan"%string] w) as He.
  change (@execute World (SystemCommandExecutor timeout)) with (@system_execute World _ timeout).
  destruct (system_execute timeout "iwinfo" _ w) as [w2 r]. cbn [fst] in He.
  assert (forall e', clock w2 <= clock (@scan_attempts World (SystemCommandExecutor timeout) max_retries n (0 + 1) e' radio w2).1
    <= clock w2 + Z.of_nat n * timeout + (2 ^ (0 + 1 + Z.of_nat n) - 2 ^ (0 + 1)) * 500) as Hrec
    by (intros e'; apply attempts_time; lia).
  replace (0 + 1 + Z.of_nat n) with (max_retries - 1 + 1) in Hrec by lia.
  rewrite (Z.pow_add_r 2 (max_retries - 1) 1) in Hrec by lia.
  assert (max_retries * timeout = Z.of_nat n * timeout + timeout) as -> by nia.
  assert (0 <= Z.of_nat n * timeout) by (apply Z.mul_nonneg_nonneg; lia).
  destruct r as [o|e']; [destruct (CommandOutput.success o)|]; cbn [fst]; [lia| |].
  - specialize (Hrec (attempt_error (Ok o))). lia.
  - specialize (Hrec (attempt_error (Err e'))). lia.
Qed.

(** A network that is chosen has the name asked for, and no other of that name is
    stronger. *)
Lemma max_by_signal_spec best l :
  max_by_signal best l ∈ best :: l /\ Forall (fun r => stronger (max_by_signal best l) r) (best :: l).
Proof.
  unfold stronger. revert best. induction l as [|r l IH]; intros best; cbn.
  - split; [by left|]. by repeat constructor.
  - set (b := if _ <=? _ then r else best). destruct (IH b) as [Hin Hall].
    apply Forall_cons in Hall as [Hb Hall].
    assert (ScanResult.signal_dbm best <= ScanResult.signal_dbm b /\ ScanResult.signal_dbm r <= ScanResult.signal_dbm b /\
            (b = r \/ b = best)) as (H1 & H2 & H3).
    { unfold b. destruct (Z.leb_spec (ScanResult.signal_dbm best) (ScanResult.signal_dbm r));
        split_and!; try lia; auto. }
    split.
    + apply elem_of_cons in Hin as [->|Hin]; [|by right; right].
      destruct H3 as [->| ->]; [right; left|left].
    + repeat constructor; try lia. done.
Qed.

(** Choosing a radio: it is the radio of a network of that name, and no network of that
    name that any radio saw is stronger; no radio is chosen only when none saw it. *)
Theorem best_radio_strongest ssid results :
  match best_radio ssid results with
  | Some radio => exists r, r ∈ results /\ ScanResult.ssid r = ssid /\ ScanResult.radio r = radio /\
      forall x, x ∈ results -> ScanResult.ssid x = ssid -> stronger r x
  | None => forall x, x ∈ results -> ScanResult.ssid x <> ssid
  end.
Proof.
  unfold best_radio. destruct (filter _ results) as [|r l] eqn:E.
  - intros x Hx Hs. assert (x ∈ filter (fun r => ScanResult.ssid r = ssid) results) as Hin by by apply list_elem_of_filter.
    rewrite E in Hin. by apply elem_of_nil in Hin.
  - destruct (max_by_signal_spec r l) as [Hin Hall]. rewrite <- E in Hin, Hall. exists (max_by_signal r l).
    apply list_elem_of_filter in Hin as [Hs Hin]. split_and!; [done..|]. intros x Hx Hxs.
    rewrite Forall_forall in Hall. apply Hall. by apply list_elem_of_filter.
Qed.

(** ** Departures *)

(** A network with WPA3 alone, which [iwinfo] calls [WPA3 SAE], is taken for a mixed one;
    the type that the code documents as WPA3 comes only without a version. *)
Example wpa3_read_as_mixed :
  detect_encryption "WPA3 SAE (CCMP)" = EncryptionType.SaeMixed /\
  detect_encryption "SAE (CCMP)" = EncryptionType.Sae.
Proof. by vm_compute. Qed.

(** An enterprise network without a cipher is taken for an open one. *)
Example cipherless_read_as_open : detect_encryption "WPA2 802.1X (NONE)" = EncryptionType.None_.
Proof. by vm_compute. Qed.

(** ** Witnesses *)

Module ScanDemo.
(** The sample of the scanner's tests, without its first cell's channel. *)
Definition text : string := unlines [
  "Cell 01 - Address: AA:BB:CC:DD:EE:01"; "          ESSID: " +:+ quoted "TollGate-5G";
  "          Signal: -45 dBm  Quality: 70/100"; "          Encryption: WPA2 PSK (CCMP)";
  "Cell 03 - Address: AA:BB:CC:DD:EE:03"; "          ESSID: " +:+ quoted "OpenWrt";
  "          Mode: Master  Channel: 6"; "          Signal: -80 dBm  Quality: 20/100"; "          Encryption: none";
  "Cell 04 - Address: AA:BB:CC:DD:EE:04"; "          ESSID: " +:+ quoted "";
  "          Mode: Master  Channel: 11"; "          Signal: -55 dBm  Quality: 55/100"]%string.
Definition output : CommandOutput.t := CommandOutput.mk 0 text "".
Definition busy : CommandOutput.t := CommandOutput.mk 1 "" "device busy".
End ScanDemo.

(** The hidden network of the fourth cell is left out, and no cell takes from another. *)
Example sample_read :
  parse_iwinfo_output ScanDemo.text "radio0" =
    [ScanResult.mk "AA:BB:CC:DD:EE:01" "TollGate-5G" (-45) EncryptionType.Psk2Ccmp 0 "radio0";
     ScanResult.mk "AA:BB:CC:DD:EE:03" "OpenWrt" (-80) EncryptionType.None_ 6 "radio0"].
Proof. vm_compute. reflexivity. Qed.

Lemma scan_retries_witness :
  let wr := scan_radio 3 "radio0" (Script.mk [Ok ScanDemo.busy; Ok ScanDemo.output] 500 []) in
  wr.2 = Ok (parse_iwinfo_output (CommandOutput.stdout ScanDemo.output) "radio0") /\
  Script.log wr.1 = [(500, "iwinfo", ["radio0"; "scan"]); (1500, "iwinfo", ["radio0"; "scan"])]%string.
Proof.
  assert (Forall failed [Ok ScanDemo.busy]) as Hf by by repeat constructor.
  pose proof (scan_retries 3 "radio0" 500 [Ok ScanDemo.busy] [Ok ScanDemo.output] eq_refl ltac:(lia) Hf ltac:(cbn; lia)) as Hr.
  exact (proj2 Hr ScanDemo.output [] eq_refl eq_refl eq_refl).
Defined.

(** A system whose [iwinfo] hangs: a scan of one radio gives up after 93 seconds. *)
Module HangDemo.
#[export] Instance processes : Processes Z := {|
  spawn _ _ w := (w, Hangs); kill w := w; clock w := w; pass ms w := w + ms
|}.
#[export] Instance processes_laws : ProcessesLaws.
Proof. by split. Qed.
End HangDemo.

Lemma scan_ends_in_time_witness :
  let '(w, r) := @scan_radio Z (@SystemCommandExecutor Z HangDemo.processes 30000) 3 "radio0" 0 in
  r = Err (WifiScanError.RetriesExhausted "radio0" 3 "command timed out after 30s") /\ 0 <= w <= 93000.
Proof.
  destruct (@scan_radio Z (@SystemCommandExecutor Z HangDemo.processes 30000) 3 "radio0" 0) as [w r] eqn:E.
  split; [change r with (w, r).2; rewrite <- E; by vm_compute|].
  change w with (@clock Z HangDemo.processes (w, r).1). rewrite <- E.
  exact (@scan_ends_in_time Z HangDemo.processes HangDemo.processes_laws 3 30000 "radio0" 0 ltac:(lia) ltac:(lia)).
Defined.

(** The timeout set on a scanner does not reach its executor: it changes no scan. *)
Theorem with_timeout_ignored `{Processes World} timeout s (w : World) :
  WifiScanner.scan_all_radios (WifiScanner.with_timeout timeout s) w = WifiScanner.scan_all_radios s w.
Proof. done. Qed.
