(* ===== verification/WifiConnect.v ===== *)
(** * The WiFi connector

    Models [crates/tollgate-net/src/openwrt/wifi_connector.rs]: the operations that set up,
    remove and switch a station, the wait for its address, the check of its network, and
    the sequences of [connect], [disconnect] and [switch_upstream]. Commands are run by the
    executor of [WifiScan.v], and by the shell that [Uci.execute_shell] uses. *)

From S2P Require Import Prelude Decimal Json Shell Text Uci NetMonitor WifiScan.

(** ** [std::net::IpAddr], from text *)

Module IpText.
Abbreviation reader A := (list Ascii.ascii -> option (A * list Ascii.ascii)).

(** [char::to_digit] *)
Definition to_digit (radix : Z) (c : Ascii.ascii) : option Z :=
  let n := code c in
  let d := if (48 <=? n) && (n <=? 57) then n - 48
           else if (97 <=? n) && (n <=? 122) then n - 87
           else if (65 <=? n) && (n <=? 90) then n - 55 else radix in
  if d <? radix then Some d else None.
Fixpoint digits (radix : Z) (l : list Ascii.ascii) : list Z * list Ascii.ascii :=
  match l with
  | c :: rest =>
      match to_digit radix c with
      | Some d => let '(ds, rest) := digits radix rest in (d :: ds, rest)
      | None => ([], l)
      end
  | [] => ([], [])
  end.
Definition read_number (radix max_digits : Z) (zero_prefix : bool) (limit : Z) : reader Z := fun l =>
  let '(ds, rest) := digits radix l in
  let count := Z.of_nat (length ds) in
  let value := foldl (fun acc d => radix * acc + d) 0 ds in
  if (count =? 0) || (max_digits <? count) then None
  else if negb zero_prefix && bool_decide (head ds = Some 0) && (1 <? count) then None
  else if value <=? limit then Some (value, rest) else None.
Definition read_given_char (c : Ascii.ascii) (l : list Ascii.ascii) : option (list Ascii.ascii) :=
  match l with x :: rest => if decide (x = c) then Some rest else None | [] => None end.
Definition read_separator {A} (sep : Ascii.ascii) (index : nat) (inner : reader A) : reader A := fun l =>
  match index with O => inner l | S _ => read_given_char sep l ≫= inner end.

Definition dot : Ascii.ascii := Ascii.ascii_of_N 46.
Definition colon : Ascii.ascii := Ascii.ascii_of_N 58.
Definition read_octet : reader Z := read_number 10 3 false 255.
Definition read_ipv4_addr : reader Z := fun l =>
  '(a, l) ← read_octet l;
  '(b, l) ← read_separator dot 1 read_octet l;
  '(c, l) ← read_separator dot 1 read_octet l;
  '(d, l) ← read_separator dot 1 read_octet l;
  Some (((a * 256 + b) * 256 + c) * 256 + d, l).

(** [left] groups of the slice are still empty; the flag tells of a final IPv4 address. *)
Fixpoint read_groups (left_ index : nat) (l : list Ascii.ascii) : list Z * bool * list Ascii.ascii :=
  match left_ with
  | O => ([], false, l)
  | S more =>
      match match more with O => None | S _ => read_separator colon index read_ipv4_addr l end with
      | Some (v4, rest) => ([v4 / 65536; v4 mod 65536], true, rest)
      | None =>
          match read_separator colon index (read_number 16 4 true 65535) l with
          | Some (group, rest) =>
              let '(groups, v4, rest) := read_groups more (S index) rest in (group :: groups, v4, rest)
          | None => ([], false, l)
          end
      end
  end.
Definition of_groups (groups : list Z) : Z := foldl (fun acc g => acc * 65536 + g) 0 groups.
Definition read_ipv6_addr : reader Z := fun l =>
  let '(hd, head_ipv4, rest) := read_groups 8 0 l in
  if (length hd =? 8)%nat then Some (of_groups hd, rest)
  else if head_ipv4 then None
  else
    rest ← read_given_char colon rest;
    rest ← read_given_char colon rest;
    let '(tl, _, rest) := read_groups (8 - (length hd + 1)) 0 rest in
    Some (of_groups (hd ++ replicate (8 - length hd - length tl) 0 ++ tl), rest).

(** [s.parse::<IpAddr>()] *)
Definition parse (s : string) : option Ip.t :=
  let l := chars s in
  match read_ipv4_addr l with
  | Some (a, []) => Some (Ip.V4 a)
  | Some (_, _ :: _) => None
  | None => match read_ipv6_addr l with Some (a, []) => Some (Ip.V6 a) | _ => None end
  end.
End IpText.

Example parse_addresses :
  IpText.parse "192.168.1.100" = Some (Ip.V4 3232235876) /\ IpText.parse "192.168.01.1" = None /\
  IpText.parse "1.2.3" = None /\ IpText.parse "::1" = Some (Ip.V6 1) /\
  IpText.parse "fe80::1:2" = Some (Ip.V6 (65152 * 2 ^ 112 + 65536 + 2)) /\
  IpText.parse "::ffff:1.2.3.4" = Some (Ip.V6 (65535 * 2 ^ 32 + 16909060)) /\ IpText.parse "1::2::3" = None.
Proof. by vm_compute. Qed.

(** ** Operations *)

Definition sta_values (radio ssid password : string) (encryption : EncryptionType.t) : list (string * string) :=
  [("device", radio); ("mode", "sta"); ("ssid", ssid); ("network", "wwan")]%string ++
  (if decide (encryption = EncryptionType.None_) then [("encryption", "none")]%string
   else [("encryption", EncryptionType.to_uci_value encryption); ("key", password)]%string).

Definition build_sta_uci_ops (sta_name radio ssid password : string) (encryption : EncryptionType.t)
    : list UciOp.t :=
  UciOpBuilder.build
    (UciOpBuilder.add "wireless" "wifi-iface" sta_name (sta_values radio ssid password encryption)
      (UciOpBuilder.comment ("STA for " +:+ ssid +:+ " on " +:+ radio) UciOpBuilder.new)).

Definition build_wwan_ops : list UciOp.t :=
  UciOpBuilder.build
    (UciOpBuilder.commit "firewall" (UciOpBuilder.commit "network"
      (UciOpBuilder.add_list "firewall" "@zone[1]" "network" "wwan"
        (UciOpBuilder.add "network" "interface" "wwan" [("proto", "dhcp"); ("metric", "50")]%string
          (UciOpBuilder.comment "Ensure WWAN network interface" UciOpBuilder.new))))).

(** A command as it is written, each character [~] standing for a double quote. *)
Definition with_quotes (s : string) : string :=
  replace_char (Ascii.ascii_of_N 126) (of_chars [double_quote]) s.

Definition disconnect_command : string := with_quotes
  "for s in $(uci show wireless | grep wifi-iface | grep ~mode='sta'~ | cut -d. -f2 | cut -d= -f1); do uci delete wireless.$s 2>/dev/null || true; done".
Definition build_disconnect_ops : list UciOp.t :=
  UciOpBuilder.build
    (UciOpBuilder.commit "wireless" (UciOpBuilder.shell disconnect_command
      (UciOpBuilder.comment "Disconnect all STAs" UciOpBuilder.new))).

Definition build_switch_ops (from_radio from_ssid to_radio to_ssid to_password : string)
    (to_encryption : EncryptionType.t) : list UciOp.t :=
  [UciOp.Comment ("Switch upstream: " +:+ from_ssid +:+ " → " +:+ to_ssid);
   UciOp.Delete "wireless" ("sta_" +:+ from_radio) None] ++
  build_sta_uci_ops ("sta_" +:+ to_radio) to_radio to_ssid to_password to_encryption.

(** The pipeline that finds the stations of a network: the name stands between double
    quotes, with its single quotes rewritten. *)
Definition stale_query (ssid : string) : string :=
  "uci show wireless | grep -B1 " +:+ of_chars [double_quote] +:+ "ssid='" +:+ escaped ssid +:+ "'"
    +:+ of_chars [double_quote] +:+ " | grep wifi-iface | cut -d. -f2 | cut -d= -f1".
Definition stale_command (ssid : string) : string :=
  "for s in $(" +:+ stale_query ssid +:+ "); do uci delete wireless.$s 2>/dev/null || true; done".
Definition stale_ops (ssid : string) : list UciOp.t := [UciOp.Shell (stale_command ssid); UciOp.Commit "wireless"].

Definition fallback_ops (radio ssid : string) : list UciOp.t :=
  UciOpBuilder.build
    (UciOpBuilder.shell "wifi reload" (UciOpBuilder.commit "wireless"
      (UciOpBuilder.add "wireless" "wifi-iface" ("sta_" +:+ radio)
        [("device", radio); ("mode", "sta"); ("ssid", ssid); ("network", "wwan")]%string
        (UciOpBuilder.comment ("Fallback to " +:+ ssid) UciOpBuilder.new)))).

Definition reload_ops : list UciOp.t :=
  UciOpBuilder.build (UciOpBuilder.shell "wifi reload" (UciOpBuilder.commit "wireless" UciOpBuilder.new)).
Definition ifup_ops : list UciOp.t := UciOpBuilder.build (UciOpBuilder.shell "ifup wwan" UciOpBuilder.new).

Definition cleanup_command : string := with_quotes (
  "for ssid in $(uci show wireless | grep ~mode='sta'~ -A5 | grep ~ssid=~ | " +:+
  "sed ~s/.*ssid='\([^']*\)'.*/\1/~ | sort | uniq -d); do " +:+
  "sections=$(uci show wireless | grep ~ssid='$ssid'~ -B5 | grep wifi-iface | " +:+
  "cut -d. -f2 | cut -d= -f1); count=0; for s in $sections; do count=$((count + 1)); " +:+
  "if [ $count -gt 1 ]; then uci delete wireless.$s 2>/dev/null || true; fi; done; done").
Definition build_cleanup_ops : list UciOp.t :=
  UciOpBuilder.build
    (UciOpBuilder.commit "wireless" (UciOpBuilder.shell cleanup_command
      (UciOpBuilder.comment "Cleanup stale STA sections" UciOpBuilder.new))).

(** ** The connector *)

Module WifiConnectError.
Inductive t : Set :=
| InvalidParameter (msg : string)
| UciFailed (msg : string)
| CommandFailed (msg : string)
| DhcpTimeout (iface : string) (ms : Z)
| VerificationFailed (msg : string)
| ScanError (e : WifiScanError).
End WifiConnectError.
Abbreviation WifiConnectError := WifiConnectError.t.

(** The interface that [iw dev] lists first as a station: the line variable, and the first
    line that decides. *)
Fixpoint first_station (current : string) (ls : list string) : option string :=
  match ls with
  | [] => None
  | line :: ls =>
      let line := trim line in
      let current := unwrap_or (strip_prefix "Interface " line) current in
      if (contains "type managed" line || contains "type STA" line) && bool_decide (current <> EmptyString)
      then Some current else first_station current ls
  end.
Definition default_iface (radio : string) : string :=
  match strip_prefix "radio" radio with Some num => "wlan" +:+ num | None => "wlan0" end.

(** The first address of [ip addr show]. *)
Definition address_of_line (line : string) : option Ip.t :=
  inet_part ← strip_prefix "inet " (trim line); IpText.parse (split_first "/" inet_part).
Definition first_address (output : string) : option Ip.t := head (omap address_of_line (lines output)).

Section connector.
Context `{CommandExecutor World}.
(** The shell of [execute_shell]. *)
Context (sh : string -> World -> World * result (bool * string) string).
(** The time the connector waits for an address, in milliseconds. *)
Context (timeout : Z).

Definition run_shell (ops : list UciOp.t) (w : World) : World := (execute_shell sh ops w).1.

Definition cleanup_stale_stas_for_ssid (ssid : string) (w : World) : World := run_shell (stale_ops ssid) w.

Definition find_sta_interface (radio : string) (w : World) : World * result string WifiConnectError :=
  let '(w, r) := execute "iw" ["dev"]%string w in
  (w, match r with
      | Err e => Err (WifiConnectError.CommandFailed ("iw dev: " +:+ WifiScanError.to_string e))
      | Ok output =>
          Ok (unwrap_or (if CommandOutput.success output
                         then first_station EmptyString (lines (CommandOutput.stdout output)) else None)
                (default_iface radio))
      end).

(** What one poll reads. *)
Definition poll_address (r : result CommandOutput.t WifiScanError) : option Ip.t :=
  match r with
  | Ok output => if CommandOutput.success output then first_address (CommandOutput.stdout output) else None
  | Err _ => None
  end.

(** The loop; without fuel there is no answer. *)
Fixpoint wait_loop (fuel : nat) (iface : string) (start : Z) (w : World)
    : World * option (result Ip.t WifiConnectError) :=
  match fuel with
  | O => (w, None)
  | S fuel =>
      if Z.max 0 (now w - start) <? timeout then
        let '(w, r) := execute "ip" ["addr"%string; "show"%string; iface] w in
        match poll_address r with
        | Some addr => (w, Some (Ok addr))
        | None =>
            let '(w, _) := execute "udhcpc" ["-i"%string; iface; "-n"%string; "-q"%string] w in
            wait_loop fuel iface start (sleep 1000 w)
        end
      else (w, Some (Err (WifiConnectError.DhcpTimeout iface timeout)))
  end.
Definition WAIT_FUEL : nat := Z.to_nat (timeout / 1000 + 2).
Definition wait_for_sta_ip (iface : string) (w : World) : World * option (result Ip.t WifiConnectError) :=
  wait_loop WAIT_FUEL iface (now w) w.

Definition verify_connection (iface expected_ssid : string) (w : World)
    : World * result unit WifiConnectError :=
  let '(w, r) := execute "iwgetid" ["-r"%string; iface] w in
  (w, match r with
      | Err e => Err (WifiConnectError.CommandFailed ("iwgetid: " +:+ WifiScanError.to_string e))
      | Ok output =>
          let connected := trim (CommandOutput.stdout output) in
          if negb (CommandOutput.success output) && bool_decide (connected <> EmptyString)
          then Err (WifiConnectError.VerificationFailed "iwgetid failed")
          else if bool_decide (connected <> expected_ssid)
          then Err (WifiConnectError.VerificationFailed
                      ("connected to '" +:+ connected +:+ "' but expected '" +:+ expected_ssid +:+ "'"))
          else Ok tt
      end).

(** The wait and the check, as [connect] chains them; no answer only without fuel. *)
Definition connect (radio ssid password : string) (encryption : EncryptionType.t) (w : World)
    : World * option (result string WifiConnectError) :=
  let w := cleanup_stale_stas_for_ssid ssid w in
  let w := run_shell (build_sta_uci_ops ("sta_" +:+ radio) radio ssid password encryption) w in
  let w := run_shell reload_ops w in
  let w := run_shell ifup_ops w in
  let '(w, r) := find_sta_interface radio w in
  match r with
  | Err e => (w, Some (Err e))
  | Ok iface =>
      let '(w, r) := wait_for_sta_ip iface w in
      match r with
      | None => (w, None)
      | Some (Err e) => (w, Some (Err e))
      | Some (Ok _) =>
          let '(w, r) := verify_connection iface ssid w in
          (w, Some (match r with Ok _ => Ok iface | Err e => Err e end))
      end
  end.

Definition disconnect (w : World) : World := run_shell reload_ops (run_shell build_disconnect_ops w).
Definition ensure_wwan_setup (w : World) : World := run_shell build_wwan_ops w.
Definition cleanup_stale_stas (w : World) : World := run_shell build_cleanup_ops w.
Definition fallback_to (radio ssid : string) (w : World) : World := run_shell (fallback_ops radio ssid) w.

Definition switch_upstream (from_radio from_ssid to_radio to_ssid to_password : string)
    (to_encryption : EncryptionType.t) (w : World) : World * option (result unit WifiConnectError) :=
  let w := run_shell (build_switch_ops from_radio from_ssid to_radio to_ssid to_password to_encryption) w in
  let w := run_shell reload_ops w in
  let '(w, r) := find_sta_interface to_radio w in
  match r with
  | Err e => (w, Some (Err e))
  | Ok iface =>
      let '(w, r) := wait_for_sta_ip iface w in
      match r with
      | None => (w, None)
      | Some (Ok _) =>
          let '(w, r) := verify_connection iface to_ssid w in
          match r with
          | Err e => (fallback_to from_radio from_ssid w, Some (Err e))
          | Ok _ => (w, Some (Ok tt))
          end
      | Some (Err e) => (fallback_to from_radio from_ssid w, Some (Err e))
      end
  end.
End connector.

(** ** The clock *)

(** Time does not run backwards, and a pause lasts as long as it says. *)
Class ClockLaws (World : Type) `{CommandExecutor World} : Prop := {
  execute_time program args w : now w <= now (execute program args w).1;
  sleep_time ms w : 0 <= ms -> now w + ms <= now (sleep ms w)
}.

#[export] Instance script_clock : ClockLaws Script.t.
Proof.
  split.
  - intros program args w. cbn. unfold Script.run_command. destruct (Script.answers w); cbn; lia.
  - intros ms w Hms. cbn. lia.
Qed.

Section wait.
Context `{Hx : CommandExecutor World} `{!ClockLaws World}.
Context (timeout : Z).

(** Each turn takes a second at least, so that the fuel outlasts the time allowed. *)
Lemma wait_loop_total fuel iface start w :
  0 <= timeout -> 1000 * (Z.of_nat (WAIT_FUEL timeout) - Z.of_nat fuel) <= now w - start -> (0 < fuel)%nat ->
  (wait_loop timeout fuel iface start w).2 <> None.
Proof using Type*.
  intros Ht. revert w. induction fuel as [|fuel IH]; intros w Hw Hf; [lia|]. cbn [wait_loop].
  destruct (Z.ltb_spec (Z.max 0 (now w - start)) timeout) as [Hlt|]; [|done].
  assert (0 < fuel)%nat as Hpos.
  { destruct fuel; [|lia]. unfold WAIT_FUEL in Hw. exfalso.
    pose proof (Z.div_mod timeout 1000). pose proof (Z.mod_pos_bound timeout 1000).
    assert (0 <= timeout / 1000) by (apply Z.div_pos; lia). lia. }
  pose proof (execute_time "ip" ["addr"%string; "show"%string; iface] w) as T1.
  destruct (execute "ip" _ w) as [w1 r]. destruct (poll_address r); [done|].
  pose proof (execute_time "udhcpc" ["-i"%string; iface; "-n"%string; "-q"%string] w1) as T2.
  destruct (execute "udhcpc" _ w1) as [w2 r2]. apply IH; [|done]. cbn in T1, T2.
  pose proof (sleep_time 1000 w2 ltac:(lia)). lia.
Qed.

Lemma wait_total iface w : 0 <= timeout -> (wait_for_sta_ip timeout iface w).2 <> None.
Proof using Type*.
  intros Ht. assert (0 <= timeout / 1000) by (apply Z.div_pos; lia).
  apply wait_loop_total; unfold WAIT_FUEL; lia.
Qed.

(** An answer comes from a poll of the interface. *)
Definition addressed (iface : string) (w : World) (addr : Ip.t) : Prop :=
  exists w0 r, execute "ip" ["addr"%string; "show"%string; iface] w0 = (w, r) /\ poll_address r = Some addr.
Lemma wait_loop_ok fuel iface start w w' addr :
  wait_loop timeout fuel iface start w = (w', Some (Ok addr)) -> addressed iface w' addr.
Proof using Type.
  revert w. induction fuel as [|fuel IH]; intros w; cbn [wait_loop]; [done|].
  destruct (_ <? _); [|done]. destruct (execute "ip" _ w) as [w1 r] eqn:E.
  destruct (poll_address r) as [a|] eqn:Ea; [intros [= <- <-]; by exists w, r|].
  destruct (execute "udhcpc" _ w1) as [w2 r2]. apply IH.
Qed.

(** The check has passed. *)
Definition verified (iface ssid : string) (w0 w : World) : Prop :=
  exists output, execute "iwgetid" ["-r"%string; iface] w0 = (w, Ok output) /\
    trim (CommandOutput.stdout output) = ssid /\ (ssid <> EmptyString -> CommandOutput.success output = true).

Lemma verify_ok iface ssid w w' : verify_connection iface ssid w = (w', Ok tt) -> verified iface ssid w w'.
Proof using Type.
  unfold verify_connection, verified. destruct (execute "iwgetid" _ w) as [w1 [output|e]]; [|done].
  destruct (CommandOutput.success output) eqn:Es; cbn [negb andb].
  - case_bool_decide as E; [done|]. intros [= <-]. by exists output.
  - case_bool_decide as E1; [done|]. case_bool_decide as E2; [done|]. intros [= <-]. exists output.
    split_and!; [done|done|congruence].
Qed.
End wait.

(** ** Quoting in the clean-up *)

(** Characters that mean nothing special between double quotes. *)
Definition inert (c : Ascii.ascii) : Prop :=
  class_of c <> DoubleQuote /\ class_of c <> Expansion /\ class_of c <> Backslash.
#[export] Instance inert_dec c : Decision (inert c).
Proof. unfold inert. apply _. Defined.

Lemma lex_inert w c l : inert c -> lex InDouble w (c :: l) = lex InDouble (push c false w) l.
Proof. intros (H1 & H2 & H3). cbn [lex]. by destruct (class_of c). Qed.

Lemma lex_inerts w text rest :
  Forall inert text ->
  lex InDouble (begin_word w) (text ++ rest) = lex InDouble (extend (begin_word w) text false) rest.
Proof.
  intros Ht. revert w. induction Ht as [|c text Hc _ IH]; intros w; [by rewrite extend_nil|].
  cbn [app]. rewrite lex_inert by done. rewrite <- (begin_push c false (begin_word w)), IH.
  by rewrite begin_push, extend_push.
Qed.

Lemma lex_escaped_double w v rest :
  Forall inert (chars v) ->
  lex InDouble (begin_word w) (chars (escaped v) ++ rest) =
    lex InDouble (extend (begin_word w) (chars (escaped v)) false) rest.
Proof.
  intros Hv. revert w. induction v as [|c v IH]; intros w; [by rewrite extend_nil|].
  change (chars (String c v)) with (c :: chars v) in Hv. apply Forall_cons in Hv as [Hc Hv].
  unfold escaped. cbn [replace_char]. fold (escaped v). destruct (decide (c = quote_char)) as [->|Hne].
  - rewrite chars_app, chars_of_chars, <- app_assoc. cbn [app].
    change (lex InDouble (begin_word w) (quote_char :: backslash :: quote_char :: quote_char :: ?l)) with
      (lex InDouble (push quote_char false (push quote_char false (push backslash false (push quote_char false (begin_word w))))) l).
    rewrite <- (begin_push quote_char false (push _ _ _)), IH by done. by rewrite begin_push, !extend_push.
  - change (chars (String c (escaped v))) with (c :: chars (escaped v)). cbn [app].
    rewrite lex_inert by done. rewrite <- (begin_push c false (begin_word w)), IH by done.
    by rewrite begin_push, extend_push.
Qed.

(** The pipeline of [stale_query]: the name in one word, as it is escaped. *)
Definition stale_words (ssid : string) : list token :=
  [word "uci"; word "show"; word "wireless"] ++ op_char "|" ++
  [word "grep"; word "-B1"; Word (chars "ssid='" ++ chars (escaped ssid) ++ chars "'") false] ++ op_char "|" ++
  [word "grep"; word "wifi-iface"] ++ op_char "|" ++ [word "cut"; word "-d."; word "-f2"] ++ op_char "|" ++
  [word "cut"; word "-d="; word "-f1"].

Lemma read_pipe s : read_line ("| " +:+ s) = and_then (read_line s) (app (op_char "|")).
Proof.
  change (read_line ("| " +:+ s)) with
    (and_then (and_then (read_line s) (flush None)) (fun ts => flush None (Op (Ascii.ascii_of_N 124) :: ts))).
  by destruct (read_line s).
Qed.

Lemma read_query_prefix s :
  read_line ("uci show wireless | grep -B1 " +:+ s) =
    and_then (read_line s)
      (app ([word "uci"; word "show"; word "wireless"] ++ op_char "|" ++ [word "grep"; word "-B1"])).
Proof.
  change ("uci show wireless | grep -B1 " +:+ s) with
    ("uci" +:+ " " +:+ ("show" +:+ " " +:+ ("wireless" +:+ " " +:+ ("| " +:+ ("grep" +:+ " " +:+ ("-B1" +:+ " " +:+ s)))))).
  rewrite !read_cons, read_pipe, !read_cons by plain_literal. by destruct (read_line s).
Qed.

Lemma read_query_tail text :
  lex Plain (Some (text, false)) (chars " | grep wifi-iface | cut -d. -f2 | cut -d= -f1") =
    Tokens (Word text false :: op_char "|" ++ [word "grep"; word "wifi-iface"] ++ op_char "|" ++
      [word "cut"; word "-d."; word "-f2"] ++ op_char "|" ++ [word "cut"; word "-d="; word "-f1"]).
Proof.
  change (lex Plain (Some (text, false)) (chars " | grep wifi-iface | cut -d. -f2 | cut -d= -f1")) with
    (and_then (read_line "| grep wifi-iface | cut -d. -f2 | cut -d= -f1") (cons (Word text false))).
  by vm_compute.
Qed.

(** ** Properties *)

(** C30: a connection that is reported was checked. If [connect] returns an interface,
    then the last command asked that interface for its network and got the one asked
    for, and before that a poll found an address on the interface. If its wait is not cut
    short by the clock, [connect] always returns. *)
Theorem connect_verified `{Hx : CommandExecutor World} `{!ClockLaws World}
    (sh : string -> World -> World * result (bool * string) string) timeout radio ssid password encryption w :
  0 <= timeout ->
  let '(w', r) := connect sh timeout radio ssid password encryption w in
  r <> None /\
  forall iface, r = Some (Ok iface) ->
    exists w1 addr, addressed iface w1 addr /\ verified iface ssid w1 w'.
Proof.
  intros Ht. unfold connect.
  set (w0 := run_shell sh ifup_ops _). destruct (find_sta_interface radio w0) as [w1 [iface|e]]; [|done].
  pose proof (wait_total timeout iface w1 Ht) as Hw.
  destruct (wait_for_sta_ip timeout iface w1) as [w2 [[addr|e]|]] eqn:Ew; [|done|done].
  destruct (verify_connection iface ssid w2) as [w3 [[]|e]] eqn:Ev; [|done].
  split; [done|]. intros iface' [= <-]. exists w2, addr. split; [by eapply wait_loop_ok|by apply verify_ok].
Qed.

(** C31: a switch ends in one of three ways. It succeeds, and the new network was checked
    as by [connect]; or it fails, and the last thing done is to write the old station
    back; or [iw] cannot be run, and then nothing is written back. *)
Theorem switch_outcomes `{Hx : CommandExecutor World} `{!ClockLaws World}
    (sh : string -> World -> World * result (bool * string) string) timeout
    from_radio from_ssid to_radio to_ssid to_password to_encryption w :
  0 <= timeout ->
  let '(w', r) := switch_upstream sh timeout from_radio from_ssid to_radio to_ssid to_password to_encryption w in
  (r = Some (Ok tt) /\ exists iface w1 addr, addressed iface w1 addr /\ verified iface to_ssid w1 w') \/
  (exists e w1, r = Some (Err e) /\ w' = fallback_to sh from_radio from_ssid w1) \/
  (exists w1 e msg, r = Some (Err (WifiConnectError.CommandFailed msg)) /\
     execute "iw" ["dev"%string] w1 = (w', Err e)).
Proof.
  intros Ht. unfold switch_upstream. set (w0 := run_shell sh reload_ops _).
  destruct (find_sta_interface to_radio w0) as [w1 [iface|e]] eqn:Ef.
  - pose proof (wait_total timeout iface w1 Ht) as Hw.
    destruct (wait_for_sta_ip timeout iface w1) as [w2 [[addr|e]|]] eqn:Ew; [|right; left; by eauto|done].
    destruct (verify_connection iface to_ssid w2) as [w3 [[]|e]] eqn:Ev; [|right; left; by eauto].
    left. split; [done|]. exists iface, w2, addr. split; [by eapply wait_loop_ok|by apply verify_ok].
  - right. right. unfold find_sta_interface in Ef.
    destruct (execute "iw" _ w0) as [w2 [output|err]] eqn:Ei; [done|]. injection Ef as <- <-. by eauto.
Qed.

(** The clean-up, for most names. For a name without double quotes, dollar signs,
    backquotes and backslashes, with any blanks and single quotes, the shell reads the
    pipeline of the clean-up as its five fixed commands, with the name within one word. *)
Theorem stale_query_words ssid :
  Forall inert (chars ssid) -> read_line (stale_query ssid) = Tokens (stale_words ssid).
Proof.
  intros Hs. unfold stale_query. rewrite read_query_prefix. unfold read_line at 1.
  rewrite !chars_app. change (chars (of_chars [double_quote])) with [double_quote]. cbn [app].
  change (lex Plain None (double_quote :: ?l)) with (lex InDouble (begin_word None) l).
  rewrite lex_inerts by (repeat (apply Forall_cons_2; [by vm_compute|]); apply Forall_nil_2).
  change (extend (begin_word None) (chars "ssid='") false) with (begin_word (Some (chars "ssid='", false))).
  rewrite lex_escaped_double by done.
  change (extend (begin_word (Some (chars "ssid='", false))) (chars (escaped ssid)) false) with
    (begin_word (Some (chars "ssid='" ++ chars (escaped ssid), false))).
  rewrite lex_inerts by (apply Forall_cons_2; [by vm_compute|apply Forall_nil_2]).
  change (lex InDouble ?w (double_quote :: ?l)) with (lex Plain w l).
  cbn [begin_word extend orb]. rewrite read_query_tail. cbn [and_then]. unfold stale_words.
  by rewrite <- !app_assoc.
Qed.

(** ** Departures *)

(** The name of a network is not quoted in the clean-up's command: any access point can
    call itself such that a router that connects to it runs a command of its choice. *)
Theorem ssid_runs_commands :
  let ssid := with_quotes "~;reboot;~" in
  read_line (stale_query ssid) =
    Tokens ([word "uci"; word "show"; word "wireless"] ++ op_char "|" ++
      [word "grep"; word "-B1"; Word (chars "ssid='") false] ++ op_char ";" ++ [word "reboot"] ++ op_char ";" ++
      [Word (chars "'") false] ++ op_char "|" ++
      [word "grep"; word "wifi-iface"] ++ op_char "|" ++ [word "cut"; word "-d."; word "-f2"] ++ op_char "|" ++
      [word "cut"; word "-d="; word "-f1"]) /\
  read_line (stale_query "$(reboot)") = Expands.
Proof. split; vm_compute; reflexivity. Qed.

(** The station that a failed switch writes back has neither the encryption nor the key
    that the one it deleted may have had. *)
Theorem fallback_forgets_key radio ssid :
  Forall (fun op => match op with
                    | UciOp.Add _ _ _ values => ("key"%string ∉ values.*1) /\ ("encryption"%string ∉ values.*1)
                    | _ => True
                    end) (fallback_ops radio ssid).
Proof.
  repeat apply Forall_cons_2; try apply Forall_nil_2; try done.
  split; apply (bool_decide_unpack _); vm_compute; exact I.
Qed.

(** The answer is trimmed: a network whose name begins or ends with a blank is never
    verified. *)
Theorem blank_name_never_verified `{CommandExecutor World} iface ssid w output :
  (execute "iwgetid" ["-r"%string; iface] w).2 = Ok output -> CommandOutput.stdout output = ssid ->
  trim ssid <> ssid -> (verify_connection iface ssid w).2 <> Ok tt.
Proof.
  intros Hx Ho Hne. unfold verify_connection. destruct (execute "iwgetid" _ w) as [w1 r]. cbn in Hx.
  subst r. cbn. destruct (_ && _); [done|]. by rewrite Ho, bool_decide_true.
Qed.

(** ** Witnesses *)

Module ConnectDemo.
Definition answer (s : string) : result CommandOutput.t WifiScanError := Ok (CommandOutput.mk 0 s "").
(** [iw dev]; a poll without an address; [udhcpc]; a poll with one; [iwgetid]. *)
Definition world (name : string) : Script.t :=
  Script.mk [answer "Interface wlan1"; answer ""; answer ""; answer "inet 10.0.0.7/24"; answer name] 0 [].
(** A shell whose commands succeed and change nothing here. *)
Definition sh (cmd : string) (w : Script.t) : Script.t * result (bool * string) string :=
  (w, Ok (true, EmptyString)).
End ConnectDemo.

Lemma connect_verified_witness :
  exists w', connect ConnectDemo.sh 30000 "radio0" "TollGate" "secret" EncryptionType.Psk2
               (ConnectDemo.world "TollGate") = (w', Some (Ok "wlan0"%string)) /\
    exists w1 addr, addressed "wlan0"%string w1 addr /\ verified "wlan0"%string "TollGate"%string w1 w'.
Proof.
  pose proof (connect_verified ConnectDemo.sh 30000 "radio0" "TollGate" "secret" EncryptionType.Psk2
    (ConnectDemo.world "TollGate") ltac:(discriminate)) as Hc.
  eassert (connect ConnectDemo.sh 30000 "radio0" "TollGate" "secret" EncryptionType.Psk2
    (ConnectDemo.world "TollGate") = _) as E by (vm_compute; reflexivity).
  rewrite E in Hc. eexists. split; [exact E|]. by apply (proj2 Hc).
Defined.

(** Another network answers: the old station is written back. *)
Lemma switch_outcomes_witness :
  exists w' e w1, switch_upstream ConnectDemo.sh 30000 "radio0" "Old" "radio1" "New" "secret" EncryptionType.Psk2
                    (ConnectDemo.world "Other") = (w', Some (Err (WifiConnectError.VerificationFailed e))) /\
    w' = fallback_to ConnectDemo.sh "radio0" "Old" w1.
Proof.
  pose proof (switch_outcomes ConnectDemo.sh 30000 "radio0" "Old" "radio1" "New" "secret" EncryptionType.Psk2
    (ConnectDemo.world "Other") ltac:(discriminate)) as Hc.
  eassert (switch_upstream ConnectDemo.sh 30000 "radio0" "Old" "radio1" "New" "secret" EncryptionType.Psk2
    (ConnectDemo.world "Other") = _) as E by (vm_compute; reflexivity).
  rewrite E in Hc. eexists _, _. destruct Hc as [[Hc _]|[(e & w1 & _ & Hw)|(w1 & e & msg & Hc & _)]]; try discriminate Hc.
  exists w1. split; [exact E|exact Hw].
Defined.

(** A name with blanks and single quotes. *)
Lemma stale_query_words_witness :
  let ssid := "Joe's net (5G)"%string in
  Forall inert (chars ssid) /\ read_line (stale_query ssid) = Tokens (stale_words ssid).
Proof.
  assert (Forall inert (chars "Joe's net (5G)"%string)) as Hs by (apply (bool_decide_unpack _); vm_compute; exact I).
  split; [exact Hs|exact (stale_query_words _ Hs)].
Defined.
