(* ===== verification/Tasks.v ===== *)
(** * The node's tasks and its transport

    Models what runs beside the requests: the loops that [spawn_upstreams],
    [spawn_reaper] and [spawn_metering] of [driver.rs] start, each a sequence of
    operations on the shared driver; [run_consume] and [consume] of [client.rs] from the
    payment to the printed lines; the client's [exchange] over HTTP, and the routes of
    [server.rs]. Waiting, sockets and name resolution are [tokio]'s and the system's. *)

From S2P Require Import Prelude F64 Wire ToyCodec Frames Product Pricing Session Wallet Consume NetDriver.
From S2P Require Import NetDriverFacts Config Decimal Json Shell Text.

(** ** The client's transport *)

Definition slash : Ascii.ascii := Ascii.ascii_of_N 47.
(** [s.trim_end_matches('/')], [s.trim_start_matches(p)]. *)
Fixpoint drop_slashes (l : list Ascii.ascii) : list Ascii.ascii :=
  match l with c :: rest => if decide (c = slash) then drop_slashes rest else l | [] => [] end.
Definition trim_end_slashes (s : string) : string := of_chars (rev (drop_slashes (rev (chars s)))).
Fixpoint trim_start_prefix (fuel : nat) (p s : string) : string :=
  match fuel with
  | O => s
  | S fuel => match strip_prefix p s with Some rest => trim_start_prefix fuel p rest | None => s end
  end.
Definition trim_start_matches (p s : string) : string := trim_start_prefix (String.length s) p s.

Definition EXCHANGE_PATH : string := "/tollgate/v1/exchange".
Definition endpoint (base_url : string) : string := trim_end_slashes base_url +:+ EXCHANGE_PATH.

(** What a POST brings back: no answer, or a status and the body. *)
Inductive posted : Set := PostFailed | Posted (status : Z) (body : option bytes).
Inductive exchange_error : Set := Posting (endpoint : string) | ErrorStatus | ReadingResponse | BadFraming.

(** [exchange], from the answer: the messages. *)
Definition exchange (base_url : string) (p : posted) : result (list bytes) exchange_error :=
  match p with
  | PostFailed => Err (Posting (endpoint base_url))
  | Posted status body =>
      if (400 <=? status) && (status <=? 599) then Err ErrorStatus
      else
        match body with
        | None => Err ReadingResponse
        | Some b =>
            match decode_frames b with
            | Some (Ok frames) => Ok frames
            | _ => Err BadFraming
            end
        end
  end.

(** The authority of a URL, with the port to resolve it with. *)
Definition authority (base_url : string) : string :=
  before "/" (trim_start_matches "https://" (trim_start_matches "http://" base_url)).
Definition with_port (authority : string) : string :=
  if contains ":" authority then authority else authority +:+ ":4747".
(** [resolve] gives the addresses of a host and port, or fails. *)
Definition resolve_host_ip (resolve : string -> option (list IpAddr)) (base_url : string) : option IpAddr :=
  resolve (with_port (authority base_url)) ≫= head.

(** ** Consuming *)

Section consume.
Context `{Minicbor, HexCodec}.

(** What one [run_consume] obtains from outside: the answer to the payment, the
    provider's address if it is to be metered, the first reading and the polls. *)
Record run_io : Set := mk_run {
  pay_reply : option (list bytes);
  upstream_ip : option IpAddr;
  first_raw : Z;
  polls : list Client.poll_io
}.

(** The events in order, and how the run ends; a run that is still going when the polls
    are used up ends with [Ok]. *)
Definition run_consume (opts : ConsumeOpts.t) (r : run_io) : list ConsumeEvent.t * result unit string :=
  match pay_reply r ≫= Client.pay with
  | None => ([], Err "payment failed"%string)
  | Some paid =>
      if negb (Paid.accepted paid) then
        ([], Err ("initial bootstrap rejected: " +:+ unwrap_or (Paid.reason paid) "unknown"))
      else
        let ip := if ConsumeOpts.meter_upstream opts then upstream_ip r else None in
        let '(s, st, ev) := Client.start opts paid (is_some ip) (first_raw r) in
        let evs := Client.consume_loop s st (polls r) in
        let asked := match ConsumeOpts.max_polls opts with
                     | Some max => Z.to_nat max | None => length (polls r) end in
        (ev :: evs,
         if (length evs <? length (polls r))%nat && (length evs <? asked)%nat
         then Err "poll failed"%string else Ok tt)
  end.

(** The lines [consume] prints for an event. *)
Definition consume_lines (topup_sat : Z) (ev : ConsumeEvent.t) : list string :=
  let flag (b : bool) : string := if b then "true" else "false" in
  if ConsumeEvent.poll ev =? 0 then
    ["CONSUME start peer=" +:+ ConsumeEvent.peer_pubkey ev +:+ " paid=" +:+
       to_string (ConsumeEvent.paid_scaled ev / PRICING_SCALE) +:+ " sat per_second=" +:+
       to_string (Price.per_second (ConsumeEvent.price ev)) +:+ " per_unit=" +:+
       to_string (Price.per_unit (ConsumeEvent.price ev))]
  else
    (match ConsumeEvent.report ev with
     | Some r =>
         "CONSUME poll=" +:+ to_string (ConsumeEvent.poll ev) +:+ " delivered=" +:+ to_string (rs_delivered r) +:+
           " elapsed_ms=" +:+ to_string (rs_elapsed_ms r) +:+ " remaining=" +:+
           to_string (ConsumeEvent.remaining_scaled ev)
     | None =>
         "CONSUME poll=" +:+ to_string (ConsumeEvent.poll ev) +:+ " (no report yet)" +:+
           (if ConsumeEvent.cut_off ev then " cut-off" else "")
     end) ::
    (if ConsumeEvent.topped_up ev
     then ["CONSUME topup amount=" +:+ to_string topup_sat +:+ " sat cut_off=" +:+ flag (ConsumeEvent.cut_off ev) +:+
             " paid_scaled=" +:+ to_string (ConsumeEvent.paid_scaled ev)]
     else []).
Definition consume (opts : ConsumeOpts.t) (r : run_io) : list string * result unit string :=
  let '(evs, outcome) := run_consume opts r in
  (mjoin (consume_lines (ConsumeOpts.topup_sat opts) <$> evs), outcome).

(** ** The tasks *)

Definition upstream_opts (u : UpstreamConfig.t) : ConsumeOpts.t :=
  ConsumeOpts.mk (UpstreamConfig.amount u) (UpstreamConfig.topup u) (Z.max (UpstreamConfig.interval_secs u) 1 * 1000)
    None 0 (UpstreamConfig.meter_iface u) (UpstreamConfig.meter_upstream u).

(** One round of an upstream's loop, then a pause of five seconds. *)
Definition upstream_round (u : UpstreamConfig.t) (r : run_io) : list op :=
  (Upstream (UpstreamConfig.peer u) <$> (run_consume (upstream_opts u) r).1) ++ [UpstreamOffline (UpstreamConfig.peer u)].
Definition upstream_task (u : UpstreamConfig.t) (rounds : list run_io) : list op :=
  mjoin (upstream_round u <$> rounds).
(** One task for every upstream with an address. *)
Definition spawn_upstreams (us : list UpstreamConfig.t) (rounds : nat -> list run_io) : list (list op) :=
  imap (fun i u => if bool_decide (UpstreamConfig.peer u = EmptyString) then [] else upstream_task u (rounds i)) us.

(** The first [n] rounds of the other loops; [now k] is the clock at the [k]th tick after
    the one that is skipped. *)
Definition reaper_task (idle_ms : Z) (now : nat -> Z) (n : nat) : list op :=
  (fun k => Reap (now k) idle_ms) <$> seq 0 n.
Definition metering_task (read : nat -> IpAddr -> Counters.t) (n : nat) : list op :=
  (fun k => MeteringPass (read k)) <$> seq 0 n.
Definition IDLE_MS : Z := 120 * 1000.

End consume.

(** The tasks and the requests run in any interleaving of their operations. *)
Inductive interleaved {A} : list (list A) -> list A -> Prop :=
| interleaved_done ts : Forall (fun t => t = []) ts -> interleaved ts []
| interleaved_step ts i x t os : ts !! i = Some (x :: t) -> interleaved (<[i := t]> ts) os -> interleaved ts (x :: os).

(** ** The routes *)

Inductive http_method : Set := GET | HEAD | POST | OtherMethod.
#[export] Instance http_method_eq_dec : EqDecision http_method.
Proof. solve_decision. Defined.

(** The handlers of [router], by the names of their functions; those of the V1 routes
    are [handlers.rs]'s. *)
Inductive handler : Set :=
| http_exchange_h | ws_upgrade_h | dashboard_h | api_status_h | api_config_h
| get_details_h | post_payment_h | usage_h | whoami_h | balance_h | get_ln_invoice_h | post_ln_invoice_h | log_beacon_h.
#[export] Instance handler_eq_dec : EqDecision handler.
Proof. solve_decision. Defined.

(** A path, and the handler of each method it is routed for. *)
Definition routes : Set := list (string * list (http_method * handler)).
Definition base_routes : routes :=
  [("/tollgate/v1/exchange", [(POST, http_exchange_h)]); ("/tollgate/v1/ws", [(GET, ws_upgrade_h)])]%string.
Definition web_ui_routes : routes :=
  [("/admin", [(GET, dashboard_h)]); ("/admin/api/status", [(GET, api_status_h)]);
   ("/admin/api/config", [(GET, api_config_h)])]%string.
Definition v1_routes : routes :=
  [("/", [(GET, get_details_h); (POST, post_payment_h)]); ("/pay", [(GET, get_details_h)]);
   ("/usage", [(GET, usage_h)]); ("/whoami", [(GET, whoami_h)]); ("/balance", [(GET, balance_h)]);
   ("/ln-invoice", [(GET, get_ln_invoice_h); (POST, post_ln_invoice_h)]); ("/log-beacon", [(POST, log_beacon_h)])]%string.
(** [Router::merge] panics when a path is routed twice. *)
Definition merge (a b : routes) : option routes :=
  if forallb (fun r => negb (bool_decide (r.1 ∈ a.*1))) b then Some (a ++ b) else None.
Definition router (v1_compat : bool) : option routes :=
  base ← merge base_routes web_ui_routes;
  if v1_compat then merge base v1_routes else Some base.

Inductive routed : Set := To (h : handler) | MethodNotAllowed | PathNotFound.
Definition assoc {K V} `{EqDecision K} (k : K) (l : list (K * V)) : option V :=
  snd <$> List.find (fun p => bool_decide (p.1 = k)) l.
(** [axum] answers a [HEAD] with the handler of [get], the body left out. *)
Definition served_as (m : http_method) : http_method := match m with HEAD => GET | _ => m end.
Definition route (rs : routes) (m : http_method) (path : string) : routed :=
  match assoc path rs with
  | None => PathNotFound
  | Some hs => match assoc (served_as m) hs with Some h => To h | None => MethodNotAllowed end
  end.

(** [http_exchange]'s answer: its status and body, or [None] for an answer of text. *)
Definition exchange_answer (r : option bytes) : posted :=
  match r with Some body => Posted 200 (Some body) | None => Posted 400 None end.
Definition ws_upgrade : Z * string := (501, "websocket transport not yet implemented"%string).

(** ** Lemmas: what an operation does to the upstreams *)

(** An upstream's entry without the time it was last heard from. *)
Definition sans_time (u : UpstreamState.t) : UpstreamState.t :=
  UpstreamState.mk (UpstreamState.pubkey u) (UpstreamState.url u) (UpstreamState.price u)
    (UpstreamState.remaining_scaled u) (UpstreamState.sent u) (UpstreamState.recv u) (UpstreamState.metered_secs u)
    (UpstreamState.drift u) (UpstreamState.online u) 0.

Definition offline (u : UpstreamState.t) : UpstreamState.t :=
  UpstreamState.mk (UpstreamState.pubkey u) (UpstreamState.url u) (UpstreamState.price u)
    (UpstreamState.remaining_scaled u) (UpstreamState.sent u) (UpstreamState.recv u) (UpstreamState.metered_secs u)
    (UpstreamState.drift u) false 0.

(** An entry after an event: the counts of the last report, seen from our side. *)
Definition observed (url : string) (old : option UpstreamState.t) (ev : ConsumeEvent.t) : UpstreamState.t :=
  let counts := match ConsumeEvent.report ev, old with
                | Some r, _ => (rs_received r, rs_delivered r, rs_elapsed_ms r / 1000)
                | None, Some u => (UpstreamState.sent u, UpstreamState.recv u, UpstreamState.metered_secs u)
                | None, None => (0, 0, 0)
                end in
  UpstreamState.mk (ConsumeEvent.peer_pubkey ev) (from_option UpstreamState.url url old) (ConsumeEvent.price ev)
    (ConsumeEvent.remaining_scaled ev) counts.1.1 counts.1.2 counts.2 (ConsumeEvent.drift ev)
    (negb (ConsumeEvent.cut_off ev)) 0.

(** What the operations make of one upstream's entry. *)
Definition entry_step (url : string) (e : option UpstreamState.t) (o : op) : option UpstreamState.t :=
  match o with
  | Upstream url' ev => if decide (url' = url) then Some (observed url e ev) else e
  | UpstreamOffline url' => if decide (url' = url) then offline <$> e else e
  | _ => e
  end.
Definition entry_after (url : string) (e : option UpstreamState.t) (os : list op) : option UpstreamState.t :=
  foldl (entry_step url) e os.

Section upstreams.
Context `{Minicbor, HexCodec, Cashu, UrlParser}.
Context (clock : nat -> Z) (mint : nat -> CheckState) (cfg : Driver.config).

Definition entry (url : string) (d : Driver.t) : option UpstreamState.t := sans_time <$> Driver.upstreams d !! url.

Lemma foldl_same {A B C} (f : A -> B -> A) (g : A -> C) l a :
  (forall a b, g (f a b) = g a) -> g (foldl f a l) = g a.
Proof. intros Hf. revert a. induction l as [|b l IH]; intros a; [done|]. cbn. by rewrite IH, Hf. Qed.

Lemma execute_upstreams d a : Driver.upstreams (Driver.execute d a) = Driver.upstreams d.
Proof.
  destruct a; try done. cbn. destruct (Driver.peer_ip d !! _); [|done].
  by destruct (AccessLevel.allows_delivery _).
Qed.

Lemma handle_upstreams e d : Driver.upstreams (Driver.handle clock e d).1 = Driver.upstreams d.
Proof. unfold Driver.handle, Driver.now_millis. by destruct (Session.handle _ _ _). Qed.

Lemma verify_upstreams tk d : Driver.upstreams (Driver.verify_token mint tk d).1 = Driver.upstreams d.
Proof. unfold Driver.verify_token. destruct (from_utf8 tk); [|done]. by destruct (BootstrapWallet.verify _ _ _) as [w [a|e]]. Qed.

Lemma dispatch_upstreams acts d : Driver.upstreams (Driver.dispatch clock mint acts d) = Driver.upstreams d.
Proof.
  unfold Driver.dispatch. apply (foldl_same _ Driver.upstreams). intros d' a.
  destruct a; try apply execute_upstreams. cbn [Driver.dispatch_one].
  rewrite <- (verify_upstreams token d'). destruct (Driver.verify_token mint token d') as [d1 [v n]]. cbn [fst].
  rewrite <- (handle_upstreams (Event.BootstrapVerified peer n v) d1). destruct (Driver.handle clock _ d1) as [d2 follow].
  apply (foldl_same _ Driver.upstreams), execute_upstreams.
Qed.

Lemma handled_upstreams e d :
  Driver.upstreams (let '(d, acts) := Driver.handle clock e d in Driver.dispatch clock mint acts d) = Driver.upstreams d.
Proof.
  rewrite <- (handle_upstreams e d). destruct (Driver.handle clock e d) as [d1 acts]. apply dispatch_upstreams.
Qed.

Lemma disconnected_upstreams hex d : Driver.upstreams (Driver.peer_disconnected clock mint hex d) = Driver.upstreams d.
Proof. by rewrite peer_disconnected_eq. Qed.

Lemma connected_upstreams hex ip d : Driver.upstreams (Driver.peer_connected clock mint cfg hex ip d).1 = Driver.upstreams d.
Proof.
  unfold Driver.peer_connected. set (d1 := match ip with Some ip => _ | None => d end).
  pose proof (handled_upstreams (Event.PeerConnected (Driver.parse_peer hex)) (Driver.touch clock hex d1)) as E.
  destruct (Driver.handle clock _ _) as [d2 acts]. cbn [fst]. destruct (bool_decide _); cbn; rewrite E; by destruct ip.
Qed.

Lemma frame_upstreams ip st f :
  Driver.upstreams (Driver.exchange_frame clock mint cfg ip st f).1 = Driver.upstreams st.1.
Proof.
  destruct st as [d ph]. unfold Driver.exchange_frame. cbn [fst].
  assert (Driver.upstreams (match ph with
    | Some hex => (Driver.message_received clock mint hex f d, ph) | None => (d, ph) end).1 = Driver.upstreams d) as Em.
  { destruct ph as [hex|]; [|done].
    exact (handled_upstreams (Event.MessageReceived (Driver.parse_peer hex) f) (Driver.touch clock hex d)). }
  destruct (peek_type f) as [[]|]; try done. destruct (Announce.decode f); [apply connected_upstreams|done].
Qed.

(** Each operation of the driver, on the entry of one upstream. *)
Lemma op_entry url d o : entry url (op_step clock mint cfg d o).1 = entry_step url (entry url d) o.
Proof.
  unfold entry. destruct o as [ip body|read|now idle|hex|url' ev|url']; cbn [op_step fst entry_step].
  - assert (Driver.upstreams (Driver.http_exchange clock mint cfg ip body d).1 = Driver.upstreams d) as E.
    { unfold Driver.http_exchange. destruct (decode_frames body) as [[frames|e]|]; try done.
      pose proof (foldl_same (Driver.exchange_frame clock mint cfg ip) (fun st => Driver.upstreams st.1) frames (d, None)
        (frame_upstreams ip)) as F. cbn in F.
      by destruct (foldl _ _ frames) as [d1 [hex|]]. }
    destruct (Driver.http_exchange _ _ _ _ _ _) as [d1 r]. cbn in E |- *. by rewrite E.
  - unfold Driver.metering_pass. rewrite (foldl_same _ Driver.upstreams); [done|]. intros d' [hex ip].
    apply (handled_upstreams (Event.MeterSample (Driver.parse_peer hex) (read ip))).
  - unfold Driver.reap_idle. rewrite (foldl_same _ Driver.upstreams); [done|]. intros d' hex.
    destruct (bool_decide _); [done|apply disconnected_upstreams].
  - by rewrite disconnected_upstreams.
  - unfold Driver.record_upstream, Driver.now_millis, observed. destruct (decide (url' = url)) as [->|Hne].
    + destruct (Driver.upstreams d !! url) as [u|]; destruct (ConsumeEvent.report ev) as [r|]; cbn;
        by rewrite lookup_insert_eq.
    + destruct (Driver.upstreams d !! url') as [u|]; destruct (ConsumeEvent.report ev) as [r|]; cbn;
        by rewrite lookup_insert_ne.
  - unfold Driver.mark_upstream_offline. destruct (decide (url' = url)) as [->|Hne].
    + destruct (Driver.upstreams d !! url) as [u|] eqn:E; cbn; [by rewrite lookup_insert_eq|by rewrite E].
    + destruct (Driver.upstreams d !! url') as [u|]; cbn; [by rewrite lookup_insert_ne|done].
Qed.

Lemma run_entry url os d : entry url (run (op_step clock mint cfg) d os).1 = entry_after url (entry url d) os.
Proof.
  revert d. induction os as [|o os IH]; intros d; [done|]. cbn [run entry_after foldl].
  pose proof (op_entry url d o) as E. destruct (op_step clock mint cfg d o) as [d1 out]. cbn [fst] in E.
  specialize (IH d1). destruct (run _ d1 os) as [d2 outs]. cbn [fst] in IH |- *. by rewrite IH, E.
Qed.
End upstreams.

(** ** Lemmas: interleaving *)

(** Operations of one task that leave [f] alone do not show between another's. *)
Lemma interleaved_own {A B} (f : B -> A -> B) (ts : list (list A)) os i t b :
  interleaved ts os -> ts !! i = Some t ->
  (forall j t', ts !! j = Some t' -> j <> i -> Forall (fun o => forall b, f b o = b) t') ->
  foldl f b os = foldl f b t.
Proof.
  intros Hi. revert t b. induction Hi as [ts Hd|ts j x t' os Hj _ IH]; intros t b Ht Ho.
  - rewrite Forall_forall in Hd. apply list_elem_of_lookup_2 in Ht. by rewrite (Hd _ Ht).
  - cbn [foldl]. destruct (decide (j = i)) as [->|Hne].
    + rewrite Hj in Ht. injection Ht as <-. cbn [foldl].
      apply IH; [apply list_lookup_insert_eq; by eapply lookup_lt_Some|].
      intros k u Hk Hki. rewrite list_lookup_insert_ne in Hk by done. by eapply Ho.
    + pose proof (Ho _ _ Hj Hne) as Hx. apply Forall_cons in Hx as [Hx Hx']. rewrite Hx.
      apply IH; [by rewrite list_lookup_insert_ne|]. intros k u Hk Hki.
      destruct (decide (k = j)) as [->|Hkj].
      * rewrite list_lookup_insert_eq in Hk by (by eapply lookup_lt_Some). injection Hk as <-. done.
      * rewrite list_lookup_insert_ne in Hk by done. by eapply Ho.
Qed.

Lemma other_task_ignored `{Minicbor, HexCodec} url u rounds :
  UpstreamConfig.peer u <> url ->
  Forall (fun o => forall e, entry_step url e o = e) (upstream_task u rounds).
Proof.
  intros Hne. unfold upstream_task. apply Forall_forall. intros o (l & Ho & Hl)%list_elem_of_join e.
  apply list_elem_of_fmap in Hl as (r & -> & _). unfold upstream_round in Ho.
  apply elem_of_app in Ho as [Ho|Ho].
  - apply list_elem_of_fmap in Ho as (ev & -> & _). cbn. by rewrite decide_False.
  - apply list_elem_of_singleton in Ho as ->. cbn. by rewrite decide_False.
Qed.

Lemma entry_offline `{Minicbor, HexCodec} u rounds e :
  (forall x, e = Some x -> UpstreamState.online x = false) ->
  forall x, entry_after (UpstreamConfig.peer u) e (upstream_task u rounds) = Some x -> UpstreamState.online x = false.
Proof.
  revert e. induction rounds as [|r rounds IH]; intros e He; [done|].
  unfold upstream_task, entry_after. cbn [fmap list_fmap mjoin list_join]. rewrite foldl_app. apply IH.
  unfold upstream_round. rewrite foldl_app. cbn. rewrite decide_True by done.
  intros x (y & _ & ->)%fmap_Some. done.
Qed.

(** ** Properties *)

(** C22: whatever is interleaved with it — the loops of other upstreams, the sweeps, the
    metering and the requests of peers — the entry of an upstream is what its own
    loop's events make of it, apart from the time it was last heard from; between two
    rounds it is offline, and before its first event it is absent. *)
Theorem upstream_tracks_its_loop `{Minicbor, HexCodec, Cusp : Cashu, UrlParser} clock mint cfg wallet
    us rounds others os i u :
  interleaved (spawn_upstreams us rounds ++ others) os ->
  us !! i = Some u -> UpstreamConfig.peer u <> EmptyString ->
  (forall j u', us !! j = Some u' -> j <> i -> UpstreamConfig.peer u' <> UpstreamConfig.peer u) ->
  Forall (Forall (fun o => match o with Upstream _ _ | UpstreamOffline _ => False | _ => True end)) others ->
  let url := UpstreamConfig.peer u in
  let d := (run (op_step clock mint cfg) (Driver.new cfg wallet) os).1 in
  entry url d = entry_after url None (upstream_task u (rounds i)) /\
  forall x, entry url d = Some x -> UpstreamState.online x = false.
Proof.
  intros Hi Hu Hne Hdist Hoth url d.
  assert (entry url d = entry_after url None (upstream_task u (rounds i))) as E.
  { unfold d. rewrite run_entry. unfold entry_after. eapply interleaved_own; [exact Hi| |].
    - apply lookup_app_l_Some. unfold spawn_upstreams. rewrite list_lookup_imap, Hu. cbn.
      by rewrite bool_decide_false.
    - intros j t' Hj Hji. apply lookup_app_Some in Hj as [Hj|[_ Hj]].
      + unfold spawn_upstreams in Hj. rewrite list_lookup_imap in Hj.
        destruct (us !! j) as [u'|] eqn:Eu; [|done]. cbn in Hj. injection Hj as <-.
        destruct (bool_decide _); [constructor|]. apply other_task_ignored. by eapply Hdist.
      + rewrite Forall_forall in Hoth. apply list_elem_of_lookup_2 in Hj. eapply Forall_impl; [by apply Hoth|].
        by intros []. }
  split; [exact E|]. intros x Hx. rewrite E in Hx. eapply entry_offline; [|exact Hx]. done.
Qed.

(** The client's exchange with this repository's server brings the messages that were
    queued for the announced peer and fit a frame, in order; without an announcement
    none, and an error for a request that is badly framed. *)
Theorem exchange_over_http `{Minicbor, HexCodec, Cashu, UrlParser} clock mint cfg base_url ip body d :
  exchange base_url (exchange_answer (Driver.http_exchange clock mint cfg ip body d).2) =
    match decode_frames body with
    | Some (Ok frames) =>
        let st := foldl (Driver.exchange_frame clock mint cfg ip) (d, None) frames in
        Ok (match st.2 with None => [] | Some hex => filter fits (queue_of hex st.1) end)
    | _ => Err ErrorStatus
    end.
Proof.
  unfold Driver.http_exchange. destruct (decode_frames body) as [[frames|e]|]; [|done..]. cbv zeta.
  destruct (foldl _ (d, None) frames) as [d1 [hex|]]; [|done]. cbn [fst snd Driver.drain_outbox].
  unfold exchange, exchange_answer. cbn [snd]. change ((400 <=? 200) && (200 <=? 599)) with false. cbn iota.
  by rewrite response_decodes.
Qed.

(** ** Concrete inputs *)

Lemma interleaved_rest {A} (ts : list (list A)) i t :
  ts !! i = Some t -> (forall j t', ts !! j = Some t' -> j <> i -> t' = []) -> interleaved ts t.
Proof.
  revert ts. induction t as [|x t IH]; intros ts Hi Ho.
  - constructor. apply Forall_forall. intros t' (j & Hj)%list_elem_of_lookup_1.
    destruct (decide (j = i)) as [->|Hne]; [congruence|by eapply Ho].
  - apply (interleaved_step ts i x t); [done|]. apply IH; [apply list_lookup_insert_eq; by eapply lookup_lt_Some|].
    intros j t' Hj Hne. rewrite list_lookup_insert_ne in Hj by done. by eapply Ho.
Qed.

Module TasksDemo.
Definition upstream : UpstreamConfig.t := UpstreamConfig.mk "http://p:4747" "http://m" 20 10 1 None false.
Definition run_ : run_io :=
  mk_run (Some [ConsumeDemo.announce; ConsumeDemo.ack]) None 0 [ConsumeDemo.io 5].
Definition tasks : list (list op) :=
  @spawn_upstreams Toy.toy ConsumeDemo.hex [upstream] (fun _ => [run_]) ++ [reaper_task IDLE_MS (fun _ => 0) 1].
Definition order : list op :=
  Reap 0 IDLE_MS :: @upstream_task Toy.toy ConsumeDemo.hex upstream [run_].

Lemma order_interleaved : interleaved tasks order.
Proof.
  apply (interleaved_step tasks 1 _ []); [reflexivity|]. apply (interleaved_rest _ 0); [reflexivity|].
  intros [|[|j]] t' Hj Hne; [done|by injection Hj as <-|done].
Qed.

(** The loop records the start and one poll, and leaves the upstream offline. *)
Example round_recorded : length order = 4%nat.
Proof. by vm_compute. Qed.

Example routes_of_a_node :
  match router true with
  | None => False
  | Some rs =>
      route rs POST "/tollgate/v1/exchange" = To http_exchange_h /\
      route rs GET "/tollgate/v1/exchange" = MethodNotAllowed /\
      route rs GET "/admin/api/config" = To api_config_h /\ route rs GET "/pay" = To get_details_h /\
      route rs HEAD "/pay" = To get_details_h /\ route rs HEAD "/log-beacon" = MethodNotAllowed /\
      route rs POST "/pay" = MethodNotAllowed /\ route rs GET "/admin/api/unknown" = PathNotFound
  end /\ match router false with Some rs => route rs GET "/usage" = PathNotFound | None => False end.
Proof. by vm_compute. Qed.

Example endpoints :
  endpoint "http://p:4747//" = "http://p:4747/tollgate/v1/exchange"%string /\
  with_port (authority "http://p/x") = "p:4747"%string /\ with_port (authority "https://p:1") = "p:1"%string.
Proof. by vm_compute. Qed.

(** An address in brackets without a port is taken to have one. *)
Example bracketed_address_without_port : with_port (authority "http://[::1]/") = "[::1]"%string.
Proof. by vm_compute. Qed.
End TasksDemo.

Lemma upstream_tracks_its_loop_witness :
  option_map UpstreamState.online
    (@entry TasksDemo.upstream.(UpstreamConfig.peer)
       (run (@op_step Toy.toy ConsumeDemo.hex WalletDemo.cashu WalletDemo.urls NodeDemo.clock NodeDemo.mint NodeDemo.cfg)
          (Driver.new NodeDemo.cfg WalletDemo.wallet) TasksDemo.order).1) = Some false.
Proof.
  pose proof (@upstream_tracks_its_loop Toy.toy ConsumeDemo.hex WalletDemo.cashu WalletDemo.urls NodeDemo.clock
    NodeDemo.mint NodeDemo.cfg WalletDemo.wallet [TasksDemo.upstream] (fun _ => [TasksDemo.run_])
    [reaper_task IDLE_MS (fun _ => 0) 1] TasksDemo.order 0 TasksDemo.upstream TasksDemo.order_interleaved eq_refl) as H.
  cbv zeta in H. destruct H as [E Hoff]; [done| |repeat constructor|].
  - intros [|j] u' Hj Hne; [done|by destruct j].
  - destruct (@entry _ _) as [x|] eqn:Ex; [|exfalso; by vm_compute in E].
    cbn. f_equal. by apply Hoff.
Defined.
