(* ===== verification/V1Nostr.v ===== *)
(** * Events of the V1 protocol

    Models [crates/tollgate-net/src/v1_compat/nostr.rs]: the Nostr events by which a
    V1 TollGate advertises its prices, grants a session and reports errors, and the
    accessors of the client. Signing, and the JSON form of an event, are the [nostr]
    crate's: a class with the two facts the program relies on. Numbers in tags are
    decimal text, [Decimal.v]. *)

From S2P Require Import Prelude Decimal.

(** ** Events *)

(** A tag is a list of strings, its name first. *)
Abbreviation Tag := (list string).
(** [Tag::custom(TagKind::Custom(name), values)]. *)
Definition tag_custom (name : string) (values : list string) : Tag := name :: values.

(** [nostr::Event] without its id and time. *)
Record Event : Set := mkEvent {
  ev_kind : Z;
  ev_tags : list Tag;
  ev_content : string;
  ev_pubkey : string;
  ev_sig : string
}.
#[export] Instance event_eq_dec : EqDecision Event.
Proof. solve_decision. Defined.

(** [EventBuilder::new(kind, content).tags(tags)]. *)
Record EventBuilder : Set := mkBuilder {
  eb_kind : Z;
  eb_content : string;
  eb_tags : list Tag
}.

Class Nostr : Type := {
  Keys : Type;
  sign_with_keys : Keys -> EventBuilder -> result Event string;
  as_json : Event -> string;
  event_from_json : string -> option Event
}.

(** A signed event says what its builder said; reading an event's JSON gives it back. *)
Class NostrLaws `{Nostr} : Prop := {
  signed_as_built k b e : sign_with_keys k b = Ok e ->
    ev_kind e = eb_kind b /\ ev_tags e = eb_tags b /\ ev_content e = eb_content b;
  event_json_roundtrip e : event_from_json (as_json e) = Some e
}.

Definition KIND_ADVERTISEMENT : Z := 10021.
Definition KIND_SESSION : Z := 1022.
Definition KIND_NOTICE : Z := 21023.
Definition KIND_PAYMENT : Z := 21000.

Inductive V1NostrError : Set :=
| WrongKind (expected got : Z)
| EventParse
| EventBuild (e : string).

(** [from_json] of each event type: the event, if of the expected kind. *)
Definition event_of_kind `{Nostr} (kind : Z) (json : string) : result Event V1NostrError :=
  match event_from_json json with
  | None => Err EventParse
  | Some event =>
      if decide (ev_kind event = kind) then Ok event else Err (WrongKind kind (ev_kind event))
  end.

(** [items.get(i)] of the first tag with a name. *)
Definition is_tag (name : string) (t : Tag) : bool := bool_decide (head t = Some name).
Fixpoint tag_item (name : string) (i : nat) (tags : list Tag) : option string :=
  match tags with
  | [] => None
  | t :: tags => if is_tag name t then t !! i else tag_item name i tags
  end.

(** A pricing option of an advertisement; [pricing.rs] has the same fields. *)
Module PricingOption.
Record t : Set := mk {
  asset_type : string;
  price_per_step : Z;
  unit : string;
  mint_url : string;
  min_steps : Z
}.
#[export] Instance t_eq_dec : EqDecision t.
Proof. solve_decision. Defined.
End PricingOption.

Module TollGateAdvertisement.
Definition from_json `{Nostr} : string -> result Event V1NostrError :=
  event_of_kind KIND_ADVERTISEMENT.

Definition metric (e : Event) : option string := tag_item "metric" 1 (ev_tags e).
Definition step_size (e : Event) : option Z := tag_item "step_size" 1 (ev_tags e) ≫= parse_u64.

(** One [price_per_step] tag; too short a tag is skipped, a bad number reads as 0. *)
Definition pricing_option (t : Tag) : option PricingOption.t :=
  if is_tag "price_per_step" t then
    match t with
    | _ :: asset :: price :: unit :: url :: rest =>
        Some (PricingOption.mk asset (unwrap_or (parse_u64 price) 0) unit url
          (unwrap_or (head rest ≫= parse_u64) 0))
    | _ => None
    end
  else None.
Definition pricing_options (e : Event) : list PricingOption.t := omap pricing_option (ev_tags e).

Definition tips (e : Event) : list Z :=
  filter (is_tag "tips") (ev_tags e) ≫= (fun t => omap parse_u32 (tail t)).
End TollGateAdvertisement.

Module SessionEvent.
Definition from_json `{Nostr} : string -> result Event V1NostrError :=
  event_of_kind KIND_SESSION.
Definition allotment (e : Event) : option Z := tag_item "allotment" 1 (ev_tags e) ≫= parse_u64.
Definition metric (e : Event) : option string := tag_item "metric" 1 (ev_tags e).
Definition device_identifier (e : Event) : option string :=
  tag_item "device-identifier" 2 (ev_tags e).
Definition start_time (e : Event) : option Z := tag_item "start-time" 1 (ev_tags e) ≫= parse_i64.
Definition customer_pubkey (e : Event) : option string := tag_item "p" 1 (ev_tags e).
End SessionEvent.

Module NoticeEvent.
Definition from_json `{Nostr} : string -> result Event V1NostrError :=
  event_of_kind KIND_NOTICE.
Definition level (e : Event) : option string := tag_item "level" 1 (ev_tags e).
Definition code (e : Event) : option string := tag_item "code" 1 (ev_tags e).
Definition message (e : Event) : string := ev_content e.
End NoticeEvent.

Definition build_payment_event `{Nostr} (keys : Keys) (tollgate_pubkey mac_address cashu_token : string)
    : result Event V1NostrError :=
  match sign_with_keys keys (mkBuilder KIND_PAYMENT EmptyString
    [tag_custom "p" [tollgate_pubkey];
     tag_custom "device-identifier" ["mac"%string; mac_address];
     tag_custom "payment" [cashu_token]]) with
  | Ok e => Ok e
  | Err e => Err (EventBuild e)
  end.

(** ** A concrete crate

    An instance of [Nostr] that satisfies the laws, for the witnesses: an event's text
    is the bits of its index among all events. It stands for no code of the program. *)

Module ToyNostr.
#[export] Instance event_countable : Countable Event.
Proof.
  refine (inj_countable'
    (fun e => (ev_kind e, ev_tags e, ev_content e, ev_pubkey e, ev_sig e))
    (fun '(k, ts, c, p, s) => mkEvent k ts c p s) _).
  by intros [].
Defined.

Fixpoint bits (p : positive) : string :=
  match p with
  | xH => EmptyString
  | xO p => String (Ascii.ascii_of_N 48) (bits p)
  | xI p => String (Ascii.ascii_of_N 49) (bits p)
  end.
Fixpoint unbits (s : string) : option positive :=
  match s with
  | EmptyString => Some xH
  | String c s =>
      p ← unbits s;
      if decide (c = Ascii.ascii_of_N 48) then Some (xO p)
      else if decide (c = Ascii.ascii_of_N 49) then Some (xI p) else None
  end.
Lemma event_bits_unbits p : unbits (bits p) = Some p.
Proof. induction p as [p IH|p IH|]; cbn; rewrite ?IH; done. Qed.

(** Keys are names; a signature is the name again. *)
Definition nostr : Nostr := {|
  Keys := string;
  sign_with_keys k b := Ok (mkEvent (eb_kind b) (eb_tags b) (eb_content b) k k);
  as_json e := bits (encode e);
  event_from_json s := unbits s ≫= decode
|}.

#[export] Instance nostr_laws : @NostrLaws nostr.
Proof.
  split.
  - by intros k b e [= <-].
  - intros e. cbn. rewrite event_bits_unbits. apply decode_encode.
Qed.
End ToyNostr.

(** ** Lemmas *)

Lemma tag_item_hit name i l tags : tag_item name i (tag_custom name l :: tags) = (name :: l) !! i.
Proof. unfold tag_custom. cbn [tag_item is_tag head]. unfold is_tag. by rewrite bool_decide_eq_true_2. Qed.

Lemma event_of_kind_built `{NostrLaws} k b e :
  sign_with_keys k b = Ok e -> event_of_kind (eb_kind b) (as_json e) = Ok e.
Proof.
  intros (Hk & _)%signed_as_built. unfold event_of_kind.
  by rewrite event_json_roundtrip, decide_True.
Qed.

Lemma event_of_other_kind `{NostrLaws} k b e kind :
  sign_with_keys k b = Ok e -> kind <> eb_kind b ->
  event_of_kind kind (as_json e) = Err (WrongKind kind (eb_kind b)).
Proof.
  intros (Hk & _)%signed_as_built Hne. unfold event_of_kind.
  rewrite event_json_roundtrip, Hk. by rewrite decide_False by congruence.
Qed.
