(* ===== verification/V1Merchant.v ===== *)
(** * The V1 merchant: mint health, allotments, advertisements

    Models [v1_compat/mint_health.rs], the builders and the allotment rule of
    [v1_compat/merchant.rs], and [build_v1_config] of [server.rs]. A probe's HTTP
    request is its outcome, a [bool]. The store trait of [merchant.rs] has no
    implementation in the repository and is not modelled. *)

From S2P Require Import Prelude Decimal Config V1Nostr.

(** ** Mint health *)

Module AcceptedMint.
Record t : Set := mk {
  url : string;
  price_per_step : Z;
  unit : string;
  min_steps : Z
}.
#[export] Instance t_eq_dec : EqDecision t.
Proof. solve_decision. Defined.
Definition wf (m : t) : Prop := is_u64 (price_per_step m) /\ is_u64 (min_steps m).
End AcceptedMint.

Definition DEFAULT_RECOVERY_THRESHOLD : Z := 3.

Module MintHealthTracker.
Record t : Set := mk {
  reachable : gmap string bool;
  consecutive_successes : gmap string Z;
  recovery_threshold : Z
}.

Definition new (mint_urls : list string) : t :=
  mk (list_to_map ((fun u => (u, true)) <$> mint_urls))
    (list_to_map ((fun u => (u, 0)) <$> mint_urls)) DEFAULT_RECOVERY_THRESHOLD.

Definition set_reachable (url : string) (b : bool) (h : t) : t :=
  mk (<[url := b]> (reachable h)) (consecutive_successes h) (recovery_threshold h).
Definition set_successes (url : string) (n : Z) (h : t) : t :=
  mk (reachable h) (<[url := n]> (consecutive_successes h)) (recovery_threshold h).

Definition mark_unreachable (mint_url : string) (h : t) : t :=
  set_successes mint_url 0 (set_reachable mint_url false h).

Definition is_reachable (mint_url : string) (h : t) : bool :=
  unwrap_or (reachable h !! mint_url) false.

(** [*count += 1] is on a [u8]. *)
Definition mark_reachable (mint_url : string) (h : t) : t :=
  if is_reachable mint_url h then h
  else
    let count := wrap_u 8 (unwrap_or (consecutive_successes h !! mint_url) 0 + 1) in
    let h := set_successes mint_url count h in
    if recovery_threshold h <=? count then set_successes mint_url 0 (set_reachable mint_url true h)
    else h.

(** What a probe's outcome does. *)
Definition record_probe (h : t) (probe : string * bool) : t :=
  let '(url, up) := probe in
  if up then mark_reachable url h else mark_unreachable url h.

(** One round, [run_initial_probe] or a turn of [start_proactive_checks]: every known
    mint once, in the map's order. *)
Definition probe_round (up : string -> bool) (h : t) : t :=
  foldl (fun h url => record_probe h (url, up url)) h (map_to_list (reachable h)).*1.

(** [start_proactive_checks]: a round after each interval, with what the mints answer then. *)
Definition proactive_checks (rounds : list (string -> bool)) (h : t) : t :=
  foldl (fun h up => probe_round up h) h rounds.

Definition get_reachable_mints (all_mints : list AcceptedMint.t) (h : t) : list AcceptedMint.t :=
  filter (fun m => is_reachable (AcceptedMint.url m) h = true) all_mints.

Definition all_unreachable (h : t) : bool :=
  bool_decide (reachable h = ∅) || negb (existsb (fun p => p.2) (map_to_list (reachable h))).
End MintHealthTracker.

(** ** The server's configuration *)

Module V1ServerConfig.
Section config.
Context `{Nostr}.
Record t : Type := mk {
  metric : string;
  step_size : Z;
  accepted_mints : list AcceptedMint.t;
  nostr_keys : Keys;
  trust_proxy_headers : bool;
  mint_health : option MintHealthTracker.t
}.
Definition set_mint_health (h : MintHealthTracker.t) (c : t) : t :=
  mk (metric c) (step_size c) (accepted_mints c) (nostr_keys c) (trust_proxy_headers c) (Some h).
Definition wf (c : t) : Prop :=
  is_u64 (step_size c) /\ Forall AcceptedMint.wf (accepted_mints c).
End config.
End V1ServerConfig.

Section build.
Context `{Nostr}.

Definition LOCAL_MINT : string := "http://localhost:3338".
Definition or_default (s d : string) : string := if decide (s = EmptyString) then d else s.
Definition or_one (z : Z) : Z := if z =? 0 then 1 else z.

Definition accepted_mint (m : V1AcceptedMint.t) : AcceptedMint.t :=
  AcceptedMint.mk (or_default (V1AcceptedMint.url m) LOCAL_MINT)
    (or_one (V1AcceptedMint.price_per_step m)) (or_default (V1AcceptedMint.unit m) "sat")
    (or_one (V1AcceptedMint.min_steps m)).

(** The configuration the server starts with; the tracker's probes follow. *)
Definition build_v1_config (v1 : V1CompatConfig.t) (keys : Keys) : V1ServerConfig.t :=
  let accepted_mints :=
    if decide (V1CompatConfig.accepted_mints v1 = []) then [AcceptedMint.mk LOCAL_MINT 1 "sat" 1]
    else accepted_mint <$> V1CompatConfig.accepted_mints v1 in
  V1ServerConfig.mk (or_default (V1CompatConfig.metric v1) "milliseconds")
    (if V1CompatConfig.step_size v1 =? 0 then 60000 else V1CompatConfig.step_size v1)
    accepted_mints keys (V1CompatConfig.trust_proxy_headers v1)
    (if decide (accepted_mints = []) then None
     else Some (MintHealthTracker.new (AcceptedMint.url <$> accepted_mints))).

(** ** Allotments *)

Inductive AllotmentError : Set :=
| UnknownMint (url : string)
| InsufficientSteps (steps min_steps : Z).

Definition find_mint (mint_url : string) : list AcceptedMint.t -> option AcceptedMint.t :=
  find (fun m => bool_decide (AcceptedMint.url m = mint_url)).

Definition calculate_allotment (amount_sats : Z) (mint_url : string) (config : V1ServerConfig.t)
    : result Z AllotmentError :=
  match find_mint mint_url (V1ServerConfig.accepted_mints config) with
  | None => Err (UnknownMint mint_url)
  | Some mint =>
      if AcceptedMint.price_per_step mint =? 0 then Ok (V1ServerConfig.step_size config)
      else
        let steps := amount_sats / AcceptedMint.price_per_step mint in
        if steps <? AcceptedMint.min_steps mint then
          Err (InsufficientSteps steps (AcceptedMint.min_steps mint))
        else Ok (wrap_u64 (steps * V1ServerConfig.step_size config))
  end.

(** ** Events *)

Definition price_tag (mint : AcceptedMint.t) : Tag :=
  tag_custom "price_per_step"
    ["cashu"%string; to_string (AcceptedMint.price_per_step mint); AcceptedMint.unit mint;
     AcceptedMint.url mint; to_string (AcceptedMint.min_steps mint)].

Definition head_tags (config : V1ServerConfig.t) : list Tag :=
  [tag_custom "metric" [V1ServerConfig.metric config];
   tag_custom "step_size" [to_string (V1ServerConfig.step_size config)]].

Definition DEGRADED_MESSAGE : string :=
  "TollGate is in degraded mode. No reachable mints detected.".

Definition signed (config : V1ServerConfig.t) (b : EventBuilder) : result string string :=
  match sign_with_keys (V1ServerConfig.nostr_keys config) b with
  | Ok event => Ok (as_json event)
  | Err e => Err e
  end.

Definition degraded_event (config : V1ServerConfig.t) : EventBuilder :=
  mkBuilder KIND_ADVERTISEMENT DEGRADED_MESSAGE
    (head_tags config ++ [tag_custom "level" ["warning"%string];
                          tag_custom "code" ["no-reachable-mints"%string]]).
Definition build_degraded_advertisement (config : V1ServerConfig.t) : result string string :=
  signed config (degraded_event config).

Definition reachable_mints (config : V1ServerConfig.t) : list AcceptedMint.t :=
  match V1ServerConfig.mint_health config with
  | Some tracker => MintHealthTracker.get_reachable_mints (V1ServerConfig.accepted_mints config) tracker
  | None => V1ServerConfig.accepted_mints config
  end.

Definition advertisement_event (config : V1ServerConfig.t) (mints : list AcceptedMint.t) : EventBuilder :=
  mkBuilder KIND_ADVERTISEMENT EmptyString
    (head_tags config ++ (price_tag <$> mints)
     ++ [tag_custom "tips" ["1"%string; "2"%string; "3"%string; "4"%string];
         tag_custom "step" [to_string (V1ServerConfig.step_size config)]]).
Definition build_advertisement (config : V1ServerConfig.t) : result string string :=
  if decide (reachable_mints config = []) then build_degraded_advertisement config
  else signed config (advertisement_event config (reachable_mints config)).
End build.

Module CustomerSession.
Record t : Set := mk {
  mac_address : string;
  start_time : Z;
  metric : string;
  allotment : Z
}.
End CustomerSession.

(** A store of sessions by MAC address. *)
Class SessionStore (S : Type) : Type := {
  session_get : string -> S -> result (option CustomerSession.t) string;
  session_insert : CustomerSession.t -> S -> S * result unit string;
  session_update : string -> CustomerSession.t -> S -> S * result unit string
}.
Definition extended (now allotment : Z) (s : CustomerSession.t) : CustomerSession.t :=
  CustomerSession.mk (CustomerSession.mac_address s) now (CustomerSession.metric s)
    (wrap_u64 (CustomerSession.allotment s + allotment)).
Definition add_allotment `{SessionStore D} (now : Z) (mac metric : string) (allotment : Z) (sessions : D)
    : D * result CustomerSession.t string :=
  match session_get mac sessions with
  | Err e => (sessions, Err e)
  | Ok existing =>
      let '(session, (sessions, stored)) :=
        match existing with
        | Some s => let s := extended now allotment s in (s, session_update mac s sessions)
        | None => let s := CustomerSession.mk mac now metric allotment in (s, session_insert s sessions)
        end in
      (sessions, match stored with Ok _ => Ok session | Err e => Err e end)
  end.

Section events.
Context `{Nostr}.

Definition session_event (session : CustomerSession.t) (customer_identifier : string)
    (amount_sat : Z) (token_type : string) : EventBuilder :=
  mkBuilder KIND_SESSION EmptyString
    ([tag_custom "p" [customer_identifier];
      tag_custom "allotment" [to_string (CustomerSession.allotment session)];
      tag_custom "metric" [CustomerSession.metric session];
      tag_custom "device-identifier" ["mac"%string; CustomerSession.mac_address session];
      tag_custom "start-time" [to_string (CustomerSession.start_time session)];
      tag_custom "amount_sat" [to_string amount_sat];
      tag_custom "token_type" [token_type]]
     ++ match checked_div (CustomerSession.allotment session / 1000) amount_sat with
        | Some effective_rate => [tag_custom "effective_rate" [to_string effective_rate]]
        | None => []
        end).
Definition build_session_event (session : CustomerSession.t) (config : V1ServerConfig.t)
    (customer_identifier : string) (amount_sat : Z) (token_type : string) : result string string :=
  signed config (session_event session customer_identifier amount_sat token_type).

Definition notice_event (level code message : string) (customer_identifier : option string)
    : EventBuilder :=
  mkBuilder KIND_NOTICE message
    ([tag_custom "level" [level]; tag_custom "code" [code]]
     ++ match customer_identifier with
        | Some id => if decide (id = EmptyString) then [] else [tag_custom "p" [id]]
        | None => []
        end).
Definition build_notice_event (level code message : string) (customer_identifier : option string)
    (config : V1ServerConfig.t) : result string string :=
  signed config (notice_event level code message customer_identifier).
End events.

(** ** What a mint's probes say of it *)

(** The outcomes for one mint, oldest first. *)
Definition outcomes (url : string) (history : list (string * bool)) : list bool :=
  (filter (fun p => p.1 = url) history).*2.

Fixpoint leading_successes (l : list bool) : Z :=
  match l with true :: l => 1 + leading_successes l | _ => 0 end.
(** The successes since the last failure. *)
Definition trailing (os : list bool) : Z := leading_successes (rev os).

(** A configured mint counts as up until it fails; any mint counts as up from its
    third success in a row until it fails. *)
Definition healthy (configured : bool) (os : list bool) : bool :=
  (configured && forallb id os) || (DEFAULT_RECOVERY_THRESHOLD <=? trailing os).

(** The tracker after the probes of [history]. *)
Definition probed (urls : list string) (history : list (string * bool)) : MintHealthTracker.t :=
  foldl MintHealthTracker.record_probe (MintHealthTracker.new urls) history.

(** The option a client should read for a mint. *)
Definition option_of (m : AcceptedMint.t) : PricingOption.t :=
  PricingOption.mk "cashu" (AcceptedMint.price_per_step m) (AcceptedMint.unit m)
    (AcceptedMint.url m) (AcceptedMint.min_steps m).

(** ** Lemmas *)

Lemma leading_successes_nonneg l : 0 <= leading_successes l.
Proof. induction l as [|[] l IH]; cbn [leading_successes]; lia. Qed.

Lemma trailing_snoc os b : trailing (os ++ [b]) = if b then 1 + trailing os else 0.
Proof. unfold trailing. rewrite rev_app_distr. by destruct b. Qed.

Lemma outcomes_snoc url history u b :
  outcomes url (history ++ [(u, b)]) =
    outcomes url history ++ (if decide (u = url) then [b] else []).
Proof.
  unfold outcomes. rewrite filter_app, fmap_app. f_equal. rewrite filter_cons. cbn.
  by destruct (decide (u = url)).
Qed.

Lemma healthy_snoc configured os b :
  healthy configured (os ++ [b]) =
    b && (healthy configured os || (DEFAULT_RECOVERY_THRESHOLD <=? 1 + trailing os)).
Proof.
  unfold healthy. rewrite forallb_app, trailing_snoc.
  pose proof (leading_successes_nonneg (rev os)) as Hn. fold (trailing os) in Hn.
  unfold DEFAULT_RECOVERY_THRESHOLD.
  destruct b; cbn; rewrite ?andb_true_r, ?andb_false_r; [|done].
  destruct (configured && _); [done|]. cbn.
  destruct (3 <=? trailing os) eqn:E; [|done]. apply Z.leb_le in E.
  cbn. by apply Z.leb_le; lia.
Qed.

Lemma new_reachable urls url :
  MintHealthTracker.is_reachable url (MintHealthTracker.new urls) = bool_decide (url ∈ urls).
Proof.
  unfold MintHealthTracker.is_reachable, MintHealthTracker.new. cbn.
  induction urls as [|u urls IH]; [done|]. cbn [fmap list_fmap list_to_map foldr].
  cbn. destruct (decide (u = url)) as [->|Hn].
  - rewrite lookup_insert_eq. cbn. symmetry. apply bool_decide_eq_true. set_solver.
  - rewrite lookup_insert_ne by done. etransitivity; [exact IH|].
    apply bool_decide_ext. set_solver.
Qed.

Lemma new_successes urls url :
  unwrap_or (MintHealthTracker.consecutive_successes (MintHealthTracker.new urls) !! url) 0 = 0.
Proof.
  cbn. induction urls as [|u urls IH]; [done|]. cbn.
  destruct (decide (u = url)) as [->|Hn].
  - by rewrite lookup_insert_eq.
  - by rewrite lookup_insert_ne.
Qed.

Section tracker.
Import MintHealthTracker.

(** One mint's entry follows its own outcomes [os]. *)
Definition tracks (configured : bool) (url : string) (os : list bool) (h : t) : Prop :=
  recovery_threshold h = DEFAULT_RECOVERY_THRESHOLD /\
  is_reachable url h = healthy configured os /\
  (is_reachable url h = false -> unwrap_or (consecutive_successes h !! url) 0 = trailing os).

Lemma reachable_set url u b n h :
  is_reachable url (set_successes u n (set_reachable u b h)) =
    if decide (u = url) then b else is_reachable url h.
Proof.
  unfold is_reachable. cbn. case_decide as Hd; [subst; by rewrite lookup_insert_eq|].
  by rewrite lookup_insert_ne.
Qed.

Lemma tracks_other configured url os h u b :
  u <> url -> tracks configured url os h -> tracks configured url os (record_probe h (u, b)).
Proof.
  intros Hu (Ht & Hr & Hs). unfold tracks, record_probe, mark_reachable, mark_unreachable.
  destruct b; [destruct (is_reachable u h); [done|]; cbv zeta; case_match|];
    unfold is_reachable in *; cbn in *;
    rewrite ?lookup_insert_ne by done; done.
Qed.

Lemma tracks_down configured url os h :
  tracks configured url os h -> tracks configured url (os ++ [false]) (record_probe h (url, false)).
Proof.
  intros (Ht & _ & _). unfold tracks, record_probe, mark_unreachable.
  rewrite reachable_set, decide_True, healthy_snoc, trailing_snoc by done. cbn.
  by rewrite lookup_insert_eq.
Qed.

Lemma tracks_up configured url os h :
  tracks configured url os h -> tracks configured url (os ++ [true]) (record_probe h (url, true)).
Proof.
  intros (Ht & Hr & Hs). unfold tracks, record_probe, mark_reachable. cbv zeta.
  rewrite healthy_snoc, trailing_snoc.
  destruct (is_reachable url h) eqn:E; [by rewrite <- Hr, E|].
  rewrite Hs, <- Hr by done. cbn [orb andb].
  assert (0 <= trailing os < 3) as Hb.
  { split; [apply leading_successes_nonneg|]. unfold healthy in Hr. symmetry in Hr.
    apply orb_false_iff in Hr as [_ Hr%Z.leb_gt]. exact Hr. }
  rewrite (wrap_u_id 8) by (change (2 ^ 8) with 256; lia).
  cbn [recovery_threshold set_successes]. rewrite Ht, (Z.add_comm 1).
  destruct (_ <=? _) eqn:Et.
  - split; [done|]. by rewrite reachable_set, decide_True.
  - cbn. by rewrite lookup_insert_eq.
Qed.

Lemma tracks_history urls history url :
  tracks (bool_decide (url ∈ urls)) url (outcomes url history) (probed urls history).
Proof.
  unfold probed. induction history as [|[u b] history IH] using rev_ind.
  - split_and!; [done| |].
    + cbn [foldl]. rewrite new_reachable. unfold healthy. cbn. by rewrite andb_true_r, orb_false_r.
    + intros _. apply new_successes.
  - rewrite foldl_snoc, outcomes_snoc. destruct (decide (u = url)) as [->|Hn].
    + destruct b; [by apply tracks_up|by apply tracks_down].
    + rewrite app_nil_r. by apply tracks_other.
Qed.
End tracker.

Lemma filter_ext_in {A} (P Q : A -> bool) (l : list A) :
  (forall x, x ∈ l -> P x = Q x) -> filter (fun x => P x = true) l = filter (fun x => Q x = true) l.
Proof.
  induction l as [|x l IH]; intros Hx; [done|]. rewrite !filter_cons, Hx by set_solver.
  rewrite IH; [done|]. intros y Hy. apply Hx. set_solver.
Qed.

Section adverts.
Context `{NostrLaws}.

Lemma probed_reachable urls history url :
  url ∈ urls ->
  MintHealthTracker.is_reachable url (probed urls history) = healthy true (outcomes url history).
Proof.
  intros Hu. destruct (tracks_history urls history url) as (_ & -> & _).
  by rewrite bool_decide_eq_true_2.
Qed.

Lemma get_reachable_probed history (mints : list AcceptedMint.t) :
  MintHealthTracker.get_reachable_mints mints (probed (AcceptedMint.url <$> mints) history) =
    filter (fun m => healthy true (outcomes (AcceptedMint.url m) history) = true) mints.
Proof.
  apply (filter_ext_in (fun m => MintHealthTracker.is_reachable _ _)). intros m Hm. rewrite probed_reachable; [done|].
  by apply list_elem_of_fmap_2.
Qed.

Lemma price_option m : AcceptedMint.wf m ->
  TollGateAdvertisement.pricing_option (price_tag m) = Some (option_of m).
Proof.
  intros [Hp Hs]. unfold TollGateAdvertisement.pricing_option, price_tag, tag_custom.
  cbn [is_tag]. unfold is_tag. rewrite bool_decide_eq_true_2 by done. cbn [head].
  cbn [mbind option_bind]. rewrite !parse_u64_to_string by done. done.
Qed.

Lemma price_options mints : Forall AcceptedMint.wf mints ->
  omap TollGateAdvertisement.pricing_option (price_tag <$> mints) = option_of <$> mints.
Proof.
  induction 1 as [|m ms Hm _ IH]; [done|]. cbn [fmap list_fmap omap list_omap].
  by rewrite price_option, IH.
Qed.

Lemma no_code_in_prices mints tags :
  tag_item "code" 1 ((price_tag <$> mints) ++ tags) = tag_item "code" 1 tags.
Proof. by induction mints. Qed.

Lemma signed_read kind config b json :
  signed config b = Ok json -> eb_kind b = kind ->
  exists e, event_of_kind kind json = Ok e /\ ev_tags e = eb_tags b /\ ev_content e = eb_content b.
Proof.
  unfold signed. destruct (sign_with_keys _ b) as [e|] eqn:E; [|done]. intros [= <-] <-.
  exists e. rewrite (event_of_kind_built _ _ _ E). by destruct (signed_as_built _ _ _ E) as (_ & -> & ->).
Qed.
End adverts.

Lemma advertisement_read `{NostrLaws} config json :
  V1ServerConfig.wf config -> build_advertisement config = Ok json ->
  exists ad, TollGateAdvertisement.from_json json = Ok ad /\
    TollGateAdvertisement.metric ad = Some (V1ServerConfig.metric config) /\
    TollGateAdvertisement.step_size ad = Some (V1ServerConfig.step_size config) /\
    TollGateAdvertisement.pricing_options ad = option_of <$> reachable_mints config /\
    (tag_item "code" 1 (ev_tags ad) = Some "no-reachable-mints"%string <-> reachable_mints config = []).
Proof.
  intros [Hstep Hm] Had. unfold build_advertisement in Had.
  assert (Forall AcceptedMint.wf (reachable_mints config)) as Hup.
  { unfold reachable_mints. destruct (V1ServerConfig.mint_health config); [|done]. apply Forall_forall.
    intros m [_ Hin]%list_elem_of_filter. exact (proj1 (Forall_forall _ _) Hm m Hin). }
  revert Had Hup. generalize (reachable_mints config) as up. intros up Had Hup.
  case_decide as Hup0; eapply signed_read in Had as (ad & Hj & Ht & _); try done;
    exists ad; (split; [exact Hj|]);
    unfold TollGateAdvertisement.metric, TollGateAdvertisement.step_size,
      TollGateAdvertisement.pricing_options; rewrite Ht.
  - subst up. split_and!; try done. exact (parse_u64_to_string _ Hstep).
  - split_and!; [done|exact (parse_u64_to_string _ Hstep)| |].
    + cbn [eb_tags advertisement_event]. rewrite !omap_app, price_options by done.
      apply app_nil_r.
    + cbn [eb_tags advertisement_event]. cbn [head_tags app tag_item].
      change (is_tag "code" _) with false. cbn iota.
      rewrite no_code_in_prices. by split.
Qed.

(** ** Concrete inputs *)

Module MerchantDemo.
Definition mints : list AcceptedMint.t :=
  [AcceptedMint.mk "https://a" 21 "sat" 2; AcceptedMint.mk "https://b" 7 "sat" 1].
Definition config : @V1ServerConfig.t ToyNostr.nostr :=
  @V1ServerConfig.mk ToyNostr.nostr "milliseconds" 60000 mints "node" false None.
(** Mint [a] fails and recovers twice only; mint [b] is up throughout. *)
Definition history : list (string * bool) :=
  [("https://a", false); ("https://b", true); ("https://a", true); ("https://a", true)]%string.
Definition advertised : string :=
  match @build_advertisement ToyNostr.nostr (V1ServerConfig.set_mint_health
    (probed (AcceptedMint.url <$> mints) history) config) with Ok s => s | Err s => s end.
End MerchantDemo.

(** A store that keeps what it is given, and nothing under another address changes. *)
Class SessionStoreLaws {S : Type} (store : SessionStore S) : Prop := {
  inserted s m m' : session_insert s m = (m', Ok tt) ->
    session_get (CustomerSession.mac_address s) m' = Ok (Some s) /\
    forall mac, mac <> CustomerSession.mac_address s -> session_get mac m' = session_get mac m;
  updated mac s m m' : session_update mac s m = (m', Ok tt) ->
    session_get mac m' = Ok (Some s) /\ forall mac', mac' <> mac -> session_get mac' m' = session_get mac' m
}.
#[export] Instance map_store : SessionStore (gmap string CustomerSession.t) := {|
  session_get mac m := Ok (m !! mac);
  session_insert s m := (<[CustomerSession.mac_address s := s]> m, Ok tt);
  session_update mac s m := (<[mac := s]> m, Ok tt)
|}.
#[export] Instance map_store_laws : SessionStoreLaws map_store.
Proof.
  split.
  - intros s m m' [= <-]. cbn. split; [by rewrite lookup_insert_eq|]. intros mac Hm. by rewrite lookup_insert_ne.
  - intros mac s m m' [= <-]. cbn. split; [by rewrite lookup_insert_eq|]. intros mac' Hm. by rewrite lookup_insert_ne.
Qed.

(** ** Properties *)

(** A client reads from the advertisement what the mints' probes say. After any
    sequence of probes of the configured mints, in any order, the published event
    parses, and gives the node's metric, its step size and, for exactly the mints that
    are healthy, in configuration order, their unit, price and minimum as configured;
    a mint is healthy if it never failed or succeeded three times running since. When
    no mint is healthy, and only then, the event carries the code of degraded mode. *)
Theorem advertisement_follows_probes `{NostrLaws} config history json :
  V1ServerConfig.wf config ->
  let mints := V1ServerConfig.accepted_mints config in
  let up := filter (fun m => healthy true (outcomes (AcceptedMint.url m) history) = true) mints in
  build_advertisement (V1ServerConfig.set_mint_health
    (probed (AcceptedMint.url <$> mints) history) config) = Ok json ->
  exists ad, TollGateAdvertisement.from_json json = Ok ad /\
    TollGateAdvertisement.metric ad = Some (V1ServerConfig.metric config) /\
    TollGateAdvertisement.step_size ad = Some (V1ServerConfig.step_size config) /\
    TollGateAdvertisement.pricing_options ad = option_of <$> up /\
    (tag_item "code" 1 (ev_tags ad) = Some "no-reachable-mints"%string <-> up = []).
Proof.
  intros Hwf mints up Had. set (config' := V1ServerConfig.set_mint_health _ _) in Had.
  assert (reachable_mints config' = up) as <- by apply get_reachable_probed.
  exact (advertisement_read config' json Hwf Had).
Qed.

Lemma advertisement_follows_probes_witness :
  exists ad, @TollGateAdvertisement.from_json ToyNostr.nostr MerchantDemo.advertised = Ok ad /\
    TollGateAdvertisement.pricing_options ad = [PricingOption.mk "cashu" 7 "sat" "https://b" 1].
Proof.
  destruct (@advertisement_follows_probes ToyNostr.nostr ToyNostr.nostr_laws MerchantDemo.config
    MerchantDemo.history MerchantDemo.advertised) as (ad & Hj & _ & _ & Ho & _).
  - split; [by vm_compute|]. by repeat constructor.
  - reflexivity.
  - exists ad. split; [exact Hj|exact Ho].
Defined.

(** Allotments add up. A call that succeeds returns the session it has stored: a new one
    with the allotment and the metric given, or the one that was there with the sum of
    both allotments, its metric kept and its start now. No other customer's changes. *)
Theorem allotment_added {D} `{store : SessionStore D, !SessionStoreLaws store} now mac metric allotment (m m' : D) s :
  add_allotment now mac metric allotment m = (m', Ok s) ->
  session_get mac m' = Ok (Some s) /\
  (forall mac', mac' <> mac -> session_get mac' m' = session_get mac' m) /\
  exists before, session_get mac m = Ok before /\ CustomerSession.start_time s = now /\
    match before with
    | Some b => CustomerSession.metric s = CustomerSession.metric b /\
        CustomerSession.allotment s = wrap_u64 (CustomerSession.allotment b + allotment)
    | None => CustomerSession.metric s = metric /\ CustomerSession.allotment s = allotment
    end.
Proof.
  unfold add_allotment. destruct (session_get mac m) as [[b|]|e] eqn:E; [| |done].
  - destruct (session_update mac (extended now allotment b) m) as [m1 [[]|e]] eqn:Eu; intros [= -> <-].
    apply updated in Eu as [Hg Ho]. split; [done|]. split; [done|]. by exists (Some b).
  - destruct (session_insert _ m) as [m1 [[]|e]] eqn:Ei; intros [= -> <-].
    apply inserted in Ei as [Hg Ho]. split; [done|]. split; [done|]. by exists None.
Qed.

Lemma allotment_added_witness :
  let '(m', r) := add_allotment 5 "aa" "bytes" 7 ({["aa" := CustomerSession.mk "aa" 1 "bytes" 10]} : gmap string CustomerSession.t) in
  r = Ok (CustomerSession.mk "aa" 5 "bytes" 17) /\ session_get "aa" m' = Ok (Some (CustomerSession.mk "aa" 5 "bytes" 17)).
Proof.
  destruct (add_allotment 5 "aa" "bytes" 7 ({["aa" := CustomerSession.mk "aa" 1 "bytes" 10]} : gmap string CustomerSession.t))
    as [m' r] eqn:E.
  assert (r = Ok (CustomerSession.mk "aa" 5 "bytes" 17)) as -> by (change r with (m', r).2; rewrite <- E; by vm_compute).
  split; [done|]. exact (proj1 (allotment_added 5 "aa" "bytes" 7 _ m' _ E)).
Defined.
