(* ===== verification/V1Client.v ===== *)
(** * The V1 client

    Models the buying side of the V1 protocol: price selection and budgets of
    [v1_compat/pricing.rs], the responses of [http_client.rs], and the client of
    [client.rs]. The answers of the network and of the CDK wallet during one call are
    a record, [Upstream.t]; what the call does outside is a list of effects. *)

From S2P Require Import Prelude F64 Wallet Json Decimal Shell Text V1Nostr V1Merchant.

(** ** Selecting a price *)

Inductive PricingError : Set :=
| NoCompatibleMint
| PriceTooHigh (price_per_unit : f64) (unit_name : string) (max_price : f64)
| UnsupportedMetric (metric : string)
| InsufficientFunds (required available : Z)
| PubkeyBlocked (pubkey : string)
| PubkeyNotAllowed (pubkey : string)
| TrustDenied (message : string).

Definition is_compatible (our_mint_urls : list string) (our_unit : string) (opt : PricingOption.t) : bool :=
  bool_decide (PricingOption.mint_url opt ∈ our_mint_urls)
  && bool_decide (PricingOption.unit opt = our_unit).
Definition compatible (upstream_options : list PricingOption.t) (our_mint_urls : list string)
    (our_unit : string) : list PricingOption.t :=
  filter (fun o => is_compatible our_mint_urls our_unit o = true) upstream_options.

(** [iter.min_by_key(|opt| opt.price_per_step)]: the first of the least. *)
Definition cheaper (best opt : PricingOption.t) : PricingOption.t :=
  if PricingOption.price_per_step opt <? PricingOption.price_per_step best then opt else best.
Definition min_by_price (opts : list PricingOption.t) : option PricingOption.t :=
  match opts with
  | [] => None
  | o :: opts => Some (foldl cheaper o opts)
  end.

Definition select_cheapest_compatible (upstream_options : list PricingOption.t)
    (our_mint_urls : list string) (our_unit : string) : result PricingOption.t PricingError :=
  ok_or (min_by_price (compatible upstream_options our_mint_urls our_unit)) NoCompatibleMint.

Definition validate_budget (pricing : PricingOption.t) (step_size : Z) (metric : string)
    (max_price_per_ms max_price_per_byte : f64) : result unit PricingError :=
  let price_per_unit := f64_ratio (PricingOption.price_per_step pricing) step_size in
  let limit :=
    if decide (metric = "milliseconds"%string) then Some (max_price_per_ms, "millisecond"%string)
    else if decide (metric = "bytes"%string) then Some (max_price_per_byte, "byte"%string)
    else None in
  match limit with
  | None => Err (UnsupportedMetric metric)
  | Some (max_price, unit_name) =>
      if f64_gt price_per_unit max_price then Err (PriceTooHigh price_per_unit unit_name max_price)
      else Ok tt
  end.

Definition affordable_steps (balance price_per_step min_steps : Z) : Z :=
  if price_per_step =? 0 then 0
  else let steps := balance / price_per_step in if steps <? min_steps then 0 else steps.

Definition validate_trust_policy (pubkey : string) (allowlist blocklist : list string)
    (default_policy : string) : result unit PricingError :=
  if bool_decide (pubkey ∈ blocklist) then Err (PubkeyBlocked pubkey)
  else if negb (bool_decide (allowlist = [])) then
    if bool_decide (pubkey ∈ allowlist) then Ok tt else Err (PubkeyNotAllowed pubkey)
  else if decide (default_policy = "trust_all"%string) then Ok tt
  else if decide (default_policy = "trust_none"%string) then
    Err (TrustDenied ("pubkey " +:+ pubkey +:+ " rejected by default trust_none policy"))
  else Err (TrustDenied ("unknown default policy: " +:+ default_policy)).

(** The steps and the cost of an option for a preferred allotment. *)
Definition preferred_for (preferred_allotment step_size : Z) (opt : PricingOption.t) : Z :=
  let effective_step_size := if step_size =? 0 then 1 else step_size in
  let steps := Z.max (Z.max (preferred_allotment / effective_step_size) 1) (PricingOption.min_steps opt) in
  wrap_u64 (steps * PricingOption.price_per_step opt).

Definition select_compatible_with_funds (upstream_options : list PricingOption.t)
    (our_mint_urls : list string) (our_unit : string) (balance_sats preferred_allotment step_size : Z)
    : result PricingOption.t PricingError :=
  let opts := compatible upstream_options our_mint_urls our_unit in
  let cost := preferred_for preferred_allotment step_size in
  match find (fun opt => cost opt <=? balance_sats) opts with
  | Some opt => Ok opt
  | None =>
      match min_by_price opts with
      | None => Err NoCompatibleMint
      | Some cheapest => Err (InsufficientFunds (cost cheapest) balance_sats)
      end
  end.

(** ** Reading responses *)

Definition parse_usage_response (body : string) : Z * Z :=
  match split_on slash (trim body) with
  | [u; a] =>
      let usage := unwrap_or (parse_i64 u) (-1) in
      let allotment := unwrap_or (parse_i64 a) (-1) in
      if (usage <? 0) || (allotment <? 0) then (0, 0) else (usage, allotment)
  | _ => (0, 0)
  end.

(** ** The client *)

Inductive V1ClientError : Set :=
| Http (e : string)
| Pricing (e : PricingError)
| WalletError (e : string)
| NoSession
| LnPaymentTimeout (secs : Z)
| Unexpected (e : string).

Module V1ClientConfig.
Record t : Set := mk {
  gateway_ip : string;
  our_mint_urls : list string;
  unit : string;
  max_price_per_ms : f64;
  max_price_per_byte : f64;
  preferred_allotment : Z;
  renewal_threshold : f64
}.
End V1ClientConfig.

Module V1Session.
Record t : Set := mk {
  advertisement : Event;
  selected_pricing : PricingOption.t;
  session_event : option Event;
  total_allotment : Z;
  metric : string;
  step_size : Z
}.
End V1Session.

Module LnInvoiceResponse.
Record t : Set := mk { quote : option string; invoice : option string; expiry : option Z }.
End LnInvoiceResponse.
Module LnInvoiceStatus.
Record t : Set := mk { state : string; allotment : option Z }.
End LnInvoiceStatus.

(** What the network and the wallet answer during one call. *)
Module Upstream.
Record t : Type := mk {
  (** [GET /usage]: the body. *)
  usage_body : result string string;
  (** [GET /], by attempt: the parsed advertisement. *)
  ad : nat -> result Event string;
  (** [wallet.balance()]. *)
  balance : result Z string;
  (** [create_token_with_overpayment amount _ tolerance], whose mint argument the wallet
      ignores: a token is always on the wallet's own mint. *)
  create_token : Z -> Z -> result string string;
  (** [POST /]: the parsed session event. *)
  payment : string -> result Event string;
  (** [POST /ln-invoice] and the polls of its status, each with the milliseconds
      since the first wait began. *)
  ln_invoice : Z -> string -> result LnInvoiceResponse.t string;
  ln_poll : nat -> Z * result LnInvoiceStatus.t string
}.
End Upstream.

(** What a call does outside. *)
Inductive Effect : Set :=
| CreateToken (amount : Z)
| SendPayment (token : string)
| RequestInvoice (amount : Z) (mint_url : string).

(** An error with its source wrapped, Rust's [?] with [From]. *)
Definition map_err {T E F} (f : E -> F) (r : result T E) : result T F :=
  match r with Ok t => Ok t | Err e => Err (f e) end.

(** [probe_retry_count] attempts; the error is the last one's. *)
Fixpoint fetch_from (attempts : nat) (attempt : nat) (ad : nat -> result Event string)
    (last_err : string) : result Event string :=
  match attempts with
  | O => Err last_err
  | S attempts =>
      match ad attempt with
      | Ok e => Ok e
      | Err e => fetch_from attempts (S attempt) ad e
      end
  end.
Definition PROBE_RETRY_COUNT : nat := 3.
Definition fetch_advertisement (u : Upstream.t) : result Event string :=
  fetch_from PROBE_RETRY_COUNT 0 (Upstream.ad u) EmptyString.
Definition fetch_usage (u : Upstream.t) : result (Z * Z) string :=
  match Upstream.usage_body u with
  | Ok body => Ok (parse_usage_response body)
  | Err e => Err e
  end.

Definition MIN_PAYMENT_INTERVAL : Z := 5000.
Definition OVERPAYMENT_TOLERANCE : Z := 100.
Definition LN_TIMEOUT_MS : Z := 300000.
Definition LN_POLL_MS : Z := 3000.

Module V1Client.
Record t : Set := mk {
  config : V1ClientConfig.t;
  session : option V1Session.t;
  last_payment_attempt : option Z
}.
Definition new (config : V1ClientConfig.t) : t := mk config None None.
Definition set_session (s : V1Session.t) (c : t) : t := mk (config c) (Some s) (last_payment_attempt c).
Definition set_attempt (now : Z) (c : t) : t := mk (config c) (session c) (Some now).

Definition metric_of (ad : Event) : string :=
  unwrap_or (TollGateAdvertisement.metric ad) "milliseconds"%string.
Definition step_size_of (ad : Event) : Z := unwrap_or (TollGateAdvertisement.step_size ad) 60000.

Definition select (cfg : V1ClientConfig.t) (ad : Event) : result PricingOption.t V1ClientError :=
  map_err Pricing (select_cheapest_compatible (TollGateAdvertisement.pricing_options ad)
    (V1ClientConfig.our_mint_urls cfg) (V1ClientConfig.unit cfg)).

(** The steps bought: the preferred number, at least the seller's minimum, at most
    what the balance pays for, at least one. *)
Definition max_affordable (balance : Z) (pricing : PricingOption.t) : Z :=
  unwrap_or (checked_div balance (PricingOption.price_per_step pricing)) 0.
Definition choose_steps (cfg : V1ClientConfig.t) (step_size balance : Z) (pricing : PricingOption.t) : Z :=
  let preferred_steps := unwrap_or (checked_div (V1ClientConfig.preferred_allotment cfg) step_size) 1 in
  Z.max (Z.min (Z.max preferred_steps (PricingOption.min_steps pricing)) (max_affordable balance pricing)) 1.

(** The token for [amount] is created and posted. *)
Definition pay (u : Upstream.t) (amount : Z) : list Effect * result Event V1ClientError :=
  match Upstream.create_token u amount OVERPAYMENT_TOLERANCE with
  | Err e => ([CreateToken amount], Err (WalletError e))
  | Ok token => ([CreateToken amount; SendPayment token], map_err Http (Upstream.payment u token))
  end.

(** The polling loop, from poll [k]; [None] is out of fuel. *)
Fixpoint ln_wait (fuel k : nat) (polls : nat -> Z * result LnInvoiceStatus.t string)
    : option (result Z V1ClientError) :=
  match fuel with
  | O => None
  | S fuel =>
      let '(elapsed, answer) := polls k in
      if LN_TIMEOUT_MS <? elapsed then Some (Err (LnPaymentTimeout 300))
      else
        match answer with
        | Err e => Some (Err (Http e))
        | Ok status =>
            match LnInvoiceStatus.allotment status with
            | Some allotment =>
                if decide (LnInvoiceStatus.state status = "ISSUED"%string) then Some (Ok allotment)
                else ln_wait fuel (S k) polls
            | None => ln_wait fuel (S k) polls
            end
        end
  end.
(** One poll per [LN_POLL_MS], so the loop ends within this many. *)
Definition LN_FUEL : nat := 101.

Definition connect_via_lightning (u : Upstream.t) (ad : Event) (pricing : PricingOption.t) (steps : Z)
    (c : t) : option (t * list Effect * result unit V1ClientError) :=
  let amount := wrap_u64 (steps * PricingOption.price_per_step pricing) in
  let mint_url := PricingOption.mint_url pricing in
  let effects := [RequestInvoice amount mint_url] in
  match Upstream.ln_invoice u amount mint_url with
  | Err e => Some (c, effects, Err (Http e))
  | Ok resp =>
      match LnInvoiceResponse.quote resp with
      | None => Some (c, effects, Err (Unexpected "No quote ID in response"))
      | Some _ =>
          r ← ln_wait LN_FUEL 0 (Upstream.ln_poll u);
          match r with
          | Err e => Some (c, effects, Err e)
          | Ok allotment =>
              Some (set_session (V1Session.mk ad pricing None allotment (metric_of ad) (step_size_of ad)) c,
                effects, Ok tt)
          end
      end
  end.

(** The session of a node that already grants us an allotment. *)
Definition reattach (u : Upstream.t) (allotment : Z) (c : t) : result V1Session.t V1ClientError :=
  match fetch_advertisement u with
  | Err e => Err (Http e)
  | Ok ad =>
      match select (config c) ad with
      | Err e => Err e
      | Ok pricing =>
          Ok (V1Session.mk ad pricing None (Z.max allotment 0) (metric_of ad) (step_size_of ad))
      end
  end.

(** The offer to buy: the advertisement and the chosen option, within the budget. *)
Definition offer (u : Upstream.t) (c : t) : result (Event * PricingOption.t) V1ClientError :=
  match fetch_advertisement u with
  | Err e => Err (Http e)
  | Ok ad =>
      match select (config c) ad with
      | Err e => Err e
      | Ok pricing =>
          match validate_budget pricing (step_size_of ad) (metric_of ad)
                  (V1ClientConfig.max_price_per_ms (config c))
                  (V1ClientConfig.max_price_per_byte (config c)) with
          | Err e => Err (Pricing e)
          | Ok _ => Ok (ad, pricing)
          end
      end
  end.

(** From step 5 on: the amount, and the payment with a token or an invoice. *)
Definition buy (u : Upstream.t) (ad : Event) (pricing : PricingOption.t) (c : t)
    : option (t * list Effect * result unit V1ClientError) :=
  match Upstream.balance u with
  | Err e => Some (c, [], Err (WalletError e))
  | Ok balance =>
      let steps := choose_steps (config c) (step_size_of ad) balance pricing in
      let payment_amount := wrap_u64 (steps * PricingOption.price_per_step pricing) in
      if (max_affordable balance pricing =? 0) || (balance =? 0) then
        connect_via_lightning u ad pricing steps c
      else
        let '(effects, r) := pay u payment_amount in
        match r with
        | Err e => Some (c, effects, Err e)
        | Ok session_event =>
            Some (set_session (V1Session.mk ad pricing (Some session_event)
              (unwrap_or (SessionEvent.allotment session_event) 0) (metric_of ad) (step_size_of ad)) c,
              effects, Ok tt)
        end
  end.

Definition connect (u : Upstream.t) (c : t) : option (t * list Effect * result unit V1ClientError) :=
  match fetch_usage u with
  | Err e => Some (c, [], Err (Http e))
  | Ok (_, allotment) =>
      if 0 <? allotment then
        match reattach u allotment c with
        | Err e => Some (c, [], Err e)
        | Ok s => Some (set_session s c, [], Ok tt)
        end
      else
        match offer u c with
        | Err e => Some (c, [], Err e)
        | Ok (ad, pricing) => buy u ad pricing c
        end
  end.

(** [(usage, allotment, needs_renewal)]. *)
Definition poll_usage (u : Upstream.t) (c : t) : Z * Z * bool :=
  match fetch_usage u with
  | Ok (usage, allotment) =>
      let needs_renewal :=
        if 0 <? allotment then
          f64_ge (f64_ratio usage allotment) (V1ClientConfig.renewal_threshold (config c))
        else false in
      (Z.max usage 0, Z.max allotment 0, needs_renewal)
  | Err _ => (0, 0, false)
  end.

Definition renew (u : Upstream.t) (now : Z) (c : t) : t * list Effect * result unit V1ClientError :=
  if is_some_and (last_payment_attempt c) (fun last => Z.max 0 (now - last) <? MIN_PAYMENT_INTERVAL) then
    (c, [], Ok tt)
  else
    let c := set_attempt now c in
    match session c with
    | None => (c, [], Err NoSession)
    | Some s =>
        let pricing := V1Session.selected_pricing s in
        match Upstream.balance u with
        | Err e => (c, [], Err (WalletError e))
        | Ok balance =>
            let steps := choose_steps (config c) (V1Session.step_size s) balance pricing in
            let payment_amount := wrap_u64 (steps * PricingOption.price_per_step pricing) in
            let '(effects, r) := pay u payment_amount in
            match r with
            | Err e => (c, effects, Err e)
            | Ok session_event =>
                (set_session (V1Session.mk (V1Session.advertisement s) pricing (Some session_event)
                   (unwrap_or (SessionEvent.allotment session_event) 0)
                   (V1Session.metric s) (V1Session.step_size s)) c, effects, Ok tt)
            end
        end
    end.

(** One turn of [run]'s loop: a poll, answered by [u], then perhaps a call, answered
    by [u']. An error ends the loop, except a failed renewal's, which is logged. *)
Definition turn (u u' : Upstream.t) (now : Z) (c : t)
    : option (t * list Effect * result unit V1ClientError) :=
  let '(_, allotment, needs_renewal) := poll_usage u c in
  if allotment =? 0 then connect u' c
  else if needs_renewal then
    let '(c, effects, _) := renew u' now c in Some (c, effects, Ok tt)
  else Some (c, [], Ok tt).

(** [run]: a connection, then turns, until an error or an interrupt; [rounds] are the
    answers and the time of each turn before the interrupt. *)
Fixpoint turns (rounds : list (Upstream.t * Upstream.t * Z)) (c : t)
    : option (t * list Effect * result unit V1ClientError) :=
  match rounds with
  | [] => Some (c, [], Ok tt)
  | (u, u', now) :: rounds =>
      '(c, effects, r) ← turn u u' now c;
      match r with
      | Err e => Some (c, effects, Err e)
      | Ok _ => '(c, later, r) ← turns rounds c; Some (c, effects ++ later, r)
      end
  end.
Definition run (u : Upstream.t) (rounds : list (Upstream.t * Upstream.t * Z)) (c : t)
    : option (t * list Effect * result unit V1ClientError) :=
  '(c, effects, r) ← connect u c;
  match r with
  | Err e => Some (c, effects, Err e)
  | Ok _ => '(c, later, r) ← turns rounds c; Some (c, effects ++ later, r)
  end.
End V1Client.

(** ** Lemmas: selection *)

Lemma foldl_cheaper_split l o l1 :
  Forall (fun x => PricingOption.price_per_step o < PricingOption.price_per_step x) l1 ->
  exists a p b, l1 ++ o :: l = a ++ p :: b /\ foldl cheaper o l = p /\
    Forall (fun x => PricingOption.price_per_step p < PricingOption.price_per_step x) a /\
    Forall (fun x => PricingOption.price_per_step p <= PricingOption.price_per_step x) b.
Proof.
  (* [rest]: the options passed over since the best so far, none cheaper *)
  enough (forall rest, Forall (fun x => PricingOption.price_per_step o <= PricingOption.price_per_step x) rest ->
    Forall (fun x => PricingOption.price_per_step o < PricingOption.price_per_step x) l1 ->
    exists a p b, l1 ++ o :: rest ++ l = a ++ p :: b /\ foldl cheaper o l = p /\
    Forall (fun x => PricingOption.price_per_step p < PricingOption.price_per_step x) a /\
    Forall (fun x => PricingOption.price_per_step p <= PricingOption.price_per_step x) b) as Hgen.
  { intros H1. exact (Hgen [] (Forall_nil_2 _) H1). }
  revert o l1. induction l as [|x l IH]; intros o l1 rest Hr H1.
  - exists l1, o, rest. by rewrite app_nil_r.
  - cbn [foldl]. unfold cheaper at 2. destruct (_ <? _) eqn:E.
    + apply Z.ltb_lt in E.
      destruct (IH x (l1 ++ o :: rest) []) as (a & p & b & Heq & Hf & Ha & Hb).
      * done.
      * apply Forall_app. split; [by eapply Forall_impl; [exact H1|]; cbn; lia|].
        constructor; [done|]. eapply Forall_impl; [exact Hr|]. cbn. lia.
      * exists a, p, b. split_and!; try done. rewrite <- Heq. by rewrite <- (assoc_L (++)).
    + apply Z.ltb_ge in E.
      destruct (IH o l1 (rest ++ [x])) as (a & p & b & Heq & Hf & Ha & Hb); [|done|].
      * apply Forall_app. split; [done|]. by constructor.
      * exists a, p, b. split_and!; try done. rewrite <- Heq. by rewrite <- (assoc_L (++)).
Qed.

Lemma select_compatible opts urls u p :
  select_cheapest_compatible opts urls u = Ok p -> p ∈ opts /\ is_compatible urls u p = true.
Proof.
  unfold select_cheapest_compatible. intros Hs.
  assert (p ∈ compatible opts urls u) as Hp.
  { destruct (compatible opts urls u) as [|o l]; [done|]. cbn in Hs. injection Hs as <-.
    destruct (foldl_cheaper_split l o [] (Forall_nil_2 _)) as (a & q & b & Heq & -> & _).
    cbn in Heq. rewrite Heq. set_solver. }
  by apply list_elem_of_filter in Hp as [? ?].
Qed.

(** The option is one that the client may buy: on one of its mints, in its unit. *)
Definition ours (cfg : V1ClientConfig.t) (o : PricingOption.t) : Prop :=
  PricingOption.mint_url o ∈ V1ClientConfig.our_mint_urls cfg /\ PricingOption.unit o = V1ClientConfig.unit cfg.

Lemma selected_ours cfg ad p : V1Client.select cfg ad = Ok p -> ours cfg p.
Proof.
  unfold V1Client.select. destruct (select_cheapest_compatible _ _ _) as [q|e] eqn:E; [|done]. intros [= <-].
  apply select_compatible in E as [_ Hc].
  by apply andb_true_iff in Hc as [?%bool_decide_eq_true ?%bool_decide_eq_true].
Qed.

(** ** Lemmas: the wait for a Lightning payment *)

Definition issued (a : Z) (answer : result LnInvoiceStatus.t string) : Prop :=
  exists st, answer = Ok st /\ LnInvoiceStatus.state st = "ISSUED"%string /\
    LnInvoiceStatus.allotment st = Some a.

(** Every poll comes at least one poll interval after the one before: [sleep] sleeps. *)
Definition paced (polls : nat -> Z * result LnInvoiceStatus.t string) : Prop :=
  forall i, LN_POLL_MS * (Z.of_nat i + 1) <= (polls i).1.

Lemma ln_wait_ends polls fuel k :
  paced polls -> (k + fuel = V1Client.LN_FUEL)%nat -> (0 < fuel)%nat ->
  exists r, V1Client.ln_wait fuel k polls = Some r /\
    (forall a, r = Ok a -> exists i, (polls i).1 <= LN_TIMEOUT_MS /\ issued a (polls i).2).
Proof.
  unfold paced. intros Hp. unfold LN_POLL_MS, LN_TIMEOUT_MS, V1Client.LN_FUEL in *.
  revert k. induction fuel as [|fuel IH]; intros k Hk Hf; [lia|].
  cbn [V1Client.ln_wait]. specialize (Hp k). pose proof (IH (S k)) as Hnext.
  destruct (polls k) as [elapsed answer] eqn:Ek. cbn in Hp. unfold LN_TIMEOUT_MS.
  destruct (300000 <? elapsed) eqn:Et; [by eexists|]. apply Z.ltb_ge in Et.
  assert (0 < fuel)%nat as Hf' by lia.
  destruct answer as [status|e]; [|by eexists].
  destruct (LnInvoiceStatus.allotment status) as [a|] eqn:Ea; [|apply Hnext; lia].
  case_decide as Hs; [|apply Hnext; lia].
  eexists. split; [done|]. intros a' [= <-]. exists k. rewrite Ek. cbn. split; [done|].
  by exists status.
Qed.

(** ** Lemmas: a run *)

(** An amount for whole steps of an option of ours, on the mint [url]. *)
Definition priced (cfg : V1ClientConfig.t) (url : string) (amount : Z) : Prop :=
  exists o n, ours cfg o /\ PricingOption.mint_url o = url /\ 1 <= n /\
    amount = wrap_u64 (n * PricingOption.price_per_step o).
(** What is created and asked for is so priced, and a token sent was created for it. *)
Definition bought (cfg : V1ClientConfig.t) (us : list Upstream.t) (e : Effect) : Prop :=
  match e with
  | RequestInvoice amount url => priced cfg url amount
  | CreateToken amount => exists url, priced cfg url amount
  | SendPayment token => exists u amount url, u ∈ us /\ priced cfg url amount /\
      Upstream.create_token u amount OVERPAYMENT_TOLERANCE = Ok token
  end.
Definition buys (cfg : V1ClientConfig.t) (c : V1Client.t) : Prop :=
  V1Client.config c = cfg /\
  forall s, V1Client.session c = Some s -> ours cfg (V1Session.selected_pricing s).
Definition call_buys (cfg : V1ClientConfig.t) (us : list Upstream.t)
    (r : option (V1Client.t * list Effect * result unit V1ClientError)) : Prop :=
  exists c es o, r = Some (c, es, o) /\ buys cfg c /\ Forall (bought cfg us) es.

Section run.
Context (cfg : V1ClientConfig.t) (us : list Upstream.t).
Hypothesis Hpaced : Forall (fun u => paced (Upstream.ln_poll u)) us.

Lemma buys_nothing c r : buys cfg c -> call_buys cfg us (Some (c, [], r)).
Proof. intros Hc. exists c, [], r. by split_and!. Qed.

Lemma buys_session c s :
  buys cfg c -> ours cfg (V1Session.selected_pricing s) -> buys cfg (V1Client.set_session s c).
Proof. intros [Hc _] Hs. split; [done|]. by intros ? [= <-]. Qed.

Lemma steps_priced balance step_size o :
  ours cfg o ->
  priced cfg (PricingOption.mint_url o)
    (wrap_u64 (V1Client.choose_steps cfg step_size balance o * PricingOption.price_per_step o)).
Proof. intros Ho. eexists o, _. split_and!; [done|done| |done]. unfold V1Client.choose_steps. lia. Qed.

Lemma pay_bought u amount url es r :
  u ∈ us -> priced cfg url amount -> V1Client.pay u amount = (es, r) -> Forall (bought cfg us) es.
Proof.
  intros Hu Hp. unfold V1Client.pay. destruct (Upstream.create_token _ _ _) eqn:E; intros [= <- <-];
    repeat constructor; cbn; [by exists url|by exists u, amount, url|by exists url].
Qed.

Lemma lightning_buys u ad o step_size balance c :
  u ∈ us -> buys cfg c -> ours cfg o ->
  call_buys cfg us (V1Client.connect_via_lightning u ad o (V1Client.choose_steps cfg step_size balance o) c).
Proof.
  intros Hu Hc Ho. unfold V1Client.connect_via_lightning.
  assert (forall c' r, buys cfg c' -> call_buys cfg us (Some (c', [RequestInvoice (wrap_u64
    (V1Client.choose_steps cfg step_size balance o * PricingOption.price_per_step o)) (PricingOption.mint_url o)], r)))
    as Hk.
  { intros c' r Hc'. do 3 eexists. split_and!; [done..|]. repeat constructor. cbn. by apply steps_priced. }
  destruct (Upstream.ln_invoice _ _ _) as [resp|e]; [|by apply Hk].
  destruct (LnInvoiceResponse.quote resp); [|by apply Hk].
  rewrite Forall_forall in Hpaced.
  destruct (ln_wait_ends (Upstream.ln_poll u) V1Client.LN_FUEL 0 (Hpaced u Hu)) as (r & -> & _);
    [done|unfold V1Client.LN_FUEL; lia|]. cbn [mbind option_bind].
  destruct r; apply Hk; [by apply buys_session|done].
Qed.

Lemma connect_buys u c : u ∈ us -> buys cfg c -> call_buys cfg us (V1Client.connect u c).
Proof.
  intros Hu Hc. unfold V1Client.connect.
  destruct (fetch_usage u) as [[usage allotment]|e]; [|by apply buys_nothing].
  destruct (0 <? allotment).
  - unfold V1Client.reattach. destruct (fetch_advertisement u) as [ad|e]; [|by apply buys_nothing].
    destruct (V1Client.select (V1Client.config c) ad) as [p|e] eqn:E; [|by apply buys_nothing].
    rewrite (proj1 Hc) in E. apply selected_ours in E as Hm.
    by apply buys_nothing, buys_session.
  - unfold V1Client.offer. destruct (fetch_advertisement u) as [ad|e]; [|by apply buys_nothing].
    destruct (V1Client.select (V1Client.config c) ad) as [p|e] eqn:E; [|by apply buys_nothing].
    rewrite (proj1 Hc) in E. apply selected_ours in E as Hm.
    destruct (validate_budget _ _ _ _ _); [|by apply buys_nothing].
    unfold V1Client.buy. destruct (Upstream.balance u) as [balance|e]; [|by apply buys_nothing].
    rewrite (proj1 Hc). destruct (_ || _); [by apply lightning_buys|].
    destruct (V1Client.pay _ _) as [es r] eqn:Ep. eapply pay_bought in Ep; [|done|by apply steps_priced].
    destruct r; do 3 eexists; (split_and!; [done| |done]); [by apply buys_session|done].
Qed.

Lemma renew_buys u now c : u ∈ us -> buys cfg c -> call_buys cfg us (Some (V1Client.renew u now c)).
Proof.
  intros Hu Hc. unfold V1Client.renew. destruct (is_some_and _ _); [by apply buys_nothing|].
  assert (buys cfg (V1Client.set_attempt now c)) as Ha by done.
  destruct (V1Client.session (V1Client.set_attempt now c)) as [s|] eqn:Es; [|by apply buys_nothing].
  pose proof (proj2 Hc s Es) as Hm.
  destruct (Upstream.balance u) as [balance|e]; [|by apply buys_nothing].
  rewrite (proj1 Ha).
  destruct (V1Client.pay _ _) as [es r] eqn:Ep. eapply pay_bought in Ep; [|done|by apply steps_priced].
  destruct r; do 3 eexists; (split_and!; [done| |done]); [by apply buys_session|done].
Qed.

Lemma turn_buys u u' now c : u' ∈ us -> buys cfg c -> call_buys cfg us (V1Client.turn u u' now c).
Proof.
  intros Hu Hc. unfold V1Client.turn. destruct (V1Client.poll_usage u c) as [[usage allotment] needs].
  destruct (allotment =? 0); [by apply connect_buys|]. destruct needs; [|by apply buys_nothing].
  destruct (renew_buys u' now c Hu Hc) as (c' & es & r & [= E] & Hb). rewrite E. by exists c', es, (Ok tt).
Qed.

Lemma turns_buys rounds c :
  Forall (fun r => r.1.2 ∈ us) rounds -> buys cfg c -> call_buys cfg us (V1Client.turns rounds c).
Proof.
  intros Hr. revert c. induction Hr as [|[[u u'] now] rounds Hu _ IH]; intros c Hc; [by apply buys_nothing|].
  cbn [V1Client.turns]. destruct (turn_buys u u' now c Hu Hc) as (c1 & es & r & -> & H1 & H2). cbn.
  destruct r; [|by do 3 eexists]. destruct (IH c1 H1) as (c2 & es2 & r2 & -> & H3 & H4). cbn.
  do 3 eexists. split_and!; [done..|]. by apply Forall_app.
Qed.
End run.

(** ** Lemmas: the amount paid *)

Section steps.
Context (balance : Z) (pricing : PricingOption.t).
Let price := PricingOption.price_per_step pricing.
Hypothesis Hprice : 0 < price.
Hypothesis Hafford : price <= balance.

Lemma max_affordable_eq : V1Client.max_affordable balance pricing = balance / price.
Proof.
  unfold V1Client.max_affordable, checked_div. fold price.
  destruct (price =? 0) eqn:E; [apply Z.eqb_eq in E; lia|done].
Qed.

Lemma affordable_pos : 1 <= balance / price.
Proof. apply Z.div_le_lower_bound; lia. Qed.

Context (cfg : V1ClientConfig.t) (step_size : Z).
Let n := V1Client.choose_steps cfg step_size balance pricing.

Lemma steps_affordable : 1 <= n /\ n * price <= balance.
Proof.
  unfold n, V1Client.choose_steps. rewrite max_affordable_eq. pose proof affordable_pos.
  split; [lia|]. apply Z.le_trans with (balance / price * price); [|].
  - apply Z.mul_le_mono_nonneg_r; lia.
  - rewrite Z.mul_comm. apply Z.mul_div_le. lia.
Qed.

Lemma steps_minimum :
  PricingOption.min_steps pricing * price <= balance -> PricingOption.min_steps pricing <= n.
Proof.
  intros Hm. unfold n, V1Client.choose_steps. rewrite max_affordable_eq.
  assert (PricingOption.min_steps pricing <= balance / price) by (apply Z.div_le_lower_bound; lia).
  lia.
Qed.

Lemma steps_at_most :
  n <= Z.max (Z.max (unwrap_or (checked_div (V1ClientConfig.preferred_allotment cfg) step_size) 1)
                (PricingOption.min_steps pricing)) 1.
Proof. unfold n, V1Client.choose_steps. lia. Qed.
End steps.

(** What the seller grants for whole steps. *)
Lemma allotment_of_steps `{Nostr} sc m n :
  find_mint (AcceptedMint.url m) (V1ServerConfig.accepted_mints sc) = Some m ->
  0 < AcceptedMint.price_per_step m ->
  calculate_allotment (n * AcceptedMint.price_per_step m) (AcceptedMint.url m) sc =
    if n <? AcceptedMint.min_steps m then Err (InsufficientSteps n (AcceptedMint.min_steps m))
    else Ok (wrap_u64 (n * V1ServerConfig.step_size sc)).
Proof.
  intros Hf Hp. unfold calculate_allotment. rewrite Hf.
  destruct (_ =? 0) eqn:E; [apply Z.eqb_eq in E; lia|]. by rewrite Z.div_mul by lia.
Qed.

Lemma find_mint_unique (mints : list AcceptedMint.t) m :
  NoDup (AcceptedMint.url <$> mints) -> m ∈ mints -> find_mint (AcceptedMint.url m) mints = Some m.
Proof.
  intros Hn Hm. unfold find_mint. induction mints as [|x l IH]; [set_solver|].
  cbn in *. apply NoDup_cons in Hn as [Hx Hn]. case_bool_decide as Hu.
  - apply elem_of_cons in Hm as [->|Hm]; [done|]. destruct Hx. rewrite Hu.
    by apply list_elem_of_fmap_2.
  - apply elem_of_cons in Hm as [->|Hm]; [done|]. by apply IH.
Qed.

Lemma offer_read u c ad pricing :
  V1Client.offer u c = Ok (ad, pricing) ->
  fetch_advertisement u = Ok ad /\
  pricing ∈ TollGateAdvertisement.pricing_options ad /\
  is_compatible (V1ClientConfig.our_mint_urls (V1Client.config c))
    (V1ClientConfig.unit (V1Client.config c)) pricing = true.
Proof.
  unfold V1Client.offer. destruct (fetch_advertisement u) as [ad'|]; [|done].
  unfold V1Client.select. destruct (select_cheapest_compatible _ _ _) as [p|] eqn:E; [|done]. cbn.
  destruct (validate_budget _ _ _ _ _); [|done]. intros [= -> ->].
  by split; [|eapply select_compatible].
Qed.

(** ** Concrete inputs *)

Module BuyDemo.
Definition price : PricingOption.t := PricingOption.mk "cashu" 7 "sat" "https://b" 1.
Definition server : @V1ServerConfig.t ToyNostr.nostr := MerchantDemo.config.
Definition published : string :=
  match @build_advertisement ToyNostr.nostr server with Ok s => s | Err s => s end.
Definition ad : Event :=
  match @TollGateAdvertisement.from_json ToyNostr.nostr published with
  | Ok e => e
  | Err _ => mkEvent 0 [] EmptyString EmptyString EmptyString
  end.
Definition config : V1ClientConfig.t :=
  V1ClientConfig.mk "10.0.0.1" ["https://b"%string] "sat" (f64_of_Z 1) (f64_of_Z 1) 180000
    (f64_ratio 1 5).
(** A node that has no session for us, and a wallet with 30 sats. *)
Definition upstream : Upstream.t :=
  Upstream.mk (Ok "-1/-1"%string) (fun _ => Ok ad) (Ok 30) (fun _ _ => Ok "cashuB"%string)
    (fun _ => Err "offline"%string) (fun _ _ => Err "offline"%string)
    (fun i => (LN_POLL_MS * (Z.of_nat i + 1), Ok (LnInvoiceStatus.mk "UNPAID" None))).
Definition client : V1Client.t := V1Client.new config.
End BuyDemo.

(** ** Properties *)

(** A purchase is affordable, and buys whole steps at the published price. When a
    client that has no session reads a node's published advertisement, finds an option
    within its budget and can pay for one step, [connect] first creates a token whose
    amount is a whole number [n >= 1] of steps at the option's price, within the
    balance, and at least the seller's minimum if the balance covers it; for that
    amount the seller's own rule grants exactly [n] steps, and refuses only when [n]
    is below its minimum. *)
Theorem purchase_grants_steps `{NostrLaws} sc json ad u c pricing used balance :
  V1ServerConfig.wf sc -> NoDup (AcceptedMint.url <$> V1ServerConfig.accepted_mints sc) ->
  build_advertisement sc = Ok json -> TollGateAdvertisement.from_json json = Ok ad ->
  fetch_usage u = Ok (used, 0) -> V1Client.offer u c = Ok (ad, pricing) ->
  Upstream.balance u = Ok balance -> is_u64 balance ->
  let price := PricingOption.price_per_step pricing in
  let url := PricingOption.mint_url pricing in
  let n := V1Client.choose_steps (V1Client.config c) (V1ServerConfig.step_size sc) balance pricing in
  0 < price <= balance ->
  exists c' effects r, V1Client.connect u c = Some (c', CreateToken (n * price) :: effects, r) /\
    1 <= n /\ n * price <= balance /\
    (PricingOption.min_steps pricing * price <= balance -> PricingOption.min_steps pricing <= n) /\
    calculate_allotment (n * price) url sc =
      if n <? PricingOption.min_steps pricing
      then Err (InsufficientSteps n (PricingOption.min_steps pricing))
      else Ok (wrap_u64 (n * V1ServerConfig.step_size sc)).
Proof.
  intros Hwf Hnd Hpub Had Hus Hof Hb Hbr price url n [Hp Ha].
  destruct (advertisement_read sc json Hwf Hpub) as (ad' & Had' & _ & Hstep & Hopts & _).
  assert (ad' = ad) as -> by congruence.
  destruct (offer_read _ _ _ _ Hof) as (Hf & Hin & _).
  rewrite Hopts in Hin. apply list_elem_of_fmap in Hin as (m & Hm & Hin).
  assert (m ∈ V1ServerConfig.accepted_mints sc) as Hin'.
  { revert Hin. unfold reachable_mints. destruct (V1ServerConfig.mint_health sc); [|done].
    by intros [_ ?]%list_elem_of_filter. }
  destruct (steps_affordable balance pricing Hp Ha (V1Client.config c) (V1ServerConfig.step_size sc))
    as [Hn1 Hn2].
  pose proof (steps_minimum balance pricing Hp (V1Client.config c) (V1ServerConfig.step_size sc)) as Hn3.
  fold price n in Hn1, Hn2, Hn3.
  unfold V1Client.connect. rewrite Hus, Hof. change (0 <? 0) with false. cbn iota.
  unfold V1Client.buy. rewrite Hb. unfold V1Client.step_size_of. rewrite Hstep. cbn [unwrap_or].
  fold n price url. rewrite wrap_u64_id by (unfold U64_MAX in *; nia).
  rewrite (max_affordable_eq balance pricing Hp). fold price.
  pose proof (affordable_pos balance pricing Hp Ha) as Haf. fold price in Haf.
  rewrite (proj2 (Z.eqb_neq (balance / price) 0)), (proj2 (Z.eqb_neq balance 0)) by lia. cbn [orb].
  unfold V1Client.pay. subst pricing.
  assert (calculate_allotment (n * price) url sc = if n <? AcceptedMint.min_steps m
    then Err (InsufficientSteps n (AcceptedMint.min_steps m))
    else Ok (wrap_u64 (n * V1ServerConfig.step_size sc))) as Hal
    by exact (allotment_of_steps sc m n (find_mint_unique _ m Hnd Hin') Hp).
  destruct (Upstream.create_token _ _ _) as [token|e]; [|do 3 eexists; by split_and!].
  cbn [map_err]. destruct (Upstream.payment _ _); do 3 eexists; by split_and!.
Qed.

Lemma purchase_grants_steps_witness :
  exists c' effects r, @V1Client.connect BuyDemo.upstream BuyDemo.client =
      Some (c', CreateToken 21 :: effects, r) /\
    @calculate_allotment ToyNostr.nostr 21 "https://b" BuyDemo.server = Ok 180000.
Proof.
  destruct (@purchase_grants_steps ToyNostr.nostr ToyNostr.nostr_laws BuyDemo.server
    BuyDemo.published BuyDemo.ad BuyDemo.upstream BuyDemo.client BuyDemo.price 0 30)
    as (c' & effects & r & E & _ & _ & _ & Ea).
  - split; [by vm_compute|]. by repeat constructor.
  - apply (bool_decide_unpack _). by vm_compute.
  - reflexivity.
  - vm_compute. reflexivity.
  - vm_compute. reflexivity.
  - vm_compute. reflexivity.
  - reflexivity.
  - by vm_compute.
  - by vm_compute.
  - exists c', effects, r. split; [exact E|exact Ea].
Defined.

(** The option bought is the cheapest. Selection fails only when no advertised
    option is for one of our mints in our unit; otherwise it takes, of those that are,
    the first with the least price: all before it cost more, and none costs less. *)
Theorem cheapest_selected opts urls u :
  match select_cheapest_compatible opts urls u with
  | Ok p => exists before after, compatible opts urls u = before ++ p :: after /\
      Forall (fun o => PricingOption.price_per_step p < PricingOption.price_per_step o) before /\
      Forall (fun o => PricingOption.price_per_step p <= PricingOption.price_per_step o) after
  | Err e => e = NoCompatibleMint /\
      Forall (fun o => is_compatible urls u o = false) opts
  end.
Proof.
  unfold select_cheapest_compatible. destruct (compatible opts urls u) as [|o l] eqn:E; cbn.
  - split; [done|]. apply Forall_forall. intros o Ho. destruct (is_compatible urls u o) eqn:Ec; [|done].
    assert (o ∈ compatible opts urls u) as Hin by (by apply list_elem_of_filter).
    rewrite E in Hin. set_solver.
  - destruct (foldl_cheaper_split l o [] (Forall_nil_2 _)) as (a & p & b & Heq & -> & Ha & Hb).
    by exists a, b.
Qed.



(** The wait for a Lightning payment ends. If every poll comes at least one poll
    interval after the one before, the loop returns within its fuel, and it grants an
    allotment only if some poll inside the timeout said the invoice was issued with
    that allotment. *)
Theorem lightning_wait_terminates polls :
  paced polls ->
  exists r, V1Client.ln_wait V1Client.LN_FUEL 0 polls = Some r /\
    (forall a, r = Ok a -> exists i, (polls i).1 <= LN_TIMEOUT_MS /\ issued a (polls i).2).
Proof. intros Hp. apply ln_wait_ends; [done|done|]. unfold V1Client.LN_FUEL. lia. Qed.

Lemma lightning_wait_terminates_witness :
  exists r, V1Client.ln_wait V1Client.LN_FUEL 0 (Upstream.ln_poll BuyDemo.upstream) = Some r.
Proof.
  destruct (lightning_wait_terminates (Upstream.ln_poll BuyDemo.upstream)) as (r & E & _).
  - intros i. apply Z.le_refl.
  - by exists r.
Defined.

(** ** Departures *)

(** A limit of zero is documented as no limit, and it is what [main.rs] sets; it
    refuses every positive price, however small. A client so configured that is not in
    a session already connects to no gateway that charges, and pays nothing. *)
Theorem zero_limit_refuses u c ad pricing usage :
  V1ClientConfig.max_price_per_ms (V1Client.config c) = f64_of_Z 0 ->
  V1ClientConfig.max_price_per_byte (V1Client.config c) = f64_of_Z 0 ->
  fetch_usage u = Ok (usage, 0) -> fetch_advertisement u = Ok ad ->
  V1Client.select (V1Client.config c) ad = Ok pricing ->
  0 < PricingOption.price_per_step pricing <= U64_MAX ->
  0 < V1Client.step_size_of ad <= U64_MAX ->
  exists e, V1Client.connect u c = Some (c, [], Err (Pricing e)).
Proof.
  intros Hms Hb Hu Ha Hs Hp Hst. unfold V1Client.connect. rewrite Hu. cbn [Z.ltb Z.compare].
  unfold V1Client.offer. rewrite Ha, Hs, Hms, Hb. unfold validate_budget.
  pose proof (f64_ratio_gt_zero _ _ Hp Hst) as Hgt.
  repeat case_decide; cbn [f64_of_Z] in *; rewrite ?Hgt; by eexists.
Qed.

(** A usage body without a slash, such as the JSON object that this repository's own
    server answers with, reads as no session: at every turn the client then connects
    anew, and pays, however much it has left. *)
Theorem slashless_usage_reconnects u u' now c body :
  Upstream.usage_body u = Ok body -> slash ∉ String.list_ascii_of_string (trim body) ->
  V1Client.turn u u' now c = V1Client.connect u' c.
Proof.
  intros Hb Hs. unfold V1Client.turn, V1Client.poll_usage, fetch_usage. rewrite Hb.
  assert (parse_usage_response body = (0, 0)) as ->; [|done].
  unfold parse_usage_response, split_on.
  by rewrite split_chars_none.
Qed.
