(* ===== verification/V1Gateways.v ===== *)
(** * Gateway sessions of the V1 client

    Models [v1_compat/usage_tracker.rs], the background task that polls a gateway's
    usage and asks for renewals, and [v1_compat/session_manager.rs], which keeps a
    client and such a task per gateway. A poll's times and answer are its input. *)

From S2P Require Import Prelude F64 Decimal V1Nostr V1Merchant V1Client.

(** ** The usage tracker *)

Definition MIN_RENEWAL_INTERVAL : Z := 10000.

Module RenewalRequest.
Record t : Set := mk { gateway_ip : string; current_usage : Z; current_allotment : Z }.
End RenewalRequest.

Module UsageTrackerConfig.
Record t : Set := mk { poll_interval_ms : Z; renewal_threshold : f64 }.
Definition default : t := mk 1000 (f64_ratio 4 5).
End UsageTrackerConfig.

Module UsageTracker.
(** One pass of the loop after its sleep: when the poll is answered, the answer, and
    whether the channel takes a request, and when it has. *)
Record poll : Set := mkPoll {
  at_ms : Z;
  answer : result (Z * Z) string;
  sent_at_ms : option Z
}.
Record t : Set := mk { last_renewal_request : option Z; running : bool }.
Definition start : t := mk None true.

(** A request, with the times of its poll and of its delivery. *)
Record sent : Set := mkSent { request : RenewalRequest.t; polled_at : Z; delivered_at : Z }.

Definition needs_request (renewal_threshold : f64) (usage allotment : Z) : bool :=
  if allotment =? 0 then true else f64_ge (f64_ratio usage allotment) renewal_threshold.

Definition throttled (now : Z) (s : t) : bool :=
  is_some_and (last_renewal_request s) (fun last => Z.max 0 (now - last) <? MIN_RENEWAL_INTERVAL).

Definition step (gateway_ip : string) (renewal_threshold : f64) (s : t) (p : poll) : t * list sent :=
  if negb (running s) then (s, [])
  else
    match answer p with
    | Err _ => (s, [])
    | Ok (u, a) =>
        let usage := Z.max u 0 in
        let allotment := Z.max a 0 in
        if needs_request renewal_threshold usage allotment && negb (throttled (at_ms p) s) then
          match sent_at_ms p with
          | Some t =>
              (mk (Some t) true,
               [mkSent (RenewalRequest.mk gateway_ip usage allotment) (at_ms p) t])
          | None => (mk (last_renewal_request s) false, [])
          end
        else (s, [])
    end.
End UsageTracker.

(** ** Gateway sessions *)

Module SessionManager.
(** An upstream session; [tracker] identifies its background task. *)
Record session : Set := mkSession {
  interface_name : string;
  client : V1Client.t;
  tracker : nat;
  created_at : Z;
  last_payment_at : option Z;
  total_spent_sats : Z;
  payment_count : Z
}.
Record t : Set := mk {
  config : V1ClientConfig.t;
  sessions : gmap string session;
  (** The tasks spawned so far, and those not stopped. *)
  spawned : nat;
  live : gset nat
}.
Definition new (config : V1ClientConfig.t) : t := mk config ∅ 0 ∅.
Definition set_sessions (x : gmap string session) (m : t) : t := mk (config m) x (spawned m) (live m).

Inductive Error : Set := SessionExists (ip : string) | Client (e : V1ClientError).

Definition client_config (gateway_ip : string) (c : V1ClientConfig.t) : V1ClientConfig.t :=
  V1ClientConfig.mk gateway_ip (V1ClientConfig.our_mint_urls c) (V1ClientConfig.unit c)
    (V1ClientConfig.max_price_per_ms c) (V1ClientConfig.max_price_per_byte c)
    (V1ClientConfig.preferred_allotment c) (V1ClientConfig.renewal_threshold c).

Definition handle_gateway_connected (u : Upstream.t) (now : Z) (interface_name gateway_ip : string)
    (m : t) : option (t * list Effect * result unit Error) :=
  match sessions m !! gateway_ip with
  | Some _ => Some (m, [], Err (SessionExists gateway_ip))
  | None =>
      '(client, effects, r) ← V1Client.connect u (V1Client.new (client_config gateway_ip (config m)));
      match r with
      | Err e => Some (m, effects, Err (Client e))
      | Ok _ =>
          let payment_count := if is_some (V1Client.session client) then 1 else 0 in
          let state := mkSession interface_name client (spawned m) now (Some now) 0 payment_count in
          Some (mk (config m) (<[gateway_ip := state]> (sessions m)) (S (spawned m))
                  ({[spawned m]} ∪ live m), effects, Ok tt)
      end
  end.

(** Removing a session cancels its token and aborts its task. *)
Definition remove (m : t) (gateway_ip : string) : t :=
  match sessions m !! gateway_ip with
  | Some s => mk (config m) (delete gateway_ip (sessions m)) (spawned m) (live m ∖ {[tracker s]})
  | None => m
  end.

Definition on_interface (name : string) (m : t) : list string :=
  (filter (fun p => interface_name p.2 = name) (map_to_list (sessions m))).*1.
Definition handle_disconnect (interface_name : string) (m : t) : t :=
  foldl remove m (on_interface interface_name m).
Definition stop (m : t) : t := foldl remove m (map_to_list (sessions m)).*1.

(** [get_mut]'s result written back after a payment call: the client in any case,
    the count and the time when it returned [Ok]. *)
Definition paid (now : Z) (client : V1Client.t) (success : bool) (s : session) : session :=
  if success then
    mkSession (interface_name s) client (tracker s) (created_at s) (Some now) (total_spent_sats s)
      (wrap_u32 (payment_count s + 1))
  else mkSession (interface_name s) client (tracker s) (created_at s) (last_payment_at s) (total_spent_sats s)
    (payment_count s).

Definition process_renewal (u : Upstream.t) (now : Z) (req : RenewalRequest.t) (m : t)
    : option (t * list Effect) :=
  let ip := RenewalRequest.gateway_ip req in
  match sessions m !! ip with
  | None => Some (m, [])
  | Some s =>
      '(client, effects, r) ←
        (if RenewalRequest.current_allotment req =? 0 then V1Client.connect u (client s)
         else Some (V1Client.renew u now (client s)));
      Some (set_sessions (<[ip := paid now client (is_ok r) s]> (sessions m)) m, effects)
  end.

(** What [run] waits for: its token is cancelled, the channel brings a request, which is
    processed before the next, or it is closed. *)
Inductive arrival : Type :=
| Cancelled
| Received (u : Upstream.t) (now : Z) (req : RenewalRequest.t)
| ChannelClosed.
(** The last result says whether [run] has returned. *)
Fixpoint run (arrivals : list arrival) (m : t) : option (t * list Effect * bool) :=
  match arrivals with
  | [] => Some (m, [], false)
  | (Cancelled | ChannelClosed) :: _ => Some (m, [], true)
  | Received u now req :: arrivals =>
      '(m, effects) ← process_renewal u now req m;
      '(m, later, ended) ← run arrivals m;
      Some (m, effects ++ later, ended)
  end.

(** A session as others see it. *)
Record info : Set := mkInfo {
  info_gateway_ip : string;
  info_interface_name : string;
  info_total_allotment : Z;
  info_metric : string;
  info_total_spent_sats : Z;
  info_payment_count : Z;
  created_at_ago : Z
}.
Definition info_of (now : Z) (e : string * session) : info :=
  let '(ip, s) := e in
  let '(allotment, metric) :=
    match V1Client.session (client s) with
    | Some v => (V1Session.total_allotment v, V1Session.metric v)
    | None => (0, EmptyString)
    end in
  mkInfo ip (interface_name s) allotment metric (total_spent_sats s) (payment_count s)
    (Z.max 0 (now - created_at s)).
Definition get_active_sessions (now : Z) (m : t) : list info := info_of now <$> map_to_list (sessions m).
End SessionManager.

(** ** Lemmas: the tracker's throttle *)

Section throttle.
Import UsageTracker.
Context (gateway_ip : string) (renewal_threshold : f64).

Definition spaced (a b : sent) : Prop := delivered_at a + MIN_RENEWAL_INTERVAL <= polled_at b.

Lemma step_cases s p :
  (exists s', step gateway_ip renewal_threshold s p = (s', []) /\
     last_renewal_request s' = last_renewal_request s) \/
  (exists x, step gateway_ip renewal_threshold s p = (mk (Some (delivered_at x)) true, [x]) /\
     forall last, last_renewal_request s = Some last -> last + MIN_RENEWAL_INTERVAL <= polled_at x).
Proof.
  unfold step. destruct (running s) eqn:Er; cbn [negb]; [|left; by eexists].
  destruct (answer p) as [[u a]|]; [|left; by eexists].
  destruct (needs_request _ _ _ && _) eqn:En; [|left; by eexists].
  destruct (sent_at_ms p) as [t|]; [|left; by eexists].
  right. exists (mkSent (RenewalRequest.mk gateway_ip (Z.max u 0) (Z.max a 0)) (at_ms p) t). split; [done|]. intros last Hl. apply andb_true_iff in En as [_ Ht].
  unfold throttled in Ht. rewrite Hl in Ht. cbn in *.
  apply negb_true_iff, Z.ltb_ge in Ht. unfold MIN_RENEWAL_INTERVAL in *. lia.
Qed.

Lemma run_spaced s ps :
  Sorted spaced (run (step gateway_ip renewal_threshold) s ps).2 /\
  (forall last, last_renewal_request s = Some last ->
    forall x, head (run (step gateway_ip renewal_threshold) s ps).2 = Some x ->
      last + MIN_RENEWAL_INTERVAL <= polled_at x).
Proof.
  revert s. induction ps as [|p ps IH]; intros s; cbn [run]; [split; [constructor|done]|].
  destruct (step_cases s p) as [(s' & -> & Hl)|(x & -> & Hx)].
  - destruct (IH s') as [H1 H2]. destruct (run _ s' ps) as [s2 o2]. cbn in *.
    by rewrite <- Hl.
  - destruct (IH (mk (Some (delivered_at x)) true)) as [H1 H2].
    destruct (run _ _ ps) as [s2 o2]. cbn in *. split; [|intros last Hl y [= <-]; by apply Hx].
    constructor; [done|]. destruct o2 as [|y o2]; constructor. by apply (H2 _ eq_refl).
Qed.
End throttle.

(** ** Lemmas: gateway sessions and their tasks *)

Section manager.
Import SessionManager.

(** The live tasks are exactly the trackers of the sessions, one each. *)
Record tracked (m : t) : Prop := {
  tr_live ip s : sessions m !! ip = Some s -> tracker s ∈ live m;
  tr_owned i : i ∈ live m -> (i < spawned m)%nat /\ exists ip s, sessions m !! ip = Some s /\ tracker s = i;
  tr_unique ip1 ip2 s1 s2 : sessions m !! ip1 = Some s1 -> sessions m !! ip2 = Some s2 ->
    tracker s1 = tracker s2 -> ip1 = ip2
}.

Lemma tracked_new cfg : tracked (new cfg).
Proof. split; cbn; [by intros ? ? ?%lookup_empty_Some|set_solver|by intros ? ? ? ? ?%lookup_empty_Some]. Qed.

Lemma remove_sessions m ip : sessions (remove m ip) = delete ip (sessions m).
Proof.
  unfold remove. destruct (sessions m !! ip) eqn:E; [done|]. by rewrite delete_id.
Qed.

Lemma tracked_remove m ip : tracked m -> tracked (remove m ip).
Proof.
  intros [Hl Ho Hu]. unfold remove. destruct (sessions m !! ip) as [s|] eqn:E; [|by split].
  split; cbn.
  - intros ip' s' [Hne Hs']%lookup_delete_Some. apply elem_of_difference.
    split; [by eapply Hl|]. rewrite elem_of_singleton. intros Ht. destruct Hne.
    by apply (Hu ip ip' s s').
  - intros i [Hi Hne]%elem_of_difference. destruct (Ho i Hi) as (Hlt & ip' & s' & Hs' & <-).
    split; [done|]. exists ip', s'. split; [|done]. apply lookup_delete_Some. split; [|done].
    intros <-. rewrite E in Hs'. simplify_eq. set_solver.
  - intros ip1 ip2 s1 s2 [_ H1]%lookup_delete_Some [_ H2]%lookup_delete_Some. by eapply Hu.
Qed.

Lemma tracked_removes ips m : tracked m -> tracked (foldl remove m ips).
Proof. revert m. induction ips as [|ip ips IH]; intros m Hm; [done|]. by apply IH, tracked_remove. Qed.

Lemma removes_sessions ips m ip :
  sessions (foldl remove m ips) !! ip = if decide (ip ∈ ips) then None else sessions m !! ip.
Proof.
  revert m. induction ips as [|i ips IH]; intros m; [by rewrite decide_False by set_solver|].
  cbn [foldl]. rewrite IH, remove_sessions. destruct (decide (ip ∈ ips)) as [Hi|Hi].
  - by rewrite decide_True by set_solver.
  - destruct (decide (i = ip)) as [->|Hn].
    + rewrite lookup_delete_eq. by rewrite decide_True by set_solver.
    + rewrite lookup_delete_ne by done. by rewrite decide_False by set_solver.
Qed.

Lemma elem_of_on_interface name m ip :
  ip ∈ on_interface name m <-> exists s, sessions m !! ip = Some s /\ interface_name s = name.
Proof.
  unfold on_interface. rewrite list_elem_of_fmap. split.
  - intros ([ip' s] & -> & [Hn Hs]%list_elem_of_filter). exists s. by rewrite <- elem_of_map_to_list.
  - intros (s & Hs & Hn). exists (ip, s). split; [done|]. apply list_elem_of_filter.
    by rewrite elem_of_map_to_list.
Qed.

Lemma tracked_connected u now name ip m m' es r :
  handle_gateway_connected u now name ip m = Some (m', es, r) -> tracked m -> tracked m'.
Proof.
  unfold handle_gateway_connected. intros Hc [Hl Ho Hu].
  destruct (sessions m !! ip) as [s|] eqn:E; [by simplify_eq|].
  destruct (V1Client.connect _ _) as [[[c effs] [[]|e]]|]; cbn in Hc; simplify_eq; [|by split].
  set (s := mkSession _ _ _ _ _ _ _).
  assert (forall ip' s', sessions m !! ip' = Some s' -> tracker s' <> spawned m) as Hfresh.
  { intros ip' s' Hs' Ht. destruct (Ho (tracker s')) as [Hlt _]; [by eapply Hl|]. lia. }
  split; cbn.
  - intros ip' s' [[<- <-]|[_ Hs']]%lookup_insert_Some; [set_solver|].
    apply elem_of_union_r. by eapply Hl.
  - intros i [->%elem_of_singleton|Hi]%elem_of_union.
    + split; [lia|]. exists ip, s. by rewrite lookup_insert_eq.
    + destruct (Ho i Hi) as (Hlt & ip' & s' & Hs' & Ht). split; [lia|]. exists ip', s'.
      rewrite lookup_insert_ne; [done|]. intros <-. by rewrite E in Hs'.
  - intros ip1 ip2 s1 s2 [[<- <-]|[_ H1]]%lookup_insert_Some [[<- <-]|[_ H2]]%lookup_insert_Some Ht;
      [done| | |by eapply Hu].
    + by destruct (Hfresh ip2 s2).
    + by destruct (Hfresh ip1 s1).
Qed.

Lemma tracked_renewal u now req m m' es :
  process_renewal u now req m = Some (m', es) -> tracked m -> tracked m'.
Proof.
  unfold process_renewal. intros Hr Hm. set (ip := RenewalRequest.gateway_ip req) in Hr.
  destruct (sessions m !! ip) as [s|] eqn:E; [|by simplify_eq].
  match type of Hr with (?x ≫= _) = _ => destruct x as [[[c effs] r]|]; cbn in Hr; simplify_eq end.
  set (s' := paid now c (is_ok r) s). assert (tracker s' = tracker s) as Ht by (by destruct r).
  clearbody s'.
  assert (forall ip' x, <[ip:=s']> (sessions m) !! ip' = Some x ->
    exists y, sessions m !! ip' = Some y /\ tracker y = tracker x) as Hback.
  { intros ip' x [[<- <-]|[_ Hx]]%lookup_insert_Some; [by exists s|by exists x]. }
  destruct Hm as [Hl Ho Hu]. split; cbn.
  - intros ip' x Hx. destruct (Hback _ _ Hx) as (y & Hy & <-). by eapply Hl.
  - intros i Hi. destruct (Ho i Hi) as (Hlt & ip' & x & Hx & <-). split; [done|].
    destruct (decide (ip = ip')) as [<-|Hn].
    + exists ip, s'. rewrite lookup_insert_eq. split; [done|]. congruence.
    + exists ip', x. by rewrite lookup_insert_ne.
  - intros ip1 ip2 x1 x2 H1 H2. destruct (Hback _ _ H1) as (y1 & ? & <-).
    destruct (Hback _ _ H2) as (y2 & ? & <-). by eapply Hu.
Qed.
End manager.

(** One operation of the manager; a payment call that is still waiting changes
    nothing, as its write lock is held. *)
Inductive manager_op : Type :=
| GatewayConnected (u : Upstream.t) (now : Z) (interface_name gateway_ip : string)
| InterfaceDisconnected (interface_name : string)
| Renewal (u : Upstream.t) (now : Z) (req : RenewalRequest.t)
| Stop.

Definition manager_step (m : SessionManager.t) (o : manager_op) : SessionManager.t :=
  match o with
  | GatewayConnected u now name ip =>
      map_or (SessionManager.handle_gateway_connected u now name ip m) m (fun r => r.1.1)
  | InterfaceDisconnected name => SessionManager.handle_disconnect name m
  | Renewal u now req => map_or (SessionManager.process_renewal u now req m) m fst
  | Stop => SessionManager.stop m
  end.

Lemma tracked_step m o : tracked m -> tracked (manager_step m o).
Proof.
  intros Hm. destruct o; cbn.
  - destruct (SessionManager.handle_gateway_connected _ _ _ _ _) as [[[m' es] r]|] eqn:E; [|done].
    by eapply tracked_connected.
  - by apply tracked_removes.
  - destruct (SessionManager.process_renewal _ _ _ _) as [[m' es]|] eqn:E; [|done].
    by eapply tracked_renewal.
  - by apply tracked_removes.
Qed.

Lemma tracked_ops ops m : tracked m -> tracked (foldl manager_step m ops).
Proof. revert m. induction ops as [|o ops IH]; intros m Hm; [done|]. by apply IH, tracked_step. Qed.

(** Nothing that happens to a manager changes what a session has spent. *)
Definition unspent (m : SessionManager.t) : Prop :=
  map_Forall (fun _ s => SessionManager.total_spent_sats s = 0) (SessionManager.sessions m).

Lemma unspent_remove ips m : unspent m -> unspent (foldl SessionManager.remove m ips).
Proof.
  revert m. induction ips as [|ip ips IH]; intros m Hm; [done|]. cbn [foldl]. apply IH.
  unfold SessionManager.remove. destruct (SessionManager.sessions m !! ip) as [s|]; [|done].
  by apply map_Forall_delete.
Qed.

Lemma unspent_renewal u now req m m' es :
  SessionManager.process_renewal u now req m = Some (m', es) -> unspent m -> unspent m'.
Proof.
  unfold SessionManager.process_renewal.
  destruct (SessionManager.sessions m !! RenewalRequest.gateway_ip req) as [s|] eqn:E; [|by intros [= <- <-]].
  intros ([[c es'] r] & _ & [= <- <-])%bind_Some Hm.
  apply map_Forall_insert_2; [|done]. unfold SessionManager.paid.
  destruct (is_ok r); cbn; by apply (Hm _ _ E).
Qed.

Lemma unspent_step m o : unspent m -> unspent (manager_step m o).
Proof.
  intros Hm. destruct o as [u now name ip|name|u now req|]; cbn; try by apply unspent_remove.
  - destruct (SessionManager.handle_gateway_connected _ _ _ _ _) as [[[m' es] r]|] eqn:E; [|done]. cbn.
    revert E. unfold SessionManager.handle_gateway_connected.
    destruct (SessionManager.sessions m !! ip); [by intros [= <- _ _]|].
    intros ([[c es'] [[]|e]] & _ & [= <- _ _])%bind_Some; [|done].
    by apply map_Forall_insert_2.
  - destruct (SessionManager.process_renewal _ _ _ _) as [[m' es]|] eqn:E; [|done].
    by eapply unspent_renewal.
Qed.

(** ** Properties *)

(** Renewal requests do not storm. Over any sequence of polls, whatever the node
    answers and however long the channel takes, each renewal request a tracker sends
    is for a poll at least ten seconds after the one before was delivered. *)
Theorem renewals_spaced ip threshold polls :
  Sorted spaced (run (UsageTracker.step ip threshold) UsageTracker.start polls).2.
Proof. apply run_spaced. Qed.

(** No background task outlives its session. After any sequence of connections,
    disconnections, renewals and stops, the running trackers are exactly those of the
    sessions held, one each; a disconnected interface loses all its sessions and no
    other does; and after a stop nothing runs. *)
Theorem manager_tracks_tasks cfg ops name ip :
  let m := foldl manager_step (SessionManager.new cfg) ops in
  tracked m /\
  SessionManager.sessions (SessionManager.handle_disconnect name m) !! ip =
    match SessionManager.sessions m !! ip with
    | Some s => if decide (SessionManager.interface_name s = name) then None else Some s
    | None => None
    end /\
  SessionManager.live (SessionManager.stop m) = ∅.
Proof.
  cbv zeta. set (m := foldl _ _ _).
  assert (tracked m) as Hm by apply tracked_ops, tracked_new.
  split_and!; [done| |].
  - unfold SessionManager.handle_disconnect. rewrite removes_sessions.
    destruct (SessionManager.sessions m !! ip) as [s|] eqn:E; [|by case_decide].
    apply decide_ext. rewrite elem_of_on_interface. naive_solver.
  - assert (tracked (SessionManager.stop m)) as Hs by (by apply tracked_removes).
    apply set_eq. intros i. split; [|set_solver]. intros (_ & ip' & s & Hs' & _)%(tr_owned _ Hs).
    unfold SessionManager.stop in Hs'. rewrite removes_sessions in Hs'. case_decide as Hd; [done|].
    destruct Hd. apply list_elem_of_fmap. exists (ip', s). by rewrite elem_of_map_to_list.
Qed.

(** ** Departures *)

(** A renewal that is skipped because one was tried just before is counted as a
    payment all the same. *)
Theorem skipped_renewal_counted u now req m s last :
  let ip := RenewalRequest.gateway_ip req in
  SessionManager.sessions m !! ip = Some s -> RenewalRequest.current_allotment req <> 0 ->
  V1Client.last_payment_attempt (SessionManager.client s) = Some last ->
  now - last < MIN_PAYMENT_INTERVAL ->
  exists m', SessionManager.process_renewal u now req m = Some (m', []) /\
    SessionManager.payment_count <$> (SessionManager.sessions m' !! ip) =
      Some (wrap_u32 (SessionManager.payment_count s + 1)).
Proof.
  cbv zeta. intros Hs Ha Hl Hn. unfold SessionManager.process_renewal. rewrite Hs.
  rewrite (proj2 (Z.eqb_neq _ _) Ha). unfold V1Client.renew. rewrite Hl. cbn [is_some_and].
  unfold MIN_PAYMENT_INTERVAL in *. rewrite (proj2 (Z.ltb_lt _ _)) by lia. cbn.
  eexists. split; [done|]. cbn. by rewrite lookup_insert_eq.
Qed.

(** What an active session has spent is reported as nothing, whatever was paid for it. *)
Theorem spending_never_reported cfg ops now :
  Forall (fun i => SessionManager.info_total_spent_sats i = 0)
    (SessionManager.get_active_sessions now (foldl manager_step (SessionManager.new cfg) ops)).
Proof.
  set (m := foldl _ _ _). assert (unspent m) as Hm.
  { subst m. assert (unspent (SessionManager.new cfg)) as H0 by apply map_Forall_empty. revert H0.
    generalize (SessionManager.new cfg). induction ops as [|o ops IH]; intros m Hm; [done|]. by apply IH, unspent_step. }
  apply Forall_fmap, Forall_forall. intros [ip s] Hin%elem_of_map_to_list. cbn.
  destruct (V1Client.session _); cbn; by apply (Hm ip s).
Qed.
