(* ===== verification/V1Recovery.v ===== *)
(** * Recovering the token of a failed payment

    Models [crates/tollgate-net/src/v1_compat/recovery.rs]: the wallet is asked to take
    the token back, and when it refuses the token is appended to a file, with a
    timestamp computed without a calendar library. The wallet's answer, the clock and
    the outcome of the file operations are arguments. *)

From S2P Require Import Prelude Wallet Json Decimal V1Nostr.

(** ** The calendar *)

Definition is_leap_year (year : Z) : bool :=
  ((year mod 4 =? 0) && negb (year mod 100 =? 0)) || (year mod 400 =? 0).
Definition days_in_year (year : Z) : Z := if is_leap_year year then 366 else 365.

(** The loop of [days_to_year_and_day]; every pass takes away at least 365 days. *)
Fixpoint year_loop (fuel : nat) (year days : Z) : option (Z * Z) :=
  match fuel with
  | O => None
  | S fuel =>
      if days <? days_in_year year then Some (year, days)
      else year_loop fuel (year + 1) (days - days_in_year year)
  end.
Definition days_to_year_and_day (days : Z) : option (Z * Z) :=
  year_loop (Z.to_nat (days / 365 + 1)) 1970 days.

Definition month_days (leap : bool) : list Z :=
  if leap then [31; 29; 31; 30; 31; 30; 31; 31; 30; 31; 30; 31]
  else [31; 28; 31; 30; 31; 30; 31; 31; 30; 31; 30; 31].

(** The [for] loop, from month [i + 1] on. *)
Fixpoint month_loop (i remaining : Z) (months : list Z) : Z * Z :=
  match months with
  | [] => (12, 31)
  | mdays :: months =>
      if remaining <? mdays then (i + 1, remaining + 1)
      else month_loop (i + 1) (remaining - mdays) months
  end.
Definition day_of_year_to_month_day (day_of_year : Z) (leap : bool) : Z * Z :=
  month_loop 0 day_of_year (month_days leap).

Module Calendar.
Record t : Set := mk { year : Z; month : Z; day : Z; hour : Z; minute : Z; second : Z }.
End Calendar.

Definition unix_to_calendar (secs : Z) : option Calendar.t :=
  let days := secs / 86400 in
  let remainder := secs mod 86400 in
  let hour := remainder / 3600 in
  let minute := (remainder mod 3600) / 60 in
  let second := remainder mod 60 in
  '(year, day_of_year) ← days_to_year_and_day days;
  let '(month, day) := day_of_year_to_month_day day_of_year (is_leap_year year) in
  Some (Calendar.mk year month day hour minute second).

Definition format_rfc3339 (secs : Z) : option string :=
  c ← unix_to_calendar secs;
  Some (pad 4 (Calendar.year c) +:+ "-" +:+ pad 2 (Calendar.month c) +:+ "-" +:+ pad 2 (Calendar.day c)
        +:+ "T" +:+ pad 2 (Calendar.hour c) +:+ ":" +:+ pad 2 (Calendar.minute c)
        +:+ ":" +:+ pad 2 (Calendar.second c) +:+ "Z").

(** *** The calendar, defined the other way round *)

(** Leap years up to and including [y]. *)
Definition leaps (y : Z) : Z := y / 4 - y / 100 + y / 400.
(** Days from the epoch to the first of January of [y]. *)
Definition days_before_year (y : Z) : Z := 365 * (y - 1970) + (leaps (y - 1) - leaps 1969).
Definition days_before_month (leap : bool) (m : Z) : Z :=
  foldr Z.add 0 (take (Z.to_nat (m - 1)) (month_days leap)).
Definition calendar_to_unix (c : Calendar.t) : Z :=
  let days := days_before_year (Calendar.year c)
              + days_before_month (is_leap_year (Calendar.year c)) (Calendar.month c)
              + (Calendar.day c - 1) in
  86400 * days + 3600 * Calendar.hour c + 60 * Calendar.minute c + Calendar.second c.
(** A date that exists, with a time of day. *)
Definition valid_date (c : Calendar.t) : Prop :=
  1970 <= Calendar.year c /\
  (exists mdays, month_days (is_leap_year (Calendar.year c)) !! Z.to_nat (Calendar.month c - 1) = Some mdays /\
     1 <= Calendar.month c <= 12 /\ 1 <= Calendar.day c <= mdays) /\
  0 <= Calendar.hour c < 24 /\ 0 <= Calendar.minute c < 60 /\ 0 <= Calendar.second c < 60.

(** ** The file *)

(** [{b:02x}]. *)
Definition hex_digit (n : Z) : Ascii.ascii :=
  Ascii.ascii_of_N (Z.to_N (if n <? 10 then 48 + n else 87 + n)).
Definition hex_byte (b : Byte.byte) : list Ascii.ascii :=
  [hex_digit (byte_val b / 16); hex_digit (byte_val b mod 16)].
Definition hex_encode (bs : bytes) : string := of_chars (concat (hex_byte <$> bs)).

(** What the file system does with an entry: it is written; the directory or the file
    cannot be made; the write stops after some of its characters. *)
Inductive Io : Set := Written | NoDirectory (e : string) | NotOpened (e : string)
| Stopped (written : nat) (e : string).

Definition DEFAULT_RECOVERY_FILE : string := "/etc/tollgate/tokens-to-recover.txt".

Definition recovery_line (timestamp : string) (token : bytes) (mint_url error : string) : string :=
  timestamp +:+ " | mint=" +:+ mint_url +:+ " | error=" +:+ error +:+ " | token="
  +:+ hex_encode token +:+ of_chars [newline].

(** Appending an entry to the contents of the file. *)
Definition write_recovery_entry (io : Io) (line : string) (contents : string)
    : string * result unit string :=
  match io with
  | Written => (contents +:+ line, Ok tt)
  | NoDirectory e | NotOpened e => (contents, Err e)
  | Stopped n e => (contents +:+ of_chars (take n (chars line)), Err e)
  end.

Inductive RecoveryResult : Set :=
| AutoRecovered (amount : Z)
| SavedToFile (path : string)
| Failed (msg : string).

Definition recover_failed_token (receive_token : bytes -> result Z string) (timestamp : string) (io : Io)
    (token : bytes) (mint_url error recovery_file : string) (contents : string)
    : string * RecoveryResult :=
  match receive_token token with
  | Ok amount => (contents, AutoRecovered amount)
  | Err _ =>
      let '(contents, r) :=
        write_recovery_entry io (recovery_line timestamp token mint_url error) contents in
      (contents, match r with
                 | Ok _ => SavedToFile recovery_file
                 | Err io_err =>
                     Failed ("Recovery failed: auto-reclaim rejected, file write failed: " +:+ io_err)
                 end)
  end.

(** *** What the operator does with the file *)

Definition hex_value (c : Ascii.ascii) : option Z :=
  let n := Z.of_N (Ascii.N_of_ascii c) in
  if (48 <=? n) && (n <=? 57) then Some (n - 48)
  else if (97 <=? n) && (n <=? 102) then Some (n - 87) else None.
Fixpoint hex_read (l : list Ascii.ascii) : option bytes :=
  match l with
  | [] => Some []
  | a :: b :: l =>
      x ← hex_value a; y ← hex_value b; rest ← hex_read l; Some (byte_of_Z (16 * x + y) :: rest)
  | _ => None
  end.
Definition equals_sign : Ascii.ascii := Ascii.ascii_of_N 61.
(** The token of the last entry: what follows the last equals sign, up to the newline. *)
Definition last_token (contents : string) : option bytes :=
  w ← last (split_chars equals_sign (chars contents));
  match rev w with
  | c :: r => if decide (c = newline) then hex_read (rev r) else None
  | [] => None
  end.

(** ** Lemmas: the calendar *)

Lemma days_in_year_bounds y : 365 <= days_in_year y <= 366.
Proof. unfold days_in_year. destruct (is_leap_year y); lia. Qed.

Lemma div_step m y : 0 < m -> y / m - (y - 1) / m = if y mod m =? 0 then 1 else 0.
Proof.
  intros Hm. pose proof (Z.div_mod y m ltac:(lia)) as E1. pose proof (Z.mod_pos_bound y m Hm) as B1.
  pose proof (Z.div_mod (y - 1) m ltac:(lia)) as E2. pose proof (Z.mod_pos_bound (y - 1) m Hm) as B2.
  destruct (Z.eqb_spec (y mod m) 0) as [E|E]; nia.
Qed.

Lemma mod_mul_zero y a b : 0 < a -> 0 < b -> (y mod (a * b) =? 0) = true -> (y mod a =? 0) = true.
Proof.
  rewrite !Z.eqb_eq. intros Ha Hb E. apply Z.mod_divide in E as [k ->]; [|lia].
  rewrite (Z.mul_comm a b), Z.mul_assoc. apply Z.mod_mul. lia.
Qed.

(** The loop counts years as the closed formula does. *)
Lemma days_before_next y : days_before_year (y + 1) = days_before_year y + days_in_year y.
Proof.
  unfold days_before_year, days_in_year, is_leap_year, leaps. replace (y + 1 - 1) with y by lia.
  pose proof (div_step 4 y ltac:(lia)). pose proof (div_step 100 y ltac:(lia)).
  pose proof (div_step 400 y ltac:(lia)).
  pose proof (mod_mul_zero y 4 25 ltac:(lia) ltac:(lia)) as M1.
  pose proof (mod_mul_zero y 100 4 ltac:(lia) ltac:(lia)) as M2.
  change (4 * 25) with 100 in M1. change (100 * 4) with 400 in M2.
  destruct (y mod 4 =? 0), (y mod 100 =? 0), (y mod 400 =? 0); cbn [andb orb negb];
    try (by discriminate M1); try (by discriminate M2); lia.
Qed.

Lemma year_loop_total fuel year days :
  0 <= days < 365 * Z.of_nat fuel ->
  exists y d, year_loop fuel year days = Some (y, d) /\ year <= y /\ 0 <= d < days_in_year y /\
    days_before_year y + d = days_before_year year + days.
Proof.
  revert year days. induction fuel as [|fuel IH]; intros year days Hd; [lia|].
  cbn [year_loop]. pose proof (days_in_year_bounds year) as Hb.
  destruct (Z.ltb_spec days (days_in_year year)) as [Hlt|Hge]; [by exists year, days; split_and!; [done|lia..]|].
  destruct (IH (year + 1) (days - days_in_year year)) as (y & d & -> & Hy & Hdd & E); [lia|].
  exists y, d. rewrite days_before_next in E. split_and!; [done|lia..].
Qed.

Lemma month_loop_spec i remaining months :
  0 <= remaining < foldr Z.add 0 months ->
  exists k mdays, months !! k = Some mdays /\
    month_loop i remaining months = (i + Z.of_nat k + 1, remaining - foldr Z.add 0 (take k months) + 1) /\
    0 <= remaining - foldr Z.add 0 (take k months) < mdays.
Proof.
  revert i remaining. induction months as [|mdays months IH]; intros i remaining Hr; cbn in *; [lia|].
  destruct (Z.ltb_spec remaining mdays) as [Hlt|Hge].
  - exists 0%nat, mdays. cbn. split; [done|]. split; [f_equal; lia|lia].
  - destruct (IH (i + 1) (remaining - mdays)) as (k & md & Hk & -> & Hb); [lia|].
    exists (S k), md. cbn. split; [done|]. split; [f_equal; lia|lia].
Qed.

Lemma month_days_total y : foldr Z.add 0 (month_days (is_leap_year y)) = days_in_year y.
Proof. unfold days_in_year. by destruct (is_leap_year y). Qed.

(** ** Lemmas: the file *)

Lemma hex_digit_value n : 0 <= n < 16 -> hex_value (hex_digit n) = Some n /\ hex_digit n <> equals_sign.
Proof.
  intros Hn. assert (Forall (fun k => hex_value (hex_digit (Z.of_nat k)) = Some (Z.of_nat k) /\
    hex_digit (Z.of_nat k) <> equals_sign) (seq 0 16)) as Hd by (by repeat constructor).
  rewrite Forall_forall in Hd. specialize (Hd (Z.to_nat n)). rewrite Z2Nat.id in Hd by lia.
  apply Hd, elem_of_seq. lia.
Qed.

Lemma hex_read_encode bs : hex_read (concat (hex_byte <$> bs)) = Some bs.
Proof.
  induction bs as [|b bs IH]; [done|]. pose proof (byte_val_range b) as Hb.
  cbn [fmap list_fmap concat hex_byte app hex_read].
  destruct (hex_digit_value (byte_val b / 16)) as [-> _]; [split; [apply Z.div_pos; lia|apply Z.div_lt_upper_bound; lia]|].
  destruct (hex_digit_value (byte_val b mod 16)) as [-> _]; [apply Z.mod_pos_bound; lia|].
  cbn [mbind option_bind]. rewrite IH. cbn [mbind option_bind].
  rewrite <- Z.div_mod, byte_of_val by lia. done.
Qed.

Lemma hex_no_equals bs : equals_sign ∉ concat (hex_byte <$> bs).
Proof.
  induction bs as [|b bs IH]; [set_solver|]. pose proof (byte_val_range b) as Hb. cbn.
  destruct (hex_digit_value (byte_val b / 16)) as [_ H1]; [split; [apply Z.div_pos; lia|apply Z.div_lt_upper_bound; lia]|].
  destruct (hex_digit_value (byte_val b mod 16)) as [_ H2]; [apply Z.mod_pos_bound; lia|].
  rewrite !elem_of_cons. intros [?|[?|?]]; congruence || done.
Qed.

(** What follows the last separator. *)
Lemma split_chars_nonempty sep l : split_chars sep l <> [].
Proof. destruct l; [done|]. cbn. destruct (decide _); [done|]. by destruct (split_chars sep l). Qed.

Lemma split_chars_last sep a b : sep ∉ b -> last (split_chars sep (a ++ sep :: b)) = Some b.
Proof.
  intros Hb. induction a as [|c a IH].
  - cbn. rewrite decide_True by done. by rewrite (split_chars_none sep b Hb).
  - cbn [app split_chars]. pose proof (split_chars_nonempty sep (a ++ sep :: b)) as Hne.
    destruct (decide (c = sep)).
    + destruct (split_chars sep (a ++ sep :: b)) as [|w ws]; [done|exact IH].
    + destruct (split_chars sep (a ++ sep :: b)) as [|w [|w' ws]] eqn:E; [done| |exact IH].
      exfalso. revert E. clear -n. intros E.
      assert (forall l, sep ∈ l -> (2 <= length (split_chars sep l))%nat) as K.
      { induction l as [|x l IHl]; [by intros ?%not_elem_of_nil|]. intros Hx. cbn [split_chars].
        destruct (decide (x = sep)) as [->|Hx'].
        - cbn. pose proof (split_chars_nonempty sep l). destruct (split_chars sep l); [done|cbn; lia].
        - apply elem_of_cons in Hx as [->|Hx]; [done|]. specialize (IHl Hx).
          destruct (split_chars sep l); [cbn in IHl; lia|exact IHl]. }
      specialize (K (a ++ sep :: b) ltac:(set_solver)). rewrite E in K. cbn in K. lia.
Qed.

Lemma last_token_line contents timestamp token mint_url error :
  last_token (contents +:+ recovery_line timestamp token mint_url error) = Some token.
Proof.
  unfold last_token, recovery_line, hex_encode.
  assert (exists a, chars (contents +:+ timestamp +:+ " | mint=" +:+ mint_url +:+ " | error=" +:+ error
    +:+ " | token=" +:+ of_chars (concat (hex_byte <$> token)) +:+ of_chars [newline]) =
    a ++ equals_sign :: (concat (hex_byte <$> token) ++ [newline])) as [a ->].
  { exists (chars (contents +:+ timestamp +:+ " | mint=" +:+ mint_url +:+ " | error=" +:+ error
      +:+ " | token")). rewrite !chars_app, !chars_of_chars.
    change (chars " | token=") with (chars " | token" ++ [equals_sign]).
    rewrite <- !(assoc_L (++)). done. }
  rewrite split_chars_last.
  - cbn [mbind option_bind]. rewrite rev_app_distr. cbn [rev app].
    rewrite decide_True by done. rewrite rev_involutive. apply hex_read_encode.
  - rewrite elem_of_app. intros [?%hex_no_equals|Hn]; [done|].
    by apply list_elem_of_singleton in Hn.
Qed.

(** ** Properties *)

(** The timestamp is right, for every second a [u64] can count. The loops return,
    the date they return exists in the Gregorian calendar, with a time of day, and
    counting it back from the epoch, by a formula that has no loop, gives the second
    again. *)
Theorem calendar_roundtrip secs :
  0 <= secs ->
  exists c, unix_to_calendar secs = Some c /\ valid_date c /\ calendar_to_unix c = secs.
Proof.
  intros Hs. unfold unix_to_calendar, days_to_year_and_day, day_of_year_to_month_day.
  assert (0 <= secs / 86400) as Hd by (apply Z.div_pos; lia).
  assert (0 <= secs / 86400 / 365) as Hf by (apply Z.div_pos; lia).
  pose proof (Z.mod_pos_bound (secs / 86400) 365 ltac:(lia)) as Hm.
  pose proof (Z.div_mod (secs / 86400) 365 ltac:(lia)) as Hdm.
  destruct (year_loop_total (Z.to_nat (secs / 86400 / 365 + 1)) 1970 (secs / 86400))
    as (y & d & -> & Hy & Hdy & E); [rewrite Z2Nat.id by lia; lia|].
  cbn [mbind option_bind].
  rewrite <- month_days_total in Hdy.
  destruct (month_loop_spec 0 d _ Hdy) as (k & md & Hk & -> & Hb). eexists. split; [reflexivity|].
  assert (k < 12)%nat as Hk12.
  { apply lookup_lt_Some in Hk. by destruct (is_leap_year y). }
  pose proof (Z.div_mod secs 86400 ltac:(lia)) as D1. pose proof (Z.mod_pos_bound secs 86400 ltac:(lia)) as B1.
  set (r := secs mod 86400) in *.
  pose proof (Z.div_mod r 3600 ltac:(lia)) as D2. pose proof (Z.mod_pos_bound r 3600 ltac:(lia)) as B2.
  set (q := r mod 3600) in *.
  pose proof (Z.div_mod q 60 ltac:(lia)) as D3. pose proof (Z.mod_pos_bound q 60 ltac:(lia)) as B3.
  assert (r mod 60 = q mod 60) as Er.
  { rewrite D2. replace (3600 * (r / 3600) + q) with (q + (60 * (r / 3600)) * 60) by lia.
    apply Z.mod_add. lia. }
  assert (0 <= r / 3600 < 24 /\ 0 <= q / 60 < 60) as [H24 H60] by lia.
  unfold valid_date, calendar_to_unix. cbn [Calendar.year Calendar.month Calendar.day Calendar.hour
    Calendar.minute Calendar.second].
  replace (0 + Z.of_nat k + 1 - 1) with (Z.of_nat k) by lia. rewrite Nat2Z.id.
  split.
  - split_and!; try lia. exists md. split_and!; [done|lia..].
  - unfold days_before_month. replace (0 + Z.of_nat k + 1 - 1) with (Z.of_nat k) by lia.
    rewrite Nat2Z.id. replace (days_before_year 1970) with 0 in E by reflexivity. lia.
Qed.

Lemma calendar_roundtrip_witness :
  unix_to_calendar 1709209845 = Some (Calendar.mk 2024 2 29 12 30 45) /\
  exists c, unix_to_calendar 1709209845 = Some c /\ valid_date c.
Proof.
  split; [vm_compute; reflexivity|].
  destruct (calendar_roundtrip 1709209845 ltac:(lia)) as (c & E & V & _). by exists c.
Defined.

(** A token whose payment failed is not lost. Either the wallet took it back, and
    the file is as it was; or the file was extended by an entry from which the very
    bytes of the token can be read, whatever the mint's URL and the error message
    contain; or the failure is reported. In no case does anything already in the file
    change. *)
Theorem failed_token_kept receive timestamp io token mint_url error path contents :
  let '(contents', r) :=
    recover_failed_token receive timestamp io token mint_url error path contents in
  chars contents `prefix_of` chars contents' /\
  match r with
  | AutoRecovered amount => receive token = Ok amount /\ contents' = contents
  | SavedToFile p => p = path /\ is_ok (receive token) = false /\ last_token contents' = Some token
  | Failed _ => is_ok (receive token) = false /\ io <> Written
  end.
Proof.
  unfold recover_failed_token. destruct (receive token) as [amount|e]; cbn; [done|].
  destruct io; cbn.
  - split; [rewrite chars_app; by apply prefix_app_r|]. split_and!; [done|done|apply last_token_line].
  - done.
  - done.
  - split; [rewrite chars_app; by apply prefix_app_r|done].
Qed.
