(* ===== verification/V1Crowsnest.v ===== *)
(** * Discovery of upstream gateways

    Models [crates/tollgate-net/src/v1_compat/crowsnest.rs]: reading an advertisement,
    probing a gateway, and the scan over the configured gateways, which hands the ones
    found to a [GatewayHandler] and gives up on the ones that fail. The handler is an
    interface, here a class; the session manager of [V1Gateways.v] is its instance. *)

From S2P Require Import Prelude F64 Decimal V1Nostr V1Merchant V1Client V1Gateways.

Definition DISCONNECT_AFTER_CONSECUTIVE_FAILURES : Z := 3.

Module CrowsnestConfig.
Record t : Set := mk {
  gateway_ips : list string;
  verify_signature : bool;
  interface_name : string;
  mac_address : string
}.
Definition default : t := mk [] true "eth0" "00:00:00:00:00:00".
End CrowsnestConfig.

(** ** Reading an advertisement *)

Module UpstreamMint.
Record t : Set := mk { url : string; price_per_step : Z; unit : string; min_steps : Z }.
Definition of_option (p : PricingOption.t) : t :=
  mk (PricingOption.mint_url p) (PricingOption.price_per_step p) (PricingOption.unit p)
    (PricingOption.min_steps p).
End UpstreamMint.

Module DiscoveredUpstream.
Record t : Set := mk {
  gateway_ip : string;
  interface : string;
  nostr_pubkey : string;
  metric : string;
  step_size : Z;
  accepted_mints : list UpstreamMint.t
}.
End DiscoveredUpstream.

Inductive UpstreamDetectError : Set :=
| Http (e : string)
| InvalidAdvertisement (e : string)
| InvalidSignature
| Timeout.

Section probe.
Context `{Nostr}.
(** The signature check of the [nostr] crate. *)
Context (verified : Event -> bool).

(** What is wrong with an advertisement is a text that [probe_url] drops; the account of
    an event that could not be read is left out of it. *)
Definition parse_advertisement (event_json gateway_ip interface : string) (verify_signature : bool)
    : result DiscoveredUpstream.t UpstreamDetectError :=
  match TollGateAdvertisement.from_json event_json with
  | Err _ => Err (InvalidAdvertisement "failed to parse event")
  | Ok ad =>
      if verify_signature && negb (verified ad) then Err InvalidSignature
      else match TollGateAdvertisement.metric ad with
      | None => Err (InvalidAdvertisement "missing 'metric' tag")
      | Some metric =>
          match TollGateAdvertisement.step_size ad with
          | None => Err (InvalidAdvertisement "missing or invalid 'step_size' tag")
          | Some step_size =>
              match TollGateAdvertisement.pricing_options ad with
              | [] => Err (InvalidAdvertisement "no 'price_per_step' tags found")
              | pricing =>
                  Ok (DiscoveredUpstream.mk gateway_ip interface (ev_pubkey ad) metric step_size
                        (UpstreamMint.of_option <$> pricing))
              end
          end
      end
  end.

(** What comes back from the gateway: nothing in time, no connection, or an answer
    whose status says success or not and whose body may fail to arrive. *)
Inductive Reply : Set :=
| NoReply
| Refused (e : string)
| Answered (success : bool) (body : result string string).

Definition probe_url (reply : Reply) (gateway_ip : string) (verify_signature : bool)
    : result (option DiscoveredUpstream.t) UpstreamDetectError :=
  match reply with
  | NoReply => Err Timeout
  | Refused e => Err (Http e)
  | Answered success body =>
      if negb success then Ok None
      else match body with
      | Err e => Err (Http e)
      | Ok body =>
          match parse_advertisement body gateway_ip "unknown" verify_signature with
          | Ok discovered => Ok (Some discovered)
          | Err (InvalidAdvertisement _) => Ok None
          | Err e => Err e
          end
      end
  end.
Definition probe_gateway (get : string -> Reply) (gateway_ip : string) (verify_signature : bool)
    : result (option DiscoveredUpstream.t) UpstreamDetectError :=
  probe_url (get ("http://" +:+ gateway_ip +:+ ":2121/")) gateway_ip verify_signature.
End probe.

(** ** The handler *)

Inductive GatewayHandlerError : Set := HSessionExists (ip : string) | HOther (e : string).

(** [None] stands for a call that has not returned. *)
Class GatewayHandler (M : Type) : Type := {
  gateway_connected : string -> string -> string -> M -> option (M * result unit GatewayHandlerError);
  gateway_disconnect : string -> M -> M * result unit GatewayHandlerError
}.

Module Crowsnest.
Section scan.
Context {M : Type} `{GatewayHandler M} (cfg : CrowsnestConfig.t).

(** The failure counts of the loop, and the handler. *)
Abbreviation state := (gmap string Z * M)%type.

(** The treatment of one gateway's probe result. *)
Definition treat (st : state) (gateway_ip : string)
    (probe_result : result (option DiscoveredUpstream.t) UpstreamDetectError) : option state :=
  let '(failure_counts, m) := st in
  match probe_result with
  | Ok (Some _) =>
      '(m, _) ← gateway_connected (CrowsnestConfig.interface_name cfg) (CrowsnestConfig.mac_address cfg)
                  gateway_ip m;
      Some (<[gateway_ip := 0]> failure_counts, m)
  | Ok None => Some (<[gateway_ip := 0]> failure_counts, m)
  | Err _ =>
      let count := unwrap_or (failure_counts !! gateway_ip) 0 + 1 in
      if DISCONNECT_AFTER_CONSECUTIVE_FAILURES <=? count
      then let '(m, _) := gateway_disconnect (CrowsnestConfig.interface_name cfg) m in
           Some (<[gateway_ip := 0]> failure_counts, m)
      else Some (<[gateway_ip := count]> failure_counts, m)
  end.

(** One scan of the configured gateways, with the probe's result for each. *)
Definition scan (probe : string -> result (option DiscoveredUpstream.t) UpstreamDetectError) (st : state)
    : option state :=
  foldl (fun st gateway_ip => st ≫= fun st => treat st gateway_ip (probe gateway_ip))
    (Some st) (CrowsnestConfig.gateway_ips cfg).

(** A number of scans. *)
Definition scans (probes : list (string -> result (option DiscoveredUpstream.t) UpstreamDetectError))
    (st : state) : option state :=
  foldl (fun st probe => st ≫= scan probe) (Some st) probes.
End scan.
End Crowsnest.

(** The session manager, for the times and the answers of each gateway. *)
Definition handler_error (e : SessionManager.Error) : GatewayHandlerError :=
  match e with
  | SessionManager.SessionExists ip => HSessionExists ip
  | SessionManager.Client _ => HOther "client error"
  end.
Definition manager_handler (gateways : string -> Upstream.t) (now : Z) : GatewayHandler SessionManager.t := {|
  gateway_connected interface_name _ gateway_ip m :=
    '(m, _, r) ← SessionManager.handle_gateway_connected (gateways gateway_ip) now interface_name gateway_ip m;
    Some (m, match r with Ok _ => Ok tt | Err e => Err (handler_error e) end);
  gateway_disconnect interface_name m := (SessionManager.handle_disconnect interface_name m, Ok tt)
|}.

(** ** What the handler is asked *)

Inductive Call : Set := Connected (gateway_ip : string) | Disconnected.

(** The results of one scan's probes. *)
Abbreviation Probe := (string -> result (option DiscoveredUpstream.t) UpstreamDetectError).

(** How many probes of a gateway have failed since the last that did not, the latest
    probe first. *)
Fixpoint failing (gateway_ip : string) (latest_first : list Probe) : Z :=
  match latest_first with
  | [] => 0
  | p :: past => if is_ok (p gateway_ip) then 0 else 1 + failing gateway_ip past
  end.

(** The call a probe leads to: a discovery is handed over; every third failure in a
    row disconnects. *)
Definition call_of (past : list Probe) (p : Probe) (gateway_ip : string) : list Call :=
  match p gateway_ip with
  | Ok (Some _) => [Connected gateway_ip]
  | Ok None => []
  | Err _ => if failing gateway_ip (p :: past) mod 3 =? 0 then [Disconnected] else []
  end.
Fixpoint expected (gateway_ips : list string) (past probes : list Probe) : list Call :=
  match probes with
  | [] => []
  | p :: probes =>
      concat (call_of past p <$> gateway_ips) ++ expected gateway_ips (p :: past) probes
  end.
Section calls.
Context {M : Type} `{GatewayHandler M} (cfg : CrowsnestConfig.t).

Definition make_call (m : option M) (c : Call) : option M :=
  m ← m;
  match c with
  | Connected ip =>
      '(m, _) ← gateway_connected (CrowsnestConfig.interface_name cfg) (CrowsnestConfig.mac_address cfg) ip m;
      Some m
  | Disconnected => Some (gateway_disconnect (CrowsnestConfig.interface_name cfg) m).1
  end.
Definition make_calls (calls : list Call) (m : option M) : option M := foldl make_call m calls.

(** ** Lemmas *)

Lemma make_calls_none calls : make_calls calls None = None.
Proof. by induction calls. Qed.

Lemma failing_nonneg ip past : 0 <= failing ip past.
Proof. induction past as [|p past IH]; cbn; [done|]. destruct (is_ok _); lia. Qed.

(** The loop's count is the number of failures in a row, modulo three. *)
Definition counted (past : list Probe) (counts : gmap string Z) (ip : string) : Prop :=
  unwrap_or (counts !! ip) 0 = failing ip past mod 3.

Lemma treat_calls past p ip counts m :
  counted past counts ip ->
  exists counts', Crowsnest.treat cfg (counts, m) ip (p ip) =
      (fun m => (counts', m)) <$> make_calls (call_of past p ip) (Some m) /\
    counted (p :: past) counts' ip /\ (forall ip', ip' <> ip -> counts' !! ip' = counts !! ip').
Proof.
  intros Hc. unfold Crowsnest.treat, call_of, counted in *. cbn [failing].
  destruct (p ip) as [[d|]|e] eqn:Ep; cbn [is_ok].
  - exists (<[ip := 0]> counts). rewrite lookup_insert_eq. split; [|split; [done|]].
    + cbn. by destruct (gateway_connected _ _ ip m) as [[m' r]|].
    + intros ip' Hne. by rewrite lookup_insert_ne.
  - exists (<[ip := 0]> counts). rewrite lookup_insert_eq. split_and!; [done..|].
    intros ip' Hne. by rewrite lookup_insert_ne.
  - rewrite Hc. pose proof (Z.mod_pos_bound (failing ip past) 3 ltac:(lia)) as Hb.
    pose proof (Z.add_mod_idemp_r 1 (failing ip past) 3 ltac:(lia)) as Hm.
    unfold DISCONNECT_AFTER_CONSECUTIVE_FAILURES.
    assert (failing ip past mod 3 = 2 \/ failing ip past mod 3 = 0 \/ failing ip past mod 3 = 1)
      as [E|[E|E]] by lia; rewrite E in Hm |- *; rewrite <- Hm.
    1: exists (<[ip := 0]> counts); change ((1 + 2) mod 3) with 0;
      split; [cbn; by destruct (gateway_disconnect _ m)|].
    2: exists (<[ip := 1]> counts); change ((1 + 0) mod 3) with 1; split; [done|].
    3: exists (<[ip := 2]> counts); change ((1 + 1) mod 3) with 2; split; [done|].
    all: rewrite lookup_insert_eq; split; [done|]; intros ip' Hne; by rewrite lookup_insert_ne.
Qed.

Abbreviation treat_all p := (foldl (fun st ip => st ≫= fun st => Crowsnest.treat cfg st ip (p ip))).

Lemma treat_all_none p ips : treat_all p None ips = None.
Proof. by induction ips. Qed.

Lemma treat_all_calls past p ips counts m :
  NoDup ips -> (forall ip, ip ∈ ips -> counted past counts ip) ->
  exists counts', treat_all p (Some (counts, m)) ips =
      (fun m => (counts', m)) <$> make_calls (concat (call_of past p <$> ips)) (Some m) /\
    (forall ip, ip ∈ ips -> counted (p :: past) counts' ip) /\
    (forall ip, ip ∉ ips -> counts' !! ip = counts !! ip).
Proof.
  revert counts m. induction ips as [|ip ips IH]; intros counts m Hnd Hc.
  { exists counts. split_and!; [done|set_solver|done]. }
  apply NoDup_cons in Hnd as [Hni Hnd]. cbn [foldl].
  destruct (treat_calls past p ip counts m (Hc ip ltac:(set_solver))) as (c1 & E1 & H1 & H2).
  cbn [mbind option_bind]. rewrite E1. cbn [fmap list_fmap concat].
  unfold make_calls at 2. rewrite foldl_app. fold (make_calls (call_of past p ip) (Some m)).
  destruct (IH c1 (match make_calls (call_of past p ip) (Some m) with Some m' => m' | None => m end) Hnd)
    as (c2 & E2 & H3 & H4).
  { intros ip' Hin. unfold counted. rewrite H2 by (by intros ->). apply Hc. set_solver. }
  exists c2. split_and!.
  - destruct (make_calls (call_of past p ip) (Some m)) as [m'|]; cbn [fmap option_fmap option_map].
    + exact E2.
    + fold (make_calls (concat (call_of past p <$> ips)) None).
      by rewrite treat_all_none, make_calls_none.
  - intros ip' [->|Hin]%elem_of_cons; [|by apply H3]. unfold counted. by rewrite H4.
  - intros ip' Hn. rewrite H4 by set_solver. apply H2. set_solver.
Qed.

Lemma scans_calls past probes counts m :
  NoDup (CrowsnestConfig.gateway_ips cfg) ->
  (forall ip, ip ∈ CrowsnestConfig.gateway_ips cfg -> counted past counts ip) ->
  snd <$> Crowsnest.scans cfg probes (counts, m) =
    make_calls (expected (CrowsnestConfig.gateway_ips cfg) past probes) (Some m).
Proof.
  intros Hnd. unfold Crowsnest.scans. revert past counts m.
  induction probes as [|p probes IH]; intros past counts m Hc; [done|].
  cbn [foldl expected mbind option_bind]. unfold Crowsnest.scan at 2.
  destruct (treat_all_calls past p _ counts m Hnd Hc) as (c1 & -> & H1 & _).
  unfold make_calls at 2. rewrite foldl_app. fold (make_calls (concat (call_of past p <$>
    CrowsnestConfig.gateway_ips cfg)) (Some m)).
  destruct (make_calls _ (Some m)) as [m'|]; cbn [fmap option_fmap option_map].
  - by apply IH.
  - fold (make_calls (expected (CrowsnestConfig.gateway_ips cfg) (p :: past) probes) None).
    rewrite make_calls_none. clear. by induction probes.
Qed.
End calls.

(** ** Two gateways on one interface, for the witnesses *)

Module CrowsnestDemo.
Definition config : CrowsnestConfig.t :=
  CrowsnestConfig.mk ["192.168.1.1"; "192.168.2.1"] true "eth0" "00:00:00:00:00:00".
(** A handler that writes the calls down. *)
Definition recorder : GatewayHandler (list Call) := {|
  gateway_connected _ _ ip m := Some (m ++ [Connected ip], Ok tt);
  gateway_disconnect _ m := (m ++ [Disconnected], Ok tt)
|}.
Definition found (ip : string) : DiscoveredUpstream.t :=
  DiscoveredUpstream.mk ip "unknown" "" "milliseconds" 60000 [].
(** The first gateway is always found, the second never answers. *)
Definition one_down : Probe := fun ip =>
  if bool_decide (ip = "192.168.1.1"%string) then Ok (Some (found ip)) else Err Timeout.
(** Sessions with both. *)
Definition session (tracker : nat) : SessionManager.session :=
  SessionManager.mkSession "eth0" BuyDemo.client tracker 0 None 0 1.
Definition manager : SessionManager.t :=
  SessionManager.mk BuyDemo.config
    {["192.168.1.1"%string := session 0; "192.168.2.1"%string := session 1]} 2 {[0%nat; 1%nat]}.
End CrowsnestDemo.

(** ** Properties *)

(** A scan asks the handler for exactly what its probes call for. Over any number
    of scans of distinct gateways, whatever each probe answers and whatever the handler
    does, the handler ends as if it had been asked, gateway after gateway and scan after
    scan, to take over each gateway found, and to disconnect at every third failure in a
    row of a gateway, an answer that is no advertisement ending the row like a discovery
    does; no other call is made. *)
Theorem crowsnest_calls {M : Type} `{GatewayHandler M} cfg probes (m : M) :
  NoDup (CrowsnestConfig.gateway_ips cfg) ->
  snd <$> Crowsnest.scans cfg probes (∅, m) =
    make_calls cfg (expected (CrowsnestConfig.gateway_ips cfg) [] probes) (Some m).
Proof. intros Hnd. by apply scans_calls. Qed.

Lemma crowsnest_calls_witness :
  NoDup (CrowsnestConfig.gateway_ips CrowsnestDemo.config) /\
  snd <$> Crowsnest.scans (H := CrowsnestDemo.recorder) CrowsnestDemo.config
      (replicate 3 CrowsnestDemo.one_down) (∅, []) =
    Some [Connected "192.168.1.1"; Connected "192.168.1.1"; Connected "192.168.1.1"; Disconnected].
Proof.
  assert (NoDup (CrowsnestConfig.gateway_ips CrowsnestDemo.config)) as Hnd
    by (apply (bool_decide_unpack _); exact I).
  split; [exact Hnd|].
  rewrite (crowsnest_calls (H := CrowsnestDemo.recorder) CrowsnestDemo.config
    (replicate 3 CrowsnestDemo.one_down) [] Hnd).
  vm_compute. reflexivity.
Defined.

(** ** Departures *)

(** A gateway that stops answering costs every gateway of the interface its session:
    the handler is asked to disconnect the interface, not the gateway. *)
Theorem one_gateway_down_drops_all :
  SessionManager.sessions <$> (snd <$> Crowsnest.scans
      (H := manager_handler (fun _ => BuyDemo.upstream) 0) CrowsnestDemo.config
      (replicate 3 CrowsnestDemo.one_down) (∅, CrowsnestDemo.manager)) = Some ∅.
Proof. vm_compute. reflexivity. Qed.
