(* ===== verification/V1Server.v ===== *)
(** * The V1 server

    Models [v1_compat/handlers.rs], [v1_compat/adapter.rs] and the lease lookup of
    [v1_compat/mac_resolver.rs]: HTTP endpoints in the shape of the V1 routers,
    served by the shared driver of [NetDriver.v]. JSON and base64 decoding, the
    derivation of a public key and the CDK wallet's Lightning calls are third-party
    code and parameters; what the proxy headers say of the client's address is an
    input. *)

From S2P Require Import Prelude F64 Wire ToyCodec Frames Product Pricing Session SessionFacts SessionIso.
From S2P Require Import Wallet Json Consume NetDriver NetDriverFacts Config Status Bootstrap.
From S2P Require Import Decimal Shell Text V1Nostr V1Merchant.

(** ** Third-party decoders *)

(** [URL_SAFE_NO_PAD.decode] and [STANDARD.decode]. *)
Class Base64 : Type := {
  url_safe_no_pad_decode : string -> option bytes;
  standard_decode : string -> option bytes
}.
(** The compressed public key of a 32-byte secret; [None] is an invalid scalar. *)
Class Secp256k1 : Type := public_key_of : bytes -> option PublicKey.t.

(** ** Who is calling *)

Inductive MacResolveError : Set := NotFound (ip : string) | Io.

(** [parts.len() >= 3 && parts[2] == ip], then [parts[1]]. *)
Definition lease_mac (ip line : string) : option string :=
  match split_whitespace line with
  | _ :: mac :: addr :: _ => if decide (addr = ip) then Some mac else None
  | _ => None
  end.
(** [DhcpLeasesResolver]: [leases] is the file, if it can be read. *)
Definition resolve (leases : option string) (ip : string) : result string MacResolveError :=
  match leases with
  | None => Err Io
  | Some contents => ok_or (head (omap (lease_mac ip) (lines contents))) (NotFound ip)
  end.

Definition is_separator (c : Ascii.ascii) : bool :=
  bool_decide (c = Ascii.ascii_of_N 58) || bool_decide (c = Ascii.ascii_of_N 45).
(** [mac.replace([':', '-'], "")]. *)
Definition clean_mac (mac : string) : string :=
  String.string_of_list_ascii (filter (fun c => is_separator c = false) (String.list_ascii_of_string mac)).

Section identity.
Context `{Sha256, Secp256k1, HexCodec}.

(** The peer a MAC address stands for; [None] is the [expect]'s panic. *)
Definition mac_peer (mac : string) : option PublicKey.t :=
  public_key_of (sha256 (as_bytes ("tollgate-v1-compat/" +:+ clean_mac mac))).
Definition mac_to_peer_hex (mac : string) : option string :=
  (fun pk => hex_encode (PublicKey.as_bytes pk)) <$> mac_peer mac.

Definition resolve_peer_hex (leases : option string) (ip : option IpAddr) : option string :=
  ip ← ip;
  mac ← ok (resolve leases ip);
  mac_to_peer_hex mac.
End identity.

(** [extract_ip] and [extract_ip_full]: the proxy headers only when they are trusted,
    the connection's address where the handler has it. *)
Definition extract_ip (header_ip : option IpAddr) (trust : bool) : option IpAddr :=
  if trust then header_ip else None.
Definition extract_ip_full (header_ip conn : option IpAddr) (trust : bool) : option IpAddr :=
  opt_or (extract_ip header_ip trust) conn.

(** ** Tokens *)

Section tokens.
Context `{SerdeJson, Base64, Nostr}.

Definition extract_payment_token (body : string) : option string :=
  let trimmed := trim body in
  if starts_with "cashu" trimmed || starts_with "cashuA" trimmed || starts_with "cashuB" trimmed
  then Some trimmed
  else json ← json_from_str body; token ← get json "token"; as_str token.

Definition proof_amounts (token : list Value) : list Z :=
  omap (fun entry => get entry "proofs" ≫= as_array) token ≫=
  omap (fun proof => get proof "amount" ≫= value_as_u64).

(** The sum wraps. *)
Definition decode_cashu_amount (token : string) : option Z :=
  payload ← opt_or (strip_prefix "cashuA" token) (strip_prefix "cashua" token);
  decoded ← opt_or (url_safe_no_pad_decode payload) (standard_decode payload);
  json ← json_from_slice decoded;
  Some (map_or (get json "token" ≫= as_array) 0
    (fun arr => foldl (fun a z => wrap_u64 (a + z)) 0 (proof_amounts arr))).

Definition extract_token_amount_and_allotment (token : string) (config : V1ServerConfig.t) : Z * Z :=
  let amount := unwrap_or (decode_cashu_amount token) 0 in
  if amount =? 0 then (0, 0)
  else
    let mint_url := map_or (head (V1ServerConfig.accepted_mints config)) EmptyString AcceptedMint.url in
    (amount, unwrap_or (ok (calculate_allotment amount mint_url config)) 0).

(** What a rejected token's mint is marked by: the code reads no mint from it. *)
Definition extract_mint_from_token (_token : string) : option string := None.
End tokens.

(** ** Admitting a peer *)

Module V1PaymentResult.
Record t : Set := mk { accepted : bool; reason : option string; peer_hex : string }.
End V1PaymentResult.

Section admission.
Context `{Minicbor, HexCodec, Cashu, UrlParser}.
Context (clock : nat -> Z) (mint : nat -> CheckState) (cfg : Driver.config).

(** The first decodable acknowledgement in the outbox. *)
Fixpoint find_ack (outbox : list bytes) : option BootstrapAck.t :=
  match outbox with
  | [] => None
  | msg :: outbox =>
      if decide (peek_type msg = Some MessageType.BootstrapAck) then
        match BootstrapAck.decode msg with
        | Some ack => Some ack
        | None => find_ack outbox
        end
      else find_ack outbox
  end.

Definition admit_peer_with_token (peer_hex : string) (ip : option IpAddr) (token : string)
    (d : Driver.t) : Driver.t * V1PaymentResult.t :=
  let d := (Driver.peer_connected clock mint cfg peer_hex ip d).1 in
  let d := Driver.message_received clock mint peer_hex
             (BootstrapToken.encode (BootstrapToken.new (as_bytes token))) d in
  let '(d, outbox) := Driver.drain_outbox peer_hex d in
  (d, match find_ack outbox with
      | Some ack => V1PaymentResult.mk (BootstrapAck.is_accepted ack) (BootstrapAck.reason ack) peer_hex
      | None => V1PaymentResult.mk false (Some "no response from gateway"%string) peer_hex
      end).

Definition find_peer_status (peer_hex : string) (d : Driver.t) : Driver.t * option PeerStatus.t :=
  let '(d, st) := status clock cfg d in
  (d, find (fun p => bool_decide (PeerStatus.pubkey p = peer_hex)) (NodeStatus.peers st)).

Record UsageInfo : Set := mkUsage { delivered : Z; balance : Z; allotment : Z }.
Definition get_usage_json (peer_hex : string) (d : Driver.t) : Driver.t * option UsageInfo :=
  let '(d, peer) := find_peer_status peer_hex d in
  (d, (fun p => let balance := Z.max (PeerStatus.their_balance p) 0 in
                mkUsage (PeerStatus.delivered p) balance balance) <$> peer).

Record BalanceInfo : Set := mkBalance {
  b_balance : Z; b_remaining : Z; b_allotment : Z; b_delivered : Z; b_received : Z;
  b_state : string; b_session_active : bool; b_metered_secs : Z
}.
Definition get_balance_json (peer_hex : string) (d : Driver.t) : Driver.t * option BalanceInfo :=
  let '(d, peer) := find_peer_status peer_hex d in
  (d, (fun p => let remaining := Z.max (PeerStatus.their_balance p) 0 in
                mkBalance (PeerStatus.their_balance p) remaining remaining (PeerStatus.delivered p)
                  (PeerStatus.received p) (PeerStatus.state p)
                  (bool_decide (PeerStatus.state p = "Active"%string)) (PeerStatus.metered_secs p)) <$> peer).
End admission.

(** ** The endpoints *)

(** What a handler answers: a signed event's JSON, an error object, or data. *)
Inductive Body : Set :=
| BEvent (json : string)
| BError (message : string)
| BUsage (remaining allotment step_size : Z) (metric : string) (delivered : Z)
| BBalance (b : BalanceInfo)
| BQuote (quote invoice : string) (amount expiry : Z)
| BQuoteState (quote state : string)
| BQuoteFailed (message : string) (amount : Z)
| BText (text : string).
Record Response : Set := mkResponse { status_code : Z; body : Body }.
Definition OK_200 : Z := 200.
Definition BAD_REQUEST : Z := 400.
Definition PAYMENT_REQUIRED : Z := 402.
Definition NOT_FOUND : Z := 404.
Definition INTERNAL_SERVER_ERROR : Z := 500.
Definition SERVICE_UNAVAILABLE : Z := 503.

(** The calls of [CdkWallet] that the Lightning endpoints make. *)
Inductive QuoteState : Set := Unpaid | Paid | Issued.
Record MintQuoteInfo : Set := mkQuote {
  quote_id : string; invoice : string; q_amount : Z; expiry : Z
}.
Record CdkWallet : Type := mkCdk {
  request_mint_quote : Z -> string -> result MintQuoteInfo string;
  check_mint_quote_status : string -> result QuoteState string
}.

Section handlers.
Context `{Minicbor, HexCodec, Cashu, UrlParser, Sha256, Secp256k1, SerdeJson, Base64, Nostr}.
Context (clock : nat -> Z) (mint : nat -> CheckState) (cfg : Driver.config).

Definition handle_get_details (config : V1ServerConfig.t) : Response :=
  match build_advertisement config with
  | Ok json => mkResponse OK_200 (BEvent json)
  | Err e => mkResponse INTERNAL_SERVER_ERROR (BError ("failed to build advertisement: " +:+ e))
  end.

(** The answer to an accepted payment. *)
Definition accepted_response (config : V1ServerConfig.t) (peer_hex token : string) (now_secs : Z)
    : Response :=
  let '(amount_sat, allotment) := extract_token_amount_and_allotment token config in
  let session := CustomerSession.mk peer_hex now_secs (V1ServerConfig.metric config) allotment in
  match build_session_event session config peer_hex amount_sat "cashu" with
  | Ok event_json => mkResponse OK_200 (BEvent event_json)
  | Err e => mkResponse INTERNAL_SERVER_ERROR (BError ("session event error: " +:+ e))
  end.

(** A failed payment marks the token's mint down unless the token was spent. *)
Definition after_failure (config : V1ServerConfig.t) (reason token : string) : V1ServerConfig.t :=
  match V1ServerConfig.mint_health config with
  | Some tracker =>
      if negb (contains "spent" reason) && negb (contains "Spent" reason) then
        match extract_mint_from_token token with
        | Some mint_url =>
            V1ServerConfig.set_mint_health (MintHealthTracker.mark_unreachable mint_url tracker) config
        | None => config
        end
      else config
  | None => config
  end.

Definition rejected_response (config : V1ServerConfig.t) (peer_hex : string) (reason : option string)
    : Response :=
  match build_notice_event "error" "payment_rejected" (unwrap_or reason "rejected"%string)
          (Some peer_hex) config with
  | Ok json => mkResponse PAYMENT_REQUIRED (BEvent json)
  | Err _ => mkResponse PAYMENT_REQUIRED (BError "payment rejected")
  end.

Definition handle_post_payment (config : V1ServerConfig.t) (leases : option string)
    (header_ip : option IpAddr) (now_secs : Z) (request : string) (d : Driver.t)
    : Driver.t * V1ServerConfig.t * Response :=
  match extract_payment_token request with
  | None => (d, config, mkResponse BAD_REQUEST (BError "missing or invalid token"))
  | Some token =>
      let client_ip := extract_ip header_ip (V1ServerConfig.trust_proxy_headers config) in
      match resolve_peer_hex leases client_ip with
      | None => (d, config, mkResponse BAD_REQUEST (BError "could not resolve client identity"))
      | Some peer_hex =>
          let '(d, r) := admit_peer_with_token clock mint cfg peer_hex client_ip token d in
          if V1PaymentResult.accepted r then (d, config, accepted_response config peer_hex token now_secs)
          else
            let reason := V1PaymentResult.reason r in
            (d, after_failure config (unwrap_or reason EmptyString) token,
             rejected_response config peer_hex reason)
      end
  end.

Definition handle_usage (config : V1ServerConfig.t) (leases : option string)
    (header_ip conn : option IpAddr) (d : Driver.t) : Driver.t * Response :=
  let client_ip := extract_ip_full header_ip conn (V1ServerConfig.trust_proxy_headers config) in
  match resolve_peer_hex leases client_ip with
  | None => (d, mkResponse BAD_REQUEST (BError "unknown client"))
  | Some peer_hex =>
      let '(d, usage) := get_usage_json clock cfg peer_hex d in
      (d, match usage with
          | Some u => mkResponse OK_200 (BUsage (balance u) (allotment u)
              (V1ServerConfig.step_size config) (V1ServerConfig.metric config) (delivered u))
          | None => mkResponse NOT_FOUND (BError "no active session")
          end)
  end.

Definition handle_whoami (config : V1ServerConfig.t) (leases : option string)
    (header_ip conn : option IpAddr) : Response :=
  let client_ip := extract_ip_full header_ip conn (V1ServerConfig.trust_proxy_headers config) in
  match resolve leases (unwrap_or client_ip EmptyString) with
  | Ok mac => mkResponse OK_200 (BText ("mac=" +:+ mac))
  | Err _ => mkResponse BAD_REQUEST (BError "unknown client")
  end.

Definition handle_balance (config : V1ServerConfig.t) (leases : option string)
    (header_ip conn : option IpAddr) (d : Driver.t) : Driver.t * Response :=
  let client_ip := extract_ip_full header_ip conn (V1ServerConfig.trust_proxy_headers config) in
  match resolve_peer_hex leases client_ip with
  | None => (d, mkResponse BAD_REQUEST (BError "unknown client"))
  | Some peer_hex =>
      let '(d, b) := get_balance_json clock cfg peer_hex d in
      (d, match b with
          | Some b => mkResponse OK_200 (BBalance b)
          | None => mkResponse NOT_FOUND (BError "no active session")
          end)
  end.

Definition handle_post_ln_invoice (config : V1ServerConfig.t) (wallet : option CdkWallet)
    (request : string) : Response :=
  let amount := unwrap_or (json_from_str request ≫= fun v => get v "amount" ≫= value_as_u64) 8 in
  match wallet with
  | None => mkResponse SERVICE_UNAVAILABLE (BError "wallet not configured")
  | Some w =>
      let mint_url := map_or (head (V1ServerConfig.accepted_mints config)) LOCAL_MINT AcceptedMint.url in
      match request_mint_quote w amount mint_url with
      | Ok info => mkResponse OK_200 (BQuote (quote_id info) (invoice info) (q_amount info) (expiry info))
      | Err e => mkResponse INTERNAL_SERVER_ERROR (BQuoteFailed ("mint quote failed: " +:+ e) amount)
      end
  end.

Definition state_str (s : QuoteState) : string :=
  match s with Unpaid => "UNPAID" | Paid => "PAID" | Issued => "ISSUED" end.

Definition handle_get_ln_invoice (wallet : option CdkWallet) (quote : option string) : Response :=
  match quote with
  | None => mkResponse BAD_REQUEST (BError "missing quote parameter")
  | Some quote_id =>
      match wallet with
      | None => mkResponse SERVICE_UNAVAILABLE (BError "wallet not configured")
      | Some w =>
          match check_mint_quote_status w quote_id with
          | Ok state => mkResponse OK_200 (BQuoteState quote_id (state_str state))
          | Err e =>
              mkResponse (if contains "unknown" (to_lowercase e) then NOT_FOUND else INTERNAL_SERVER_ERROR)
                (BError ("quote check failed: " +:+ e))
          end
      end
  end.
End handlers.

(** ** Lemmas: admission *)

Section admission.
Context `{MinicborLaws, HexCodec, Cashu, UrlParser, !HexLaws}.
Context (clock : nat -> Z) (mint : nat -> CheckState) (cfg : Driver.config).

Lemma find_ack_eq outbox :
  find_ack outbox = Client.find_message (T := BootstrapAck.t) MessageType.BootstrapAck outbox.
Proof.
  unfold Client.find_message. induction outbox as [|m outbox IH]; [done|]. cbn [find_ack].
  rewrite filter_cons. destruct (decide _) as [|]; [|exact IH]. cbn [omap list_omap].
  unfold BootstrapAck.decode. by destruct (from_slice m).
Qed.

Lemma greeting_no_ack sheet :
  serves cfg sheet -> Forall (fun b => peek_type b <> Some MessageType.BootstrapAck) (greeting cfg).
Proof.
  intros [Hk Hu Hs _]. pose proof (announce_wf _ _ Hk Hu) as Haw. constructor.
  - assert (peek_type (Driver.our_announce cfg) = Some MessageType.Announce) as ->; [|done].
    exact (peek_type_to_vec (T := Announce.t) _ Haw).
  - case_decide as Hn; repeat constructor.
    destruct sheet as [s|]; cbn in Hs; [|done]. destruct Hs as (-> & _ & Hw & Ht).
    assert (peek_type (PriceSheet.encode s) = Some MessageType.PriceSheet) as ->; [|done].
    etransitivity; [exact (peek_type_to_vec (T := PriceSheet.t) _ Hw)|]. by rewrite Ht.
Qed.

(** The state once a token was judged and the outbox drained. *)
Definition admitted {E} (p : PeerId) (ip : IpAddr) (w : BootstrapWallet.t) (r : result Z E)
    (d : Driver.t) : Driver.t :=
  let h := Driver.peer_to_hex p in
  let d1 := judged clock p ip
    (unwrap_or (Session.peers (Driver.session d) !! p) PeerSession.new) w r
    (greeted clock cfg p ip d) in
  let d2 := Driver.enqueue h (BootstrapAck.encode (ack_of r)) d1 in
  Driver.set_outbox (delete h (Driver.outbox d2)) d2.

Lemma admit_eq sheet p ip token w r d :
  serves cfg sheet -> PublicKey.wf p -> from_utf8 (as_bytes token) = Some token ->
  Forall quiet (queue_of (Driver.peer_to_hex p) d) ->
  BootstrapWallet.verify (mint (4 + Driver.clock_reads d)%nat) token (Driver.wallet d) = (w, r) ->
  admit_peer_with_token clock mint cfg (Driver.peer_to_hex p) (Some ip) token d =
    (admitted p ip w r d,
     V1PaymentResult.mk (is_ok r) (BootstrapAck.reason (ack_of r)) (Driver.peer_to_hex p)).
Proof.
  intros Hsv Hp Hu Hq Hv. unfold admit_peer_with_token.
  destruct (greeted_fields clock cfg sheet p ip d Hsv) as (Hps & Hip & Hw & Hc & Hqg).
  rewrite (peer_connected_eq clock mint cfg p ip d Hp). fold (greeted clock cfg p ip d).
  rewrite (token_received_eq clock mint p ip _ token w r (greeted clock cfg p ip d)) by
    (try done; by rewrite ?Hc, ?Hw).
  unfold Driver.drain_outbox. f_equal.
  change (unwrap_or _ _) with (queue_of (Driver.peer_to_hex p)
    (Driver.enqueue (Driver.peer_to_hex p) (BootstrapAck.encode (ack_of r))
      (judged clock p ip (unwrap_or (Session.peers (Driver.session d) !! p) PeerSession.new) w r
        (greeted clock cfg p ip d)))).
  pose proof (ack_wf r) as Hrw.
  rewrite queue_other; [|apply (not_report (T := BootstrapAck.t) _ Hrw); by destruct r].
  change (queue_of _ (judged _ _ _ _ _ _ _)) with
    (queue_of (Driver.peer_to_hex p) (greeted clock cfg p ip d)).
  rewrite Hqg, find_ack_eq.
  assert (Client.find_message (T := BootstrapAck.t) MessageType.BootstrapAck
    ((queue_of (Driver.peer_to_hex p) d ++ greeting cfg) ++ [BootstrapAck.encode (ack_of r)]) =
    Some (ack_of r)) as ->; [|by destruct r].
  apply find_message_first; [done|by destruct r|]. apply Forall_app. split.
  - apply (Forall_impl _ _ _ Hq). by intros ? (_ & _ & ?).
  - by apply (greeting_no_ack sheet).
Qed.
End admission.

(** ** Lemmas: reading the answers *)

Section answers.
Context `{NostrLaws, SerdeJson, Base64}.

Lemma allotment_u64 token config :
  V1ServerConfig.wf config -> is_u64 (extract_token_amount_and_allotment token config).2.
Proof.
  intros [Hs _]. unfold extract_token_amount_and_allotment.
  assert (is_u64 0) as Hzero by ints.
  destruct (_ =? 0); [done|]. cbn [snd]. unfold calculate_allotment.
  destruct (find_mint _ _) as [m|]; [|done]. destruct (_ =? 0); [done|]. cbv zeta.
  destruct (_ <? _); [done|]. cbn. apply wrap_u64_range.
Qed.

(** A client reads its allotment, and the metric, from an accepted payment's answer. *)
Lemma accepted_read config hex token now json :
  V1ServerConfig.wf config ->
  accepted_response config hex token now = mkResponse OK_200 (BEvent json) ->
  exists e, SessionEvent.from_json json = Ok e /\
    SessionEvent.allotment e = Some (extract_token_amount_and_allotment token config).2 /\
    SessionEvent.metric e = Some (V1ServerConfig.metric config) /\
    SessionEvent.customer_pubkey e = Some hex.
Proof.
  intros Hwf. pose proof (allotment_u64 token config Hwf) as Hal. unfold accepted_response.
  destruct (extract_token_amount_and_allotment token config) as [amount al]. cbn [snd] in Hal |- *.
  unfold build_session_event. destruct (signed _ _) as [j|] eqn:E; [|done]. intros [= ->].
  eapply signed_read in E as (e & He & Ht & _); [|done]. exists e. split; [exact He|].
  unfold SessionEvent.allotment, SessionEvent.metric, SessionEvent.customer_pubkey. rewrite Ht.
  split_and!; try done. exact (parse_u64_to_string _ Hal).
Qed.
(** What an accepted payment is answered with: the session event, or an error when the
    node's key would not sign it. *)
Lemma accepted_answered config hex token now :
  V1ServerConfig.wf config ->
  (exists json e, accepted_response config hex token now = mkResponse OK_200 (BEvent json) /\
    SessionEvent.from_json json = Ok e /\
    SessionEvent.allotment e = Some (extract_token_amount_and_allotment token config).2 /\
    SessionEvent.metric e = Some (V1ServerConfig.metric config) /\
    SessionEvent.customer_pubkey e = Some hex) \/
  (exists builder why, sign_with_keys (V1ServerConfig.nostr_keys config) builder = Err why /\
    accepted_response config hex token now =
      mkResponse INTERNAL_SERVER_ERROR (BError ("session event error: " +:+ why))).
Proof.
  intros Hwf. pose proof (accepted_read config hex token now) as Hread. revert Hread.
  unfold accepted_response. destruct (extract_token_amount_and_allotment token config) as [amount al].
  unfold build_session_event, signed. destruct (sign_with_keys _ _) as [ev|why] eqn:E; intros Hread.
  - left. destruct (Hread _ Hwf eq_refl) as (e & He). by exists (as_json ev), e.
  - right. by do 2 eexists.
Qed.
End answers.

Section usage.
Context `{Minicbor, HexCodec, Cashu, UrlParser, !HexLaws}.
Context (clock : nat -> Z) (cfg : Driver.config).

Lemma find_pubkey k (es : list PeerStatus.t) e :
  NoDup (PeerStatus.pubkey <$> es) -> e ∈ es -> PeerStatus.pubkey e = k ->
  find (fun p => bool_decide (PeerStatus.pubkey p = k)) es = Some e.
Proof.
  intros Hn He Hk. induction es as [|x es IH]; [set_solver|]. cbn in *.
  apply NoDup_cons in Hn as [Hx Hn]. apply elem_of_cons in He as [<-|He]; [by rewrite bool_decide_eq_true_2|].
  case_bool_decide as Hd; [|by apply IH]. destruct Hx. rewrite Hd, <- Hk. by apply list_elem_of_fmap_2.
Qed.

(** A peer that the session tracks and no upstream shares the key of is shown with
    the session's balance. *)
Lemma usage_shows p ps d :
  Session.peers (Driver.session d) !! p = Some ps -> bought d (Driver.peer_to_hex p) = [] ->
  get_usage_json clock cfg (Driver.peer_to_hex p) d =
    (Driver.tick_clock d,
     let balance := Z.max (as_i64 (PeerSession.balance ps)) 0 in
     Some (mkUsage (PeerSnapshot.delivered (Session.snapshot_peer p ps)) balance balance)).
Proof.
  intros Hp Hb. unfold get_usage_json, find_peer_status, status, Driver.now_millis.
  set (now := clock _). set (m := by_pubkey cfg d now). cbn [NodeStatus.peers].
  set (e := sell_entry cfg d now (Session.snapshot_peer p ps)).
  assert (PeerStatus.pubkey e = Driver.peer_to_hex p) as Hk.
  { unfold e, sell_entry, Session.snapshot_peer. by destruct (PeerSession.last_counters ps). }
  assert (m !! Driver.peer_to_hex p = Some e) as Hm.
  { unfold m. rewrite by_pubkey_lookup, Hb. by rewrite (sold_peer d p ps Hp). }
  assert (NoDup (PeerStatus.pubkey <$> (snd <$> btree_iter str_le m))) as Hn.
  { assert (PeerStatus.pubkey <$> (snd <$> btree_iter str_le m) = fst <$> btree_iter str_le m) as ->.
    { rewrite <- list_fmap_compose. apply list_fmap_ext. intros i [k x] Hi. cbn.
      apply list_elem_of_lookup_2, elem_of_btree_iter in Hi. by eapply by_pubkey_key. }
    unfold btree_iter. rewrite merge_sort_Permutation. apply NoDup_fst_map_to_list. }
  rewrite (find_pubkey _ _ e Hn); [|apply list_elem_of_fmap; exists (Driver.peer_to_hex p, e);
    split; [done|by apply elem_of_btree_iter]|done].
  cbn. unfold Session.snapshot_peer. by destruct (PeerSession.last_counters ps).
Qed.
End usage.

(** ** Concrete inputs *)

Module V1Demo.
Definition pk : PublicKey.t := BootstrapDemo.bob.
#[export] Instance secp : Secp256k1 := fun _ => Some pk.
#[export] Instance base64 : Base64 := {|
  url_safe_no_pad_decode s := Some (as_bytes s); standard_decode s := None |}.
(** Every payload decodes to one proof of 21 sats. *)
#[export] Instance json : SerdeJson := {|
  json_from_str s := None;
  json_from_slice b := Some (VObject [("token"%string, VArray [VObject [("proofs"%string,
    VArray [VObject [("amount"%string, VInt 21)]])]])]) |}.
#[export] Instance sha : Sha256 := StatusDemo.sha.
Definition leases : string := "171 aa:bb:cc:dd:ee:ff 10.0.0.3 laptop *".
Definition config : @V1ServerConfig.t ToyNostr.nostr :=
  @V1ServerConfig.mk ToyNostr.nostr "milliseconds" 60000
    [AcceptedMint.mk "https://b" 7 "sat" 1] "node" true None.
Definition verdict : BootstrapWallet.t * result Z verify_error :=
  BootstrapWallet.verify (NodeDemo.mint (4 + Driver.clock_reads NodeDemo.node)%nat) "cashuA-2"
    (Driver.wallet NodeDemo.node).
End V1Demo.

Section admitted.
Context `{MinicborLaws, HexCodec, Cashu, UrlParser, !HexLaws}.
Context (clock : nat -> Z) (cfg : Driver.config).

Lemma greeted_upstreams p ip d : Driver.upstreams (greeted clock cfg p ip d) = Driver.upstreams d.
Proof.
  unfold greeted. assert (forall ms x, Driver.upstreams
    (foldl (fun d m => Driver.enqueue (Driver.peer_to_hex p) m d) x ms) = Driver.upstreams x) as ->.
  { induction ms as [|m ms IH]; intros x; [done|]. cbn [foldl]. by rewrite IH. }
  unfold announced. by destruct (Session.peers _ !! p).
Qed.

Lemma admitted_fields {E} p ip w (r : result Z E) d :
  let h := Driver.peer_to_hex p in
  let d' := admitted clock cfg p ip w r d in
  (exists now, Session.peers (Driver.session d') !! p = Some (after_verdict r now
    (unwrap_or (Session.peers (Driver.session d) !! p) PeerSession.new))) /\
  Driver.wallet d' = w /\ queue_of h d' = [] /\
  last (Driver.firewall d') = Some (match r with Ok _ => Allow ip | Err _ => Deny ip end) /\
  (is_ok r = true -> h ∈ Driver.metered d') /\ bought d' h = bought d h.
Proof.
  cbv zeta. unfold admitted. set (d1 := greeted clock cfg p ip d).
  split_and!; cbn.
  - eexists. by rewrite lookup_insert_eq.
  - done.
  - unfold queue_of. cbn. by rewrite lookup_delete_eq.
  - by rewrite last_snoc.
  - destruct r; [set_solver|done].
  - unfold bought. by rewrite <- (greeted_upstreams p ip d).
Qed.
End admitted.

(** ** Properties *)

(** C40: a V1 payment buys access. Let a client whose address is leased to its MAC post
    a token to a node that trusts its proxy and whose own messages are within the wire
    types; in whatever state the node is otherwise, nothing that a payment's answer is
    looked for among must wait in that peer's queue, and the node must not be buying
    from that peer. Then the wallet alone decides. If it accepts, the peer is [Active]
    with its balance raised by the token's amount, its address is allowed and it is
    metered, and the answer is, with status 200, the session event for that peer, which
    grants the allotment the merchant's rule gives for the token, in the merchant's
    metric; only if the node's key does not sign is it an error, with status 500. If it
    refuses, the answer has the payment status, the peer is [New] and its address is
    blocked. Nothing stays queued for the peer, and [/usage] then shows it its balance. *)
Theorem v1_payment_admits
    `{MinicborLaws, HexCodec, Cashu, UrlParser, Sha256, Secp256k1, SerdeJson, Base64, NostrLaws, !HexLaws}
    clock mint cfg sheet config leases ip mac pk conn now request token d w r :
  serves cfg sheet -> V1ServerConfig.wf config -> V1ServerConfig.trust_proxy_headers config = true ->
  resolve leases ip = Ok mac -> mac_peer mac = Some pk -> PublicKey.wf pk ->
  extract_payment_token request = Some token -> from_utf8 (as_bytes token) = Some token ->
  Forall quiet (queue_of (Driver.peer_to_hex pk) d) -> bought d (Driver.peer_to_hex pk) = [] ->
  BootstrapWallet.verify (mint (4 + Driver.clock_reads d)%nat) token (Driver.wallet d) = (w, r) ->
  let hex := Driver.peer_to_hex pk in
  let old := unwrap_or (Session.peers (Driver.session d) !! pk) PeerSession.new in
  let '(d', config', resp) := handle_post_payment clock mint cfg config leases (Some ip) now request d in
  config' = config /\ Driver.wallet d' = w /\ queue_of hex d' = [] /\
  (exists ps, Session.peers (Driver.session d') !! pk = Some ps /\
    match r with
    | Ok amount =>
        PeerSession.phase ps = PeerPhase.Active /\
        PeerSession.balance ps = sat_add_u64 (PeerSession.balance old) amount /\
        last (Driver.firewall d') = Some (Allow ip) /\ hex ∈ Driver.metered d' /\
        ((exists json e, resp = mkResponse OK_200 (BEvent json) /\
            SessionEvent.from_json json = Ok e /\
            SessionEvent.allotment e = Some (extract_token_amount_and_allotment token config).2 /\
            SessionEvent.metric e = Some (V1ServerConfig.metric config) /\
            SessionEvent.customer_pubkey e = Some hex) \/
         (exists builder why, sign_with_keys (V1ServerConfig.nostr_keys config) builder = Err why /\
            resp = mkResponse INTERNAL_SERVER_ERROR (BError ("session event error: " +:+ why))))
    | Err _ =>
        PeerSession.phase ps = PeerPhase.New /\
        PeerSession.balance ps = PeerSession.balance old /\
        last (Driver.firewall d') = Some (Deny ip) /\ status_code resp = PAYMENT_REQUIRED
    end /\
    (handle_usage clock cfg config leases (Some ip) conn d').2 =
      let shown := Z.max (as_i64 (PeerSession.balance ps)) 0 in
      mkResponse OK_200 (BUsage shown shown (V1ServerConfig.step_size config)
        (V1ServerConfig.metric config) (PeerSnapshot.delivered (Session.snapshot_peer pk ps)))).
Proof.
  intros Hsv Hwf Htr Hres Hmac Hpk Htok Hutf Hq Hb Hv. cbv zeta.
  assert (resolve_peer_hex leases (Some ip) = Some (Driver.peer_to_hex pk)) as Hhex.
  { unfold resolve_peer_hex, mac_to_peer_hex. cbn. rewrite Hres. cbn. by rewrite Hmac. }
  unfold handle_post_payment, extract_ip. rewrite Htok, Htr, Hhex.
  rewrite (admit_eq clock mint cfg sheet pk ip token w r d) by done.
  cbn [V1PaymentResult.accepted V1PaymentResult.reason].
  destruct (admitted_fields clock cfg pk ip w r d) as ((t & Hps) & Hw & Hqd & Hfw & Hmet & Hbd).
  set (d' := admitted clock cfg pk ip w r d) in *. rewrite Hb in Hbd.
  assert (forall ps, Session.peers (Driver.session d') !! pk = Some ps ->
    (handle_usage clock cfg config leases (Some ip) conn d').2 =
      let shown := Z.max (as_i64 (PeerSession.balance ps)) 0 in
      mkResponse OK_200 (BUsage shown shown (V1ServerConfig.step_size config)
        (V1ServerConfig.metric config) (PeerSnapshot.delivered (Session.snapshot_peer pk ps)))) as Hus.
  { intros ps Hp. unfold handle_usage, extract_ip_full, extract_ip. rewrite Htr. cbn [opt_or].
    rewrite Hhex. by rewrite (usage_shows clock cfg pk ps d' Hp Hbd). }
  clearbody d'. destruct r as [amount|e]; cbn [is_ok].
  - split_and!; [done..|]. eexists. split; [exact Hps|].
    split; [|by apply Hus]. split_and!; [done|done|done|by apply Hmet|].
    by apply accepted_answered.
  - split_and!; [|done|done|].
    + unfold after_failure. destruct (V1ServerConfig.mint_health config); [|done].
      cbn [extract_mint_from_token]. by destruct (_ && _).
    + eexists. split; [exact Hps|]. split; [|by apply Hus]. split_and!; [done|done|done|].
      unfold rejected_response. by destruct (build_notice_event _ _ _ _ _).
Qed.

Lemma v1_payment_admits_witness :
  let '(d', _, resp) := @handle_post_payment Toy.toy ConsumeDemo.hex WalletDemo.cashu WalletDemo.urls
    V1Demo.sha V1Demo.secp V1Demo.json V1Demo.base64 ToyNostr.nostr NodeDemo.clock NodeDemo.mint
    BootstrapDemo.cfg V1Demo.config (Some V1Demo.leases) (Some "10.0.0.3"%string) 1000 "cashuA-2"
    NodeDemo.node in
  last (Driver.firewall d') = Some (Allow "10.0.0.3").
Proof.
  assert (serves (H := Toy.toy) BootstrapDemo.cfg (Some BootstrapDemo.sheet)) as Hs.
  { split; [reflexivity|apply (bool_decide_unpack _); vm_compute; exact I| |].
    - split; [reflexivity|]. split; [discriminate|]. split; [|reflexivity].
      repeat split; try constructor; vm_compute; discriminate.
    - repeat constructor; vm_compute; discriminate. }
  pose proof (@v1_payment_admits Toy.toy Toy.toy_laws ConsumeDemo.hex WalletDemo.cashu WalletDemo.urls
    V1Demo.sha V1Demo.secp V1Demo.json V1Demo.base64 ToyNostr.nostr ToyNostr.nostr_laws NodeDemo.hex_laws
    NodeDemo.clock NodeDemo.mint BootstrapDemo.cfg (Some BootstrapDemo.sheet) V1Demo.config
    (Some V1Demo.leases) "10.0.0.3" "aa:bb:cc:dd:ee:ff" V1Demo.pk None 1000 "cashuA-2" "cashuA-2"
    NodeDemo.node V1Demo.verdict.1 (Ok 5000) Hs) as K.
  cbv zeta in K. destruct (handle_post_payment _ _ _ _ _ _ _ _ _) as [[d' c'] resp].
  destruct K as (_ & _ & _ & ps & _ & (_ & _ & K & _) & _); [..|exact K].
  - split; [by vm_compute|]. by repeat constructor.
  - reflexivity.
  - vm_compute. reflexivity.
  - reflexivity.
  - reflexivity.
  - vm_compute. reflexivity.
  - vm_compute. reflexivity.
  - match goal with |- Forall _ ?q => replace q with (@nil bytes) by (vm_compute; reflexivity) end.
    constructor.
  - vm_compute. reflexivity.
  - vm_compute. reflexivity.
Defined.

(** ** Departures *)

Section departures.
Context `{Minicbor, HexCodec, Cashu, UrlParser, Sha256, Secp256k1, SerdeJson, Base64, Nostr}.

(** The payment endpoint does not look at the connection's address: unless it trusts
    proxy headers, which it does not by default, it refuses every payment. *)
Theorem untrusted_payment_refused clock mint cfg config leases header_ip now request d :
  V1ServerConfig.trust_proxy_headers config = false ->
  exists resp, handle_post_payment clock mint cfg config leases header_ip now request d = (d, config, resp) /\
    status_code resp = BAD_REQUEST.
Proof.
  intros Ht. unfold handle_post_payment, extract_ip. rewrite Ht.
  destruct (extract_payment_token request); by eexists.
Qed.

(** Only version 3 tokens are decoded: any other accepted token, such as those the
    client of this repository creates, is reported as no sats and no allotment. *)
Theorem other_tokens_grant_nothing config token :
  strip_prefix "cashuA" token = None -> strip_prefix "cashua" token = None ->
  extract_token_amount_and_allotment token config = (0, 0).
Proof.
  intros HA Ha. unfold extract_token_amount_and_allotment, decode_cashu_amount. by rewrite HA, Ha.
Qed.
End departures.
