(* ===== verification/V1Http.v ===== *)
(** * The V1 protocol over HTTP

    Models [v1_compat/http_client.rs], the requests the V1 client sends and what it reads
    in the answers; the text of the answers of [handlers.rs] that it reads; and the
    client's address as a server takes it from headers ([handlers.rs],
    [mac_resolver.rs]). [V1Client.v] takes the results of these calls as given; here they
    come from the wire, and from this repository's server. [reqwest]'s errors are its
    own: a message, or the status it refused. *)

From S2P Require Import Prelude F64 Wallet NetDriver Json Decimal Shell Text Serde V1Nostr V1Merchant V1Client.
From S2P Require Import NetMonitor WifiConnect V1Server.

(** ** Requests and answers *)

(** [reqwest::Error]: no answer, a status that [error_for_status] refuses, or a body that
    cannot be read. *)
Inductive RequestError : Set := Transport (e : string) | HttpStatus (code : Z) | BodyError (e : string).

Module V1HttpError.
Inductive t : Set :=
| Request (e : RequestError)
| Nostr (e : V1NostrError)
| PaymentRejected (code message : string)
| Json
| Unexpected (status : Z) (body : string).
End V1HttpError.

Record request : Set := mk_request {
  method : string;
  url : string;
  content_type : option string;
  sent_body : option string
}.

(** What comes back: nothing, or a status and the body, if it can be read. *)
Inductive answer : Set := NoAnswer (e : string) | Answer (status : Z) (body : string + string).

(** [error_for_status]: 4xx and 5xx. *)
Definition refused (status : Z) : bool := (400 <=? status) && (status <=? 599).

(** [.send().await?] and [.text().await?]. *)
Definition read_any (a : answer) : result (Z * string) V1HttpError.t :=
  match a with
  | NoAnswer e => Err (V1HttpError.Request (Transport e))
  | Answer status (inl e) => Err (V1HttpError.Request (BodyError e))
  | Answer status (inr body) => Ok (status, body)
  end.
(** The same with [.error_for_status()?] between them. *)
Definition read_ok (a : answer) : result string V1HttpError.t :=
  match a with
  | NoAnswer e => Err (V1HttpError.Request (Transport e))
  | Answer status body =>
      if refused status then Err (V1HttpError.Request (HttpStatus status))
      else match body with inl e => Err (V1HttpError.Request (BodyError e)) | inr body => Ok body end
  end.

(** ** The client *)

Definition base_url (gateway_ip : string) : string := "http://" +:+ gateway_ip +:+ ":2121".

Definition get_request (url : string) : request := mk_request "GET" url None None.
Definition advertisement_request (base : string) : request := get_request base.
Definition usage_request (base : string) : request := get_request (base +:+ "/usage").
Definition status_request (base quote : string) : request := get_request (base +:+ "/ln-invoice?quote=" +:+ quote).
Definition payment_request (base token : string) : request :=
  mk_request "POST" base (Some "text/plain"%string) (Some token).

(** The JSON of the Lightning endpoints, as the client writes and reads it. *)
Module LnInvoiceRequest.
Record t : Set := mk { amount : Z; mint_url : option string; mint : option string }.
Definition tree (r : t) : Value :=
  VObject [("amount"%string, VInt (amount r)); ("mint_url"%string, option_value VString (mint_url r));
           ("mint"%string, option_value VString (mint r))].
End LnInvoiceRequest.

Definition de_bool (v : Value) : option bool := match v with VBool b => Some b | _ => None end.
Definition de_u8 (v : Value) : option Z :=
  match v with VInt n => if (0 <=? n) && (n <=? 255) then Some n else None | _ => None end.

Module LnResponse.
Record t : Set := mk {
  status : Z;
  quote : option string;
  invoice : option string;
  mint_url : option string;
  amount : option Z;
  expiry : option Z;
  state : string;
  access_granted : bool;
  allotment : option Z;
  metric : option string;
  error : option string
}.
Definition FIELDS : list string :=
  ["status"; "quote"; "invoice"; "mint_url"; "amount"; "expiry"; "state"; "access_granted"; "allotment";
   "metric"; "error"]%string.
Definition of_tree (v : Value) : option t :=
  fs ← struct_fields FIELDS v;
  status ← required de_u8 fs 0;
  quote ← optional de_string fs 1;
  invoice ← optional de_string fs 2;
  mint_url ← optional de_string fs 3;
  amount ← optional de_u64 fs 4;
  expiry ← optional de_u64 fs 5;
  state ← required de_string fs 6;
  access_granted ← required de_bool fs 7;
  allotment ← optional de_u64 fs 8;
  metric ← optional de_string fs 9;
  error ← optional de_string fs 10;
  Some (mk status quote invoice mint_url amount expiry state access_granted allotment metric error).
(** What the client goes on with. *)
Definition view (r : t) : LnInvoiceResponse.t := LnInvoiceResponse.mk (quote r) (invoice r) (expiry r).
End LnResponse.

Module LnStatus.
Record t : Set := mk { quote : option string; state : string; access_granted : bool; allotment : option Z }.
Definition FIELDS : list string := ["quote"; "state"; "access_granted"; "allotment"]%string.
Definition of_tree (v : Value) : option t :=
  fs ← struct_fields FIELDS v;
  quote ← optional de_string fs 0;
  state ← required de_string fs 1;
  access_granted ← required de_bool fs 2;
  allotment ← optional de_u64 fs 3;
  Some (mk quote state access_granted allotment).
Definition view (s : t) : LnInvoiceStatus.t := LnInvoiceStatus.mk (state s) (allotment s).
End LnStatus.

(** What one probe loop does besides its requests: the waits between them. *)
Inductive probe_step : Set := Asked | Slept.

Section client.
Context `{Nostr, JsonText}.

Definition fetch_advertisement_once (a : answer) : result Event V1HttpError.t :=
  match read_ok a with
  | Err e => Err e
  | Ok body => map_err V1HttpError.Nostr (TollGateAdvertisement.from_json body)
  end.

(** The loop of [fetch_advertisement], from attempt [attempt]; the result is [None] when
    there is no attempt to take an error from, which panics. *)
Fixpoint probe (attempts attempt : nat) (answers : nat -> answer) (last_err : option V1HttpError.t)
    : list probe_step * option (result Event V1HttpError.t) :=
  match attempts with
  | O => ([], Err <$> last_err)
  | S attempts =>
      let before := match attempt with O => [] | S _ => [Slept] end in
      match fetch_advertisement_once (answers attempt) with
      | Ok ad => (before ++ [Asked], Some (Ok ad))
      | Err e =>
          let '(steps, r) := probe attempts (S attempt) answers (Some e) in
          (before ++ [Asked] ++ steps, r)
      end
  end.
Definition probe_advertisement (answers : nat -> answer) : list probe_step * option (result Event V1HttpError.t) :=
  probe PROBE_RETRY_COUNT 0 answers None.

Definition read_payment (a : answer) : result Event V1HttpError.t :=
  match read_any a with
  | Err e => Err e
  | Ok (status, body) =>
      if status =? 200 then map_err V1HttpError.Nostr (SessionEvent.from_json body)
      else
        match NoticeEvent.from_json body with
        | Ok notice =>
            Err (V1HttpError.PaymentRejected (unwrap_or (NoticeEvent.code notice) "unknown") (NoticeEvent.message notice))
        | Err _ => Err (V1HttpError.Unexpected status body)
        end
  end.

Definition read_usage (a : answer) : result (Z * Z) V1HttpError.t :=
  match read_ok a with Err e => Err e | Ok body => Ok (parse_usage_response body) end.

Definition invoice_request (base : string) (amount : Z) (mint_url : string) : request :=
  mk_request "POST" (base +:+ "/ln-invoice") (Some "application/json"%string)
    (Some (json_to_string (LnInvoiceRequest.tree (LnInvoiceRequest.mk amount (Some mint_url) None)))).

(** [serde_json::from_str] of a body into a struct. *)
Definition read_json {A} (of_tree : Value -> option A) (a : answer) : result A V1HttpError.t :=
  match read_ok a with
  | Err e => Err e
  | Ok body => ok_or (json_tree body ≫= of_tree) V1HttpError.Json
  end.
Definition read_ln_invoice (a : answer) : result LnResponse.t V1HttpError.t := read_json LnResponse.of_tree a.
Definition read_ln_status (a : answer) : result LnStatus.t V1HttpError.t := read_json LnStatus.of_tree a.
End client.

(** The results [V1Client.v] takes, from the answers; [show] is the text of an error. *)
Definition upstream_of `{Nostr, JsonText} (show : V1HttpError.t -> string) (usage : answer)
    (ads : nat -> answer) (balance : result Z string) (create_token : Z -> Z -> result string string)
    (payment : string -> answer) (invoice : Z -> string -> answer) (polls : nat -> Z * answer) : Upstream.t :=
  Upstream.mk (map_err show (read_ok usage)) (fun i => map_err show (fetch_advertisement_once (ads i))) balance
    create_token (fun token => map_err show (read_payment (payment token)))
    (fun amount url => match read_ln_invoice (invoice amount url) with
                       | Ok r => Ok (LnResponse.view r) | Err e => Err (show e) end)
    (fun k => ((polls k).1, match read_ln_status (polls k).2 with
                            | Ok s => Ok (LnStatus.view s) | Err e => Err (show e) end)).

(** ** The server's answers as text *)

Section server.
Context `{JsonText}.

(** [json!]: the fields in the order of their names. *)
Definition json_text (fields : list (string * Value)) : string := json_to_string (to_value (VObject fields)).
Definition body_text (b : Body) : string :=
  match b with
  | BEvent json => json
  | BError message => json_text [("error"%string, VString message)]
  | BUsage remaining allotment step_size metric delivered =>
      json_text [("remaining"%string, VInt remaining); ("allotment"%string, VInt allotment);
                 ("step_size"%string, VInt step_size); ("metric"%string, VString metric);
                 ("delivered"%string, VInt delivered)]
  | BBalance b =>
      json_text [("balance"%string, VInt (b_balance b)); ("remaining"%string, VInt (b_remaining b));
                 ("allotment"%string, VInt (b_allotment b)); ("delivered"%string, VInt (b_delivered b));
                 ("received"%string, VInt (b_received b)); ("state"%string, VString (b_state b));
                 ("session_active"%string, VBool (b_session_active b));
                 ("metered_secs"%string, VInt (b_metered_secs b))]
  | BQuote quote invoice amount expiry =>
      json_text [("status"%string, VInt 0); ("quote"%string, VString quote); ("invoice"%string, VString invoice);
                 ("amount"%string, VInt amount); ("expiry"%string, VInt expiry)]
  | BQuoteState quote state => json_text [("quote"%string, VString quote); ("state"%string, VString state)]
  | BQuoteFailed message amount => json_text [("error"%string, VString message); ("amount"%string, VInt amount)]
  | BText text => text
  end.
Definition answer_of (r : Response) : answer := Answer (status_code r) (inr (body_text (body r))).
End server.

(** ** The browser's log *)

Inductive log_level : Set := LogError | LogWarn | LogInfo.
Definition logged (v : Value) : log_level * string * string :=
  let text key default := unwrap_or (get v key ≫= as_str) default in
  let level := text "level"%string "info"%string in
  (if decide (level = "error"%string) then LogError else if decide (level = "warn"%string) then LogWarn else LogInfo,
   text "client"%string "unknown"%string, "log-beacon: " +:+ text "message"%string EmptyString).
(** [handle_log_beacon]: the line logged, if any, and the answer. *)
Definition handle_log_beacon `{SerdeJson, JsonText} (request : string)
    : option (log_level * string * string) * answer :=
  match json_from_str request with
  | Some v => (Some (logged v), Answer OK_200 (inr (json_text [("logged"%string, VBool true)])))
  | None => (None, answer_of (mkResponse BAD_REQUEST (BError "invalid JSON body")))
  end.

(** ** The client's address *)

(** [HeaderMap]: lower-case names with their values; [get] is the first. *)
Definition HeaderMap : Set := list (string * string).
Definition header (name : string) (h : HeaderMap) : option string :=
  snd <$> List.find (fun p => bool_decide (p.1 = name)) h.
(** [HeaderValue::to_str]: only visible ASCII, blanks and tabs. *)
Definition visible (c : Ascii.ascii) : bool := ((32 <=? code c) && (code c <? 127)) || (code c =? 9).
Definition to_str (v : string) : option string := if forallb visible (chars v) then Some v else None.
Definition comma : Ascii.ascii := Ascii.ascii_of_N 44.
(** [s.split(',').next()]. *)
Definition first_item (s : string) : string := unwrap_or (head (split_on comma s)) EmptyString.

(** [extract_ip] of [handlers.rs] on the headers. *)
Definition header_ip (h : HeaderMap) : option Ip.t :=
  opt_or (s ← (header "x-forwarded-for" h ≫= to_str); IpText.parse (trim (first_item s)))
         (s ← (header "x-real-ip" h ≫= to_str); IpText.parse (trim s)).

Definition nonempty (s : string) : option string := if bool_decide (s = EmptyString) then None else Some s.
(** [extract_client_ip] of [mac_resolver.rs]; [conn] is the connection's address as text. *)
Definition extract_client_ip (conn : option string) (h : HeaderMap) : string :=
  unwrap_or
    (opt_or (s ← (header "x-forwarded-for" h ≫= to_str); nonempty (trim (first_item s)))
       (opt_or (s ← (header "x-real-ip" h ≫= to_str); nonempty (trim s)) conn))
    EmptyString.

(** [MacResolver]: what the trait promises, the stub, and the leases of [V1Server.v]. *)
Class MacResolver (R : Type) : Type := resolve_mac : R -> string -> result string MacResolveError.
Record StubMacResolver : Set := mk_stub { mac : string }.
Definition default_stub : StubMacResolver := mk_stub "00:11:22:33:44:55".
#[export] Instance stub_resolver : MacResolver StubMacResolver := fun r _ => Ok (mac r).
Record DhcpLeasesResolver : Set := mk_leases { leases_file : option string }.
#[export] Instance leases_resolver : MacResolver DhcpLeasesResolver := fun r ip => resolve (leases_file r) ip.

(** ** Properties: probes *)

(** How often a step occurs. *)
Definition times (s : probe_step) (l : list probe_step) : nat :=
  length (filter (fun x => match x, s with Asked, Asked | Slept, Slept => true | _, _ => false end = true) l).

Section probes.
Context `{Nostr, JsonText}.

(** At most three probes: the first that is answered with an advertisement ends them, and
    if none is the error is the last one's. There is a wait before every probe but the
    first, and the client of [V1Client.v] goes on with the same result. *)
Theorem probes_end answers show :
  let '(steps, r) := probe_advertisement answers in
  exists n r', (n <= 3)%nat /\ r = Some r' /\ times Asked steps = n /\ times Slept steps = (n - 1)%nat /\
    (forall i, (S i < n)%nat -> exists e, fetch_advertisement_once (answers i) = Err e) /\
    r' = fetch_advertisement_once (answers (n - 1)%nat) /\
    ((n < 3)%nat -> is_ok r' = true) /\
    forall usage balance token payment invoice polls,
      fetch_advertisement (upstream_of show usage answers balance token payment invoice polls) = map_err show r'.
Proof.
  unfold probe_advertisement, probe, PROBE_RETRY_COUNT, fetch_advertisement. cbn [fetch_from upstream_of Upstream.ad].
  destruct (fetch_advertisement_once (answers 0%nat)) as [ad|e0] eqn:E0; cbn.
  { exists 1%nat, (Ok ad). rewrite E0. split_and!; try done; lia. }
  destruct (fetch_advertisement_once (answers 1%nat)) as [ad|e1] eqn:E1; cbn.
  { exists 2%nat, (Ok ad). cbn. rewrite E1. split_and!; try done; try lia; [|intros; by rewrite E0].
    intros i Hi. assert (i = 0%nat) as -> by lia. eauto. }
  destruct (fetch_advertisement_once (answers 2%nat)) as [ad|e2] eqn:E2; cbn.
  all: eexists 3%nat, _; cbn; rewrite E2; split_and!; try done; try lia; try (intros; by rewrite E0).
  all: intros [|[|i]] Hi; [eauto|eauto|lia].
Qed.
End probes.

(** ** Properties: the client and this repository's server *)

Section exchange.
Context `{NostrLaws, SerdeJson, Base64, !JsonText}.

(** What the client makes of the answer to its payment: the session event it was sent,
    with the allotment granted and the metric, or the server's reason. *)
Theorem payment_answer_read config hex token now reason :
  V1ServerConfig.wf config ->
  (forall json, accepted_response config hex token now = mkResponse OK_200 (BEvent json) ->
     exists e, read_payment (answer_of (accepted_response config hex token now)) = Ok e /\
       SessionEvent.allotment e = Some (extract_token_amount_and_allotment token config).2 /\
       SessionEvent.metric e = Some (V1ServerConfig.metric config)) /\
  (forall json, rejected_response config hex reason = mkResponse PAYMENT_REQUIRED (BEvent json) ->
     read_payment (answer_of (rejected_response config hex reason)) =
       Err (V1HttpError.PaymentRejected "payment_rejected" (unwrap_or reason "rejected"%string))).
Proof.
  intros Hwf. split; intros json Hj.
  - destruct (accepted_read _ _ _ _ _ Hwf Hj) as (e & He & Ha & Hm & _). exists e. rewrite Hj.
    unfold read_payment, answer_of. cbn -[Z.eqb]. rewrite He. done.
  - rewrite Hj. unfold rejected_response, build_notice_event in Hj.
    destruct (signed _ _) as [j|] eqn:E; [|done]. injection Hj as ->.
    destruct (signed_read KIND_NOTICE _ _ _ E eq_refl) as (e & He & Ht & Hc).
    unfold read_payment, answer_of. cbn -[Z.eqb]. change (402 =? 200) with false. cbn iota.
    unfold NoticeEvent.from_json. rewrite He. unfold NoticeEvent.code, NoticeEvent.message. by rewrite Ht, Hc.
Qed.
End exchange.

Section lightning.
Context `{Nostr, SerdeJson, JsonTextLaws}.

(** A mint's quote as the wallet reports it, in 64-bit integers. *)
Definition quote_wf (q : MintQuoteInfo) : Prop := is_u64 (q_amount q) /\ is_u64 (expiry q).

Lemma bind_to_none {A B} (o : option A) (k : A -> option B) : (forall a, k a = None) -> o ≫= k = None.
Proof. intros Hk. destruct o; [apply Hk|done]. Qed.

Lemma response_needs_state v fs : struct_fields LnResponse.FIELDS v = Some fs -> fs !! 6%nat = Some None -> LnResponse.of_tree v = None.
Proof.
  intros Hf Hs. unfold LnResponse.of_tree. rewrite Hf. cbn [mbind option_bind].
  do 6 (apply bind_to_none; intros ?). by replace (required de_string fs 6) with (@None string) by (unfold required; by rewrite Hs).
Qed.

Lemma status_needs_grant v fs : struct_fields LnStatus.FIELDS v = Some fs -> fs !! 2%nat = Some None -> LnStatus.of_tree v = None.
Proof.
  intros Hf Hs. unfold LnStatus.of_tree. rewrite Hf. cbn [mbind option_bind].
  do 2 (apply bind_to_none; intros ?). unfold required. by rewrite Hs.
Qed.

Lemma refused_ok body : read_ok (Answer OK_200 (inr body)) = Ok body.
Proof. done. Qed.

Lemma quote_writable q :
  quote_wf q ->
  writable (to_value (VObject [("status"%string, VInt 0); ("quote"%string, VString (quote_id q));
    ("invoice"%string, VString (invoice q)); ("amount"%string, VInt (q_amount q)); ("expiry"%string, VInt (expiry q))])) =
    true.
Proof.
  intros [Ha He].
  change (to_value _) with (VObject [("amount"%string, VInt (q_amount q)); ("expiry"%string, VInt (expiry q));
    ("invoice"%string, VString (invoice q)); ("quote"%string, VString (quote_id q)); ("status"%string, VInt 0)]).
  cbn -[Z.leb I64_MIN U64_MAX]. ints.
Qed.

(** This server's answers to [/ln-invoice] lack fields the client needs, so the client
    reads none of them: whatever the request, the wallet and the mint. *)
Theorem own_invoices_unreadable config wallet request quote :
  (forall w, wallet = Some w -> forall a u q, request_mint_quote w a u = Ok q -> quote_wf q) ->
  is_ok (read_ln_invoice (answer_of (handle_post_ln_invoice config wallet request))) = false /\
  is_ok (read_ln_status (answer_of (handle_get_ln_invoice wallet quote))) = false.
Proof.
  intros Hw. split.
  - unfold handle_post_ln_invoice. destruct wallet as [w|]; [|done].
    destruct (request_mint_quote w _ _) as [q|e] eqn:E; [|done]. destruct (Hw w eq_refl _ _ _ E) as [Ha He].
    unfold read_ln_invoice, read_json, answer_of. cbn [status_code body body_text]. rewrite refused_ok.
    unfold json_text. rewrite json_reads; [|by apply quote_writable|vm_compute; lia]. cbn [mbind option_bind].
    by erewrite response_needs_state.
  - unfold handle_get_ln_invoice. destruct quote as [q|]; [|done]. destruct wallet as [w|]; [|done].
    destruct (check_mint_quote_status w q) as [s|e]; [|by destruct (contains _ _)].
    unfold read_ln_status, read_json, answer_of. cbn [status_code body body_text]. rewrite refused_ok.
    unfold json_text. rewrite json_reads; [|by destruct s|destruct s; vm_compute; lia]. cbn [mbind option_bind].
    by erewrite status_needs_grant.
Qed.
End lightning.

Section composed.
Context `{Nostr, SerdeJson, JsonTextLaws}.

(** A purchase by invoice from this repository's server fails after the invoice was
    ordered: the client has no session, though the mint may be paid later. *)
Theorem own_lightning_fails show config wallet usage ads balance token payment polls ad pricing steps c :
  (forall w, wallet = Some w -> forall a u q, request_mint_quote w a u = Ok q -> quote_wf q) ->
  let u := upstream_of show usage ads balance token payment
    (fun amount url => answer_of (handle_post_ln_invoice config wallet
       (unwrap_or (sent_body (invoice_request EmptyString amount url)) EmptyString))) polls in
  exists amount e, V1Client.connect_via_lightning u ad pricing steps c =
    Some (c, [RequestInvoice amount (PricingOption.mint_url pricing)], Err (Http e)).
Proof.
  intros Hw. cbv zeta. unfold V1Client.connect_via_lightning. cbn [upstream_of Upstream.ln_invoice].
  destruct (own_invoices_unreadable config wallet
    (unwrap_or (sent_body (invoice_request EmptyString (wrap_u64 (steps * PricingOption.price_per_step pricing))
      (PricingOption.mint_url pricing))) EmptyString) None Hw) as [Hr _].
  destruct (read_ln_invoice _) as [r|e]; [done|]. eauto.
Qed.

(** The server reads the amount the client asks for, and not the mint it asks: with the
    two readers of [serde_json] agreeing on trees, the quote is for that amount at the
    server's own first mint. *)
Theorem invoice_amount_read config w base amount mint_url :
  is_u64 amount ->
  (forall v, writable v = true -> json_from_str (json_to_string v) = Some v) ->
  handle_post_ln_invoice config (Some w) (unwrap_or (sent_body (invoice_request base amount mint_url)) EmptyString) =
    match request_mint_quote w amount (map_or (head (V1ServerConfig.accepted_mints config)) LOCAL_MINT AcceptedMint.url) with
    | Ok q => mkResponse OK_200 (BQuote (quote_id q) (invoice q) (q_amount q) (expiry q))
    | Err e => mkResponse INTERNAL_SERVER_ERROR (BQuoteFailed ("mint quote failed: " +:+ e) amount)
    end.
Proof.
  intros Ha Hj. unfold handle_post_ln_invoice, invoice_request. cbn [sent_body unwrap_or].
  rewrite Hj.
  2: { cbn -[Z.leb I64_MIN U64_MAX]. ints. }
  assert (forall t, t = LnInvoiceRequest.tree (LnInvoiceRequest.mk amount (Some mint_url) None) ->
    (Some t ≫= fun v => get v "amount" ≫= value_as_u64) = Some amount) as E.
  { intros t ->. cbn [mbind option_bind]. change (get _ _) with (Some (VInt amount)).
    cbn [mbind option_bind value_as_u64]. rewrite (proj2 (Z.leb_le 0 amount)), (proj2 (Z.leb_le amount U64_MAX)) by lia.
    done. }
  by rewrite (E _ eq_refl).
Qed.
End composed.

(** ** Properties: the client's address *)

Lemma first_item_app a b : comma ∉ chars a -> first_item (a +:+ "," +:+ b) = a.
Proof.
  intros Ha. unfold first_item, split_on. rewrite !chars_app. change (chars ",") with [comma]. cbn [app].
  rewrite split_chars_cat, split_chars_none by done. cbn. apply of_chars_chars.
Qed.

(** The address before the first comma of [X-Forwarded-For] is the client's, whatever
    follows: what a proxy appends to a header that the client sent is not looked at, and
    the other reader of the headers, [extract_client_ip], takes the same text. *)
Theorem first_forwarded_decides own rest more conn ip :
  comma ∉ chars own -> to_str (own +:+ "," +:+ rest) = Some (own +:+ "," +:+ rest) -> IpText.parse (trim own) = Some ip ->
  let h := ("x-forwarded-for"%string, own +:+ "," +:+ rest) :: more in
  header_ip h = Some ip /\ IpText.parse (extract_client_ip conn h) = Some ip.
Proof.
  intros Hc Hs Hp h. unfold header_ip, extract_client_ip, h, header. cbn [List.find fst].
  rewrite bool_decide_true by done. cbn [fmap option_fmap option_map snd mbind option_bind]. rewrite Hs.
  cbn [mbind option_bind]. rewrite first_item_app by done. rewrite Hp. split; [done|]. unfold nonempty.
  rewrite bool_decide_false; [exact Hp|]. intros E. rewrite E in Hp. vm_compute in Hp. done.
Qed.

(** ** Concrete inputs *)

Module V1HttpDemo.
#[export] Instance text : JsonText := ToyJson.json.
#[export] Instance parser : SerdeJson := {| json_from_str := ToyJson.json.(json_tree); json_from_slice _ := None |}.
Definition wallet : CdkWallet :=
  mkCdk (fun _ _ => Ok (mkQuote "q1" "lnbc1" 8 99)) (fun _ => Ok Unpaid).
Definition config : @V1ServerConfig.t ToyNostr.nostr := V1Demo.config.
Definition option_ : PricingOption.t := PricingOption.mk "cashu" 7 "sat" "https://b" 1.

Lemma wallet_wf w : Some wallet = Some w -> forall a u q, request_mint_quote w a u = Ok q -> quote_wf q.
Proof. intros [= <-] a u q [= <-]. split; by vm_compute. Qed.
End V1HttpDemo.

Lemma first_forwarded_decides_witness :
  header_ip [("x-forwarded-for"%string, "10.0.0.9, 10.0.0.3"%string)] = Some (Ip.V4 167772169).
Proof.
  apply (first_forwarded_decides "10.0.0.9" " 10.0.0.3" [] None (Ip.V4 167772169));
    [by apply (bool_decide_unpack _); vm_compute|by vm_compute|by vm_compute].
Defined.

Lemma own_invoices_unreadable_witness :
  is_ok (@read_ln_status V1HttpDemo.text (@answer_of V1HttpDemo.text (handle_get_ln_invoice (Some V1HttpDemo.wallet) (Some "q1"%string)))) =
    false.
Proof.
  apply (@own_invoices_unreadable ToyNostr.nostr V1HttpDemo.parser V1HttpDemo.text ToyJson.json_laws V1HttpDemo.config
    (Some V1HttpDemo.wallet) EmptyString (Some "q1"%string) V1HttpDemo.wallet_wf).
Defined.

Lemma own_lightning_fails_witness :
  exists amount e,
    V1Client.connect_via_lightning
      (@upstream_of ToyNostr.nostr V1HttpDemo.text (fun _ => EmptyString) (NoAnswer "") (fun _ => NoAnswer "") (Ok 0)
         (fun _ _ => Err EmptyString) (fun _ => NoAnswer "")
         (fun amount url => @answer_of V1HttpDemo.text (@handle_post_ln_invoice V1HttpDemo.parser ToyNostr.nostr V1HttpDemo.config
            (Some V1HttpDemo.wallet)
            (unwrap_or (sent_body (@invoice_request V1HttpDemo.text EmptyString amount url)) EmptyString)))
         (fun _ => (0, NoAnswer "")))
      (mkEvent KIND_ADVERTISEMENT [] EmptyString EmptyString EmptyString) V1HttpDemo.option_ 3
      (V1Client.new (V1ClientConfig.mk "10.0.0.1" [] "sat" (f64_of_Z 1) (f64_of_Z 1) 0 (f64_of_Z 1))) =
    Some (V1Client.new (V1ClientConfig.mk "10.0.0.1" [] "sat" (f64_of_Z 1) (f64_of_Z 1) 0 (f64_of_Z 1)),
      [RequestInvoice amount "https://b"], Err (Http e)).
Proof.
  apply (@own_lightning_fails ToyNostr.nostr V1HttpDemo.parser V1HttpDemo.text ToyJson.json_laws (fun _ => EmptyString)
    V1HttpDemo.config (Some V1HttpDemo.wallet)). exact V1HttpDemo.wallet_wf.
Defined.

Lemma invoice_amount_read_witness :
  status_code (@handle_post_ln_invoice V1HttpDemo.parser ToyNostr.nostr V1HttpDemo.config (Some V1HttpDemo.wallet)
    (unwrap_or (sent_body (@invoice_request V1HttpDemo.text "http://h:2121" 21 "https://b")) EmptyString)) = OK_200.
Proof.
  rewrite (@invoice_amount_read ToyNostr.nostr V1HttpDemo.parser V1HttpDemo.text V1HttpDemo.config
    V1HttpDemo.wallet "http://h:2121" 21 "https://b"); [done|split; by vm_compute|].
  intros v Hw. unfold json_from_str, V1HttpDemo.parser, V1HttpDemo.text, ToyJson.json. cbn [json_tree json_to_string].
  rewrite decide_True by done. rewrite chars_of_chars, ToyJson.of_bits. cbn [mbind option_bind].
  rewrite decode_encode. cbn. by rewrite ToyJson.of_to_tree.
Defined.

Lemma payment_answer_read_witness :
  @read_payment ToyNostr.nostr (@answer_of V1HttpDemo.text
      (@rejected_response ToyNostr.nostr V1HttpDemo.config "02ab" (Some "spent"%string))) =
    Err (V1HttpError.PaymentRejected "payment_rejected" "spent").
Proof.
  eapply (@payment_answer_read ToyNostr.nostr ToyNostr.nostr_laws V1HttpDemo.parser V1Demo.base64 V1HttpDemo.text
    V1HttpDemo.config "02ab" EmptyString 0 (Some "spent"%string)).
  - split; [by vm_compute|]. by repeat constructor.
  - reflexivity.
Defined.
