(* ===== verification/V1Wallet.v ===== *)
(** * The V1 wallet

    Models [crates/tollgate-net/src/v1_compat/wallet.rs]: the light verification of a
    token, the choice of a mint, and the sequences of calls to the [cdk] wallet by which
    tokens are minted, sent and melted. The [cdk] wallet is a class; the mint's JSON is
    read with [Json.v]. *)

From S2P Require Import Prelude Wallet NetDriver Json Decimal Shell Text V1Server.

(** ** Bytes as text *)

(** [s[..n]] panics inside a character. *)
Definition is_char_boundary (s : list Z) (n : nat) : bool :=
  match n with
  | O => true
  | S _ => match s !! n with Some b => negb (cont b) | None => (n =? length s)%nat end
  end.

(** A call that may panic. *)
Inductive outcome (A : Type) : Type := Returns (a : A) | Panics.
Arguments Returns {A}. Arguments Panics {A}.

(** ** The cdk wallet *)

Inductive SendKind : Set := OnlineExact | OnlineTolerance (t : Z).
Module SendOptions.
Record t : Set := mk { send_kind : SendKind; include_fee : bool }.
(** [SendOptions::default()] *)
Definition default : t := mk OnlineExact false.
End SendOptions.

Module MintQuote.
Record t : Set := mk { id : string; request : string; expiry : Z }.
End MintQuote.

(** [cdk::Wallet] over a state of the world, with the errors as text; a prepared send or
    melt is a token of type [Prepared]. *)
Class Cdk (World : Type) : Type := {
  Prepared : Type;
  mint_quote : Z -> World -> World * result MintQuote.t string;
  check_mint_quote : string -> World -> World * result QuoteState string;
  mint : string -> World -> World * result (list Z) string;
  recover_incomplete_sagas : World -> World;
  cdk_total_balance : World -> World * result Z string;
  prepare_send : Z -> SendOptions.t -> World -> World * result Prepared string;
  confirm_send : Prepared -> World -> World * result string string;
  melt_quote : string -> World -> World * result string string;
  melt_lightning_address_quote : string -> Z -> World -> World * result string string;
  prepare_melt : string -> World -> World * result Prepared string;
  (** The amount and the fee. *)
  confirm_melt : Prepared -> World -> World * result (Z * Z) string;
  (** [tokio::time::sleep], in milliseconds. *)
  sleep : Z -> World -> World
}.

Definition map_err {A} (context : string) (r : result A string) : result A string :=
  match r with Ok a => Ok a | Err e => Err (context +:+ e) end.

Module CdkWallet.
(** The wallet's own mint; the rest of its state is in the world. *)
Record t : Set := mk { mint_url : string }.

(** Each URL in order; the first that initialises, or the last failure. *)
Fixpoint try_each {W} (init : string -> result W string) (urls : list string) (last_err : option string)
    : result W string :=
  match urls with
  | [] => Err (unwrap_or last_err "all mints failed"%string)
  | url :: urls =>
      match init url with Ok wallet => Ok wallet | Err e => try_each init urls (Some e) end
  end.
Definition try_mints {W} (init : string -> result W string) (mint_urls : list string) : result W string :=
  if bool_decide (mint_urls = []) then Err "no mint URLs provided"%string else try_each init mint_urls None.

(** ** Verification *)

Section verify.
Context `{Cashu}.
(** The answer to a POST of [Ys], or the context of its failure. *)
Context (post : string -> list string -> result Value string).

Definition proof_unspent (state : Value) : result unit string :=
  let s := unwrap_or (get state "state" ≫= as_str) EmptyString in
  if bool_decide (s = "UNSPENT"%string) then Ok tt
  else Err ("one or more proofs are already spent (state: " +:+ s +:+ ")").
Fixpoint all_unspent (states : list Value) : result unit string :=
  match states with
  | [] => Ok tt
  | state :: states => match proof_unspent state with Ok _ => all_unspent states | Err e => Err e end
  end.
Definition check_proofs_unspent (mint_base_url : string) (ys : list string) : result unit string :=
  match post (mint_base_url +:+ "/v1/checkstate") ys with
  | Err e => Err e
  | Ok resp =>
      match get resp "states" ≫= as_array with
      | None => Err "mint response missing 'states'"%string
      | Some states => all_unspent states
      end
  end.

Definition verify_token (w : t) (token_str : string) : result Z string :=
  match parse_token token_str with
  | None => Err "invalid Cashu token"%string
  | Some token =>
      match token_mint_url token with
      | None => Err "token has no mint URL"%string
      | Some token_mint =>
          let token_mint_base := trim_end_matches slash token_mint in
          if negb (bool_decide (token_mint_base = trim_end_matches slash (mint_url w)))
          then Err ("token mint " +:+ token_mint +:+ " does not match wallet mint " +:+ mint_url w)
          else
            match token_value token with
            | None => Err "could not sum token value"%string
            | Some amount_sat =>
                let ys := token_proof_ys token in
                if bool_decide (ys = []) then Err "token contains no proofs"%string
                else match check_proofs_unspent token_mint_base ys with
                     | Err e => Err e
                     | Ok _ => Ok amount_sat
                     end
            end
      end
  end.

(** The log line shows the first 20 bytes, when its level is on. *)
Definition receive_token (info_enabled : bool) (w : t) (token : bytes) : outcome (result Z string) :=
  let token_str := utf8_lossy (byte_val <$> token) in
  if info_enabled && negb (is_char_boundary token_str (Nat.min (length token_str) 20)) then Panics
  else Returns (verify_token w (string_of_codes token_str)).
End verify.

(** ** Sending, minting, melting *)

Section cdk.
Context `{Cdk World}.
Abbreviation call A := (World -> World * result A string).

Definition send_token (amount : Z) (opts : SendOptions.t) : call string := fun w =>
  let '(w, r) := prepare_send amount opts w in
  match map_err "prepare_send: " r with
  | Err e => (w, Err e)
  | Ok prepared => let '(w, r) := confirm_send prepared w in (w, map_err "confirm: " r)
  end.
Definition create_token (amount : Z) : call string := send_token amount SendOptions.default.
Definition create_token_with_overpayment (amount max_overpayment_absolute : Z) : call string :=
  send_token amount (SendOptions.mk (OnlineTolerance max_overpayment_absolute) true).

Definition total_balance : call Z := fun w =>
  let '(w, r) := cdk_total_balance w in (w, map_err "balance: " r).

(** Up to [n] polls; whether the quote was paid. *)
Fixpoint poll_paid (n : nat) (id : string) : call bool := fun w =>
  match n with
  | O => (w, Ok false)
  | S n =>
      let '(w, r) := check_mint_quote id (sleep 500 w) in
      match map_err "check_status: " r with
      | Err e => (w, Err e)
      | Ok Paid => (w, Ok true)
      | Ok _ => poll_paid n id w
      end
  end.
(** Up to [n] attempts; before the last there is a pause after a failure. *)
Fixpoint mint_attempts (n : nat) (id : string) (amount : Z) (last_err : string) : call unit := fun w =>
  match n with
  | O => (w, Err ("mint failed after 3 attempts: " +:+ last_err))
  | S n =>
      let '(w, r) := mint id w in
      match r with
      | Ok _ => (w, Ok tt)
      | Err e =>
          let '(w, r) := total_balance (recover_incomplete_sagas w) in
          match r with
          | Err e => (w, Err e)
          | Ok bal =>
              if amount <=? bal then (w, Ok tt)
              else mint_attempts n id amount e (match n with O => w | S _ => sleep 2000 w end)
          end
      end
  end.
Definition mint_test_tokens (amount : Z) : call unit := fun w =>
  let '(w, r) := mint_quote amount w in
  match map_err "mint_quote: " r with
  | Err e => (w, Err e)
  | Ok quote =>
      let '(w, r) := poll_paid 60 (MintQuote.id quote) w in
      match r with
      | Err e => (w, Err e)
      | Ok false => (w, Err ("mint quote " +:+ MintQuote.id quote +:+ " not paid after 30s"))
      | Ok true => mint_attempts 3 (MintQuote.id quote) amount EmptyString w
      end
  end.

Definition request_mint_quote (amount : Z) : call MintQuoteInfo := fun w =>
  let '(w, r) := mint_quote amount w in
  (w, match map_err "mint_quote: " r with
      | Err e => Err e
      | Ok quote => Ok (mkQuote (MintQuote.id quote) (MintQuote.request quote) amount (MintQuote.expiry quote))
      end).
Definition check_mint_quote_status (quote_id : string) : call QuoteState := fun w =>
  let '(w, r) := check_mint_quote quote_id w in (w, map_err "check_mint_quote_status: " r).
Definition mint_tokens (quote_id : string) : call Z := fun w =>
  let '(w, r) := mint quote_id w in
  (w, match map_err "mint: " r with
      | Err e => Err e
      | Ok amounts => Ok (foldl (fun acc a => wrap_u64 (acc + a)) 0 amounts)
      end).

(** From the quote to the amount paid. *)
Definition melt (quote_id : string) : call Z := fun w =>
  let '(w, r) := prepare_melt quote_id w in
  match map_err "prepare_melt: " r with
  | Err e => (w, Err e)
  | Ok prepared =>
      let '(w, r) := confirm_melt prepared w in
      (w, match map_err "melt confirm: " r with Err e => Err e | Ok (amount, _) => Ok amount end)
  end.
Definition melt_to_invoice (invoice : string) : call Z := fun w =>
  let '(w, r) := melt_quote invoice w in
  match map_err "melt_quote: " r with Err e => (w, Err e) | Ok quote_id => melt quote_id w end.
Definition melt_to_lightning_address (address : string) (amount_msat : Z) : call Z := fun w =>
  let '(w, r) := melt_lightning_address_quote address amount_msat w in
  match map_err "melt_lightning_address_quote: " r with
  | Err e => (w, Err e)
  | Ok quote_id => melt quote_id w
  end.
Definition mint_reachable : call bool := fun w => (w, Ok true).
End cdk.
End CdkWallet.

(** ** Lemmas: text *)

Lemma boundary_ascii l n : Forall (fun z => z < 128) l -> is_char_boundary l (Nat.min (length l) n) = true.
Proof.
  intros Hl. unfold is_char_boundary. destruct (Nat.min (length l) n) as [|k] eqn:E; [done|].
  destruct (l !! S k) as [b|] eqn:Eb.
  - pose proof (Forall_lookup_1 _ _ _ _ Hl Eb) as Hb. cbn in Hb. unfold cont.
    destruct (Z.leb_spec 128 b); [lia|done].
  - apply lookup_ge_None in Eb. apply Nat.eqb_eq. lia.
Qed.

(** ** Properties *)

(** A token in ASCII, as every encoded token is, is received without a panic and verified
    as it is. *)
Theorem ascii_token_received `{Cashu} post info_enabled w token :
  Forall (fun b => byte_val b < 128) token ->
  CdkWallet.receive_token post info_enabled w token =
    Returns (CdkWallet.verify_token post w (string_of_codes (byte_val <$> token))).
Proof.
  intros Ht. unfold CdkWallet.receive_token.
  assert (Forall (fun z => z < 128) (byte_val <$> token)) as Hc by by apply Forall_fmap.
  rewrite lossy_ascii by done. rewrite boundary_ascii by done. by rewrite andb_false_r.
Qed.

(** A token is accepted only if it parses, names the wallet's mint, carries proofs, and the
    mint answered with a list of states all of which are UNSPENT; then its claimed value
    is the answer. *)
Theorem verify_token_accepts `{Cashu} post w s amount :
  CdkWallet.verify_token post w s = Ok amount <->
  exists token mint resp states,
    parse_token s = Some token /\ token_mint_url token = Some mint /\ token_value token = Some amount /\
    trim_end_matches slash mint = trim_end_matches slash (CdkWallet.mint_url w) /\ token_proof_ys token <> [] /\
    post (trim_end_matches slash mint +:+ "/v1/checkstate") (token_proof_ys token) = Ok resp /\
    get resp "states" ≫= as_array = Some states /\
    Forall (fun st => get st "state" ≫= as_str = Some "UNSPENT"%string) states.
Proof.
  assert (forall states, CdkWallet.all_unspent states = Ok tt <->
    Forall (fun st => get st "state" ≫= as_str = Some "UNSPENT"%string) states) as Hall.
  { intros states. induction states as [|st states IH]; [by split|]. cbn [CdkWallet.all_unspent].
    unfold CdkWallet.proof_unspent. rewrite Forall_cons, <- IH.
    destruct (get st "state" ≫= as_str) as [x|]; cbn; [|naive_solver].
    case_bool_decide as E; [subst|]; naive_solver. }
  unfold CdkWallet.verify_token, CdkWallet.check_proofs_unspent. split.
  - destruct (parse_token s) as [token|]; [|done]. destruct (token_mint_url token) as [mint|] eqn:Emint; [|done].
    case_bool_decide as Em; [|done]. cbn. destruct (token_value token) as [v|] eqn:Ev; [|done].
    case_bool_decide as Ey; [done|]. destruct (post _ _) as [resp|] eqn:Ep; [|done].
    destruct (get resp "states" ≫= as_array) as [states|] eqn:Es; [|done].
    destruct (CdkWallet.all_unspent states) as [[]|] eqn:Ea; [|done]. intros [= ->].
    exists token, mint, resp, states. split_and!; try done; by apply Hall.
  - intros (token & mint & resp & states & -> & Hm & Hv & E & Hys & Hp & Hst & Hu).
    rewrite Hm, Hv, bool_decide_true, bool_decide_false by done. cbn [negb]. rewrite Hp, Hst.
    by rewrite (proj2 (Hall states) Hu).
Qed.

(** The mint that is chosen is the first that initialises; the failure reported is the
    last one's. *)
Theorem try_mints_first {W} (init : string -> result W string) urls :
  match CdkWallet.try_mints init urls with
  | Ok w => exists before url after_, urls = before ++ url :: after_ /\ init url = Ok w /\
      Forall (fun u => exists e, init u = Err e) before
  | Err e => Forall (fun u => exists e, init u = Err e) urls /\
      (urls <> [] -> exists u, last urls = Some u /\ init u = Err e)
  end.
Proof.
  assert (forall last_err,
    match CdkWallet.try_each init urls last_err with
    | Ok w => exists before url after_, urls = before ++ url :: after_ /\ init url = Ok w /\
        Forall (fun u => exists e, init u = Err e) before
    | Err e => Forall (fun u => exists e, init u = Err e) urls /\
        (urls <> [] -> exists u, last urls = Some u /\ init u = Err e)
    end) as Hk.
  { induction urls as [|u urls IH]; intros le; cbn [CdkWallet.try_each]; [by split|].
    destruct (init u) as [w|e] eqn:E; [by exists [], u, urls|]. specialize (IH (Some e)).
    destruct (CdkWallet.try_each init urls (Some e)) as [w|e'] eqn:Et.
    - destruct IH as (before & url & after_ & -> & ? & ?). exists (u :: before), url, after_.
      split_and!; [done|done|]. constructor; [by exists e|done].
    - destruct IH as [IH1 IH2]. split; [constructor; [by exists e|done]|]. intros _.
      destruct urls as [|v urls]; [|rewrite last_cons_cons; by apply IH2].
      cbn in Et. injection Et as <-. by exists u. }
  unfold CdkWallet.try_mints. case_bool_decide as E; [by subst|]. apply Hk.
Qed.

Section minting.
Context `{Cdk World}.

(** A mint that is reported was done by the mint, or a balance was seen that covers it. *)
Lemma mint_attempts_ok n id amount e w w' :
  CdkWallet.mint_attempts n id amount e w = (w', Ok tt) ->
  (exists w0 amounts, mint id w0 = (w', Ok amounts)) \/
  (exists w0 bal, cdk_total_balance w0 = (w', Ok bal) /\ amount <= bal).
Proof.
  revert e w. induction n as [|n IH]; intros e w; cbn [CdkWallet.mint_attempts]; [done|].
  destruct (mint id w) as [w1 [amounts|err]] eqn:Em; [intros [= <-]; left; eauto|].
  unfold CdkWallet.total_balance. destruct (cdk_total_balance _) as [w2 [bal|err2]] eqn:Eb; cbn; [|done].
  destruct (Z.leb_spec amount bal); [intros [= <-]; right; eauto|]. apply IH.
Qed.

(** The test tokens: a success has one of those two causes. *)
Theorem mint_test_tokens_ok amount w w' :
  CdkWallet.mint_test_tokens amount w = (w', Ok tt) ->
  (exists w0 id amounts, mint id w0 = (w', Ok amounts)) \/
  (exists w0 bal, cdk_total_balance w0 = (w', Ok bal) /\ amount <= bal).
Proof.
  unfold CdkWallet.mint_test_tokens. destruct (mint_quote amount w) as [w1 [q|err]]; unfold map_err; [|done].
  generalize 60%nat. intros polls. destruct (CdkWallet.poll_paid polls _ w1) as [w2 [[|]|err]]; [|done|done].
  intros Hm. destruct (mint_attempts_ok _ _ _ _ _ _ Hm) as [(w0 & a & ?)|?]; [left|right]; eauto.
Qed.
End minting.

(** ** Departures *)

Module WalletDemo.
(** A wallet with 100 sat at a mint whose quotes are paid at once and which mints
    nothing. *)
#[export] Instance stingy : Cdk unit := {|
  Prepared := unit;
  mint_quote amount w := (w, Ok (MintQuote.mk "q" "lnbc" 0));
  check_mint_quote id w := (w, Ok Paid);
  mint id w := (w, Err "no"%string);
  recover_incomplete_sagas w := w;
  cdk_total_balance w := (w, Ok 100);
  prepare_send amount opts w := (w, Err "no"%string);
  confirm_send p w := (w, Err "no"%string);
  melt_quote i w := (w, Err "no"%string);
  melt_lightning_address_quote a m w := (w, Err "no"%string);
  prepare_melt q w := (w, Err "no"%string);
  confirm_melt p w := (w, Err "no"%string);
  sleep ms w := w
|}.
#[export] Instance no_tokens : Cashu :=
  {| parse_token _ := None; token_mint_url _ := None; token_value _ := None |}.
End WalletDemo.

(** The check after a failed mint asks for the whole balance, not for its growth: money
    from before passes for the tokens that were not minted. *)
Theorem old_balance_passes_for_mint :
  CdkWallet.mint_test_tokens (H := WalletDemo.stingy) 64 tt = (tt, Ok tt).
Proof. vm_compute. reflexivity. Qed.

(** The log line cuts the token at its twentieth byte: a character that lies across it
    panics, before anything is verified. *)
Theorem cut_character_panics post w :
  CdkWallet.receive_token (H := WalletDemo.no_tokens) post true w
    (replicate 19 Byte.x61 ++ [Byte.xc3; Byte.xa9]) = Panics.
Proof. vm_compute. reflexivity. Qed.

(** Bytes that are no text at all panic too: what replaces them is three bytes long. *)
Theorem garbage_panics post w :
  CdkWallet.receive_token (H := WalletDemo.no_tokens) post true w (replicate 20 Byte.xff) = Panics.
Proof. vm_compute. reflexivity. Qed.
