(* ===== verification/StatusText.v ===== *)
(** * The status as text

    Models the formatting functions of [crates/tollgate-net/src/status.rs] and the
    parts of [bin/tolltop.rs] that decide what is shown: numbers, units and drift as
    text, the tables of peers and prices, the rows and keys of the live view. A slice
    off a character boundary panics: such text is [None]. Drawing is [ratatui]'s. *)

From Stdlib Require Import Floats.SpecFloat.
From S2P Require Import Prelude Decimal F64 F64Exact Status Json Shell Text.

(** ** Rust's formatting *)

(** The number of characters of a UTF-8 text: of the bytes that begin one. *)
Definition begins_char (c : Ascii.ascii) : bool :=
  let n := Ascii.N_of_ascii c in (n <? 128)%N || (192 <=? n)%N.
Definition char_count (s : string) : nat := length (filter (fun c => begins_char c = true) (chars s)).

Definition spaces (n : nat) : string := of_chars (replicate n (Ascii.ascii_of_N 32)).
(** [{:<w}] and [{:>w}]. *)
Definition left_in (w : nat) (s : string) : string := s +:+ spaces (w - char_count s).
Definition right_in (w : nat) (s : string) : string := spaces (w - char_count s) +:+ s.

(** [{:+}] of an integer. *)
Definition signed_text (z : Z) : string := if 0 <=? z then "+" +:+ to_string z else to_string z.

(** [n / d] to the nearest integer, ties to even. *)
Definition round_div (n d : Z) : Z :=
  let q := n / d in
  let r := n mod d in
  if (2 * r <? d) || ((2 * r =? d) && Z.even q) then q else q + 1.

(** [{:.k}] of a double: the exact value rounded to [k] decimals. *)
Definition fixed (k : nat) (x : f64) : string :=
  let scale := 10 ^ Z.of_nat k in
  let unsigned n := to_string (n / scale) +:+ "." +:+ pad k (n mod scale) in
  let sign s := if s : bool then "-"%string else EmptyString in
  match x with
  | S754_nan => "NaN"
  | S754_infinity s => sign s +:+ "inf"
  | S754_zero s => sign s +:+ unsigned 0
  | S754_finite s m e =>
      sign s +:+ unsigned (if 0 <=? e then Z.pos m * 2 ^ e * scale else round_div (Z.pos m * scale) (2 ^ (- e)))
  end.

(** ** [status.rs] *)

(** Division of an [i64] truncates. *)
Definition fmt_net (net_scaled : Z) : string := signed_text (Z.quot net_scaled 1000).
Definition fmt_held (scaled : Z) : string :=
  if scaled =? 0 then "-" else to_string (Z.quot scaled 1000).
Definition fmt_drift (drift : option f64) : string :=
  match drift with
  | Some d => fixed 1 (f64_mul d (f64_of_Z 100)) +:+ "%"
  | None => "-"
  end.

Definition SUFFIXES : list string := ["B"; "KB"; "MB"; "GB"; "TB"; "PB"]%string.
(** The loop of divisions; [n] counts the suffixes that are left. *)
Fixpoint scale_down (n : nat) (value : f64) (i : nat) : f64 * nat :=
  match n with
  | O => (value, i)
  | S n =>
      if f64_ge value (f64_of_Z 1024) then scale_down n (f64_div value (f64_of_Z 1024)) (S i)
      else (value, i)
  end.
Definition fmt_units (n : Z) (unit : string) : string :=
  if negb (bool_decide (unit = "bytes"%string)) then to_string n
  else
    let '(value, i) := scale_down (length SUFFIXES - 1) (f64_of_Z n) 0 in
    if (i =? 0)%nat then to_string n +:+ " B"
    else fixed 2 value +:+ " " +:+ unwrap_or (SUFFIXES !! i) EmptyString.

(** [&s[..n]] and [&s[n..]]: both ends on character boundaries. *)
Definition boundary (l : list Ascii.ascii) (n : nat) : bool :=
  match drop n l with [] => (n <=? length l)%nat | c :: _ => begins_char c end.
Definition short (hex : string) : option string :=
  let l := chars hex in
  if (12 <? length l)%nat then
    if boundary l 6 && boundary l (length l - 4)
    then Some (of_chars (take 6 l) +:+ "…" +:+ of_chars (drop (length l - 4) l)) else None
  else Some hex.

Definition TABLE_HEAD : string :=
  left_in 13 "PEER" +:+ " " +:+ left_in 19 "IP" +:+ " " +:+ left_in 10 "STATE" +:+ " " +:+
  right_in 11 "DELIVERED" +:+ " " +:+ right_in 11 "RECEIVED" +:+ " " +:+ right_in 8 "WE_HOLD" +:+ " " +:+
  right_in 9 "THEY_HOLD" +:+ " " +:+ right_in 6 "NET" +:+ " " +:+ right_in 6 "DRIFT" +:+ " " +:+
  right_in 7 "METERED".

Definition table_row (unit : string) (p : PeerStatus.t) : option string :=
  peer ← short (PeerStatus.pubkey p);
  Some (left_in 13 peer +:+ " " +:+ left_in 19 (unwrap_or (PeerStatus.ip p) "-") +:+ " " +:+
    left_in 10 (PeerStatus.state p) +:+ " " +:+
    right_in 11 (fmt_units (PeerStatus.delivered p) unit) +:+ " " +:+
    right_in 11 (fmt_units (PeerStatus.received p) unit) +:+ " " +:+
    right_in 8 (fmt_held (PeerStatus.their_balance p)) +:+ " " +:+
    right_in 9 (fmt_held (PeerStatus.our_balance p)) +:+ " " +:+
    right_in 6 (fmt_net (PeerStatus.net_balance p)) +:+ " " +:+
    right_in 6 (fmt_drift (PeerStatus.drift p)) +:+ " " +:+
    right_in 5 (to_string (PeerStatus.metered_secs p)) +:+ "s").

Definition count_text (n : nat) : string := to_string (Z.of_nat n).

Definition table_foot (s : NodeStatus.t) : string :=
  let '(active, suspended, other) := NodeStatus.state_counts s in
  count_text (length (NodeStatus.peers s)) +:+ " peers (" +:+ to_string active +:+ " active, " +:+
    to_string suspended +:+ " suspended, " +:+ to_string other +:+ " other)".

(** The lines written with [writeln!], and the last, with [write!]. *)
Definition written_lines (ls : list string) (last : string) : string :=
  foldr (fun l rest => l +:+ newline_string +:+ rest) last ls.

Definition render_table (s : NodeStatus.t) : option string :=
  node ← short (NodeStatus.pubkey s);
  rows ← mapM (table_row (NodeStatus.unit s)) (NodeStatus.peers s);
  Some (written_lines (("node " +:+ node +:+ "  unit=" +:+ NodeStatus.unit s) :: TABLE_HEAD :: rows)
    (table_foot s)).

Definition PRICING_HEAD : string :=
  left_in 13 "PRODUCT" +:+ " " +:+ left_in 26 "MINT" +:+ " " +:+ left_in 5 "CCY" +:+ " " +:+
  right_in 8 "PER_SEC" +:+ " " +:+ right_in 9 "PER_UNIT".

Definition mint_row (product : string) (m : MintStatus.t) : string :=
  left_in 13 product +:+ " " +:+ left_in 26 (MintStatus.mint_url m) +:+ " " +:+
  left_in 5 (MintStatus.mint_unit m) +:+ " " +:+ right_in 8 (to_string (MintStatus.price_per_second m)) +:+ " " +:+
  right_in 9 (to_string (MintStatus.price_per_unit m)).

Definition product_rows (p : ProductStatus.t) : option (list string) :=
  match ProductStatus.mints p with
  | [] => id ← short (ProductStatus.product_id p); Some [left_in 13 id +:+ " (no mints)"]
  | mints => id ← short (ProductStatus.product_id p); Some (mint_row id <$> mints)
  end.

Definition render_pricing (s : NodeStatus.t) : option string :=
  let p := NodeStatus.pricing s in
  let title := "pricing — selling " +:+ NodeStatus.unit s +:+ "  ·  " +:+
    count_text (length (PricingStatus.products p)) +:+ " product(s), interval " +:+
    to_string (PricingStatus.min_interval_ms p) +:+ "–" +:+ to_string (PricingStatus.max_interval_ms p) +:+
    " ms" in
  match PricingStatus.products p with
  | [] => Some (written_lines [title] "(no products — this node sells nothing)")
  | products =>
      rows ← mapM product_rows products;
      let total := sum_list_with (fun pr => length (ProductStatus.mints pr)) products in
      Some (written_lines (title :: PRICING_HEAD :: mjoin rows) (count_text total +:+ " mint option(s)"))
  end.

(** ** [bin/tolltop.rs]: the rows *)

Module Tolltop.

(** What one frame shows: the header, the selected tab, and a table, a line in a
    box, or an error. *)
Inductive body : Set :=
| Table (title : string) (head : list string) (rows : list (list string))
| Paragraph (title text : string)
| Unreachable (text : string).
Record frame : Set := mk_frame { header : string; selected : nat; content : body }.

Definition TABS : list string := ["Peers"; "Pricing"]%string.
Definition PEER_HEAD : list string :=
  ["PEER"; "IP"; "STATE"; "DELIVERED"; "RECEIVED"; "WE_HOLD"; "THEY_HOLD"; "NET"; "DRIFT"; "METERED"]%string.
Definition PRICE_HEAD : list string := ["PRODUCT"; "MINT"; "CCY"; "PER_SEC"; "PER_UNIT"]%string.

Definition peer_cells (unit : string) (p : PeerStatus.t) : option (list string) :=
  peer ← short (PeerStatus.pubkey p);
  Some [peer; unwrap_or (PeerStatus.ip p) "-"; PeerStatus.state p;
    fmt_units (PeerStatus.delivered p) unit; fmt_units (PeerStatus.received p) unit;
    fmt_held (PeerStatus.their_balance p); fmt_held (PeerStatus.our_balance p);
    fmt_net (PeerStatus.net_balance p); fmt_drift (PeerStatus.drift p);
    to_string (PeerStatus.metered_secs p) +:+ "s"].

Definition render_peers (s : NodeStatus.t) : option body :=
  let '(active, suspended, other) := NodeStatus.state_counts s in
  let title := "peers: " +:+ count_text (length (NodeStatus.peers s)) +:+ " (" +:+ to_string active +:+ "A " +:+
    to_string suspended +:+ "S " +:+ to_string other +:+ "O)" in
  rows ← mapM (peer_cells (NodeStatus.unit s)) (NodeStatus.peers s);
  Some (Table title PEER_HEAD rows).

Definition mint_cells (id : string) (m : MintStatus.t) : list string :=
  [id; MintStatus.mint_url m; MintStatus.mint_unit m;
   to_string (MintStatus.price_per_second m); to_string (MintStatus.price_per_unit m)].
Definition product_cells (p : ProductStatus.t) : option (list (list string)) :=
  match ProductStatus.mints p with
  | [] => id ← short (ProductStatus.product_id p); Some [[id; "(no mints)"; "-"; "-"; "-"]%string]
  | mints => id ← short (ProductStatus.product_id p); Some (mint_cells id <$> mints)
  end.

Definition render_pricing (s : NodeStatus.t) : option body :=
  let p := NodeStatus.pricing s in
  let title := "pricing — selling " +:+ NodeStatus.unit s +:+ "  ·  " +:+
    count_text (length (PricingStatus.products p)) +:+ " product(s)  interval " +:+
    to_string (PricingStatus.min_interval_ms p) +:+ "–" +:+ to_string (PricingStatus.max_interval_ms p) +:+
    " ms" in
  match PricingStatus.products p with
  | [] => Some (Paragraph title " no products — this node sells nothing")
  | products =>
      rows ← mapM product_cells products;
      Some (Table title PRICE_HEAD (mjoin rows))
  end.

Definition draw (socket : string) (status : string + NodeStatus.t) (tab : nat) : option frame :=
  match status with
  | inr s =>
      node ← short (NodeStatus.pubkey s);
      shown ← (if (tab =? 1)%nat then render_pricing s else render_peers s);
      Some (mk_frame (" tolltop — node " +:+ node +:+ "  unit=" +:+ NodeStatus.unit s) tab shown)
  | inl e =>
      Some (mk_frame " tolltop" tab (Unreachable ("cannot reach node at " +:+ socket +:+ ": " +:+ e)))
  end.

(** ** The keys *)

(** [crossterm]'s key codes, those the program tells apart. *)
Inductive key_code : Set := Tab | BackTab | LeftArrow | RightArrow | Esc | Char (c : Z) | OtherKey.
Record key : Set := mk_key { code : key_code; control : bool }.

Definition is_quit (k : key) : bool :=
  match code k with
  | Esc => true
  | Char c => (c =? 113) || ((c =? 99) && control k)
  | _ => false
  end.

Definition next_tab (tab : nat) (k : key_code) : nat :=
  match k with
  | Tab | RightArrow => (tab + 1) mod length TABS
  | BackTab | LeftArrow => (tab + length TABS - 1) mod length TABS
  | Char c =>
      if ((48 <=? c) && (c <=? 57))%Z then
        let n := Z.to_nat (c - 48)%Z in
        if (1 <=? n)%nat && (n <=? length TABS)%nat then (n - 1)%nat else tab
      else tab
  | _ => tab
  end%nat.

(** ** The loop *)

(** What the terminal does in a round: it may refuse the frame, then the wait may
    fail, time out, or end with an event. *)
Inductive wait_result : Set :=
| PollFailed (e : string)
| TimedOut
| ReadFailed (e : string)
| GotKey (k : key)
| GotOther.
Record round : Set := mk_round {
  queried : string + NodeStatus.t;
  draw_error : option string;
  waited : wait_result
}.

(** How the loop leaves a round: with an outcome, or with the tab of the next. *)
Definition after_draw (tab : nat) (w : wait_result) : (string + unit) + nat :=
  match w with
  | GotKey k => if is_quit k then inl (inr tt) else inr (next_tab tab (code k))
  | GotOther | TimedOut => inr tab
  | ReadFailed e | PollFailed e => inl (inl e)
  end.

(** The rounds of [run_tui]: the frames drawn, and the outcome ([None]: still running
    when the rounds end). The whole is [None] when a frame panics. *)
Fixpoint run_tui (socket : string) (tab : nat) (rounds : list round)
    : option (list frame * option (string + unit)) :=
  match rounds with
  | [] => Some ([], None)
  | r :: rounds =>
      f ← draw socket (queried r) tab;
      match draw_error r with
      | Some e => Some ([], Some (inl e))
      | None =>
          match after_draw tab (waited r) with
          | inl outcome => Some ([f], Some outcome)
          | inr tab =>
              '(fs, outcome) ← run_tui socket tab rounds;
              Some (f :: fs, outcome)
          end
      end
  end.
End Tolltop.

(** [tolltop --once]: what is printed. *)
Definition tolltop_once (queried : string + NodeStatus.t) : option (string + string) :=
  match queried with
  | inl e => Some (inl e)
  | inr s =>
      table ← render_table s;
      prices ← render_pricing s;
      Some (inr (written_lines [table; EmptyString; prices] EmptyString))
  end.
(** ** Lemmas: byte counts *)

Lemma log2_digits n : 0 < n -> Z.log2 n = digits n - 1.
Proof.
  intros Hn. destruct (digits_bounds n Hn) as (Hd & Hl & Hu). apply Z.log2_unique; [lia|].
  replace (Z.succ (digits n - 1)) with (digits n) by lia. done.
Qed.

(** Each division lowers the exponent by ten, until the value is below 1024. *)
Lemma scale_down_steps k p e i :
  digits (Z.pos p) = 53 -> -52 <= e <= 0 -> (e + 52) / 10 <= Z.of_nat k ->
  scale_down k (S754_finite false p e) i =
    (S754_finite false p (e - 10 * ((e + 52) / 10)), (i + Z.to_nat ((e + 52) / 10))%nat).
Proof.
  intros Hd. revert e i. induction k as [|k IH]; intros e i He Hk; cbn [scale_down].
  - assert ((e + 52) / 10 = 0) as -> by (pose proof (Z.div_pos (e + 52) 10 ltac:(lia) ltac:(lia)); cbn in Hk; lia).
    by rewrite Z.mul_0_r, Z.sub_0_r, Nat.add_0_r.
  - rewrite f64_ge_1024 by done. destruct (Z.leb_spec (-42) e).
    + rewrite f64_div_1024 by (done || lia).
      assert ((e + 52) / 10 = (e - 10 + 52) / 10 + 1) as E.
      { replace (e + 52) with (e - 10 + 52 + 1 * 10) by lia. by rewrite Z.div_add by lia. }
      pose proof (Z.div_pos (e - 10 + 52) 10 ltac:(lia) ltac:(lia)) as Hp.
      rewrite IH by lia. rewrite E. revert Hp. generalize ((e - 10 + 52) / 10). intros q Hq.
      rewrite Z2Nat.inj_add by lia. replace (e - 10 * (q + 1)) with (e - 10 - 10 * q) by lia.
      replace (i + (Z.to_nat q + Z.to_nat 1))%nat with (S i + Z.to_nat q)%nat by (cbn; lia). done.
    + rewrite Z.div_small by lia. by rewrite Z.mul_0_r, Z.sub_0_r, Nat.add_0_r.
Qed.

Lemma round_div_scale n d k : 0 < d -> 0 < k -> round_div (n * k) (d * k) = round_div n d.
Proof.
  intros Hd Hk. unfold round_div. rewrite Z.div_mul_cancel_r, Z.mul_mod_distr_r by lia.
  replace (2 * (n mod d * k) <? d * k) with (2 * (n mod d) <? d).
  2: { apply eq_true_iff_eq. rewrite !Z.ltb_lt. nia. }
  replace (2 * (n mod d * k) =? d * k) with (2 * (n mod d) =? d); [done|].
  apply eq_true_iff_eq. rewrite !Z.eqb_eq. nia.
Qed.

(** The rounded quotient is within a half. *)
Lemma round_div_near n d : 0 < d -> 2 * Z.abs (n - d * round_div n d) <= d.
Proof.
  intros Hd. pose proof (Z.div_mod n d ltac:(lia)) as E. pose proof (Z.mod_pos_bound n d Hd) as Hm.
  unfold round_div. destruct (Z.ltb_spec (2 * (n mod d)) d); cbn [orb]; [lia|].
  destruct (Z.eqb_spec (2 * (n mod d)) d); cbn [andb]; [destruct (Z.even (n / d)); lia|lia].
Qed.

(** ** Properties *)

(** A byte count is shown in the largest unit it fills, to the nearest hundredth. Below
    [2 ^ 53] bytes the arithmetic with doubles is exact: a count below 1024 is shown as
    it is, another by its power [i] of 1024, and the hundredths shown are the exact
    quotient's, rounded, so they are within half a hundredth of it. *)
Theorem fmt_units_exact n :
  0 <= n < 2 ^ 53 ->
  let i := Z.log2 n / 10 in
  let h := round_div (100 * n) (1024 ^ i) in
  fmt_units n "bytes" =
    (if n <? 1024 then to_string n +:+ " B"
     else to_string (h / 100) +:+ "." +:+ pad 2 (h mod 100) +:+ " " +:+
            unwrap_or (SUFFIXES !! Z.to_nat i) EmptyString) /\
  (1024 <= n -> 1024 ^ i <= n < 1024 ^ (i + 1) /\ 2 * Z.abs (100 * n - 1024 ^ i * h) <= 1024 ^ i).
Proof.
  intros Hn. cbv zeta. split.
  - unfold fmt_units. rewrite bool_decide_true by done. cbn [negb].
    destruct (decide (n = 0)) as [->|Hn0]; [by vm_compute|].
    destruct (f64_of_Z_exact n ltac:(lia)) as (p & e & -> & Hp & He & He0 & Hm).
    pose proof (log2_digits n ltac:(lia)) as Hlog. destruct (digits_bounds n) as (Hd & _ & _); [lia|].
    assert ((e + 52) / 10 = Z.log2 n / 10) as Ei by (f_equal; lia).
    assert (0 <= Z.log2 n / 10 <= 5) as Hi.
    { split; [apply Z.div_pos; lia|]. apply Z.lt_succ_r, Z.div_lt_upper_bound; lia. }
    rewrite scale_down_steps, Ei by (done || cbn; lia). cbn [Nat.add].
    destruct (Z.ltb_spec n 1024) as [Hlt|Hge].
    + assert (Z.log2 n < 10) as Hl by (apply Z.log2_lt_pow2; lia).
      rewrite (Z.div_small (Z.log2 n)) by lia. done.
    + assert (10 <= Z.log2 n) as Hl by (apply Z.log2_le_pow2; lia).
      assert (1 <= Z.log2 n / 10) as Hi1 by (apply Z.div_le_lower_bound; lia).
      destruct (Nat.eqb_spec (Z.to_nat (Z.log2 n / 10)) 0); [lia|].
      unfold fixed. destruct (Z.leb_spec 0 (e - 10 * (Z.log2 n / 10))); [lia|].
      change ("" +:+ ?x) with x. rewrite Hm.
      replace (n * 2 ^ (- e) * 10 ^ Z.of_nat 2) with (100 * n * 2 ^ (- e)) by (cbn; lia).
      replace (2 ^ (- (e - 10 * (Z.log2 n / 10)))) with (1024 ^ (Z.log2 n / 10) * 2 ^ (- e)).
      2: { change 1024 with (2 ^ 10). rewrite <- Z.pow_mul_r, <- Z.pow_add_r by lia. f_equal. lia. }
      rewrite round_div_scale by (apply Z.pow_pos_nonneg; lia).
      change (10 ^ Z.of_nat 2) with 100. by rewrite !string_app_assoc.
  - intros Hge. pose proof (Z.log2_spec n ltac:(lia)) as [Hlo Hhi].
    pose proof (Z.div_mod (Z.log2 n) 10 ltac:(lia)) as E. pose proof (Z.mod_pos_bound (Z.log2 n) 10 ltac:(lia)).
    pose proof (Z.log2_nonneg n). pose proof (Z.div_pos (Z.log2 n) 10 ltac:(lia) ltac:(lia)).
    split; [|apply round_div_near, Z.pow_pos_nonneg; lia].
    change 1024 with (2 ^ 10). rewrite <- !Z.pow_mul_r by lia. split.
    + transitivity (2 ^ Z.log2 n); [apply Z.pow_le_mono_r; lia|done].
    + apply Z.lt_le_trans with (2 ^ Z.succ (Z.log2 n)); [done|]. apply Z.pow_le_mono_r; lia.
Qed.

(** ** Lemmas: columns *)

Lemma char_count_app a b : char_count (a +:+ b) = (char_count a + char_count b)%nat.
Proof. unfold char_count. by rewrite chars_app, filter_app, length_app. Qed.

(** The letter after a right-aligned number belongs to its column. *)
Lemma right_in_letter w a b : char_count b = 1%nat -> right_in w a +:+ b = right_in (S w) (a +:+ b).
Proof.
  intros Hb. unfold right_in. rewrite char_count_app, Hb, string_app_assoc.
  by replace (S w - (char_count a + 1))%nat with (w - char_count a)%nat by lia.
Qed.

Definition ascii_text (s : string) : Prop := Forall (fun c => (Ascii.N_of_ascii c < 128)%N) (chars s).

Lemma ascii_boundary l n :
  Forall (fun c => (Ascii.N_of_ascii c < 128)%N) l -> (n <= length l)%nat -> boundary l n = true.
Proof.
  intros Hl Hn. unfold boundary. destruct (drop n l) as [|c r] eqn:E; [by apply Nat.leb_le|].
  apply (Forall_drop _ n) in Hl. rewrite E in Hl. apply Forall_cons in Hl as [Hl _].
  unfold begins_char. cbn.
  by rewrite (proj2 (N.ltb_lt _ _) Hl).
Qed.

(** A name in ASCII, such as the hex of a key, is never cut inside a character. *)
Lemma short_ascii hex : ascii_text hex -> is_Some (short hex).
Proof.
  intros Hh. unfold short. destruct (Nat.ltb_spec 12 (length (chars hex))); [|eauto].
  rewrite !ascii_boundary by (done || lia). cbn. eauto.
Qed.

(** The columns of a row of the table. *)
Definition columns (cells : list string) : string :=
  match cells with
  | [peer; ip; state; delivered; received; held; theirs; net; drift; metered] =>
      left_in 13 peer +:+ " " +:+ left_in 19 ip +:+ " " +:+ left_in 10 state +:+ " " +:+
      right_in 11 delivered +:+ " " +:+ right_in 11 received +:+ " " +:+ right_in 8 held +:+ " " +:+
      right_in 9 theirs +:+ " " +:+ right_in 6 net +:+ " " +:+ right_in 6 drift +:+ " " +:+ right_in 6 metered
  | _ => EmptyString
  end.

Lemma mapM_fmap_option {A B C} (f : A -> option B) (g : B -> C) (h : A -> option C) l :
  (forall x, h x = g <$> f x) -> mapM h l = fmap g <$> mapM f l.
Proof.
  intros E. induction l as [|x l IH]; [done|]. cbn. rewrite E, IH.
  destruct (f x) as [y|]; cbn; [|done]. by destruct (mapM f l).
Qed.

Lemma mapM_total {A B} (f : A -> option B) l : Forall (fun x => is_Some (f x)) l -> is_Some (mapM f l).
Proof. intros Hl. apply mapM_is_Some_2. done. Qed.

Lemma table_row_columns unit p : table_row unit p = columns <$> Tolltop.peer_cells unit p.
Proof.
  unfold table_row, Tolltop.peer_cells. destruct (short _) as [peer|]; [|done].
  cbn -[left_in right_in]. by rewrite (right_in_letter 5 _ "s") by done.
Qed.

(** ** Properties of the views *)

(** What a status needs so that it can be shown: the keys and product ids it abbreviates
    are ASCII, as hex is. *)
Definition nameable (s : NodeStatus.t) : Prop :=
  ascii_text (NodeStatus.pubkey s) /\ Forall (fun p => ascii_text (PeerStatus.pubkey p)) (NodeStatus.peers s) /\
  Forall (fun p => ascii_text (ProductStatus.product_id p)) (PricingStatus.products (NodeStatus.pricing s)).

Lemma peer_cells_total unit p : ascii_text (PeerStatus.pubkey p) -> is_Some (Tolltop.peer_cells unit p).
Proof. intros (h & E)%short_ascii. unfold Tolltop.peer_cells. rewrite E. cbn. eauto. Qed.

Lemma product_cells_total p : ascii_text (ProductStatus.product_id p) -> is_Some (Tolltop.product_cells p).
Proof.
  intros (h & E)%short_ascii. unfold Tolltop.product_cells. rewrite E.
  destruct (ProductStatus.mints p); cbn; eauto.
Qed.

(** The one-shot table and the live view show the same cells, padded to columns in the
    former: a line for the node, the headings, a row for every peer in order, and the
    counts. Neither panics when the names are ASCII. *)
Theorem table_shows_view s :
  nameable s ->
  exists node title rows,
    short (NodeStatus.pubkey s) = Some node /\
    Tolltop.render_peers s = Some (Tolltop.Table title Tolltop.PEER_HEAD rows) /\
    length rows = length (NodeStatus.peers s) /\
    (forall i p, NodeStatus.peers s !! i = Some p ->
       Tolltop.peer_cells (NodeStatus.unit s) p = rows !! i) /\
    render_table s =
      Some (written_lines (("node " +:+ node +:+ "  unit=" +:+ NodeStatus.unit s) :: TABLE_HEAD ::
              (columns <$> rows)) (table_foot s)).
Proof.
  intros (Hk & Hp & _). destruct (short_ascii _ Hk) as [node Hnode].
  destruct (mapM_total (Tolltop.peer_cells (NodeStatus.unit s)) (NodeStatus.peers s)) as [rows Hrows].
  { eapply Forall_impl; [exact Hp|]. intros p. apply peer_cells_total. }
  unfold Tolltop.render_peers, render_table. rewrite Hnode, Hrows.
  destruct (NodeStatus.state_counts s) as [[a u] o] eqn:Ec. eexists node, _, rows. split_and!; [done..| | |].
  - symmetry. by eapply length_mapM.
  - intros i p Hi. apply mapM_Some_1 in Hrows. destruct (Forall2_lookup_l _ _ _ _ _ Hrows Hi) as (c & -> & E). done.
  - cbn. rewrite (mapM_fmap_option (Tolltop.peer_cells (NodeStatus.unit s)) columns) by apply table_row_columns.
    rewrite Hrows. done.
Qed.

(** ** Properties of the live view *)

Lemma draw_total socket q tab :
  (forall s, q = inr s -> nameable s) -> is_Some (Tolltop.draw socket q tab).
Proof.
  intros Hq. destruct q as [e|s]; [eauto|]. destruct (Hq s eq_refl) as (Hk & Hp & Hid).
  unfold Tolltop.draw. destruct (short_ascii _ Hk) as [node ->]. cbn.
  assert (is_Some (if (tab =? 1)%nat then Tolltop.render_pricing s else Tolltop.render_peers s)) as [b ->].
  { destruct (tab =? 1)%nat.
    - unfold Tolltop.render_pricing. destruct (PricingStatus.products _) as [|pr l] eqn:E; [eauto|].
      destruct (mapM_total Tolltop.product_cells (pr :: l)) as [rows ->]; [|cbn; eauto].
      eapply Forall_impl; [exact Hid|]. apply product_cells_total.
    - unfold Tolltop.render_peers. destruct (NodeStatus.state_counts s) as [[a u] o].
      destruct (mapM_total (Tolltop.peer_cells (NodeStatus.unit s)) (NodeStatus.peers s)) as [rows ->]; [|cbn; eauto].
      eapply Forall_impl; [exact Hp|]. intros p. apply peer_cells_total. }
  cbn. eauto.
Qed.

Lemma draw_selected socket q tab f : Tolltop.draw socket q tab = Some f -> Tolltop.selected f = tab.
Proof.
  destruct q as [e|s]; cbn; [by intros [= <-]|]. destruct (short _); [|done]. cbn.
  destruct (if (tab =? 1)%nat then _ else _); [|done]. cbn. by intros [= <-].
Qed.

Lemma next_tab_in_range tab k : (tab < 2)%nat -> (Tolltop.next_tab tab k < 2)%nat.
Proof.
  intros Ht. destruct k; cbn [Tolltop.next_tab]; try done; try (by apply Nat.mod_upper_bound).
  destruct (_ && _); [|done]. destruct (Nat.leb_spec 1 (Z.to_nat (c - 48))); cbn [andb]; [|done].
  destruct (Nat.leb_spec (Z.to_nat (c - 48)) (length Tolltop.TABS)) as [H2|]; [cbn in H2; lia|done].
Qed.

(** A round the loop leaves: its frame is refused, or the wait ends it. *)
Definition stops (r : Tolltop.round) (outcome : string + unit) : Prop :=
  match Tolltop.draw_error r with
  | Some e => outcome = inl e
  | None =>
      match Tolltop.waited r with
      | Tolltop.GotKey k => Tolltop.is_quit k = true /\ outcome = inr tt
      | Tolltop.ReadFailed e | Tolltop.PollFailed e => outcome = inl e
      | _ => False
      end
  end.

(** The live view: every frame shows one of the two tabs, whatever keys are pressed; the
    loop ends in the first round with a quit key or an error of the terminal and in no
    other, so a node that cannot be reached does not end it; with ASCII names no frame
    panics. *)
Theorem live_view_runs socket tab rounds :
  (tab < 2)%nat ->
  Forall (fun r => forall s, Tolltop.queried r = inr s -> nameable s) rounds ->
  exists frames outcome,
    Tolltop.run_tui socket tab rounds = Some (frames, outcome) /\
    Forall (fun f => (Tolltop.selected f < 2)%nat) frames /\
    match outcome with
    | None => Forall (fun r => forall o, ~ stops r o) rounds /\ length frames = length rounds
    | Some o => exists before r after, rounds = before ++ r :: after /\
                  Forall (fun r => forall o, ~ stops r o) before /\ stops r o
    end.
Proof.
  intros Ht Hr. revert tab Ht. induction Hr as [|r rounds Hq Hr IH]; intros tab Ht.
  { exists [], None. repeat split; constructor. }
  cbn [Tolltop.run_tui]. destruct (draw_total socket (Tolltop.queried r) tab Hq) as [f Ef].
  pose proof (draw_selected _ _ _ _ Ef) as Es. rewrite Ef. cbn.
  destruct (Tolltop.draw_error r) as [e|] eqn:Ee.
  { exists [], (Some (inl e)). repeat split; [constructor|]. exists [], r, rounds. unfold stops. by rewrite Ee. }
  assert (forall tab', (tab' < 2)%nat -> (forall o, ~ stops r o) ->
    exists frames outcome,
      ('(fs, outcome) ← Tolltop.run_tui socket tab' rounds; Some (f :: fs, outcome)) = Some (frames, outcome) /\
      Forall (fun f => (Tolltop.selected f < 2)%nat) frames /\
      match outcome with
      | None => Forall (fun r => forall o, ~ stops r o) (r :: rounds) /\ length frames = length (r :: rounds)
      | Some o => exists before r' after, r :: rounds = before ++ r' :: after /\
                    Forall (fun r => forall o, ~ stops r o) before /\ stops r' o
      end) as Hgo.
  { intros tab' Ht' Hn. destruct (IH tab' Ht') as (fs & o & -> & Hf & Ho). cbn. exists (f :: fs), o.
    split_and!; [done|constructor; [by rewrite Es|done]|]. destruct o as [o|].
    - destruct Ho as (b & r' & a & -> & Hb & Hs). exists (r :: b), r', a. auto.
    - destruct Ho as [Ho Hl]. split; [by constructor|cbn; lia]. }
  assert (forall o, Tolltop.after_draw tab (Tolltop.waited r) = inl o -> stops r o) as Hstop.
  { intros o. unfold stops, Tolltop.after_draw. rewrite Ee. destruct (Tolltop.waited r) as [| | |k|]; try congruence.
    destruct (Tolltop.is_quit k); [split; congruence|done]. }
  destruct (Tolltop.after_draw tab (Tolltop.waited r)) as [o|tab'] eqn:Ea.
  - exists [f], (Some o). split_and!; [done|constructor; [by rewrite Es|constructor]|].
    exists [], r, rounds. auto.
  - apply Hgo; unfold stops, Tolltop.after_draw in *; rewrite ?Ee;
      destruct (Tolltop.waited r) as [| | |k|]; try (simplify_eq; done); try naive_solver;
      destruct (Tolltop.is_quit k); try naive_solver. simplify_eq. by apply next_tab_in_range.
Qed.

(** The largest unit is not always reached: a count just below it is shown as 1024 of
    the unit below. *)
Example fmt_units_rounds_up : fmt_units 1048575 "bytes" = "1024.00 KB"%string.
Proof. by vm_compute. Qed.

(** A debt below one sat is shown as [+0], and a holding below one sat as [0], though
    nothing held is shown as [-]. *)
Theorem small_debt_shows_plus z : -1000 < z < 0 -> fmt_net z = "+0"%string /\ fmt_held z = "0"%string.
Proof.
  intros Hz. unfold fmt_net, fmt_held. destruct (Z.eqb_spec z 0); [lia|].
  replace (Z.quot z 1000) with 0; [done|]. rewrite <- (Z.opp_involutive z), Z.quot_opp_l by lia.
  by rewrite Z.quot_small by lia.
Qed.
Lemma small_debt_shows_plus_witness : fmt_net (-999) = "+0"%string /\ fmt_held (-999) = "0"%string.
Proof. apply (small_debt_shows_plus (-999)). lia. Defined.

(** ** The tests of [status.rs] *)

Module StatusDemo.
Definition seller : PeerStatus.t :=
  PeerStatus.mk "03cdcdcdcdcdcdcdcd" (Some "10.0.0.2"%string) "Active" 1536 340 (Rates.mk 0 1) Rates.default
    6000 0 42 1500 None.
Definition buyer : PeerStatus.t :=
  PeerStatus.mk "04efefefefefefefef" None "Suspended" 120 8000 Rates.default (Rates.mk 0 1) 0 5000 80 9000 None.
Definition sample : NodeStatus.t :=
  NodeStatus.mk "02abababababababab" "bytes" [seller; buyer]
    (PricingStatus.mk [ProductStatus.mk "aabbbbbbbbbbbbbbbb" 1000 [MintStatus.mk "http://mint:3338" "sat" 0 1]]
       5000 60000).

Lemma sample_nameable : nameable sample.
Proof. repeat split; repeat constructor. Qed.

Example sample_row :
  table_row "bytes" seller =
    Some "03cdcd…cdcd   10.0.0.2            Active         1.50 KB       340 B        6         -     +6      -    42s"%string.
Proof. by vm_compute. Qed.
Example sample_foot : table_foot sample = "2 peers (1 active, 1 suspended, 0 other)"%string.
Proof. by vm_compute. Qed.
Example sample_units :
  (fun n => fmt_units n "bytes") <$> [0; 512; 1024; 1536; 1572864; 3221225472] =
    ["0 B"; "512 B"; "1.00 KB"; "1.50 KB"; "1.50 MB"; "3.00 GB"]%string.
Proof. by vm_compute. Qed.
Example two_percent : fmt_drift (Some (f64_div (f64_of_Z 2) (f64_of_Z 100))) = "2.0%"%string.
Proof. by vm_compute. Qed.
End StatusDemo.

Lemma fmt_units_exact_witness : fmt_units 1572864 "bytes" = "1.50 MB"%string.
Proof. destruct (fmt_units_exact 1572864 ltac:(lia)) as [-> _]. by vm_compute. Defined.

Lemma table_shows_view_witness : is_Some (render_table StatusDemo.sample).
Proof.
  destruct (table_shows_view StatusDemo.sample StatusDemo.sample_nameable) as (n & t & r & _ & _ & _ & _ & ->). eauto.
Defined.

Lemma live_view_runs_witness :
  exists frames, Tolltop.run_tui "/tmp/tollgate.sock" 0
    [Tolltop.mk_round (inl "refused"%string) None (Tolltop.GotKey (Tolltop.mk_key Tolltop.Tab false));
     Tolltop.mk_round (inr StatusDemo.sample) None Tolltop.TimedOut;
     Tolltop.mk_round (inr StatusDemo.sample) None (Tolltop.GotKey (Tolltop.mk_key (Tolltop.Char 99) true))] =
    Some (frames, Some (inr tt)).
Proof.
  edestruct (live_view_runs "/tmp/tollgate.sock" 0
    [Tolltop.mk_round (inl "refused"%string) None (Tolltop.GotKey (Tolltop.mk_key Tolltop.Tab false));
     Tolltop.mk_round (inr StatusDemo.sample) None Tolltop.TimedOut;
     Tolltop.mk_round (inr StatusDemo.sample) None (Tolltop.GotKey (Tolltop.mk_key (Tolltop.Char 99) true))])
    as (fs & o & E & _ & Ho).
  - lia.
  - repeat apply Forall_cons_2; [..|apply Forall_nil_2]; intros s [= <-]; apply StatusDemo.sample_nameable.
  - rewrite E. exists fs. vm_compute in E. by injection E as _ <-.
Defined.
