(* ===== verification/WebUi.v ===== *)
(** * The admin page

    Models the script of the page that [crates/tollgate-net/src/web_ui.rs] serves at
    [/admin]: the helpers, the renderers, and [refresh]. The script reads what
    [Control.v]'s [api_status] and [api_config] answer, so its data is a [NodeStatus] and a
    [Config], every number a double. Text is UTF-8 here and UTF-16 there; the characters
    the script looks at are ASCII, and so are the keys and ids it cuts. The locale's way of writing a
    number and the clock are the browser's.

    The theorems read the HTML the script assigns back into tags and text: whatever the
    data, the tags are the page's and the text is the data. *)

From Stdlib Require Import Floats.SpecFloat.
From S2P Require Import Prelude Decimal F64 Config Status Json Shell Text StatusText.

(** ** JavaScript's numbers *)

Definition f64_sub (x y : f64) : f64 := SFsub f64_prec f64_emax x y.
Definition f64_max (x y : f64) : f64 := if f64_gt y x then y else x.

Definition is_finite_number (x : f64) : bool :=
  match x with S754_zero _ | S754_finite _ _ _ => true | S754_infinity _ | S754_nan => false end.

(** [Math.round]: half up; a small negative number gives a negative zero. *)
Definition math_round (x : f64) : f64 :=
  match x with
  | S754_finite s m e =>
      if 0 <=? e then x
      else
        let n := if s then Z.neg m else Z.pos m in
        let r := (2 * n + 2 ^ (- e)) / 2 ^ (1 - e) in
        if (r =? 0) && s then S754_zero true else f64_of_Z r
  | _ => x
  end.

(** The decimals of [k] digits next to the integer [n] of [len] digits, the nearer one
    first, even on a tie. *)
Definition candidates (n : Z) (len k : nat) : list Z :=
  let scale := 10 ^ Z.of_nat (len - k) in
  let q := n / scale in
  let r := n mod scale in
  if (2 * r <? scale) || ((2 * r =? scale) && Z.even q) then [q * scale; (q + 1) * scale]
  else [(q + 1) * scale; q * scale].

(** The fewest digits that read back as the double [x], whose value is the integer [n]. *)
Fixpoint shortest (x : f64) (n : Z) (len k left_ : nat) : Z :=
  match left_ with
  | O => n
  | S left_ =>
      match List.find (fun c => SFeqb (f64_of_Z c) x) (candidates n len k) with
      | Some c => c
      | None => shortest x n len (S k) left_
      end
  end.

(** [String(x)] of an integral double below [10 ^ 21]; the page shows no other. *)
Definition number_string (x : f64) : string :=
  match x with
  | S754_nan => "NaN"
  | S754_infinity s => if s then "-Infinity" else "Infinity"
  | S754_zero _ => "0"
  | S754_finite s m e =>
      let n := f64_trunc false m e in
      let c := shortest (f64_of_Z n) n (length (chars (to_string n))) 1 17 in
      if s then "-" +:+ to_string c else to_string c
  end.

(** A number of the status or the configuration, as [JSON.parse] reads it. *)
Definition number (z : Z) : f64 := f64_of_Z z.

(** [s || d] on strings. *)
Definition or_text (s d : string) : string := if bool_decide (s = EmptyString) then d else s.
Definition DASH : string := "—".

(** [Number.prototype.toLocaleString]: digits, separators and signs of the locale. *)
Class Locale : Type := { to_locale_string : f64 -> string }.

(** ** Text for HTML *)

(** The quotation mark, and [name="value"] after a space. *)
Definition dq : string := of_chars [Ascii.ascii_of_N 34].
Definition attr (name value : string) : string := " " +:+ name +:+ "=" +:+ dq +:+ value +:+ dq.

Definition escape_char (c : Ascii.ascii) : list Ascii.ascii :=
  match Ascii.N_of_ascii c with
  | 38%N => chars "&amp;"
  | 60%N => chars "&lt;"
  | 62%N => chars "&gt;"
  | 34%N => chars "&quot;"
  | 39%N => chars "&#39;"
  | _ => [c]
  end.
Definition escape (l : list Ascii.ascii) : list Ascii.ascii := mjoin (escape_char <$> l).
Definition escapeHtml (s : string) : string := of_chars (escape (chars s)).

Definition shortHex (hex : string) : string :=
  let l := chars hex in
  if (length l <=? 12)%nat then or_text hex DASH
  else of_chars (take 6 l) +:+ "…" +:+ of_chars (drop (length l - 4) l).

Definition pill_class (state : string) : string :=
  if bool_decide (state = "Active"%string) then "active"
  else if bool_decide (state = "Suspended"%string) then "suspended" else "other".
Definition pill (cls : string) : string := "<span" +:+ attr "class" ("pill " +:+ cls) +:+ ">".
Definition statePill (state : string) : string :=
  pill (pill_class state) +:+ escapeHtml (or_text state DASH) +:+ "</span>".

(** ** The renderers *)

Definition td_mono : string := "<td" +:+ attr "class" "mono" +:+ ">".
Definition p_empty : string := "<p" +:+ attr "class" "empty" +:+ ">".
Definition empty_cell (span : string) : string :=
  "<td" +:+ attr "colspan" span +:+ attr "class" "empty" +:+ ">".
Definition NOTE_OPEN : string :=
  "<div" +:+ attr "style" "margin-top: 0.75rem; color: var(--muted); font-size: 0.8rem;" +:+ ">".

Section page.
Context `{Locale}.

Definition fmtNet (scaled : f64) : string :=
  if negb (is_finite_number scaled) then DASH
  else
    let sats := math_round (f64_div scaled (f64_of_Z 1000)) in
    (if f64_ge sats (f64_of_Z 0) then "+" else "")%string +:+ to_locale_string sats.

Definition net (p : PeerStatus.t) : f64 :=
  f64_sub (number (PeerStatus.their_balance p)) (number (PeerStatus.our_balance p)).

Definition peer_row (p : PeerStatus.t) : string :=
  "<tr>" +:+
  td_mono +:+ escapeHtml (shortHex (PeerStatus.pubkey p)) +:+ "</td>" +:+
  "<td>" +:+ escapeHtml (or_text (unwrap_or (PeerStatus.ip p) EmptyString) DASH) +:+ "</td>" +:+
  "<td>" +:+ statePill (PeerStatus.state p) +:+ "</td>" +:+
  td_mono +:+ fmtNet (net p) +:+ "</td>" +:+
  td_mono +:+ escapeHtml (number_string (number (PeerStatus.metered_secs p))) +:+ "s</td>" +:+
  "</tr>".

(** [for (const x of xs) rows += f(x)]. *)
Definition concat_rows {A} (f : A -> string) (xs : list A) : string := foldr (fun x s => f x +:+ s) EmptyString xs.

Definition table (headings : list string) (rows : string) : string :=
  "<table><thead><tr>" +:+ concat_rows (fun h => "<th>" +:+ h +:+ "</th>") headings +:+
  "</tr></thead><tbody>" +:+ rows +:+ "</tbody></table>".

Definition renderPeers (s : NodeStatus.t) : string :=
  match NodeStatus.peers s with
  | [] => p_empty +:+ "No peers connected.</p>"
  | peers => table ["Peer"; "IP"; "State"; "Net"; "Metered"] (concat_rows peer_row peers)
  end.

Definition CONFIGURED : string := "<td>" +:+ pill "configured" +:+ "configured</span></td>".

Definition url_row (url : string) : string :=
  "<tr>" +:+ td_mono +:+ escapeHtml url +:+ "</td>" +:+ "<td>—</td><td>—</td>" +:+ CONFIGURED +:+ "</tr>".
Definition accepted_row (m : V1AcceptedMint.t) : string :=
  "<tr>" +:+
  td_mono +:+ escapeHtml (or_text (V1AcceptedMint.url m) DASH) +:+ "</td>" +:+
  td_mono +:+ escapeHtml (number_string (number (V1AcceptedMint.price_per_step m))) +:+ " " +:+
    escapeHtml (or_text (V1AcceptedMint.unit m) "sat") +:+ "</td>" +:+
  td_mono +:+ escapeHtml (number_string (number (V1AcceptedMint.min_steps m))) +:+ "</td>" +:+
  CONFIGURED +:+ "</tr>".

Definition renderMints (c : Config.t) : string :=
  match Config.mints c, V1CompatConfig.accepted_mints (Config.v1_compat c) with
  | [], [] => p_empty +:+ "No mints configured.</p>"
  | urls, accepted =>
      table ["Mint URL"; "Price / Step"; "Min Steps"; "Status"]
        (concat_rows url_row urls +:+ concat_rows accepted_row accepted)
  end.

Definition mint_price_row (id : string) (m : MintStatus.t) : string :=
  "<tr>" +:+
  td_mono +:+ escapeHtml (shortHex id) +:+ "</td>" +:+
  td_mono +:+ escapeHtml (or_text (MintStatus.mint_url m) DASH) +:+ "</td>" +:+
  "<td>" +:+ escapeHtml (or_text (MintStatus.mint_unit m) DASH) +:+ "</td>" +:+
  td_mono +:+ escapeHtml (number_string (number (MintStatus.price_per_second m))) +:+ "</td>" +:+
  td_mono +:+ escapeHtml (number_string (number (MintStatus.price_per_unit m))) +:+ "</td>" +:+
  "</tr>".

Definition product_rows (p : ProductStatus.t) : string :=
  match ProductStatus.mints p with
  | [] =>
      "<tr>" +:+ td_mono +:+ escapeHtml (shortHex (ProductStatus.product_id p)) +:+ "</td>" +:+
      empty_cell "4" +:+ "no mints</td></tr>"
  | mints => concat_rows (mint_price_row (ProductStatus.product_id p)) mints
  end.

(** The line under the prices. *)
Definition note_text (s : NodeStatus.t) (c : Config.t) : string :=
  let step_size := number (V1CompatConfig.step_size (Config.v1_compat c)) in
  let pricing := NodeStatus.pricing s in
  "metering_interval_secs=" +:+ number_string (number (Config.metering_interval_secs c)) +:+
  (if f64_gt step_size (f64_of_Z 0) then " · v1 step_size=" +:+ number_string step_size else EmptyString) +:+
  " · interval " +:+ number_string (number (PricingStatus.min_interval_ms pricing)) +:+ "–" +:+
  number_string (number (PricingStatus.max_interval_ms pricing)) +:+ " ms".

Definition renderPricing (s : NodeStatus.t) (c : Config.t) : string :=
  let rows :=
    match PricingStatus.products (NodeStatus.pricing s) with
    | [] => "<tr>" +:+ empty_cell "5" +:+ "No products advertised.</td></tr>"
    | products => concat_rows product_rows products
    end in
  table ["Product"; "Mint"; "CCY"; "Per Sec"; "Per Unit"] rows +:+
  NOTE_OPEN +:+ note_text s c +:+ "</div>".

(** ** The page *)

Record page : Set := mk_page {
  error : string;
  error_shown : bool;
  updated : string;
  stat_state : string;
  stat_uptime : string;
  stat_peers : string;
  stat_balance : string;
  balance_class : string;
  stat_pubkey : string;
  stat_unit : string;
  peers_body : string;
  mints_body : string;
  pricing_body : string
}.

Definition LOADING : string := p_empty +:+ "loading…</p>".
Definition initial_page : page :=
  mk_page EmptyString false "loading…" DASH DASH DASH DASH "value" DASH DASH LOADING LOADING LOADING.

Definition showError (msg : string) (d : page) : page :=
  let with_error text shown :=
    mk_page text shown (updated d) (stat_state d) (stat_uptime d) (stat_peers d) (stat_balance d)
      (balance_class d) (stat_pubkey d) (stat_unit d) (peers_body d) (mints_body d) (pricing_body d) in
  if bool_decide (msg = EmptyString) then with_error (error d) false else with_error msg true.

Definition max_metered (peers : list PeerStatus.t) : f64 :=
  foldl (fun m p => f64_max m (number (PeerStatus.metered_secs p))) (f64_of_Z 0) peers.
Definition net_total (peers : list PeerStatus.t) : f64 :=
  foldl (fun n p => f64_add n (net p)) (f64_of_Z 0) peers.

Definition renderStatus (s : NodeStatus.t) (d : page) : page :=
  let peers := NodeStatus.peers s in
  let longest := max_metered peers in
  let total := net_total peers in
  mk_page (error d) (error_shown d) (updated d) "Running"
    (if f64_gt longest (f64_of_Z 0) then number_string longest +:+ "s" else DASH)
    (count_text (length peers))
    (fmtNet total) ("value " +:+ (if f64_ge total (f64_of_Z 0) then "green" else "red"))
    (shortHex (NodeStatus.pubkey s)) (or_text (NodeStatus.unit s) DASH)
    (peers_body d) (mints_body d) (pricing_body d).

(** [padStart(2, "0")] of a part of the time. *)
Definition clock_text (time : Z * Z * Z) : string :=
  let '(hh, mm, ss) := time in
  "updated " +:+ pad 2 hh +:+ ":" +:+ pad 2 mm +:+ ":" +:+ pad 2 ss.

(** One fetch: the error thrown, or the status of the answer and its body parsed. *)
Inductive fetched (A : Type) : Type :=
| FetchFailed (message : string)
| Answered (status : Z) (body : string + A).
#[global] Arguments FetchFailed {A} message.
#[global] Arguments Answered {A} status body.

(** [fetchJson]: [resp.ok] is a status of 2xx. *)
Definition fetchJson {A} (url : string) (f : fetched A) : string + A :=
  match f with
  | FetchFailed message => inl message
  | Answered status body =>
      if (200 <=? status) && (status <=? 299) then body
      else inl (url +:+ " → HTTP " +:+ to_string status)
  end.

(** [refresh] when both fetches have ended: [Promise.all] rejects with the first failure,
    the status' unless [config_first]. [time] is the local time. *)
Definition refresh (status : fetched NodeStatus.t) (config : fetched Config.t) (config_first : bool)
    (time : Z * Z * Z) (d : page) : page :=
  match fetchJson "/admin/api/status" status, fetchJson "/admin/api/config" config with
  | inr s, inr c =>
      let d := renderStatus s d in
      showError EmptyString
        (mk_page (error d) (error_shown d) (clock_text time) (stat_state d) (stat_uptime d) (stat_peers d)
           (stat_balance d) (balance_class d) (stat_pubkey d) (stat_unit d)
           (renderPeers s) (renderMints c) (renderPricing s c))
  | inl e, inl e' => showError ("refresh failed: " +:+ if config_first then e' else e) d
  | inl e, inr _ | inr _, inl e => showError ("refresh failed: " +:+ e) d
  end.
End page.

(** ** Reading HTML

    How a browser splits the text of an element into tags and characters: a tag lasts to
    the next [>] outside quotes; in the characters between, the references that
    [escapeHtml] writes stand for one character. *)

Inductive token : Set := Tag (t : string) | Chars (t : string).
#[export] Instance token_eq_dec : EqDecision token.
Proof. solve_decision. Defined.
Inductive place : Set := InText | InTag | InQuotes (q : Ascii.ascii).
(** The place, the token so far and the tokens before it, both reversed. *)
Definition reader : Set := place * list Ascii.ascii * list token.

Definition ch (n : N) : Ascii.ascii := Ascii.ascii_of_N n.
Definition references : list (list Ascii.ascii * Ascii.ascii) :=
  [(chars "&amp;", ch 38); (chars "&lt;", ch 60); (chars "&gt;", ch 62); (chars "&quot;", ch 34);
   (chars "&#39;", ch 39)].

Fixpoint strip_list (p l : list Ascii.ascii) : option (list Ascii.ascii) :=
  match p, l with
  | [], _ => Some l
  | a :: p, b :: l => if decide (a = b) then strip_list p l else None
  | _ :: _, [] => None
  end.
Definition reference (l : list Ascii.ascii) : option (Ascii.ascii * list Ascii.ascii) :=
  foldr (fun r found => match strip_list r.1 l with Some rest => Some (r.2, rest) | None => found end)
    None references.

Fixpoint decode (fuel : nat) (l : list Ascii.ascii) : list Ascii.ascii :=
  match fuel, l with
  | O, _ | _, [] => l
  | S fuel, c :: rest =>
      match reference l with
      | Some (c', rest') => c' :: decode fuel rest'
      | None => c :: decode fuel rest
      end
  end.
Definition unescape (l : list Ascii.ascii) : list Ascii.ascii := decode (length l) l.

Definition flush_text (cur : list Ascii.ascii) (out : list token) : list token :=
  match cur with [] => out | _ => Chars (of_chars (unescape (rev cur))) :: out end.

Definition read_char (r : reader) (c : Ascii.ascii) : reader :=
  let '(p, cur, out) := r in
  match p with
  | InText => if decide (c = ch 60) then (InTag, [], flush_text cur out) else (InText, c :: cur, out)
  | InTag =>
      if decide (c = ch 62) then (InText, [], Tag (of_chars (rev cur)) :: out)
      else if decide (c = ch 34 \/ c = ch 39) then (InQuotes c, c :: cur, out)
      else (InTag, c :: cur, out)
  | InQuotes q => if decide (c = q) then (InTag, c :: cur, out) else (InQuotes q, c :: cur, out)
  end.
Definition read_chars (r : reader) (l : list Ascii.ascii) : reader := foldl read_char r l.

(** The tokens of a text; an unfinished tag is dropped. *)
Definition html_tokens (s : string) : list token :=
  let '(p, cur, out) := read_chars (InText, [], []) (chars s) in
  rev (match p with InText => flush_text cur out | _ => out end).

(** ** What the page shows *)

Definition shown (s : string) : list token := if bool_decide (s = EmptyString) then [] else [Chars s].
Definition cell (attrs : string) (content : list token) : list token :=
  Tag ("td" +:+ attrs) :: content ++ [Tag "/td"].
Definition mono : string := attr "class" "mono".
Definition row (cells : list (list token)) : list token := Tag "tr" :: mjoin cells ++ [Tag "/tr"].
Definition span_tokens (cls text : string) : list token :=
  Tag ("span" +:+ attr "class" ("pill " +:+ cls)) :: shown text ++ [Tag "/span"].
Definition table_tokens (headings : list string) (rows : list (list token)) : list token :=
  [Tag "table"; Tag "thead"; Tag "tr"] ++ mjoin ((fun h => [Tag "th"; Chars h; Tag "/th"]) <$> headings) ++
  [Tag "/tr"; Tag "/thead"; Tag "tbody"] ++ mjoin rows ++ [Tag "/tbody"; Tag "/table"].
Definition message_tokens (text : string) : list token :=
  [Tag ("p" +:+ attr "class" "empty"); Chars text; Tag "/p"].

Section shown.
Context `{Locale}.

Definition peer_tokens (p : PeerStatus.t) : list token :=
  row [cell mono (shown (shortHex (PeerStatus.pubkey p)));
       cell "" (shown (or_text (unwrap_or (PeerStatus.ip p) EmptyString) DASH));
       cell "" (span_tokens (pill_class (PeerStatus.state p)) (or_text (PeerStatus.state p) DASH));
       cell mono (shown (fmtNet (net p)));
       cell mono (shown (number_string (number (PeerStatus.metered_secs p)) +:+ "s"))].
Definition peers_tokens (s : NodeStatus.t) : list token :=
  match NodeStatus.peers s with
  | [] => message_tokens "No peers connected."
  | peers => table_tokens ["Peer"; "IP"; "State"; "Net"; "Metered"] (peer_tokens <$> peers)
  end.

Definition configured_cell : list token := cell "" (span_tokens "configured" "configured").
Definition url_tokens (url : string) : list token :=
  row [cell mono (shown url); cell "" (shown DASH); cell "" (shown DASH); configured_cell].
Definition accepted_tokens (m : V1AcceptedMint.t) : list token :=
  row [cell mono (shown (or_text (V1AcceptedMint.url m) DASH));
       cell mono (shown (number_string (number (V1AcceptedMint.price_per_step m)) +:+ " " +:+
                           or_text (V1AcceptedMint.unit m) "sat"));
       cell mono (shown (number_string (number (V1AcceptedMint.min_steps m)))); configured_cell].
Definition mints_tokens (c : Config.t) : list token :=
  match Config.mints c, V1CompatConfig.accepted_mints (Config.v1_compat c) with
  | [], [] => message_tokens "No mints configured."
  | urls, accepted =>
      table_tokens ["Mint URL"; "Price / Step"; "Min Steps"; "Status"]
        ((url_tokens <$> urls) ++ (accepted_tokens <$> accepted))
  end.

Definition mint_price_tokens (id : string) (m : MintStatus.t) : list token :=
  row [cell mono (shown (shortHex id)); cell mono (shown (or_text (MintStatus.mint_url m) DASH));
       cell "" (shown (or_text (MintStatus.mint_unit m) DASH));
       cell mono (shown (number_string (number (MintStatus.price_per_second m))));
       cell mono (shown (number_string (number (MintStatus.price_per_unit m))))].
Definition product_tokens (p : ProductStatus.t) : list token :=
  match ProductStatus.mints p with
  | [] => row [cell mono (shown (shortHex (ProductStatus.product_id p)));
               cell (attr "colspan" "4" +:+ attr "class" "empty") (shown "no mints")]
  | mints => mjoin (mint_price_tokens (ProductStatus.product_id p) <$> mints)
  end.
Definition pricing_tokens (s : NodeStatus.t) (c : Config.t) : list token :=
  table_tokens ["Product"; "Mint"; "CCY"; "Per Sec"; "Per Unit"]
    (match PricingStatus.products (NodeStatus.pricing s) with
     | [] => [row [cell (attr "colspan" "5" +:+ attr "class" "empty") (shown "No products advertised.")]]
     | products => product_tokens <$> products
     end) ++
  [Tag ("div" +:+ attr "style" "margin-top: 0.75rem; color: var(--muted); font-size: 0.8rem;")] ++
  shown (note_text s c) ++ [Tag "/div"].
End shown.

(** ** Lemmas: escaping *)

Definition special (c : Ascii.ascii) : bool :=
  match Ascii.N_of_ascii c with 38%N | 60%N | 62%N | 34%N | 39%N => true | _ => false end.
Definition unspecial (s : string) : Prop := Forall (fun c => special c = false) (chars s).

Lemma escape_char_cases c :
  (special c = false /\ escape_char c = [c]) \/ (special c = true /\ (escape_char c, c) ∈ references).
Proof.
  destruct c as [[] [] [] [] [] [] [] []]; (left; split; reflexivity) ||
    (right; split; [reflexivity|]; apply (bool_decide_unpack _); vm_compute; exact I).
Qed.

Lemma escape_app a b : escape (a ++ b) = escape a ++ escape b.
Proof. unfold escape. by rewrite fmap_app, join_app. Qed.

Lemma escape_unspecial l : Forall (fun c => special c = false) l -> escape l = l.
Proof.
  induction 1 as [|c l Hc _ IH]; [done|]. change (escape (c :: l)) with (escape_char c ++ escape l).
  rewrite IH. destruct (escape_char_cases c) as [[_ ->]|[E _]]; [done|congruence].
Qed.

Lemma escapeHtml_app a b : escapeHtml a +:+ escapeHtml b = escapeHtml (a +:+ b).
Proof.
  unfold escapeHtml. rewrite chars_app, escape_app, <- (of_chars_chars (_ +:+ _)), chars_app.
  by rewrite !chars_of_chars.
Qed.

Lemma escapeHtml_unspecial s : unspecial s -> escapeHtml s = s.
Proof. intros Hs. unfold escapeHtml. by rewrite escape_unspecial, of_chars_chars by done. Qed.

Lemma strip_list_app p l : strip_list p (p ++ l) = Some l.
Proof. induction p as [|a p IH]; [done|]. cbn. by rewrite decide_True by done. Qed.

Lemma strip_list_head a p b l : a <> b -> strip_list (a :: p) (b :: l) = None.
Proof. intros Hab. cbn. by rewrite decide_False by done. Qed.

(** A reference stands for its character; a character that is not [&] for itself. *)
Lemma reference_found c l : (escape_char c, c) ∈ references -> reference (escape_char c ++ l) = Some (c, l).
Proof.
  intros Hc. unfold references in Hc. rewrite !elem_of_cons, elem_of_nil in Hc.
  destruct Hc as [E|[E|[E|[E|[E|[]]]]]]; injection E as _ ->; reflexivity.
Qed.

Lemma reference_none c l : special c = false -> reference (c :: l) = None.
Proof.
  intros Hc. assert (ch 38 <> c) as Hne by (intros <-; done).
  unfold reference, references. cbn [foldr fst snd chars String.list_ascii_of_string].
  change (Ascii.Ascii false true true false false true false false) with (ch 38).
  by rewrite !(strip_list_head (ch 38)) by done.
Qed.

Lemma decode_escape l n : decode (length l + n) (escape l) = l.
Proof.
  revert n. induction l as [|c l IH]; intros n; [by destruct n|].
  change (escape (c :: l)) with (escape_char c ++ escape l). cbn [length Nat.add decode].
  destruct (escape_char_cases c) as [[Hs ->]|[_ Hr]].
  - cbn [app]. by rewrite reference_none, IH by done.
  - rewrite reference_found by done. rewrite IH. destruct (escape_char c ++ escape l) eqn:E; [|done].
    exfalso. apply app_nil in E as [E _]. rewrite E in Hr. unfold references in Hr.
    rewrite !elem_of_cons, elem_of_nil in Hr. naive_solver.
Qed.

Lemma escape_length l : (length l <= length (escape l))%nat.
Proof.
  induction l as [|c l IH]; [done|]. change (escape (c :: l)) with (escape_char c ++ escape l).
  rewrite length_app. cbn. destruct (escape_char c) eqn:E; [|cbn; lia].
  by destruct c as [[] [] [] [] [] [] [] []].
Qed.

Lemma unescape_escape l : unescape (escape l) = l.
Proof.
  unfold unescape. replace (length (escape l)) with (length l + (length (escape l) - length l))%nat
    by (pose proof (escape_length l); lia). apply decode_escape.
Qed.

(** ** Lemmas: reading what is written *)

Lemma flush_frame cur out : flush_text cur out = flush_text cur [] ++ out.
Proof. by destruct cur. Qed.

Definition with_out (r : reader) (out : list token) : reader := (r.1, r.2 ++ out).

Lemma read_frame l p cur out : read_chars (p, cur, out) l = with_out (read_chars (p, cur, []) l) out.
Proof.
  assert (forall r, read_chars (with_out r out) l = with_out (read_chars r l) out) as E.
  { unfold read_chars. induction l as [|c l IH]; [done|]. intros [[p' cur'] out']. cbn [foldl]. rewrite <- IH.
    f_equal. unfold read_char, with_out. cbn [fst snd]. destruct p'.
    - rewrite (flush_frame cur' out'), (flush_frame cur' (out' ++ out)). destruct (decide _); [|done].
      by rewrite app_assoc.
    - by repeat destruct (decide _).
    - by destruct (decide _). }
  exact (E (p, cur, [])).
Qed.

(** A text of whole tags and characters, and its tokens. *)
Definition renders (s : string) (ts : list token) : Prop :=
  forall out, read_chars (InText, [], out) (chars s) = (InText, [], rev ts ++ out).

Lemma renders_tokens s ts : renders s ts -> html_tokens s = ts.
Proof. intros Hs. unfold html_tokens. rewrite Hs, app_nil_r. cbn. by rewrite rev_involutive. Qed.

Lemma renders_nil : renders EmptyString [].
Proof. by intros out. Qed.

Lemma renders_app a b ts us : renders a ts -> renders b us -> renders (a +:+ b) (ts ++ us).
Proof.
  intros Ha Hb out. unfold read_chars. rewrite chars_app, foldl_app. fold read_chars.
  change (foldl read_char (InText, [], out) (chars a)) with (read_chars (InText, [], out) (chars a)).
  rewrite Ha. change (foldl read_char ?r (chars b)) with (read_chars r (chars b)).
  by rewrite Hb, rev_app_distr, app_assoc.
Qed.

Lemma renders_rows {A} (f : A -> string) (g : A -> list token) xs :
  (forall x, renders (f x) (g x)) -> renders (concat_rows f xs) (mjoin (g <$> xs)).
Proof. intros Hf. induction xs as [|x xs IH]; [apply renders_nil|]. apply (renders_app (f x)); [apply Hf|apply IH]. Qed.

(** The markup of the page itself: read by computing. *)
Definition literal_tokens (s : string) : option (list token) :=
  match read_chars (InText, [], []) (chars s) with (InText, [], out) => Some (rev out) | _ => None end.

Lemma renders_literal s ts : literal_tokens s = Some ts -> renders s ts.
Proof.
  unfold literal_tokens. intros Hs out. rewrite read_frame.
  destruct (read_chars _ _) as [[[| |q] [|c cur]] o]; try done. injection Hs as <-. by rewrite rev_involutive.
Qed.

Lemma read_text l cur out :
  Forall (fun c => c <> ch 60) l -> read_chars (InText, cur, out) l = (InText, rev l ++ cur, out).
Proof.
  intros Hl. revert cur. unfold read_chars.
  induction Hl as [|c l Hc _ IH]; intros cur; [done|]. cbn [foldl read_char]. rewrite decide_False by done.
  rewrite IH. cbn. by rewrite <- app_assoc.
Qed.

Lemma escape_no_tag l : Forall (fun c => c <> ch 60) (escape l).
Proof.
  induction l as [|c l IH]; [constructor|]. change (escape (c :: l)) with (escape_char c ++ escape l).
  apply Forall_app. split; [|done].
  destruct c as [[] [] [] [] [] [] [] []]; repeat (constructor; [discriminate|]); constructor.
Qed.

(** Escaped data before a tag is shown as it is. *)
Lemma renders_data d rest us :
  head (chars rest) = Some (ch 60) -> renders rest us -> renders (escapeHtml d +:+ rest) (shown d ++ us).
Proof.
  intros Hh Hr out. unfold read_chars. rewrite chars_app, foldl_app.
  change (foldl read_char (InText, [], out) ?l) with (read_chars (InText, [], out) l).
  unfold escapeHtml at 1. rewrite chars_of_chars, read_text by apply escape_no_tag. rewrite app_nil_r.
  destruct (chars rest) as [|c l] eqn:E; [done|]. injection Hh as ->. cbn [foldl read_char].
  rewrite decide_True by done. specialize (Hr (rev (shown d) ++ out)). rewrite E in Hr.
  unfold read_chars in Hr. cbn [foldl read_char] in Hr. rewrite decide_True in Hr by done.
  cbn [flush_text] in Hr. rewrite rev_app_distr, <- app_assoc, <- Hr. f_equal. f_equal.
  unfold flush_text, shown. destruct (rev (escape (chars d))) as [|c' l'] eqn:Er.
  - assert (d = EmptyString) as ->.
    { pose proof (escape_length (chars d)) as Hl. apply (f_equal length) in Er. rewrite length_rev in Er. rewrite Er in Hl.
      destruct d; [done|]. cbn in Hl. lia. }
    done.
  - rewrite bool_decide_false by (intros ->; done). rewrite <- Er, rev_involutive, unescape_escape, of_chars_chars.
    done.
Qed.

Lemma renders_part lit rest ts us :
  literal_tokens lit = Some ts -> renders rest us -> renders (lit +:+ rest) (ts ++ us).
Proof. intros Hl Hr. apply renders_app; [by apply renders_literal|done]. Qed.

(** Splits a text of the page into its markup and its data, and computes the tokens of
    the former. *)
Ltac literal := by (vm_compute; reflexivity).
Ltac render_piece :=
  lazymatch goal with
  | |- renders (escapeHtml _ +:+ _) _ => eapply renders_data; [reflexivity|]
  | |- renders (statePill _ +:+ _) _ => fail
  | |- renders (fmtNet _ +:+ _) _ => fail
  | |- renders (_ +:+ _) _ => eapply renders_part; [literal|]
  | |- renders _ _ => apply renders_literal; literal
  end.

Lemma tokens_eq s ts us : renders s ts -> ts = us -> renders s us.
Proof. by intros ? <-. Qed.

Ltac token_lists :=
  unfold row, cell, span_tokens, mono; cbn [mjoin list_join];
  repeat first [rewrite <- app_assoc | progress cbn [app]]; reflexivity.

Lemma url_row_renders url : renders (url_row url) (url_tokens url).
Proof.
  eapply tokens_eq; [unfold url_row; repeat render_piece|]. unfold url_tokens, configured_cell. token_lists.
Qed.

Lemma unspecial_app a b : unspecial a -> unspecial b -> unspecial (a +:+ b).
Proof. intros Ha Hb. unfold unspecial. rewrite chars_app. by apply Forall_app. Qed.

(** Escaped data with a character or two of the page behind it. *)
Lemma renders_suffixed d s rest us :
  unspecial s -> head (chars rest) = Some (ch 60) -> renders rest us ->
  renders (escapeHtml d +:+ s +:+ rest) (shown (d +:+ s) ++ us).
Proof.
  intros Hs Hh Hr. rewrite <- (escapeHtml_unspecial s) by done. rewrite <- string_app_assoc, escapeHtml_app.
  rewrite (escapeHtml_unspecial s) by done. by apply renders_data.
Qed.

Lemma renders_plain d rest us :
  unspecial d -> head (chars rest) = Some (ch 60) -> renders rest us -> renders (d +:+ rest) (shown d ++ us).
Proof. intros Hd. rewrite <- (escapeHtml_unspecial d) at 1 by done. apply renders_data. Qed.

Lemma to_string_unspecial z : unspecial (to_string z).
Proof.
  unfold unspecial. eapply Forall_impl; [apply to_string_chars|]. intros c Hc. cbn in Hc.
  by destruct c as [[] [] [] [] [] [] [] []].
Qed.

Lemma number_string_unspecial x : unspecial (number_string x).
Proof.
  destruct x as [s|s| |s m e]; cbn [number_string]; try (destruct s); try (by repeat constructor);
    try apply to_string_unspecial.
  apply unspecial_app; [by repeat constructor|apply to_string_unspecial].
Qed.

(** What the page relies on: a locale writes numbers without the five characters that
    mean something to HTML. *)
Class LocaleLaws `{Locale} : Prop := { locale_unspecial x : unspecial (to_locale_string x) }.

Section renders.
Context `{LocaleLaws}.

Lemma fmtNet_unspecial x : unspecial (fmtNet x).
Proof.
  unfold fmtNet. destruct (negb _); [by repeat constructor|]. apply unspecial_app; [|apply locale_unspecial].
  by destruct (f64_ge _ _); repeat constructor.
Qed.

Lemma statePill_renders state rest us :
  renders rest us ->
  renders (statePill state +:+ rest) (span_tokens (pill_class state) (or_text state DASH) ++ us).
Proof.
  intros Hr. unfold statePill. rewrite !string_app_assoc.
  eapply tokens_eq.
  - apply (renders_part _ _ [Tag ("span" +:+ attr "class" ("pill " +:+ pill_class state))]).
    + unfold pill_class. by repeat destruct (bool_decide _).
    + eapply renders_data; [reflexivity|]. eapply renders_part; [literal|exact Hr].
  - unfold span_tokens. cbn [app]. by rewrite <- app_assoc.
Qed.

(** Letters of the page after data, up to the next tag. *)
Lemma seconds_split rest : "s</td>" +:+ rest = "s" +:+ "</td>" +:+ rest.
Proof. done. Qed.

Lemma peer_row_renders p : renders (peer_row p) (peer_tokens p).
Proof.
  eapply tokens_eq.
  - unfold peer_row. rewrite seconds_split. repeat render_piece.
    apply statePill_renders. repeat render_piece. apply renders_plain; [apply fmtNet_unspecial|reflexivity|].
    repeat render_piece. apply renders_suffixed; [by repeat constructor|reflexivity|]. repeat render_piece.
  - unfold peer_tokens. token_lists.
Qed.

Lemma accepted_row_renders m : renders (accepted_row m) (accepted_tokens m).
Proof.
  eapply tokens_eq.
  - unfold accepted_row. rewrite <- (escapeHtml_unspecial " ") by (by repeat constructor).
    rewrite <- (string_app_assoc (escapeHtml _) (escapeHtml " ")), escapeHtml_app.
    rewrite <- (string_app_assoc (escapeHtml _) (escapeHtml _)), escapeHtml_app. repeat render_piece.
  - unfold accepted_tokens, configured_cell. rewrite <- string_app_assoc. token_lists.
Qed.

Lemma mint_price_row_renders id m : renders (mint_price_row id m) (mint_price_tokens id m).
Proof. eapply tokens_eq; [unfold mint_price_row; repeat render_piece|]. unfold mint_price_tokens. token_lists. Qed.

Lemma product_rows_renders p : renders (product_rows p) (product_tokens p).
Proof.
  unfold product_rows, product_tokens. destruct (ProductStatus.mints p) as [|m ms].
  - eapply tokens_eq; [repeat render_piece|]. token_lists.
  - apply renders_rows. intros x. apply mint_price_row_renders.
Qed.

Lemma headings_render h : unspecial h -> h <> EmptyString ->
  renders ("<th>" +:+ h +:+ "</th>") [Tag "th"; Chars h; Tag "/th"].
Proof.
  intros Hu Hn. eapply tokens_eq.
  - render_piece. apply renders_plain; [done|reflexivity|]. render_piece.
  - unfold shown. by rewrite bool_decide_false.
Qed.

Lemma table_renders headings rows ts :
  Forall (fun h => unspecial h /\ h <> EmptyString) headings -> renders rows (mjoin ts) ->
  renders (table headings rows) (table_tokens headings ts).
Proof.
  intros Hh Hr. unfold table, table_tokens. apply renders_part; [literal|]. apply renders_app.
  { induction Hh as [|h hs [Hu Hn] _ IH]; [apply renders_nil|].
    apply (renders_app ("<th>" +:+ h +:+ "</th>") _ [Tag "th"; Chars h; Tag "/th"]); [by apply headings_render|done]. }
  apply renders_part; [literal|]. apply renders_app; [done|]. by apply renders_literal.
Qed.

Ltac headings := repeat (constructor; [by (split; [repeat constructor|])|]); constructor.

Lemma renderPeers_renders s : renders (renderPeers s) (peers_tokens s).
Proof.
  unfold renderPeers, peers_tokens. destruct (NodeStatus.peers s) as [|p ps]; [by apply renders_literal|].
  apply table_renders; [headings|]. apply (renders_rows peer_row). apply peer_row_renders.
Qed.

Lemma renderMints_renders c : renders (renderMints c) (mints_tokens c).
Proof.
  assert (forall urls ms, renders (concat_rows url_row urls +:+ concat_rows accepted_row ms)
    (mjoin ((url_tokens <$> urls) ++ (accepted_tokens <$> ms)))) as Hr.
  { intros urls ms. rewrite join_app. apply renders_app; apply renders_rows;
      [apply url_row_renders|apply accepted_row_renders]. }
  unfold renderMints, mints_tokens. destruct (Config.mints c); destruct (V1CompatConfig.accepted_mints _);
    first [by apply renders_literal | (apply table_renders; [headings|apply Hr])].
Qed.

Lemma note_unspecial s c : unspecial (note_text s c).
Proof.
  unfold note_text. repeat (apply unspecial_app; [first [apply number_string_unspecial|by repeat constructor|
    destruct (f64_gt _ _); [apply unspecial_app; [by repeat constructor|apply number_string_unspecial]|constructor]]|]).
  by repeat constructor.
Qed.

Lemma renderPricing_renders s c : renders (renderPricing s c) (pricing_tokens s c).
Proof.
  unfold renderPricing, pricing_tokens. apply renders_app.
  - apply table_renders; [headings|]. destruct (PricingStatus.products _) as [|p ps]; [by apply renders_literal|].
    apply (renders_rows product_rows). apply product_rows_renders.
  - apply renders_part; [literal|]. apply renders_plain; [apply note_unspecial|reflexivity|]. by apply renders_literal.
Qed.

(** ** Properties *)

(** C27: whatever a peer, a mint or the configuration is called, the HTML the page assigns has
    the tags of the page and no others, and between them the data as it is: no name can
    bring markup of its own. *)
Theorem page_shows_data s c :
  html_tokens (renderPeers s) = peers_tokens s /\
  html_tokens (renderMints c) = mints_tokens c /\
  html_tokens (renderPricing s c) = pricing_tokens s c.
Proof.
  split_and!; apply renders_tokens;
    [apply renderPeers_renders|apply renderMints_renders|apply renderPricing_renders].
Qed.
End renders.

Section page_properties.
Context `{Locale}.

(** What a successful refresh shows does not depend on what was shown before. *)
Definition same_data (d d' : page) : Prop :=
  updated d = updated d' /\ stat_state d = stat_state d' /\ stat_uptime d = stat_uptime d' /\
  stat_peers d = stat_peers d' /\ stat_balance d = stat_balance d' /\ balance_class d = balance_class d' /\
  stat_pubkey d = stat_pubkey d' /\ stat_unit d = stat_unit d' /\ peers_body d = peers_body d' /\
  mints_body d = mints_body d' /\ pricing_body d = pricing_body d'.

(** A refresh either succeeds, and then replaces all the data by what the two answers hold
    and hides the error, or fails, and then keeps all the data and shows why. It succeeds
    only when both fetches are answered with a status of 2xx. *)
Theorem refresh_outcomes status config first time d :
  (exists s c code code',
     status = Answered code (inr s) /\ config = Answered code' (inr c) /\
     200 <= code <= 299 /\ 200 <= code' <= 299 /\
     let d' := refresh status config first time d in
     error_shown d' = false /\ peers_body d' = renderPeers s /\ mints_body d' = renderMints c /\
     pricing_body d' = renderPricing s c /\ stat_unit d' = or_text (NodeStatus.unit s) DASH /\
     forall d'', same_data d' (refresh status config first time d'')) \/
  (exists e, refresh status config first time d = showError ("refresh failed: " +:+ e) d /\
     error_shown (refresh status config first time d) = true /\
     same_data d (refresh status config first time d)).
Proof.
  assert (forall A url (f : fetched A), (exists code a, fetchJson url f = inr a /\ f = Answered code (inr a) /\
    200 <= code <= 299) \/ exists e, fetchJson url f = inl e) as Hf.
  { intros A url [m|code [e|a]]; cbn [fetchJson]; [eauto| |]; destruct (_ && _) eqn:E; eauto.
    left. exists code, a. apply andb_prop in E as [?%Z.leb_le ?%Z.leb_le]. done. }
  assert (forall e, let d' := showError ("refresh failed: " +:+ e) d in error_shown d' = true /\ same_data d d') as He.
  { intros e. unfold showError. rewrite bool_decide_false by done. cbn. repeat split. }
  unfold refresh. destruct (Hf _ "/admin/api/status"%string status) as [(code & s & -> & -> & Hc)|[e ->]].
  - destruct (Hf _ "/admin/api/config"%string config) as [(code' & c & -> & -> & Hc')|[e ->]]; [left|right].
    + exists s, c, code, code'. cbn. repeat split; lia.
    + exists e. split; [done|apply He].
  - right. destruct (Hf _ "/admin/api/config"%string config) as [(code' & c & -> & _)|[e' ->]];
      eexists; (split; [done|apply He]).
Qed.
End page_properties.

(** ** A locale, and the page at work *)

Module PageDemo.
(** English without separators; zero keeps its sign, as [Intl.NumberFormat] has it. *)
#[export] Instance english : Locale := {|
  to_locale_string x := match x with S754_zero true => "-0"%string | _ => number_string x end
|}.
#[export] Instance english_laws : LocaleLaws.
Proof.
  constructor. intros x. destruct x as [[]|s| |s m e]; cbn [to_locale_string english];
    try apply number_string_unspecial; by repeat constructor.
Qed.

Definition hostile : PeerStatus.t :=
  PeerStatus.mk "03cdcdcdcdcdcdcdcd" (Some "<script>alert('x')</script>"%string) "Active" 0 0 Rates.default
    Rates.default 6000 0 42 0 None.
Definition status_of (peers : list PeerStatus.t) : NodeStatus.t :=
  NodeStatus.mk "02abababababababab" "bytes" peers PricingStatus.default.

Example largest_number : number_string (number U64_MAX) = "18446744073709552000"%string.
Proof. by vm_compute. Qed.
Example plain_numbers : number_string <$> (number <$> [0; 42; -7; 21000000; 2 ^ 53]) =
  ["0"; "42"; "-7"; "21000000"; "9007199254740992"]%string.
Proof. by vm_compute. Qed.

(** The page rounds where [tolltop] truncates, and shows a debt below half a sat with both
    signs. *)
Example page_and_tolltop_disagree :
  fmtNet (number 1500) = "+2"%string /\ fmt_net 1500 = "+1"%string /\ fmtNet (number (-400)) = "+-0"%string.
Proof. by vm_compute. Qed.
End PageDemo.

(** A peer that calls its address a script. *)
Lemma page_shows_data_witness :
  let html := @renderPeers PageDemo.english (PageDemo.status_of [PageDemo.hostile]) in
  Chars "<script>alert('x')</script>" ∈ html_tokens html /\ ~ (Tag "script" ∈ html_tokens html).
Proof.
  cbv zeta.
  destruct (@page_shows_data PageDemo.english PageDemo.english_laws (PageDemo.status_of [PageDemo.hostile]) Config.default)
    as (-> & _).
  split; apply (bool_decide_unpack _) || (apply (bool_decide_eq_false_1 _)); by vm_compute.
Defined.
