(* ===== verification/Ssl.v ===== *)
(** * Certificates

    Models [crates/tollgate-net/src/ssl.rs]: the commands given to [certbot], what
    [remove] deletes when [certbot] is missing, and the report of [status]. Files are a
    tree without symbolic links, and every operation has the permissions it needs;
    [certbot] and the readers of PEM and X.509 are classes. Text is what the operator
    sees: of an error, the outermost message. *)

From S2P Require Import Prelude Decimal NetDriver Json Shell Text.

Definition CERTS_ROOT : string := "/etc/tollgate/certs".
Definition LETSENCRYPT_DIR : string := "/etc/tollgate/certs/letsencrypt".
Definition WORK_DIR : string := "/var/lib/tollgate/certbot".
Definition LOGS_DIR : string := "/var/log/tollgate/certbot".

(** ** Files *)

Module Files.
Inductive node : Set := Dir | File (contents : string).
#[export] Instance node_eq_dec : EqDecision node.
Proof. solve_decision. Defined.

(** A place is the names that lead to it, its own first; the root has none. *)
Abbreviation place := (list string) (only parsing).
Abbreviation t := (gmap (list string) node) (only parsing).

Definition slash : Ascii.ascii := Ascii.ascii_of_N 47.
Definition node_at (f : t) (p : place) : option node := match p with [] => Some Dir | _ => f !! p end.
Definition is_dir (f : t) (p : place) : bool := bool_decide (node_at f p = Some Dir).

(** How the kernel follows a path: every name but the last must be a directory's. *)
Fixpoint walk (f : t) (cur : place) (names : list string) : option place :=
  match names with
  | [] => Some cur
  | n :: names =>
      if negb (is_dir f cur) then None
      else if bool_decide (n = EmptyString) || bool_decide (n = "."%string) then walk f cur names
      else if bool_decide (n = ".."%string) then walk f (tail cur) names
      else if is_some (node_at f (n :: cur)) then walk f (n :: cur) names else None
  end.
Definition resolve (f : t) (path : string) : option place := walk f [] (split_on slash path).
Definition exists_at (f : t) (path : string) : bool := is_some (resolve f path).

(** [Path::join]: an absolute path replaces what it is joined to. *)
Definition join (dir rest : string) : string :=
  if starts_with "/" rest then rest
  else if bool_decide (head (rev (chars dir)) = Some slash) then dir +:+ rest else dir +:+ "/" +:+ rest.

(** Everything in a directory, and the directory itself. *)
Definition beneath (p q : place) : Prop := p `suffix_of` q.
Definition clear (p : place) (f : t) : t := filter (fun e => ~ (beneath p e.1 /\ e.1 <> p)) f.

(** The last name of a path. *)
Definition last_name (path : string) : string :=
  unwrap_or (head (filter (fun n => n <> EmptyString) (rev (split_on slash path)))) EmptyString.

(** [remove_dir_all]: what a directory holds, then the directory; the kernel does not
    remove one that is named [.] or [..], nor the root. [false] is an error. *)
Definition remove_dir_all (path : string) (f : t) : t * bool :=
  match resolve f path with
  | None => (f, false)
  | Some p =>
      if is_dir f p then
        if bool_decide (p = []) || bool_decide (last_name path = "."%string) || bool_decide (last_name path = ".."%string)
        then (clear p f, false)
        else (delete p (clear p f), true)
      else (f, false)
  end.
Definition remove_file (path : string) (f : t) : t * bool :=
  match resolve f path with
  | None => (f, false)
  | Some p => if is_dir f p then (f, false) else (delete p f, true)
  end.

(** [create_dir_all] of an absolute path without [.] and [..]. *)
Fixpoint make_dirs (cur : place) (names : list string) (f : t) : t * bool :=
  match names with
  | [] => (f, true)
  | n :: names =>
      if bool_decide (n = EmptyString) then make_dirs cur names f
      else
        match node_at f (n :: cur) with
        | Some Dir => make_dirs (n :: cur) names f
        | Some (File _) => (f, false)
        | None => make_dirs (n :: cur) names (<[n :: cur := Dir]> f)
        end
  end.
Definition create_dir_all (path : string) (f : t) : t * bool := make_dirs [] (split_on slash path) f.

(** The names in a directory, in no particular order. *)
Definition names_in (f : t) (p : place) : list string :=
  omap (fun q => match q with n :: dir => if decide (dir = p) then Some n else None | [] => None end)
    ((map_to_list f).*1).
End Files.

(** ** The surroundings *)

Inductive spawned : Set := NotSpawned | Exited (code : option Z).
#[export] Instance spawned_eq_dec : EqDecision spawned.
Proof. solve_decision. Defined.
Definition success (s : spawned) : bool := bool_decide (s = Exited (Some 0)).

(** [certbot] run with these arguments. *)
Class Certbot : Type := certbot : list string -> Files.t -> spawned * Files.t.

(** [x509_parser]: the expiry in a PEM file's certificate, in seconds since 1970, and a
    time as text. *)
Class X509 : Type := {
  parse_x509_pem : string -> option string;
  parse_x509 : string -> option Z;
  time_text : Z -> string
}.

Record world : Type := mk_world {
  disk : Files.t;
  commands : list (list string);
  printed : list string
}.

(** A computation that may fail, with what it did in either case. *)
Definition io (A : Type) : Type := world -> result A string * world.
#[export] Instance io_ret : MRet io := fun A a w => (Ok a, w).
#[export] Instance io_bind : MBind io := fun A B k m w =>
  match m w with
  | (Ok a, w) => k a w
  | (Err e, w) => (Err e, w)
  end.
Definition bail {A} (e : string) : io A := fun w => (Err e, w).
Definition println (line : string) : io unit := fun w =>
  (Ok tt, mk_world (disk w) (commands w) (printed w ++ [line])).
(** An operation on files, with the context of its error. *)
Definition on_disk (f : Files.t -> Files.t * bool) (context : string) : io unit := fun w =>
  let '(d, ok) := f (disk w) in
  (if ok then Ok tt else Err context, mk_world d (commands w) (printed w)).
Definition reads {A} (f : Files.t -> A) : io A := fun w => (Ok (f (disk w)), w).
(** [anyhow::Result::is_ok]. *)
Definition try_io {A} (m : io A) : io bool := fun w =>
  let '(r, w) := m w in (Ok match r with Ok _ => true | Err _ => false end, w).

Fixpoint each {A} (f : A -> io unit) (l : list A) : io unit :=
  match l with [] => mret tt | a :: l => f a ≫= fun _ => each f l end.

Section ssl.
Context `{Certbot}.

Definition run_certbot (args : list string) : io spawned := fun w =>
  let '(s, d) := certbot args (disk w) in (Ok s, mk_world d (commands w ++ [args]) (printed w)).
(** [.status().context(...)]. *)
Definition certbot_status (args : list string) (context : string) : io spawned :=
  s ← run_certbot args;
  match s with NotSpawned => bail context | Exited _ => mret s end.

Definition exit_code_str (s : spawned) : string :=
  match s with Exited (Some n) => to_string n | _ => "<signal>" end.

Definition ensure_certbot_installed : io unit :=
  s ← certbot_status ["--version"%string] "certbot not found on PATH — install certbot first";
  if success s then mret tt else bail "'certbot --version' failed; is certbot installed correctly?".

Definition dirs_args : list string :=
  ["--config-dir"%string; LETSENCRYPT_DIR; "--work-dir"%string; WORK_DIR; "--logs-dir"%string; LOGS_DIR].
Definition certonly_args (domain email : string) (dns_plugin : option string) (staging : bool) : list string :=
  ["certonly"; "--non-interactive"; "--agree-tos"; "--no-eff-email"; "--email"; email; "-d"; domain]%string ++
  dirs_args ++
  match dns_plugin with
  | Some plugin => ["--dns-" +:+ plugin]
  | None => ["--standalone"; "--http-01-port"; "80"]%string
  end ++ (if staging then ["--staging"%string] else []).

Definition apply_cert (domain email : string) (dns_plugin : option string) (staging : bool) : io unit :=
  ensure_certbot_installed ≫= fun _ =>
  on_disk (Files.create_dir_all CERTS_ROOT) ("failed to create " +:+ CERTS_ROOT) ≫= fun _ =>
  status ← certbot_status (certonly_args domain email dns_plugin staging) "failed to spawn certbot";
  if negb (success status) then bail ("certbot exited with " +:+ exit_code_str status +:+ " for " +:+ domain)
  else
    println ("SSL: certificate issued for " +:+ domain) ≫= fun _ =>
    println ("  Live certs: " +:+ LETSENCRYPT_DIR +:+ "/live/" +:+ domain +:+ "/") ≫= fun _ =>
    println ("  Remove with: tollgate ssl remove --domain " +:+ domain).

Definition delete_args (domain : string) : list string :=
  ["delete"; "--cert-name"; domain; "--non-interactive"]%string ++ dirs_args.

Definition under (sub : string) : string := Files.join LETSENCRYPT_DIR sub.
(** One directory, if it is there; the renewal settings likewise. *)
Definition remove_sub (domain sub : string) : io unit :=
  let p := Files.join (under sub) domain in
  there ← reads (fun d => Files.exists_at d p);
  if there : bool then on_disk (Files.remove_dir_all p) ("failed to remove " +:+ p) else mret tt.
Definition remove_conf (domain : string) : io unit :=
  let p := Files.join (under "renewal") (domain +:+ ".conf") in
  there ← reads (fun d => Files.exists_at d p);
  if there : bool then on_disk (Files.remove_file p) ("failed to remove " +:+ p) else mret tt.
Definition remove_by_hand (domain : string) : io unit :=
  each (remove_sub domain) ["live"; "archive"]%string ≫= fun _ => remove_conf domain.

Definition remove_cert (domain : string) : io unit :=
  there ← reads (fun d => Files.exists_at d (Files.join (under "live") domain));
  if negb there then println ("SSL: no certificate found for " +:+ domain)
  else
    installed ← try_io ensure_certbot_installed;
    (if installed : bool then
       status ← certbot_status (delete_args domain) "failed to spawn certbot";
       if negb (success status)
       then bail ("certbot delete exited with " +:+ exit_code_str status +:+ " for " +:+ domain)
       else mret tt
     else remove_by_hand domain) ≫= fun _ =>
    println ("SSL: removed certificate for " +:+ domain).

(** ** The report *)

Context `{X509}.

Definition format_cert_summary (now expiry : Z) : string :=
  if expiry <? now then "EXPIRED on " +:+ time_text expiry
  else
    "expires " +:+ time_text expiry +:+ "  (" +:+ to_string (Z.quot (expiry - now) 86400) +:+ " days remaining)".

Definition read_cert_summary (now : Z) (path : string) (d : Files.t) : result string string :=
  match Files.resolve d path ≫= Files.node_at d with
  | Some (Files.File contents) =>
      match parse_x509_pem contents with
      | None => Err "invalid PEM"%string
      | Some pem =>
          match parse_x509 pem with
          | None => Err "invalid X.509 certificate"%string
          | Some expiry => Ok (format_cert_summary now expiry)
          end
      end
  | _ => Err ("failed to read " +:+ path)
  end.

(** The directories with a certificate, sorted. *)
Definition cert_dirs (live_root : string) (d : Files.t) : list string :=
  match Files.resolve d live_root with
  | None => []
  | Some p =>
      merge_sort str_le
        (filter (fun n => Files.is_dir d (n :: p) && Files.exists_at d (Files.join (Files.join live_root n) "cert.pem") = true)
           (Files.names_in d p))
  end.

Definition cert_entry (now : Z) (live_root : string) (d : Files.t) (name : string) : string * string :=
  (unwrap_or (from_utf8 (as_bytes name)) "?",
   match read_cert_summary now (Files.join (Files.join live_root name) "cert.pem") d with
   | Ok s => s
   | Err e => "(unreadable: " +:+ e +:+ ")"
   end).

Definition collect_cert_summaries (now : Z) (live_root : string) (d : Files.t) : result (list (string * string)) string :=
  match Files.resolve d live_root with
  | None => Ok []
  | Some p =>
      if Files.is_dir d p then Ok (cert_entry now live_root d <$> cert_dirs live_root d)
      else Err ("failed to read " +:+ live_root)
  end.

Definition print_status_report (now : Z) (live_root : string) : io unit :=
  entries ← (fun w => (collect_cert_summaries now live_root (disk w), w));
  match entries with
  | [] =>
      println "SSL: no certificates managed" ≫= fun _ =>
      println "  Run 'tollgate ssl apply --domain <domain> --email <email>' to issue one."
  | _ =>
      println ("SSL: " +:+ to_string (Z.of_nat (length entries)) +:+ " certificate(s) under " +:+
                 LETSENCRYPT_DIR +:+ "/live/") ≫= fun _ =>
      each (fun e => println ("  " +:+ e.1 +:+ of_chars [Ascii.ascii_of_N 9] +:+ e.2)) entries
  end.
Definition status_report (now : Z) : io unit := print_status_report now (under "live").

(** [ssl_dispatch] of [main.rs]. *)
Inductive SslSubcommand : Set :=
| Apply (domain email : string) (dns : option string) (staging : bool)
| Remove (domain : string)
| Status_.
Definition ssl_dispatch (now : Z) (c : SslSubcommand) : io unit :=
  match c with
  | Apply domain email dns staging => apply_cert domain email dns staging
  | Remove domain => remove_cert domain
  | Status_ => status_report now
  end.
End ssl.

(** ** Lemmas: paths *)

(** A name that is no path: what a domain is meant to be. *)
Definition plain_name (s : string) : Prop :=
  s <> EmptyString /\ s <> "."%string /\ s <> ".."%string /\ Files.slash ∉ chars s.

Lemma split_plain s : plain_name s -> split_on Files.slash s = [s].
Proof. intros (_ & _ & _ & Hs). unfold split_on. rewrite split_chars_none by done. cbn. by rewrite of_chars_chars. Qed.

Lemma plain_conf s : plain_name s -> plain_name (s +:+ ".conf").
Proof.
  intros (_ & _ & _ & Hs). split_and!; try (by destruct s as [|? [|? [|? s]]]; intros [=]).
  rewrite chars_app, not_elem_of_app. split; [done|]. by apply (bool_decide_unpack _); vm_compute.
Qed.

Lemma no_slash_relative s : Files.slash ∉ chars s -> starts_with "/" s = false.
Proof.
  destruct s as [|c s]; [done|]. intros Hc. change (chars (String c s)) with (c :: chars s) in Hc.
  apply not_elem_of_cons in Hc as [Hc _]. unfold starts_with.
  change (strip_prefix "/" (String c s)) with (if decide (Files.slash = c) then strip_prefix "" s else None).
  by rewrite decide_False.
Qed.

(** The path of a name in one of certbot's directories, split. *)
Lemma split_under sub s :
  Forall (fun c => c <> Files.slash) (chars sub) -> sub <> EmptyString -> plain_name s ->
  split_on Files.slash (Files.join (under sub) s) =
    [EmptyString; "etc"; "tollgate"; "certs"; "letsencrypt"; sub; s]%string.
Proof.
  intros Hsub Hne Hs. assert (Files.slash ∉ chars sub) as Hsub'.
  { intros Hin. rewrite Forall_forall in Hsub. by apply (Hsub _ Hin). }
  unfold Files.join. rewrite no_slash_relative by apply Hs.
  assert (under sub = LETSENCRYPT_DIR +:+ "/" +:+ sub) as E.
  { unfold under, Files.join. by rewrite no_slash_relative by done. }
  rewrite bool_decide_false.
  2: { rewrite E, !chars_app, !rev_app_distr. intros Hh.
    destruct (rev (chars sub)) as [|c r] eqn:Er.
    - apply (f_equal (@rev _)) in Er. rewrite rev_involutive in Er. apply Hne.
      by rewrite <- (of_chars_chars sub), Er.
    - assert (c ∈ chars sub) as Hc by (rewrite <- (rev_involutive (chars sub)), Er; set_solver).
      cbn in Hh. by injection Hh as ->. }
  rewrite E. unfold split_on. rewrite !chars_app.
  change (chars "/") with [Files.slash]. cbn [app].
  rewrite <- !app_assoc. cbn [app]. rewrite !split_chars_cat.
  rewrite (split_chars_none _ (chars sub)), (split_chars_none _ (chars s)) by (done || apply Hs).
  rewrite !fmap_app. cbn [fmap list_fmap]. by rewrite !of_chars_chars.
Qed.

Lemma walk_plain f names : forall cur p,
  Forall plain_name names -> Files.walk f cur names = Some p -> p = rev names ++ cur.
Proof.
  induction names as [|n names IH]; intros cur p Hn; cbn [Files.walk]; [by intros [= <-]|].
  apply Forall_cons in Hn as [(H1 & H2 & H3 & _) Hn].
  destruct (negb _); [done|]. rewrite !bool_decide_false by done. cbn [orb].
  destruct (is_some _); [|done]. intros Hw. rewrite (IH _ _ Hn Hw). cbn. by rewrite <- app_assoc.
Qed.

(** Where a name in one of certbot's directories leads. *)
Definition place_of (sub s : string) : list string := [s; sub; "letsencrypt"; "certs"; "tollgate"; "etc"]%string.

Lemma resolve_under f sub s p :
  plain_name sub -> plain_name s -> Files.resolve f (Files.join (under sub) s) = Some p -> p = place_of sub s.
Proof.
  intros Hsub Hs. unfold Files.resolve. rewrite split_under; [|apply Forall_forall; intros c Hc ->; by apply Hsub|apply Hsub|done].
  change (Files.walk f [] (EmptyString :: ?names)) with (Files.walk f [] names). intros Hw.
  apply walk_plain in Hw; [done|]. repeat (apply Forall_cons; split); try done; try apply Forall_nil; try done;
    (apply (bool_decide_unpack _); by vm_compute).
Qed.

(** Fewer files, fewer paths that lead somewhere. *)
Lemma node_at_mono (f g : Files.t) p n : f ⊆ g -> Files.node_at f p = Some n -> Files.node_at g p = Some n.
Proof. intros Hs. destruct p; [done|]. cbn. intros Hp. by eapply lookup_weaken. Qed.

Lemma walk_mono (f g : Files.t) names : forall cur p,
  f ⊆ g -> Files.walk f cur names = Some p -> Files.walk g cur names = Some p.
Proof.
  induction names as [|n names IH]; intros cur p Hs; cbn [Files.walk]; [done|].
  unfold Files.is_dir. destruct (bool_decide (Files.node_at f cur = _)) eqn:Hd; [|done]. apply bool_decide_eq_true in Hd.
  rewrite (bool_decide_true (Files.node_at g cur = _)) by (by eapply node_at_mono). cbn [negb].
  destruct (_ || _); [by apply IH|]. destruct (bool_decide _); [by apply IH|].
  destruct (Files.node_at f (n :: cur)) eqn:E; [|done]. rewrite (node_at_mono f g _ _ Hs E). by apply IH.
Qed.

Lemma exists_mono (f g : Files.t) path : f ⊆ g -> Files.exists_at g path = false -> Files.exists_at f path = false.
Proof.
  intros Hs. unfold Files.exists_at, Files.resolve. destruct (Files.walk f _ _) eqn:E; [|done].
  by rewrite (walk_mono f g _ _ _ Hs E).
Qed.

Lemma walk_plain_node f names : forall cur p,
  Forall plain_name names -> names <> [] -> Files.walk f cur names = Some p -> is_Some (Files.node_at f p).
Proof.
  induction names as [|n names IH]; intros cur p Hn Hne; [done|]. cbn [Files.walk].
  apply Forall_cons in Hn as [(H1 & H2 & H3 & _) Hn].
  destruct (negb _); [done|]. rewrite !bool_decide_false by done. cbn [orb].
  destruct (Files.node_at f (n :: cur)) eqn:E; [|done]. cbn [is_some].
  destruct names as [|m names]; [|by apply IH]. cbn. intros [= <-]. rewrite E. eauto.
Qed.

Lemma resolve_under_node f sub s p :
  plain_name sub -> plain_name s -> Files.resolve f (Files.join (under sub) s) = Some p -> is_Some (f !! p).
Proof.
  intros Hsub Hs Hr. assert (p = place_of sub s) as -> by (by eapply resolve_under).
  revert Hr. unfold Files.resolve.
  rewrite split_under; [|apply Forall_forall; intros c Hc ->; by apply Hsub|apply Hsub|done].
  change (Files.walk f [] (EmptyString :: ?names)) with (Files.walk f [] names). intros Hw.
  apply walk_plain_node in Hw; [done| |done].
  repeat (apply Forall_cons; split); try done; try apply Forall_nil; try done;
    (apply (bool_decide_unpack _); by vm_compute).
Qed.

Lemma last_name_under sub s : plain_name sub -> plain_name s -> Files.last_name (Files.join (under sub) s) = s.
Proof.
  intros Hsub Hs. unfold Files.last_name.
  rewrite split_under; [|apply Forall_forall; intros c Hc ->; by apply Hsub|apply Hsub|done].
  cbn [rev app]. rewrite filter_cons_True by apply Hs. done.
Qed.

(** ** Lemmas: removing by hand *)

(** What a step of the removal may touch, and what it has to achieve. *)
Definition removes (within : list string -> Prop) (path : string) (w : world) (r : result unit string) (w' : world) : Prop :=
  disk w' ⊆ disk w /\ (forall p, ~ within p -> disk w' !! p = disk w !! p) /\
  commands w' = commands w /\ printed w' = printed w /\
  (r = Ok tt -> Files.exists_at (disk w') path = false).

Lemma clear_lookup p q f : ~ Files.beneath p q -> Files.clear p f !! q = f !! q.
Proof.
  intros Hq. unfold Files.clear. destruct (f !! q) as [n|] eqn:E.
  - apply map_lookup_filter_Some. split; [done|]. by intros [? _].
  - apply map_lookup_filter_None. by left.
Qed.

Lemma removes_path sub s w r (w' : world) :
  plain_name sub -> plain_name s ->
  (forall f p, Files.resolve f (Files.join (under sub) s) = Some p -> p = place_of sub s) ->
  forall op context, (forall f, exists f' ok, op f = (f', ok) /\ f' ⊆ f /\
     (forall q, ~ Files.beneath (place_of sub s) q -> f' !! q = f !! q) /\
     (ok = true -> f' !! place_of sub s = None)) ->
  (there ← reads (fun d => Files.exists_at d (Files.join (under sub) s));
   if there : bool then on_disk op context else mret tt) w = (r, w') ->
  removes (Files.beneath (place_of sub s)) (Files.join (under sub) s) w r w'.
Proof.
  intros Hsub Hs Hp op context Hop. unfold mbind, io_bind, reads, on_disk, mret, io_ret.
  destruct (Files.exists_at (disk w) _) eqn:Ex; [|by intros [= <- <-]].
  destruct (Hop (disk w)) as (f' & ok & -> & Hsubs & Hf & Hok). intros [= <- <-]. split_and!; try done.
  destruct ok; [|done]. intros _. cbn. unfold Files.exists_at.
  destruct (Files.resolve f' _) as [q|] eqn:Eq; [|done]. pose proof (Hp _ _ Eq) as ->.
  apply resolve_under_node in Eq as [n Hn]; [|done..]. rewrite Hok in Hn by done. done.
Qed.

Lemma remove_sub_removes domain sub w r w' :
  plain_name sub -> plain_name domain -> remove_sub domain sub w = (r, w') ->
  removes (Files.beneath (place_of sub domain)) (Files.join (under sub) domain) w r w'.
Proof.
  intros Hsub Hd. apply removes_path; [done..|intros f p; by apply resolve_under|]. intros f.
  unfold Files.remove_dir_all. destruct (Files.resolve f _) as [p|] eqn:E; [|by exists f, false].
  apply resolve_under in E as ->; [|done..]. destruct (Files.is_dir _ _); [|by exists f, false].
  rewrite last_name_under, !bool_decide_false by (done || apply Hd). cbn [orb].
  eexists _, true. split_and!; [done| | |].
  - transitivity (Files.clear (place_of sub domain) f); [apply delete_subseteq|apply map_filter_subseteq].
  - intros q Hq. rewrite lookup_delete_ne; [by apply clear_lookup|]. intros <-. apply Hq. by exists [].
  - intros _. by rewrite lookup_delete_eq.
Qed.

Lemma remove_conf_removes domain w r w' :
  plain_name domain -> remove_conf domain w = (r, w') ->
  removes (Files.beneath (place_of "renewal" (domain +:+ ".conf"))) (Files.join (under "renewal") (domain +:+ ".conf"))
    w r w'.
Proof.
  intros Hd%plain_conf. assert (plain_name "renewal") as Hsub.
  { split_and!; try done. by apply (bool_decide_unpack _); vm_compute. }
  apply removes_path; [done..|intros f p; by apply resolve_under|]. intros f.
  unfold Files.remove_file. destruct (Files.resolve f _) as [p|] eqn:E; [|by exists f, false].
  apply resolve_under in E as ->; [|done..]. destruct (Files.is_dir _ _); [by exists f, false|].
  eexists _, true. split_and!; [done|apply delete_subseteq| |].
  - intros q Hq. rewrite lookup_delete_ne; [done|]. intros <-. apply Hq. by exists [].
  - intros _. by rewrite lookup_delete_eq.
Qed.

(** ** Properties *)

(** Without [certbot], removing a domain whose name is a plain one touches nothing but
    its certificates and its renewal settings, and when it succeeds they are gone. *)
Theorem remove_only_domain domain w r w' :
  plain_name domain -> remove_by_hand domain w = (r, w') ->
  (forall p, ~ Files.beneath (place_of "live" domain) p -> ~ Files.beneath (place_of "archive" domain) p ->
     ~ Files.beneath (place_of "renewal" (domain +:+ ".conf")) p -> disk w' !! p = disk w !! p) /\
  disk w' ⊆ disk w /\ commands w' = commands w /\ printed w' = printed w /\
  (r = Ok tt ->
     Files.exists_at (disk w') (Files.join (under "live") domain) = false /\
     Files.exists_at (disk w') (Files.join (under "archive") domain) = false /\
     Files.exists_at (disk w') (Files.join (under "renewal") (domain +:+ ".conf")) = false).
Proof.
  intros Hd. unfold remove_by_hand, each, mbind, io_bind, mret, io_ret.
  assert (plain_name "live" /\ plain_name "archive") as [Hl Ha].
  { split; split_and!; try done; by apply (bool_decide_unpack _); vm_compute. }
  destruct (remove_sub domain "live" w) as [[[]|e1] w1] eqn:E1; pose proof (remove_sub_removes _ _ _ _ _ Hl Hd E1)
    as (S1 & F1 & C1 & P1 & G1).
  2: { intros [= <- <-]. split_and!; try done. intros p Hp _ _. by apply F1. }
  destruct (remove_sub domain "archive" w1) as [[[]|e2] w2] eqn:E2; pose proof (remove_sub_removes _ _ _ _ _ Ha Hd E2)
    as (S2 & F2 & C2 & P2 & G2).
  2: { intros [= <- <-]. split_and!; try congruence; [|by transitivity (disk w1)].
       intros p Hp Hp2 _. by rewrite F2, F1. }
  intros E3. pose proof (remove_conf_removes _ _ _ _ Hd E3) as (S3 & F3 & C3 & P3 & G3).
  split_and!; try congruence; [|transitivity (disk w2); [done|by transitivity (disk w1)]|].
  - intros p Hp Hp2 Hp3. by rewrite F3, F2, F1.
  - intros ->. split_and!; [|by eapply exists_mono, G2|by apply G3].
    eapply exists_mono; [exact S3|]. eapply exists_mono; [exact S2|]. by apply G1.
Qed.

Section ssl_properties.
Context `{Certbot, X509}.

(** What [certbot] answers, and the files it leaves. *)
Definition answers (args : list string) (f : Files.t) : spawned := (certbot args f).1.
Definition leaves (args : list string) (f : Files.t) : Files.t := (certbot args f).2.

Lemma success_zero s : success s = true <-> s = Exited (Some 0).
Proof. unfold success. apply bool_decide_eq_true. Qed.

(** A run of [certbot] and the check of its exit. *)
Lemma ensure_installed w :
  exists r, ensure_certbot_installed w =
    (r, mk_world (leaves ["--version"%string] (disk w)) (commands w ++ [["--version"%string]]) (printed w)) /\
  (r = Ok tt <-> answers ["--version"%string] (disk w) = Exited (Some 0)).
Proof.
  unfold ensure_certbot_installed, certbot_status, run_certbot, mbind, io_bind, answers, leaves.
  destruct (certbot _ _) as [[|code] d]; cbn -[success]; [by eexists|].
  destruct (success (Exited code)) eqn:E; eexists; (split; [done|]); rewrite <- success_zero, E; done.
Qed.

Definition issued_lines (domain : string) : list string :=
  [ "SSL: certificate issued for " +:+ domain; "  Live certs: " +:+ LETSENCRYPT_DIR +:+ "/live/" +:+ domain +:+ "/";
    "  Remove with: tollgate ssl remove --domain " +:+ domain ].

(** [certbot] is asked for its version, and if it answers and the directory can be made,
    for exactly one certificate; the certificate is reported as issued when and only
    when it exits with zero. *)
Theorem apply_runs_certbot domain email dns staging w r w' :
  apply_cert domain email dns staging w = (r, w') ->
  (commands w' = commands w ++ [["--version"%string]] /\ r <> Ok tt /\ printed w' = printed w) \/
  (commands w' = commands w ++ [["--version"%string]; certonly_args domain email dns staging] /\
   exists f, disk w' = leaves (certonly_args domain email dns staging) f /\
     (r = Ok tt <-> answers (certonly_args domain email dns staging) f = Exited (Some 0)) /\
     printed w' = printed w ++ (if decide (answers (certonly_args domain email dns staging) f = Exited (Some 0))
                               then issued_lines domain else [])).
Proof.
  destruct (ensure_installed w) as (r1 & E1 & H1). unfold apply_cert, mbind at 1, io_bind at 1. rewrite E1.
  destruct r1 as [[]|e]; [|intros [= <- <-]; by left].
  unfold on_disk, mbind, io_bind. cbn [disk commands printed].
  destruct (Files.create_dir_all _ _) as [d [|]]; [|intros [= <- <-]; by left].
  unfold certbot_status, run_certbot, mbind, io_bind. cbn [disk commands printed]. unfold answers, leaves.
  intros H2. right. destruct (certbot (certonly_args _ _ _ _) d) as [[|code] d'] eqn:Ec; cbn [mret io_ret] in H2.
  - injection H2 as <- <-. cbn [commands disk printed]. rewrite <- app_assoc. split; [done|]. exists d. rewrite Ec. cbn -[decide].
    rewrite decide_False by done.
    by rewrite app_nil_r.
  - destruct (success (Exited code)) eqn:Es; cbn [negb] in H2; injection H2 as <- <-; cbn [commands disk printed]; rewrite <- !app_assoc;
      (split; [done|]); exists d; rewrite Ec; cbn -[decide].
    + apply success_zero in Es. by rewrite decide_True by done.
    + rewrite decide_False by (rewrite <- success_zero; congruence). rewrite app_nil_r. split_and!; [done| |done].
      split; [done|]. rewrite <- success_zero. congruence.
Qed.

(** With [certbot] installed, a removal is one [certbot delete]; a name without a
    certificate runs nothing. *)
Theorem remove_runs_certbot domain w r w' :
  answers ["--version"%string] (disk w) = Exited (Some 0) -> remove_cert domain w = (r, w') ->
  if Files.exists_at (disk w) (Files.join (under "live") domain)
  then commands w' = commands w ++ [["--version"%string]; delete_args domain] /\
       disk w' = leaves (delete_args domain) (leaves ["--version"%string] (disk w)) /\
       (r = Ok tt <-> answers (delete_args domain) (leaves ["--version"%string] (disk w)) = Exited (Some 0))
  else commands w' = commands w /\ disk w' = disk w /\ r = Ok tt.
Proof.
  intros Hv. unfold remove_cert, reads, mbind at 1, io_bind at 1.
  destruct (Files.exists_at _ _); cbn [negb]; [|by intros [= <- <-]].
  destruct (ensure_installed w) as (r1 & E1 & H1). apply H1 in Hv as ->.
  unfold mbind at 1, io_bind at 1, try_io. rewrite E1. unfold certbot_status, run_certbot, mbind, io_bind.
  cbn [disk commands printed]. unfold answers, leaves.
  destruct (certbot (delete_args _) _) as [[|code] d'] eqn:Ec; cbn [mret io_ret fst snd].
  - intros [= <- <-]. cbn. by rewrite <- app_assoc.
  - destruct (success (Exited code)) eqn:Es; cbn [negb]; intros [= <- <-]; cbn; rewrite <- app_assoc;
      (split_and!; [done|done|]); rewrite <- success_zero, Es; done.
Qed.

(** A certificate is called expired exactly when its time is past; otherwise the days
    that are shown are whole and no more than are left. *)
Theorem summary_tells_expiry now expiry :
  (expiry < now -> format_cert_summary now expiry = "EXPIRED on " +:+ time_text expiry) /\
  (now <= expiry -> exists days,
     format_cert_summary now expiry =
       "expires " +:+ time_text expiry +:+ "  (" +:+ to_string days +:+ " days remaining)" /\
     0 <= days /\ 86400 * days <= expiry - now < 86400 * (days + 1)).
Proof.
  unfold format_cert_summary. split; intros Hn.
  - by rewrite (proj2 (Z.ltb_lt _ _) Hn).
  - destruct (Z.ltb_spec expiry now); [lia|]. eexists. split; [done|]. rewrite Z.quot_div_nonneg by lia.
    pose proof (Z.div_mod (expiry - now) 86400 ltac:(lia)). pose proof (Z.mod_pos_bound (expiry - now) 86400 ltac:(lia)).
    lia.
Qed.

Lemma names_in_spec (f : gmap (list string) Files.node) p n : n ∈ Files.names_in f p <-> is_Some (f !! (n :: p)).
Proof.
  unfold Files.names_in. rewrite list_elem_of_omap. split.
  - intros (q & Hq & Hn). apply list_elem_of_fmap in Hq as ([q' v] & -> & Hq). apply elem_of_map_to_list in Hq.
    cbn in Hn. destruct q' as [|m dir]; [done|]. destruct (decide (dir = p)) as [->|]; [|done].
    injection Hn as ->. eauto.
  - intros [v Hv]. exists (n :: p). split; [|by rewrite decide_True].
    apply list_elem_of_fmap. exists (n :: p, v). split; [done|]. by apply elem_of_map_to_list.
Qed.

(** The report: the directories that hold a certificate, all of them, in the order of
    their names; the order in which the file system lists them does not matter, and a
    certificate that cannot be read does not hide the others. *)
Theorem report_lists_certificates now root f p :
  Files.resolve f root = Some p -> Files.is_dir f p = true ->
  exists names,
    collect_cert_summaries now root f = Ok (cert_entry now root f <$> names) /\
    Sorted str_le names /\
    forall n, n ∈ names <->
      f !! (n :: p) = Some Files.Dir /\ Files.exists_at f (Files.join (Files.join root n) "cert.pem") = true.
Proof.
  intros Hp Hd. exists (cert_dirs root f). unfold collect_cert_summaries, cert_dirs. rewrite Hp, Hd.
  split_and!; [done|apply Sorted_merge_sort; apply _|]. intros n.
  rewrite (merge_sort_Permutation str_le), list_elem_of_filter, names_in_spec, andb_true_iff.
  unfold Files.is_dir. rewrite bool_decide_eq_true. cbn [Files.node_at]. split; [tauto|].
  intros [Hn He]. rewrite Hn. eauto.
Qed.
End ssl_properties.

(** ** A file system *)

Module SslDemo.
#[export] Instance no_certbot : Certbot := fun _ f => (NotSpawned, f).
#[export] Instance works : Certbot | 10 := fun _ f => (Exited (Some 0), f).
#[export] Instance plain_x509 : X509 := {|
  parse_x509_pem s := if bool_decide (s = "junk"%string) then None else Some s;
  parse_x509 s := parse_u64 s;
  time_text := to_string
|}.

Definition base : list string := ["letsencrypt"; "certs"; "tollgate"; "etc"]%string.
Definition cert (domain expiry : string) : list (list string * Files.node) :=
  [(place_of "live" domain, Files.Dir); ("cert.pem"%string :: place_of "live" domain, Files.File expiry);
   (place_of "archive" domain, Files.Dir); (place_of "renewal" (domain +:+ ".conf"), Files.File "x")].
Definition tree : gmap (list string) Files.node := list_to_map
  ([(["etc"%string], Files.Dir); (["tollgate"; "etc"]%string, Files.Dir);
    (["certs"; "tollgate"; "etc"]%string, Files.Dir); (base, Files.Dir); ("live"%string :: base, Files.Dir);
    ("archive"%string :: base, Files.Dir); ("renewal"%string :: base, Files.Dir);
    (["srv"%string], Files.Dir); (["data"; "srv"]%string, Files.Dir); (["f"; "data"; "srv"]%string, Files.File "y")] ++
   cert "a.example.com" "100" ++ cert "b.example.com" "junk").
Definition start : world := mk_world tree [] [].

Lemma a_plain : plain_name "a.example.com".
Proof. split_and!; try done. by apply (bool_decide_unpack _); vm_compute. Qed.

Example report_of_two :
  collect_cert_summaries 200 (under "live") tree =
    Ok [("a.example.com", "EXPIRED on 100"); ("b.example.com", "(unreadable: invalid PEM)")]%string.
Proof. by vm_compute. Qed.

(** Without [certbot], an empty name removes the certificates of every domain, and an
    absolute path the directory it names. *)
Example empty_domain_removes_all :
  let '(r, w) := @remove_cert no_certbot "" start in
  r = Ok tt /\ disk w !! place_of "live" "a.example.com" = None /\ disk w !! place_of "live" "b.example.com" = None.
Proof. by vm_compute. Qed.
Example absolute_domain_removes_directory :
  let '(r, w) := @remove_cert no_certbot "/srv/data" start in
  r = Ok tt /\ disk w !! ["data"; "srv"]%string = None /\ disk w !! ["f"; "data"; "srv"]%string = None.
Proof. by vm_compute. Qed.
End SslDemo.

Lemma remove_only_domain_witness :
  disk (@remove_by_hand "a.example.com" SslDemo.start).2 !! place_of "live" "b.example.com" = Some Files.Dir.
Proof.
  pose proof (@remove_only_domain "a.example.com" SslDemo.start _ _ SslDemo.a_plain (surjective_pairing _)) as (E & _).
  rewrite E; [by vm_compute|..]; intros [l Hl]; destruct l as [|x [|y l]]; try discriminate Hl;
    apply (f_equal length) in Hl; rewrite !length_app in Hl; cbn in Hl; lia.
Defined.

Lemma apply_runs_certbot_witness :
  let w' := (@apply_cert SslDemo.works "a.example.com" "me@example.com" None true SslDemo.start).2 in
  length (commands w') = 2%nat /\ printed w' = issued_lines "a.example.com".
Proof.
  pose proof (@apply_runs_certbot SslDemo.works "a.example.com" "me@example.com" None true SslDemo.start _ _
    (surjective_pairing _)) as [(_ & Hr & _)|(E & f & _ & _ & Hp)].
  - exfalso. apply Hr. by vm_compute.
  - cbv zeta. rewrite E, Hp. split; [done|]. by rewrite decide_True.
Defined.

Lemma remove_runs_certbot_witness :
  commands (@remove_cert SslDemo.works "a.example.com" SslDemo.start).2 =
    [["--version"%string]; delete_args "a.example.com"].
Proof.
  pose proof (@remove_runs_certbot SslDemo.works "a.example.com" SslDemo.start _ _ eq_refl (surjective_pairing _)) as H.
  replace (Files.exists_at _ _) with true in H by (by vm_compute). by destruct H as (-> & _).
Defined.

Lemma summary_tells_expiry_witness :
  exists days, @format_cert_summary SslDemo.plain_x509 0 172799 =
    "expires " +:+ @time_text SslDemo.plain_x509 172799 +:+ "  (" +:+ to_string days +:+ " days remaining)" /\ days = 1.
Proof.
  destruct (@summary_tells_expiry SslDemo.plain_x509 0 172799) as [_ H].
  destruct (H ltac:(lia)) as (days & E & _ & Hd). exists days. split; [exact E|lia].
Defined.

Lemma report_lists_certificates_witness :
  exists names, "a.example.com"%string ∈ names /\
    @collect_cert_summaries SslDemo.plain_x509 200 (under "live") SslDemo.tree =
      Ok (@cert_entry SslDemo.plain_x509 200 (under "live") SslDemo.tree <$> names).
Proof.
  destruct (@report_lists_certificates SslDemo.plain_x509 200 (under "live") SslDemo.tree ("live"%string :: SslDemo.base)
    ltac:(by vm_compute) ltac:(by vm_compute)) as (names & E & _ & Hn).
  exists names. split; [|exact E]. apply (proj2 (Hn _)). split; vm_compute; reflexivity.
Defined.
