(* ===== verification/Startup.v ===== *)
(** * Starting a node

    Models what [crates/tollgate-net/src/config.rs] does with files, [Config::load]
    and [Identity::load_or_generate], and the steps of [main.rs] between the command
    line and the running node: the wallet's seeds and mints, the settings of the tasks,
    the older protocol's clients, and the lines the one-shot commands print. Parsing
    the command line is [clap]'s. *)

From Stdlib Require Import Strings.Byte.
From S2P Require Import Prelude Decimal V1Recovery F64 Wire ToyCodec Product Pricing Session Wallet Consume NetDriver.
From S2P Require Import Config Status Json Decimal Shell Text V1Nostr V1Merchant V1Client V1Gateways V1Crowsnest.
From S2P Require Import V1Server.

(** ** Files *)

(** A file's contents and permission bits, and the files that can be read. *)
Module File.
Record t : Set := mk { content : string; mode : Z }.
End File.
Module Disk.
Record t : Type := mk { files : gmap PathBuf File.t; readable : PathBuf -> bool }.
Definition exists_at (p : PathBuf) (d : t) : bool := is_some (files d !! p).
(** [std::fs::read_to_string]. *)
Definition read_to_string (p : PathBuf) (d : t) : option string :=
  f ← files d !! p; if readable d p then from_utf8 (as_bytes (File.content f)) else None.
Definition put (p : PathBuf) (f : File.t) (d : t) : t := mk (<[p := f]> (files d)) (readable d).
End Disk.

(** [dir.join(rest)] for a relative [rest]. *)
Definition join (dir rest : PathBuf) : PathBuf :=
  match rev (chars dir) with
  | [] => rest
  | c :: _ => if decide (c = slash) then dir +:+ rest else dir +:+ "/" +:+ rest
  end.

(** ** The configuration *)

(** [serde_yaml::from_str::<Config>]. *)
Class SerdeYaml : Type := config_of_yaml : string -> option Config.t.

Inductive LoadError : Set := ReadingConfig (path : PathBuf) | ParsingConfig (path : PathBuf).

Definition candidates (config_dir : option PathBuf) : list PathBuf :=
  ["tollgate.yaml"%string] ++
  match config_dir with Some dir => [join dir "tollgate/tollgate.yaml"] | None => [] end ++
  ["/etc/tollgate/tollgate.yaml"%string].
Definition search_paths (config_dir : option PathBuf) (d : Disk.t) : option PathBuf :=
  find (fun p => Disk.exists_at p d) (candidates config_dir).

Definition load `{SerdeYaml} (explicit config_dir : option PathBuf) (d : Disk.t)
    : result Config.t LoadError :=
  match opt_or explicit (search_paths config_dir d) with
  | Some p =>
      match Disk.read_to_string p d with
      | None => Err (ReadingConfig p)
      | Some text => ok_or (config_of_yaml text) (ParsingConfig p)
      end
  | None => Ok Config.default
  end.

(** ** The identity *)

Module Identity.
Record t : Set := mk { public_key : PublicKey.t; secret_key : bytes }.
Definition pubkey_hex `{HexCodec} (i : t) : string := hex_encode (PublicKey.as_bytes (public_key i)).

Inductive KeyError : Set := ReadingKey | DecodingKey | InvalidKey | WritingKey.

(** What the file system makes of a new key file: it is written; the directory or the
    file cannot be made; the write stops after some of the characters. *)
Inductive Io : Set := Written | NotCreated | CutAfter (n : nat).

(** Mode 0600. *)
Definition KEY_MODE : Z := 384.
Definition write_key_file (path : PathBuf) (hex_key : string) (io : Io) (d : Disk.t)
    : Disk.t * result unit KeyError :=
  let text := hex_key +:+ newline_string in
  match io with
  | NotCreated => (d, Err WritingKey)
  | CutAfter n => (Disk.put path (File.mk (of_chars (take n (chars text))) KEY_MODE) d, Err WritingKey)
  | Written => (Disk.put path (File.mk text KEY_MODE) d, Ok tt)
  end.

Section identity.
Context `{Secp256k1, HexCodec}.

Definition of_secret (secret : bytes) : result t KeyError :=
  match public_key_of secret with Some pk => Ok (mk pk secret) | None => Err InvalidKey end.

(** [fresh] is the secret that [generate_keypair] would draw, a valid one. *)
Definition load_or_generate (cfg : Config.t) (fresh : bytes) (io : Io) (d : Disk.t)
    : Disk.t * result t KeyError :=
  match Config.secret_key_file cfg with
  | Some path =>
      if Disk.exists_at path d then
        (d, match Disk.read_to_string path d with
            | None => Err ReadingKey
            | Some hex_key =>
                match hex_decode (trim hex_key) with
                | None => Err DecodingKey
                | Some secret => of_secret secret
                end
            end)
      else
        let '(d, r) := write_key_file path (hex_encode fresh) io d in
        (d, match r with Ok _ => of_secret fresh | Err e => Err e end)
  | None => (d, of_secret fresh)
  end.
End identity.
End Identity.

(** ** The wallets *)

Definition ZERO_SEED : bytes := replicate 64 Byte.x00.
Definition SPENT_FILE : PathBuf := "/var/lib/tollgate/spent_proofs.txt".

(** [serve]: the seed of the repository of wallets. *)
Definition repository_seed `{HexCodec} (v1 : V1CompatConfig.t) : bytes :=
  match V1CompatConfig.wallet_seed v1 ≫= hex_decode with
  | Some b => if decide (length b = 64%nat) then b else ZERO_SEED
  | None => ZERO_SEED
  end.

Inductive WalletError : Set := SeedNotSet | SeedNotHex | SeedLength (n : nat) | WalletInit (e : string).

(** [build_v1_wallet]: the seed and the mint of the older protocol's wallet. *)
Definition v1_wallet_seed `{HexCodec} (v1 : V1CompatConfig.t) : result bytes WalletError :=
  match V1CompatConfig.wallet_seed v1 with
  | None => Err SeedNotSet
  | Some seed_hex =>
      match hex_decode (trim seed_hex) with
      | None => Err SeedNotHex
      | Some b => if decide (length b = 64%nat) then Ok b else Err (SeedLength (length b))
      end
  end.
Definition v1_wallet_mint (v1 : V1CompatConfig.t) : string :=
  match head (V1CompatConfig.accepted_mints v1) with
  | Some m => if decide (V1AcceptedMint.url m = EmptyString) then LOCAL_MINT else V1AcceptedMint.url m
  | None => LOCAL_MINT
  end.
(** [new mint seed] is [CdkWallet::new]. *)
Definition build_v1_wallet `{HexCodec} {W} (new : string -> bytes -> result W string)
    (v1 : V1CompatConfig.t) : result W WalletError :=
  match v1_wallet_seed v1 with
  | Err e => Err e
  | Ok seed =>
      match new (v1_wallet_mint v1) seed with Ok w => Ok w | Err e => Err (WalletInit e) end
  end.

(** The lower case of a URL that [serve] compares, as [Wallet.to_lowercase] has it. *)
Definition normalize_str (s : string) : string := to_lowercase (trim_end_matches slash s).

Section wallet.
Context `{HexCodec}.
(** [MintUrl::from_str] succeeds; [add_wallet] does; the repository of the wallets
    added, under a seed. *)
Context (mint_url_ok : string -> bool) (add_wallet : string -> bool)
  (repository : bytes -> list string -> WalletRepository).

Definition addable (url : string) : bool := mint_url_ok url && add_wallet url.
(** The accepted mints of the older protocol that are not also a configured one. *)
Definition extra_mints (cfg : Config.t) : list string :=
  filter (fun url => existsb (fun m => bool_decide (normalize_str m = normalize_str url)) (Config.mints cfg) = false)
    (V1AcceptedMint.url <$> V1CompatConfig.accepted_mints (Config.v1_compat cfg)).
Definition added_mints (cfg : Config.t) : list string :=
  filter (fun url => addable url = true) (Config.mints cfg ++ extra_mints cfg).

(** [store] and [build] say whether the database opens and the repository builds;
    [spent] is the file of spent proofs, [read_ok] whether it can be read. *)
Definition serve_wallet (feature store build : bool) (spent : BootstrapWallet.SpentFile) (read_ok : bool)
    (cfg : Config.t) : BootstrapWallet.t :=
  let bootstrap := BootstrapWallet.with_spent_file (Config.mints cfg) (Some spent) read_ok in
  if feature && negb (bool_decide (Config.mints cfg = [])) && store && build then
    let added := added_mints cfg in
    if (0 <? length added)%nat
    then BootstrapWallet.with_wallet_repo (repository (repository_seed (Config.v1_compat cfg)) added) bootstrap
    else bootstrap
  else bootstrap.
End wallet.

(** ** The tasks of a node *)

(** What [serve] starts the driver and its tasks with. *)
Module Plan.
Record t : Type := mk {
  listen : string;
  wallet : BootstrapWallet.t;
  installs_chain : bool;
  price : Price.t;
  unit : string;
  price_sheet : bytes;
  metering_period_secs : Z;
  upstreams : list UpstreamConfig.t;
  reaper_timeout_secs : Z;
  reaper_period_secs : Z;
  control_socket : PathBuf
}.
End Plan.

Definition plan `{Sha256, Minicbor} (cfg : Config.t) (listen : option string) (wallet : BootstrapWallet.t)
    : Plan.t :=
  Plan.mk (unwrap_or listen (Config.listen cfg)) wallet
    (FirewallMode.installs_forward_chain (Config.firewall cfg)) (Config.startup_price cfg)
    (Config.unit cfg) (PriceSheet.encode (Config.price_sheet cfg)) (Config.metering_period cfg)
    (Config.upstreams cfg) 120 30 (Config.control_socket cfg).

(** ** The commands *)

(** [polls > 0] limits the polls; zero is no limit. *)
Definition consume_opts (amount topup interval polls understate : Z) (meter_iface : option string)
    (meter_upstream : bool) : ConsumeOpts.t :=
  ConsumeOpts.mk amount topup (interval * 1000) (if 0 <? polls then Some polls else None)
    understate meter_iface meter_upstream.

Definition format_price_sheet (sheet : PriceSheet.t) : string :=
  let products := to_string (Z.of_nat (length (PriceSheet.products sheet))) in
  match p ← head (PriceSheet.products sheet); m ← head (ProductEntry.mint_options p); Some (p, m) with
  | Some (p, m) =>
      "PRICESHEET products=" +:+ products
        +:+ " mints=" +:+ to_string (Z.of_nat (length (ProductEntry.mint_options p)))
        +:+ " per_second=" +:+ to_string (MintOption.price_per_second m)
        +:+ " per_unit=" +:+ to_string (MintOption.price_per_unit m)
        +:+ " mint_unit=" +:+ MintOption.mint_unit m
  | None => "PRICESHEET products=" +:+ products +:+ " mints=0"
  end.

Definition sheet_lines (sheet : option PriceSheet.t) : list string :=
  match sheet with Some s => [format_price_sheet s] | None => [] end.

(** What [connect] and [pay] print, and how they end. *)
Definition connect_lines (d : Detected.t) : list string :=
  ("DETECTED peer=" +:+ Detected.pubkey_hex d +:+ " unit=" +:+ Detected.unit d
     +:+ " version=" +:+ to_string (Detected.version d)) :: sheet_lines (Detected.price_sheet d).
Definition pay_lines (p : Paid.t) : list string * result unit string :=
  (("PAID peer=" +:+ Paid.peer_pubkey_hex p +:+ " accepted=" +:+ (if Paid.accepted p then "true" else "false")
      +:+ " reason=" +:+ unwrap_or (Paid.reason p) "-") :: sheet_lines (Paid.price_sheet p),
   if Paid.accepted p then Ok tt else Err ("bootstrap rejected: " +:+ unwrap_or (Paid.reason p) "unknown")).

(** The older protocol's clients. *)
Definition gateway_url (gateway : string) : string :=
  if starts_with "http" gateway then gateway else "http://" +:+ gateway.
Definition cli_client (gateway_ip mint : string) (amount : Z) : V1ClientConfig.t :=
  V1ClientConfig.mk gateway_ip [mint] "sat" (f64_of_Z 0) (f64_of_Z 0) (wrap_u64 (amount * 60000))
    (f64_ratio 1 5).
Definition v1_consume_config (gateway mint : string) (amount : Z) : V1ClientConfig.t :=
  cli_client (gateway_url gateway) mint amount.
Definition v1_auto_config (mint : string) (amount : Z) : V1ClientConfig.t :=
  cli_client EmptyString mint amount.
Definition v1_auto_gateways (scan_interfaces : option (list string)) : list string :=
  unwrap_or scan_interfaces ["192.168.1.1"%string].

(** ** Lemmas *)

(** [hex::encode] writes the digits and the letters from a to f. *)
Definition hex_char (c : Ascii.ascii) : bool :=
  ((48 <=? code c) && (code c <=? 57)) || ((97 <=? code c) && (code c <=? 102)).
Class HexText `{HexCodec} : Prop :=
  hex_text b : Forall (fun c => hex_char c = true) (chars (hex_encode b)).

Lemma byte_val_ascii c : byte_val (Ascii.byte_of_ascii c) = code c.
Proof. by destruct c as [[] [] [] [] [] [] [] []]. Qed.

Lemma as_bytes_codes s : byte_val <$> as_bytes s = code <$> chars s.
Proof.
  induction s as [|c s IH]; [done|]. change (as_bytes (String c s)) with (Ascii.byte_of_ascii c :: as_bytes s).
  change (chars (String c s)) with (c :: chars s). rewrite !fmap_cons, IH. f_equal. apply byte_val_ascii.
Qed.

Lemma utf8_ascii l : Forall (fun z => z < 128) l -> utf8_ok l = true.
Proof.
  induction 1 as [|z l Hz _ IH]; [done|]. cbn [utf8_ok]. by rewrite (proj2 (Z.ltb_lt _ _) Hz).
Qed.

Lemma from_utf8_ascii s : Forall (fun c => code c < 128) (chars s) -> from_utf8 (as_bytes s) = Some s.
Proof.
  intros Hs. unfold from_utf8. change (map byte_val (as_bytes s)) with (byte_val <$> as_bytes s).
  rewrite as_bytes_codes, utf8_ascii by by apply Forall_fmap.
  f_equal. apply String.string_of_list_byte_of_string.
Qed.

Lemma hex_char_ascii c : hex_char c = true -> code c < 128.
Proof. unfold hex_char. intros Hc. lia. Qed.

Lemma hex_char_solid c :
  hex_char c = true -> starts_none white_space c = true /\ starts_none ((@rev Z) <$> white_space) c = true.
Proof.
  intros Hc. assert (forallb (fun n => implb (hex_char (Ascii.ascii_of_N (N.of_nat n)))
    (starts_none white_space (Ascii.ascii_of_N (N.of_nat n)) &&
     starts_none ((@rev Z) <$> white_space) (Ascii.ascii_of_N (N.of_nat n)))) (seq 0 256) = true) as Ha
    by by vm_compute.
  rewrite forallb_forall in Ha. specialize (Ha (N.to_nat (Ascii.N_of_ascii c))).
  rewrite N2Nat.id, Ascii.ascii_N_embedding, Hc in Ha. apply andb_true_iff, Ha, in_seq.
  pose proof (Ascii.N_ascii_bounded c). lia.
Qed.

Section hex.
Context `{HexText}.

Lemma hex_line_trimmed b : trim (hex_encode b +:+ newline_string) = hex_encode b.
Proof.
  pose proof (hex_text b) as Ht. destruct (decide (chars (hex_encode b) = [])) as [E|Hne].
  - rewrite <- (of_chars_chars (hex_encode b)), E. reflexivity.
  - apply trim_solid_newline. unfold solid, solid_list. apply andb_true_iff. split.
    + destruct (chars (hex_encode b)) as [|c l]; [done|]. apply Forall_cons in Ht as [Hc _].
      by apply hex_char_solid.
    + apply Forall_rev in Ht. destruct (rev (chars (hex_encode b))) as [|c l] eqn:E.
      * apply (f_equal (@rev _)) in E. rewrite rev_involutive in E. done.
      * apply Forall_cons in Ht as [Hc _]. by apply hex_char_solid.
Qed.

Lemma hex_line_utf8 b :
  from_utf8 (as_bytes (hex_encode b +:+ newline_string)) = Some (hex_encode b +:+ newline_string).
Proof.
  apply from_utf8_ascii. rewrite chars_app. apply Forall_app. split; [|by repeat constructor].
  eapply Forall_impl; [apply hex_text|]. intros c. apply hex_char_ascii.
Qed.
End hex.

Lemma exists_put p f d : Disk.exists_at p (Disk.put p f d) = true.
Proof. unfold Disk.exists_at, Disk.put. cbn. by rewrite lookup_insert_eq. Qed.

Lemma read_put p text mode d :
  Disk.readable d p = true ->
  Disk.read_to_string p (Disk.put p (File.mk text mode) d) = from_utf8 (as_bytes text).
Proof. intros Hr. unfold Disk.read_to_string, Disk.put. cbn [Disk.files Disk.readable]. rewrite lookup_insert_eq. cbn [mbind option_bind]. by rewrite Hr. Qed.

Lemma find_some_split {A} (f : A -> bool) l x :
  find f l = Some x ->
  exists before after, l = before ++ x :: after /\ Forall (fun y => f y = false) before /\ f x = true.
Proof.
  induction l as [|y l IH]; [done|]. cbn. destruct (f y) eqn:E.
  - intros [= ->]. by exists [], l.
  - intros (before & after & -> & Hb & Hx)%IH. exists (y :: before), after. by split_and!; [|constructor|].
Qed.

(** ** A disk and its keys *)

Module StartupDemo.
#[export] Instance hex : HexCodec := {|
  hex_encode := V1Recovery.hex_encode;
  hex_decode s := V1Recovery.hex_read (chars s)
|}.
#[export] Instance hex_laws : @HexLaws hex.
Proof. split. intros b. cbn. unfold V1Recovery.hex_encode. rewrite chars_of_chars. apply V1Recovery.hex_read_encode. Qed.

Lemma hex_digit_char n : 0 <= n < 16 -> hex_char (V1Recovery.hex_digit n) = true.
Proof.
  intros Hn. assert (Forall (fun k => hex_char (V1Recovery.hex_digit (Z.of_nat k)) = true) (seq 0 16)) as Hd
    by repeat constructor.
  rewrite Forall_forall in Hd. specialize (Hd (Z.to_nat n)). rewrite Z2Nat.id in Hd by lia.
  apply Hd, elem_of_seq. lia.
Qed.
#[export] Instance hex_plain : @HexText hex.
Proof.
  intros b. cbn. unfold V1Recovery.hex_encode. rewrite chars_of_chars.
  induction b as [|x b IH]; [constructor|]. cbn [fmap list_fmap concat]. apply Forall_app. split; [|exact IH].
  pose proof (byte_val_range x) as Hx. pose proof (Z.mod_pos_bound (byte_val x) 16 ltac:(lia)) as Hm.
  assert (0 <= byte_val x / 16 < 16) as Hd by (split; [apply Z.div_pos|apply Z.div_lt_upper_bound]; ints).
  repeat constructor; by apply hex_digit_char.
Qed.
#[export] Instance secp : Secp256k1 := fun b => Some (PublicKey.from_bytes (byte_of_Z 2 :: b)).

Definition key_path : PathBuf := "/etc/tollgate/key.hex".
Definition cfg : Config.t :=
  Config.mk (Some key_path) "127.0.0.1:4747" [] [] FirewallMode.default "bytes" "/tmp/tollgate.sock" 5 []
    V1CompatConfig.default DynamicPricingConfig.default ∅.
Definition disk : Disk.t := Disk.mk ∅ (fun _ => true).
Definition draw (n : Z) : bytes := replicate 32 (byte_of_Z n).
Definition start (fresh : bytes) (io : Identity.Io) (d : Disk.t) : Disk.t * result Identity.t Identity.KeyError :=
  Identity.load_or_generate cfg fresh io d.
End StartupDemo.

(** ** Properties *)

(** C24: the identity a node makes for itself is the one it keeps. With a key file
    configured and none there yet, the first start that can write it makes a key, puts
    it in that file alone, for the owner only, and every later start, whatever it would
    draw and whatever becomes of its writes, reads that same identity and changes
    nothing. *)
Theorem identity_persists `{Secp256k1, HexLaws, !HexText} cfg path fresh io d d' id :
  Config.secret_key_file cfg = Some path -> Disk.exists_at path d = false -> Disk.readable d path = true ->
  Identity.load_or_generate cfg fresh io d = (d', Ok id) ->
  Disk.files d' = <[path := File.mk (hex_encode fresh +:+ newline_string) Identity.KEY_MODE]> (Disk.files d) /\
  Identity.secret_key id = fresh /\
  forall fresh' io', Identity.load_or_generate cfg fresh' io' d' = (d', Ok id).
Proof.
  intros Hp He Hr. unfold Identity.load_or_generate. rewrite Hp, He.
  destruct io; cbn [Identity.write_key_file]; try (intros [=]; done).
  unfold Identity.of_secret. destruct (public_key_of fresh) as [pk|] eqn:Hk; [|intros [=]].
  intros [= <- <-]. split; [done|]. split; [done|]. intros fresh' io'.
  rewrite exists_put, read_put, hex_line_utf8, hex_line_trimmed, hex_roundtrip by done.
  by rewrite Hk.
Qed.

Lemma identity_persists_witness :
  let '(d', r) := StartupDemo.start (StartupDemo.draw 7) Identity.Written StartupDemo.disk in
  (forall fresh' io', StartupDemo.start fresh' io' d' = (d', r)) /\ is_ok r = true.
Proof.
  destruct (StartupDemo.start (StartupDemo.draw 7) Identity.Written StartupDemo.disk) as [d' r] eqn:E.
  assert (r = Ok (Identity.mk (PublicKey.from_bytes (byte_of_Z 2 :: StartupDemo.draw 7)) (StartupDemo.draw 7)))
    as Hr by (change r with (d', r).2; rewrite <- E; by vm_compute).
  subst r. split; [|done].
  exact (proj2 (proj2 (@identity_persists StartupDemo.secp StartupDemo.hex StartupDemo.hex_laws
    StartupDemo.hex_plain StartupDemo.cfg StartupDemo.key_path (StartupDemo.draw 7) Identity.Written
    StartupDemo.disk d' _ eq_refl eq_refl eq_refl E))).
Defined.

(** Where the configuration comes from without a path given: the first of the standard
    files that exists is the one that counts, unreadable or malformed as it may be, and
    the default is used only when none of them exists. *)
Theorem load_first_existing `{SerdeYaml} config_dir d :
  (load None config_dir d = Ok Config.default /\
   Forall (fun q => Disk.exists_at q d = false) (candidates config_dir)) \/
  exists p before after, candidates config_dir = before ++ p :: after /\
    Forall (fun q => Disk.exists_at q d = false) before /\ Disk.exists_at p d = true /\
    load None config_dir d = load (Some p) config_dir d.
Proof.
  unfold load. cbn [opt_or]. unfold search_paths.
  destruct (find (fun p => Disk.exists_at p d) (candidates config_dir)) as [p|] eqn:E.
  - right. apply find_some_split in E as (before & after & Hc & Hb & Hp). by exists p, before, after.
  - left. split; [done|]. apply Forall_forall. intros q Hq.
    by apply (find_none _ _ E), list_elem_of_In.
Qed.

(** The repository is the wallets of the mints that could be added, in order: the
    configured ones, then those the older protocol accepts that are not configured
    already; without any, or with the database out of reach, tokens are still checked
    with their mints, and the spent proofs of earlier runs are known either way, if their
    file can be read. *)
Theorem serve_wallet_shape `{HexCodec} mint_ok add repository feature store build spent read_ok cfg :
  let w := serve_wallet mint_ok add repository feature store build spent read_ok cfg in
  BootstrapWallet.accepted_mints w = list_to_set (Config.mints cfg) /\
  BootstrapWallet.spent_yvalues w = BootstrapWallet.load_spent_file
    (if read_ok then Some (BootstrapWallet.contents spent) else None) /\
  BootstrapWallet.wallet_repo w =
    (if feature && store && build && negb (bool_decide (Config.mints cfg = [])) &&
        negb (bool_decide (added_mints mint_ok add cfg = []))
     then Some (repository (repository_seed (Config.v1_compat cfg)) (added_mints mint_ok add cfg))
     else None).
Proof.
  cbv zeta. unfold serve_wallet. set (added := added_mints mint_ok add cfg).
  destruct feature, store, build, (bool_decide (Config.mints cfg = [])); try done.
  cbn [andb negb]. case_bool_decide as Ea; [by rewrite Ea|].
  destruct added as [|m l]; [done|]. done.
Qed.

(** ** Departures *)

(** A seed that is not set, or that is not the hexadecimal form of 64 bytes, is silently
    the seed of 64 zeros for the repository of wallets that receives the tokens: anyone
    can derive the secrets of what the node holds. *)
Theorem seed_falls_back_to_zero `{HexCodec} v1 :
  (forall s b, V1CompatConfig.wallet_seed v1 = Some s -> hex_decode s = Some b -> length b <> 64%nat) ->
  repository_seed v1 = ZERO_SEED.
Proof.
  intros Hs. unfold repository_seed. destruct (V1CompatConfig.wallet_seed v1) as [s|]; [|done].
  cbn [mbind option_bind]. destruct (hex_decode s) as [b|] eqn:E; [|done].
  rewrite decide_False; [done|]. by eapply Hs.
Qed.

(** The older protocol's wallet trims the seed and refuses a bad one; the repository
    does neither. With a blank around it, one node runs on two seeds. *)
Theorem padded_seed_splits_wallets `{HexCodec} v1 s b :
  V1CompatConfig.wallet_seed v1 = Some s -> hex_decode s = None ->
  hex_decode (trim s) = Some b -> length b = 64%nat ->
  repository_seed v1 = ZERO_SEED /\ v1_wallet_seed v1 = Ok b.
Proof.
  intros Hs Hn Ht Hb. unfold repository_seed, v1_wallet_seed. rewrite Hs. cbn [mbind option_bind].
  rewrite Hn, Ht. by rewrite decide_True.
Qed.

Lemma padded_seed_splits_wallets_witness :
  let b := replicate 64 (byte_of_Z 171) in
  let v1 := V1CompatConfig.mk "" 0 [] None false (Some (" " +:+ V1Recovery.hex_encode b)) in
  @repository_seed StartupDemo.hex v1 = ZERO_SEED /\ @v1_wallet_seed StartupDemo.hex v1 = Ok b.
Proof.
  cbv zeta. eapply (@padded_seed_splits_wallets StartupDemo.hex); [reflexivity|by vm_compute..|done].
Defined.

(** The one-shot buyers of the older protocol set both price limits to zero, which
    [validate_budget] takes at its word: they refuse any price. *)
Theorem cli_buyers_refuse_prices gateway mint amount pricing step_size metric :
  metric = "milliseconds"%string \/ metric = "bytes"%string ->
  0 < PricingOption.price_per_step pricing <= U64_MAX -> 0 < step_size <= U64_MAX ->
  let c := v1_consume_config gateway mint amount in
  exists unit_name, validate_budget pricing step_size metric (V1ClientConfig.max_price_per_ms c)
      (V1ClientConfig.max_price_per_byte c) =
    Err (PriceTooHigh (f64_ratio (PricingOption.price_per_step pricing) step_size) unit_name (f64_of_Z 0)).
Proof.
  intros Hm Hp Hs. cbv zeta. cbn [v1_consume_config cli_client V1ClientConfig.max_price_per_ms
    V1ClientConfig.max_price_per_byte]. unfold validate_budget.
  pose proof (f64_ratio_gt_zero _ _ Hp Hs) as Hgt.
  destruct Hm as [-> | ->].
  - rewrite decide_True by done. rewrite Hgt. by eexists.
  - rewrite decide_False, decide_True by done. rewrite Hgt. by eexists.
Qed.
