(* ===== verification/Spilman.v ===== *)
(** * Spilman channels

    Models [crates/tollgate-net/src/spilman] and the command of [main.rs] that uses it:
    the choice of the mint's keyset, the minting of a channel's funding proofs, the
    calls of the channel's networking, and the payment loop. The channel itself is the
    [cdk-spilman] crate's; what a mint answers is an argument. *)

From S2P Require Import Prelude Decimal F64 Wallet Json Shell Text Serde.

(** ** Requests and answers *)

Inductive Request : Set :=
| Get (url : string)
| Post (url body : string).

(** What becomes of a request: it cannot be sent; its answer has a status, and a body
    that can be read, or not. *)
Inductive Answer : Set :=
| NotSent (e : string)
| Answered (status : Z) (body : result string string).

(** [value[key]]: [Null] where there is none. *)
Definition index (v : Value) (key : string) : Value := unwrap_or (get v key) VNull.

(** The requests made so far, and the outcome. *)
Definition traced (A : Type) : Type := list Request * result A string.
Definition stop {A} (e : string) : traced A := ([], Err e).
Definition done_ {A} (a : A) : traced A := ([], Ok a).
Definition lift {A B} (r : result A string) (k : A -> traced B) : traced B :=
  match r with Ok a => k a | Err e => stop e end.
Definition bind_traced {A B} (x : traced A) (k : A -> traced B) : traced B :=
  match x.2 with
  | Ok a => let y := k a in (x.1 ++ y.1, y.2)
  | Err e => (x.1, Err e)
  end.

Section spilman.
Context `{SerdeJson, JsonText}.
(** [serde_json]'s complaint, and the crate's reading of a keyset. *)
Context (json_error : string -> string) {KeysetInfo : Type}.
Context (parse_keyset_info_from_json : string -> result KeysetInfo string)
  (construct_proofs : string -> string -> string -> result string string).

(** ** [spilman/wallet.rs] *)

(** Send, read the body whatever the status, parse it. *)
Definition fetch_json (request : Request) (answer : Answer) (sending reading parsing : string)
    : traced Value :=
  ([request],
   match answer with
   | NotSent e => Err (sending +:+ ": " +:+ e)
   | Answered _ (Err e) => Err (reading +:+ ": " +:+ e)
   | Answered _ (Ok text) =>
       ok_or (json_from_str text) (parsing +:+ ": " +:+ json_error text)
   end).

Definition is_active_sat (ks : Value) : bool :=
  bool_decide (as_str (index ks "unit") = Some "sat"%string) &&
  match index ks "active" with VBool b => b | _ => false end.

Definition input_fee_ppk (ks : Value) : Z :=
  unwrap_or (opt_or (value_as_u64 (index ks "input_fee_ppk")) (value_as_u64 (index ks "inputFeePpk"))) 0.

Definition active_keyset (body : Value) : result (string * Z) string :=
  match as_array (index body "keysets") with
  | None => Err "missing keysets array"%string
  | Some keysets =>
      match find is_active_sat keysets with
      | None => Err "no active sat keyset"%string
      | Some ks =>
          match as_str (index ks "id") with
          | None => Err "missing keyset id"%string
          | Some id => Ok (id, input_fee_ppk ks)
          end
      end
  end.

Definition keyset_json (keyset_id : string) (keys : Value) (fee : Z) : string :=
  json_to_string (to_value (VObject
    [("keysetId", VString keyset_id); ("unit", VString "sat"); ("keys", keys);
     ("inputFeePpk", VInt fee)]%string)).

Definition keyset_data (keys_body : Value) : result Value string :=
  ok_or (as_array (index keys_body "keysets") ≫= head) "missing keyset in keys response"%string.

(** [answer] is the mint's, to each request. *)
Definition fetch_active_keyset_info (mint_url : string) (answer : Request -> Answer)
    : traced (string * KeysetInfo) :=
  let keysets := Get (mint_url +:+ "/v1/keysets") in
  bind_traced (fetch_json keysets (answer keysets) "GET /v1/keysets" "read keysets body" "parse keysets")
  (fun body => lift (active_keyset body) (fun k =>
    let keys := Get (mint_url +:+ "/v1/keys/" +:+ k.1) in
    bind_traced (fetch_json keys (answer keys) "GET /v1/keys" "read keys body" "parse keys")
    (fun keys_body => lift (keyset_data keys_body) (fun data =>
      let text := keyset_json k.1 (index data "keys") k.2 in
      lift (parse_keyset_info_from_json text) (fun info => done_ (text, info)))))).

Definition POLLS : nat := 120.

Definition is_paid (status : Value) : bool := bool_decide (as_str (index status "state") = Some "PAID"%string).

(** The loop from its poll [i] on, with [remaining] polls remaining; [answer i] is what the mint
    answers then. *)
Fixpoint poll_quote (poll : Request) (quote_id : string) (answer : nat -> Answer) (remaining i : nat)
    : traced unit :=
  match remaining with
  | O => done_ tt
  | S remaining =>
      bind_traced (fetch_json poll (answer i) "poll quote" "read poll body" "parse poll")
      (fun status =>
        if is_paid status then done_ tt
        else if (i =? POLLS - 1)%nat
             then stop ("quote " +:+ quote_id +:+ " not paid after 60s")
             else poll_quote poll quote_id answer remaining (S i))
  end.

(** [answer] is the mint's to the two posts, [polls] to the polls. *)
Definition mint_proofs_from_funding_outputs (mint_url funding_outputs_json keyset_info_json : string)
    (answer : Request -> Answer) (polls : nat -> Answer) : traced string :=
  lift (ok_or (json_from_str funding_outputs_json)
    ("parse funding outputs: " +:+ json_error funding_outputs_json)) (fun outputs =>
  lift (ok_or (value_as_u64 (index outputs "funding_token_nominal")) "missing funding_token_nominal"%string)
  (fun funding_nominal =>
  let secrets := json_to_string (to_value (index outputs "secrets_with_blinding")) in
  let ask := Post (mint_url +:+ "/v1/mint/quote/bolt11")
    (json_to_string (to_value (VObject [("amount", VInt funding_nominal); ("unit", VString "sat")]%string))) in
  bind_traced (fetch_json ask (answer ask) "POST /v1/mint/quote/bolt11" "read quote body" "parse quote")
  (fun quote => lift (ok_or (as_str (index quote "quote")) "missing quote id"%string) (fun quote_id =>
  bind_traced (poll_quote (Get (mint_url +:+ "/v1/mint/quote/bolt11/" +:+ quote_id)) quote_id polls POLLS 0)
  (fun _ =>
  let mint := Post (mint_url +:+ "/v1/mint/bolt11")
    (json_to_string (to_value (VObject
      [("quote", VString quote_id); ("outputs", index outputs "blinded_messages")]%string))) in
  bind_traced (fetch_json mint (answer mint) "POST /v1/mint/bolt11" "read mint body" "parse mint")
  (fun minted =>
  lift (ok_or (as_array (index minted "signatures")) "missing signatures in mint response"%string)
  (fun signatures =>
  lift (construct_proofs (json_to_string (VArray (map to_value signatures))) secrets keyset_info_json)
    done_))))))).
End spilman.

(** ** [spilman/service.rs] *)

Section service.
(** [StatusCode]'s text. *)
Context (status_text : Z -> string).

Definition is_success (status : Z) : bool := (200 <=? status) && (status <? 300).

Definition call (what : string) (answer : Answer) : result string string :=
  match answer with
  | NotSent e => Err (what +:+ " request failed: " +:+ e)
  | Answered status body =>
      if is_success status then
        match body with
        | Ok text => Ok text
        | Err e => Err ("failed to read " +:+ what +:+ " response: " +:+ e)
        end
      else Err (what +:+ " failed: " +:+ status_text status +:+ " - " +:+
             match body with Ok text => text | Err _ => EmptyString end)
  end.

Definition call_mint_swap (mint_url swap_request_json : string) (answer : Request -> Answer)
    : result string string :=
  call "swap" (answer (Post (mint_url +:+ "/v1/swap") swap_request_json)).
Definition call_mint_keysets (mint_url : string) (answer : Request -> Answer) : result string string :=
  call "keysets" (answer (Get (mint_url +:+ "/v1/keysets"))).
Definition call_mint_keys (mint_url keyset_id : string) (answer : Request -> Answer) : result string string :=
  call "keys" (answer (Get (mint_url +:+ "/v1/keys/" +:+ keyset_id))).
Definition call_mint_restore (mint_url restore_request_json : string) (answer : Request -> Answer)
    : result string string :=
  call "restore" (answer (Post (mint_url +:+ "/v1/restore") restore_request_json)).
End service.

(** The end of a channel opened at [now] for [expiry_secs]. *)
Definition expiry_timestamp (now expiry_secs : Z) : Z := sat_add_u64 now expiry_secs.

(** The calls a bridge makes to a mint. *)
Record Networking : Type := mk_networking {
  mint_swap : string -> string -> result string string;
  mint_keysets : string -> result string string;
  mint_keys : string -> string -> result string string;
  mint_restore : string -> string -> result string string
}.
Definition ReqwestNetworking (status_text : Z -> string) (answer : Request -> Answer) : Networking :=
  mk_networking (fun url body => call_mint_swap status_text url body answer)
    (fun url => call_mint_keysets status_text url answer)
    (fun url id => call_mint_keys status_text url id answer)
    (fun url body => call_mint_restore status_text url body answer).
Definition DummySyncNetworking : Networking :=
  let refuse := Err "sync networking not supported"%string in
  mk_networking (fun _ _ => refuse) (fun _ => refuse) (fun _ _ => refuse) (fun _ _ => refuse).

(** What the [cdk-spilman] crate provides: a host with its storage in memory and the
    keys added to it, and the bridge over a host, whose storage its calls change. *)
Class SpilmanClientBridge : Type := {
  SecretKey : Type;
  public_key_hex : SecretKey -> string;
  Host : Type;
  memory_host : Host;
  add_key : SecretKey -> Host -> Host;
  Bridge : Type;
  new_bridge : Host -> Networking -> Bridge;
  ChannelInfo : Type;
  (** The channel's id. *)
  open_channel_from_token : forall (token receiver sender : string) (expiry : Z) (keyset_info_json : string)
    (max_amount_per_output : Z), Networking -> Bridge -> Bridge * result string string;
  (** Payments, with their balances. *)
  bridge_create_payment : string -> Z -> Bridge -> Bridge * result Z string;
  bridge_create_payment_with_funding : string -> Z -> Bridge -> Bridge * result Z string;
  create_cooperative_close_request : string -> Z -> Bridge -> Bridge * result Z string;
  process_cooperative_close_response : string -> Bridge -> Bridge * result unit string;
  bridge_channel_info : string -> Bridge -> option ChannelInfo
}.

Module SpilmanService.
Section bridge.
Context `{SpilmanClientBridge}.

Record t : Type := mk { client_bridge : Bridge; mint_url : string; sender_pubkey : string }.
Definition set_bridge (b : Bridge) (s : t) : t := mk b (mint_url s) (sender_pubkey s).

Definition new (mint_url : string) (sender_secret : SecretKey) : t :=
  mk (new_bridge (add_key sender_secret memory_host) DummySyncNetworking) mint_url (public_key_hex sender_secret).

Definition through {A} (f : Bridge -> Bridge * A) (s : t) : t * A :=
  let '(b, a) := f (client_bridge s) in (set_bridge b s, a).

Definition open_channel (now : Z) (token_str receiver_pubkey_hex : string) (expiry_secs : Z)
    (keyset_info_json : string) (max_amount_per_output : Z) (net : Networking) (s : t)
    : t * result string string :=
  through (open_channel_from_token token_str receiver_pubkey_hex (sender_pubkey s)
    (expiry_timestamp now expiry_secs) keyset_info_json max_amount_per_output net) s.

Definition create_payment (channel_id : string) (balance : Z) : t -> t * result Z string :=
  through (bridge_create_payment channel_id balance).
Definition create_payment_with_funding (channel_id : string) (balance : Z) : t -> t * result Z string :=
  through (bridge_create_payment_with_funding channel_id balance).
Definition request_cooperative_close (channel_id : string) (final_balance : Z) : t -> t * result Z string :=
  through (create_cooperative_close_request channel_id final_balance).
Definition confirm_cooperative_close (response_json : string) : t -> t * result unit string :=
  through (process_cooperative_close_response response_json).
Definition get_channel_info (channel_id : string) (s : t) : option ChannelInfo :=
  bridge_channel_info channel_id (client_bridge s).
End bridge.
End SpilmanService.

(** ** The payment loop of the command [v1-consume --spilman] *)

(** What the loop does: payments created, each for a balance, and the request to close. *)
Inductive PaymentEvent : Set :=
| Created (balance : Z)
| Refused (balance : Z)
| CloseRequested (final_balance : Z).

Section loop.
Context `{SpilmanClientBridge}.

Fixpoint payment_loop (fuel : nat) (channel_id : string) (amount balance : Z) (s : SpilmanService.t)
    : option (SpilmanService.t * list PaymentEvent) :=
  match fuel with
  | O => None
  | S fuel =>
      match SpilmanService.create_payment channel_id balance s with
      | (s, Err _) => Some (s, [Refused balance])
      | (s, Ok _) =>
          let next := wrap_u64 (balance + 1) in
          if wrap_u64 (amount * 100) <? next then
            let last := wrap_u64 (next - 1) in
            let '(s, _) := SpilmanService.request_cooperative_close channel_id last s in
            Some (s, [Created balance; CloseRequested last])
          else prod_map id (cons (Created balance)) <$> payment_loop fuel channel_id amount next s
      end
  end.
Definition PAYMENT_FUEL (amount : Z) : nat := S (Z.to_nat (wrap_u64 (amount * 100))).
Definition payments (channel_id : string) (amount : Z) (s : SpilmanService.t)
    : option (SpilmanService.t * list PaymentEvent) :=
  payment_loop (PAYMENT_FUEL amount) channel_id amount 1 s.
End loop.

(** ** Lemmas *)

Section lemmas.
Context `{SerdeJson, JsonText}.
Context (json_error : string -> string).

(** The status a poll brings, when it brings one. *)
Definition poll_status (a : Answer) : option Value :=
  match a with Answered _ (Ok text) => json_from_str text | _ => None end.
Definition paid (a : Answer) : Prop := exists v, poll_status a = Some v /\ is_paid v = true.
Definition unpaid (a : Answer) : Prop := exists v, poll_status a = Some v /\ is_paid v = false.

Lemma fetch_json_status request a s r p :
  (fetch_json json_error request a s r p).1 = [request] /\
  ok (fetch_json json_error request a s r p).2 = poll_status a.
Proof.
  split; [done|]. unfold fetch_json, poll_status. cbn. destruct a as [e|st [text|e]]; [done| |done].
  by destruct (json_from_str text).
Qed.

(** The polls end: with a paid one after unpaid ones, or in an error, the last chance
    unpaid or one without a status. *)
Lemma poll_quote_spec poll quote_id answer remaining i :
  (remaining + i = POLLS)%nat -> (0 < remaining)%nat ->
  let '(rs, r) := poll_quote json_error poll quote_id answer remaining i in
  exists n, rs = replicate n poll /\ (0 < n <= remaining)%nat /\
    (forall j, (j < n - 1)%nat -> unpaid (answer (i + j)%nat)) /\
    (r = Ok tt -> paid (answer (i + (n - 1))%nat)) /\
    ((forall j, (j < POLLS)%nat -> unpaid (answer j)) ->
       n = remaining /\ r = Err ("quote " +:+ quote_id +:+ " not paid after 60s")).
Proof.
  revert i. induction remaining as [|remaining IH]; intros i Hi Hl; [lia|]. cbn [poll_quote]. unfold bind_traced.
  destruct (fetch_json_status poll (answer i) "poll quote" "read poll body" "parse poll") as [E1 E2].
  destruct (fetch_json _ _ _ _ _ _) as [rs r]. cbn [fst snd] in *. subst rs.
  destruct r as [v|e]; cbn [ok] in E2.
  - destruct (is_paid v) eqn:Ep.
    + cbn. exists 1%nat. split; [done|]. split; [lia|]. split; [intros; lia|]. split.
      * intros _. rewrite Nat.add_0_r. by exists v.
      * intros Hu. destruct (Hu i ltac:(lia)) as (w & Ew & Hw). congruence.
    + destruct (Nat.eqb_spec i (POLLS - 1)) as [->|Hn].
      * cbn. exists 1%nat. split; [done|]. split; [lia|]. split; [intros; lia|]. split; [done|].
        intros _. split; [lia|done].
      * assert (0 < remaining)%nat as Hl' by (unfold POLLS in *; lia).
        specialize (IH (S i) ltac:(lia) Hl').
        destruct (poll_quote _ _ _ _ remaining (S i)) as [rs r]. destruct IH as (n & -> & Hn' & Hu & Hp & Hall).
        cbn [fst snd]. exists (S n). split; [done|]. split; [lia|]. split; [|split].
        -- intros [|j] Hj; [rewrite Nat.add_0_r; by exists v|]. rewrite Nat.add_succ_r. apply Hu. lia.
        -- intros Hr. replace (i + (S n - 1))%nat with (S i + (n - 1))%nat by lia. by apply Hp.
        -- intros Ha. destruct (Hall Ha) as [-> ->]. split; [lia|done].
  - cbn. exists 1%nat. split; [done|]. split; [lia|]. split; [intros; lia|]. split; [done|].
    intros Hu. destruct (Hu i ltac:(lia)) as (w & Ew & Hw). congruence.
Qed.
End lemmas.

Section payments.
Context `{SpilmanClientBridge}.

(** A payment of [balance] is one that the bridge makes in some state. *)
Definition payable (channel_id : string) (balance : Z) : Prop :=
  exists b, is_ok (bridge_create_payment channel_id balance b).2 = true.

(** The payments end: each raises the balance by one, up to the cap; they end with a
    refusal, or with a request to close that follows the payment of that balance. *)
Lemma payment_loop_spec fuel channel_id amount balance s :
  let cap := wrap_u64 (amount * 100) in
  0 < balance <= Z.max 1 cap -> cap < U64_MAX -> cap - balance < Z.of_nat fuel -> (0 < fuel)%nat ->
  exists s' n last, payment_loop fuel channel_id amount balance s =
      Some (s', ((fun k => Created (balance + Z.of_nat k)) <$> seq 0 n) ++ [last]) /\
    (forall k, (k < n)%nat -> payable channel_id (balance + Z.of_nat k)) /\
    (last = Refused (balance + Z.of_nat n) \/
     (0 < n)%nat /\ last = CloseRequested (balance + Z.of_nat n - 1) /\ cap <= balance + Z.of_nat n - 1).
Proof.
  cbv zeta. revert balance s. induction fuel as [|fuel IH]; intros balance s Hb Hc Hf Hp; [lia|]. cbn [payment_loop].
  unfold SpilmanService.create_payment, SpilmanService.through.
  destruct (bridge_create_payment channel_id balance (SpilmanService.client_bridge s)) as [b [p|e]] eqn:Ec.
  2: { eexists _, 0%nat, _. split; [reflexivity|]. split; [intros; lia|left; by rewrite Z.add_0_r]. }
  assert (payable channel_id balance) as Hpay by (eexists; by rewrite Ec).
  rewrite (wrap_u64_id (balance + 1)) by ints. replace (balance + 1 - 1) with balance by lia.
  rewrite (wrap_u64_id balance) by ints.
  destruct (Z.ltb_spec (wrap_u64 (amount * 100)) (balance + 1)) as [Hlt|Hge].
  - destruct (SpilmanService.request_cooperative_close _ _ _) as [s' r].
    exists s', 1%nat, (CloseRequested balance). cbn. rewrite Z.add_0_r. split; [done|]. split.
    + intros k Hk. by replace (balance + Z.of_nat k) with balance by lia.
    + right. split; [lia|]. split; [f_equal; lia|lia].
  - destruct (IH (balance + 1) (SpilmanService.set_bridge b s)) as (s' & n & last & -> & Hn & Hl); [lia..|].
    exists s', (S n), last. split; [|split].
    + cbn [fmap option_fmap option_map prod_map fst snd id seq list_fmap]. rewrite Z.add_0_r.
      rewrite <- fmap_S_seq, <- list_fmap_compose. do 3 f_equal. cbn [app]. f_equal. f_equal.
      apply list_fmap_ext. intros i x _. cbn. f_equal. lia.
    + intros [|k] Hk; [by rewrite Z.add_0_r|].
      replace (balance + Z.of_nat (S k)) with (balance + 1 + Z.of_nat k) by lia. apply Hn. lia.
    + destruct Hl as [->|(Hn0 & -> & Hcap)]; [left; f_equal; lia|].
      right. split; [lia|]. split; [f_equal; lia|lia].
Qed.
End payments.

(** The cap is even, so no payment overflows. *)
Lemma cap_below_max amount : wrap_u64 (amount * 100) < U64_MAX.
Proof.
  pose proof (wrap_u64_range (amount * 100)) as [_ Hr].
  destruct (decide (wrap_u64 (amount * 100) = U64_MAX)) as [E|]; [exfalso|lia].
  unfold wrap_u in E. pose proof (Z.div_mod (amount * 100) (2 ^ 64) ltac:(lia)) as Hd.
  rewrite E in Hd. change (2 ^ 64) with (2 * 2 ^ 63) in Hd. change U64_MAX with (2 * (2 ^ 63 - 1) + 1) in Hd. lia.
Qed.

Lemma bind_traced_in {A B} (x : traced A) (k : A -> traced B) q :
  q ∈ (bind_traced x k).1 -> q ∈ x.1 \/ exists a, x.2 = Ok a /\ q ∈ (k a).1.
Proof.
  unfold bind_traced. destruct x as [rs [a|e]]; cbn; [|by left].
  intros [?|?]%elem_of_app; [by left|right; by exists a].
Qed.

Lemma bind_traced_ok {A B} (x : traced A) (k : A -> traced B) b :
  (bind_traced x k).2 = Ok b -> exists a, x.2 = Ok a /\ (k a).2 = Ok b.
Proof. unfold bind_traced. destruct x as [rs [a|e]]; cbn; [by exists a|done]. Qed.

Lemma lift_in {A B} (r : result A string) (k : A -> traced B) q :
  q ∈ (lift r k).1 -> exists a, r = Ok a /\ q ∈ (k a).1.
Proof. destruct r as [a|e]; cbn; [by exists a|by intros ?%elem_of_nil]. Qed.

Lemma lift_ok {A B} (r : result A string) (k : A -> traced B) b :
  (lift r k).2 = Ok b -> exists a, r = Ok a /\ (k a).2 = Ok b.
Proof. destruct r as [a|e]; cbn; [by exists a|done]. Qed.

Lemma post_differs mint_url a b x y :
  a <> b -> Post (mint_url +:+ a) x <> Post (mint_url +:+ b) y.
Proof. intros Hab [= E _]. by apply (inj (String.append mint_url)) in E. Qed.

(** ** A mint, and a channel of eight *)

Module SpilmanDemo.
#[export] Instance json : SerdeJson := {|
  json_from_str s :=
    if decide (s = "outputs"%string) then Some (VObject [("funding_token_nominal", VInt 8)]%string)
    else if decide (s = "quote"%string) then Some (VObject [("quote", VString "q1")]%string)
    else if decide (s = "unpaid"%string) then Some (VObject [("state", VString "UNPAID")]%string)
    else if decide (s = "paid"%string) then Some (VObject [("state", VString "PAID")]%string)
    else if decide (s = "minted"%string) then Some (VObject [("signatures", VArray [])]%string)
    else None;
  json_from_slice _ := None
|}.
Definition mint (q : Request) : Answer :=
  match q with
  | Post url _ => Answered 200 (Ok (if decide (url = "http://m/v1/mint/bolt11"%string) then "minted" else "quote")%string)
  | Get _ => NotSent "unexpected"
  end.
Definition polls (i : nat) : Answer := Answered 200 (Ok (if (i <? 2)%nat then "unpaid" else "paid")%string).
Definition fund : traced string :=
  @mint_proofs_from_funding_outputs json ToyJson.json id (fun sigs _ _ => Ok sigs)
    "http://m" "outputs" "keyset" mint polls.
(** Channels that can pay eight. *)
#[export] Instance bridge : SpilmanClientBridge := {|
  SecretKey := string;
  public_key_hex k := k;
  Host := unit;
  memory_host := ();
  add_key _ h := h;
  Bridge := unit;
  new_bridge _ _ := ();
  ChannelInfo := string;
  open_channel_from_token _ _ _ _ _ _ _ b := (b, Ok "c1"%string);
  bridge_create_payment _ n b := (b, if n <=? 8 then Ok n else Err "insufficient funds"%string);
  bridge_create_payment_with_funding _ n b := (b, if n <=? 8 then Ok n else Err "insufficient funds"%string);
  create_cooperative_close_request _ n b := (b, Ok n);
  process_cooperative_close_response _ b := (b, Ok ());
  bridge_channel_info id _ := Some id
|}.
Definition service : SpilmanService.t := SpilmanService.new "http://m" "02aa"%string.
End SpilmanDemo.

(** ** Properties *)

(** C26: no proofs are asked of the mint before its quote is paid. Whatever the mint answers,
    a request to mint is sent, and proofs are returned, only after a poll that said the
    quote was paid, the polls before it all having said that it was not. *)
Theorem funding_waits_for_payment `{SerdeJson, JsonText} json_error construct mint_url outputs keyset answer polls :
  let '(rs, r) := mint_proofs_from_funding_outputs json_error construct mint_url outputs keyset answer polls in
  (exists body, Post (mint_url +:+ "/v1/mint/bolt11") body ∈ rs) \/ is_ok r = true ->
  exists n, (n < POLLS)%nat /\ paid (polls n) /\ forall j, (j < n)%nat -> unpaid (polls j).
Proof.
  destruct (mint_proofs_from_funding_outputs _ _ _ _ _ _ _) as [rs r] eqn:E.
  unfold mint_proofs_from_funding_outputs in E.
  assert (forall poll quote_id, (poll_quote json_error poll quote_id polls POLLS 0).2 = Ok tt ->
    exists n, (n < POLLS)%nat /\ paid (polls n) /\ forall j, (j < n)%nat -> unpaid (polls j)) as Hpaid.
  { intros poll quote_id Hr.
    pose proof (poll_quote_spec json_error poll quote_id polls POLLS 0 eq_refl ltac:(unfold POLLS; lia)) as Hs.
    destruct (poll_quote _ _ _ _ _ _) as [ps pr]. cbn in Hr. destruct Hs as (n & _ & Hn & Hu & Hp & _).
    exists (n - 1)%nat. split; [lia|]. split; [by apply Hp|]. exact Hu. }
  intros [[body Hin]|Hok].
  - change rs with (rs, r).1 in Hin. rewrite <- E in Hin.
    apply lift_in in Hin as (v & _ & Hin). apply lift_in in Hin as (a & _ & Hin).
    apply bind_traced_in in Hin as [Hin|(q & _ & Hin)].
    { apply list_elem_of_singleton in Hin. by apply post_differs in Hin. }
    apply lift_in in Hin as (id & _ & Hin). apply bind_traced_in in Hin as [Hin|([] & Hr & _)]; [|by eapply Hpaid].
    exfalso. pose proof (poll_quote_spec json_error (Get (mint_url +:+ "/v1/mint/quote/bolt11/" +:+ id)) id polls
      POLLS 0 eq_refl ltac:(unfold POLLS; lia)) as Hs.
    destruct (poll_quote _ _ _ _ _ _) as [ps pr]. destruct Hs as (n & -> & _). cbn in Hin.
    by apply elem_of_replicate in Hin as [? _].
  - destruct r as [proofs|e]; [|done]. assert ((rs, @Ok _ string proofs).2 = Ok proofs) as Hr by done.
    rewrite <- E in Hr. apply lift_ok in Hr as (v & _ & Hr). apply lift_ok in Hr as (a & _ & Hr).
    apply bind_traced_ok in Hr as (q & _ & Hr). apply lift_ok in Hr as (id & _ & Hr).
    apply bind_traced_ok in Hr as ([] & Hr & _). by eapply Hpaid.
Qed.

Lemma funding_waits_for_payment_witness :
  SpilmanDemo.fund.2 = Ok "[]"%string \/ is_ok SpilmanDemo.fund.2 = true /\
  exists n, (n < POLLS)%nat /\ @paid SpilmanDemo.json (SpilmanDemo.polls n) /\
    forall j, (j < n)%nat -> @unpaid SpilmanDemo.json (SpilmanDemo.polls j).
Proof.
  right. split; [by vm_compute|].
  pose proof (@funding_waits_for_payment SpilmanDemo.json ToyJson.json id (fun sigs _ _ => Ok sigs)
    "http://m" "outputs" "keyset" SpilmanDemo.mint SpilmanDemo.polls) as Hf.
  assert (is_ok SpilmanDemo.fund.2 = true) as Hok by by vm_compute.
  unfold SpilmanDemo.fund in Hok. destruct (mint_proofs_from_funding_outputs _ _ _ _ _ _ _) as [rs r].
  apply Hf. by right.
Defined.

(** The payment loop ends. It pays one more each time, from one on, each time a balance
    the bridge makes a payment of; after the last it is refused the next, or, at or above
    the cap, it asks to close the channel with the balance it has paid. *)
Theorem payments_end `{SpilmanClientBridge} channel_id amount s :
  exists s' n last, payments channel_id amount s =
      Some (s', ((fun k => Created (Z.of_nat k)) <$> seq 1 n) ++ [last]) /\
    (forall k, (0 < k <= n)%nat -> payable channel_id (Z.of_nat k)) /\
    (last = Refused (Z.of_nat n + 1) \/
     (0 < n)%nat /\ last = CloseRequested (Z.of_nat n) /\ wrap_u64 (amount * 100) <= Z.of_nat n).
Proof.
  pose proof (wrap_u64_range (amount * 100)) as Hr. pose proof (cap_below_max amount) as Hc.
  destruct (payment_loop_spec (PAYMENT_FUEL amount) channel_id amount 1 s) as (s' & n & last & E & Hn & Hl);
    [lia|done|unfold PAYMENT_FUEL; lia|unfold PAYMENT_FUEL; lia|].
  exists s', n, last. split; [|split].
  - unfold payments. rewrite E. rewrite <- fmap_S_seq, <- list_fmap_compose. do 3 f_equal.
    apply list_fmap_ext. intros i x _. cbn. f_equal. lia.
  - intros k Hk. replace (Z.of_nat k) with (1 + Z.of_nat (k - 1)) by lia. apply Hn. lia.
  - destruct Hl as [->|(Hn0 & -> & Hcap)]; [left; f_equal; lia|].
    right. split; [done|]. split; [f_equal; lia|lia].
Qed.

(** ** Departures *)

(** The cap is a hundred times what the channel was funded with. A channel that refuses
    to pay more than its funds ends the loop there, and is never asked to close. *)
Theorem channel_never_closed `{SpilmanClientBridge} channel_id amount s s' evs final :
  0 < amount -> amount * 100 <= U64_MAX -> (forall b, amount < b -> ~ payable channel_id b) ->
  payments channel_id amount s = Some (s', evs) -> CloseRequested final ∉ evs.
Proof.
  intros Ha Hm Hcap E Hin.
  destruct (payment_loop_spec (PAYMENT_FUEL amount) channel_id amount 1 s) as (s2 & n & last & E' & Hn & Hl).
  1-4: pose proof (wrap_u64_range (amount * 100)); pose proof (cap_below_max amount); unfold PAYMENT_FUEL; lia.
  unfold payments in E. assert (evs = ((fun k => Created (1 + Z.of_nat k)) <$> seq 0 n) ++ [last]) as -> by congruence.
  apply elem_of_app in Hin as [Hin|Hin]; [by apply list_elem_of_fmap in Hin as (k & ? & _)|].
  apply list_elem_of_singleton in Hin as <-. destruct Hl as [?|(Hn0 & _ & Hle)]; [done|].
  rewrite wrap_u64_id in Hle by ints. apply (Hcap (1 + Z.of_nat (n - 1))); [lia|]. apply Hn. lia.
Qed.

Lemma channel_never_closed_witness :
  let evs := map (fun k => Created (Z.of_nat k)) (seq 1 8) ++ [Refused 9] in
  payments "c1" 8 SpilmanDemo.service = Some (SpilmanDemo.service, evs) /\
  forall final, ~ CloseRequested final ∈ evs.
Proof.
  cbv zeta. assert (payments "c1" 8 SpilmanDemo.service =
    Some (SpilmanDemo.service, map (fun k => Created (Z.of_nat k)) (seq 1 8) ++ [Refused 9])) as E by by vm_compute.
  split; [exact E|]. intros final. eapply (channel_never_closed "c1" 8 SpilmanDemo.service); [lia|ints| |exact E].
  intros b Hb [br Hp]. cbn in Hp. destruct (Z.leb_spec b 8); [lia|done].
Defined.
