(* ===== verification/Commands.v ===== *)
(** * The commands

    Models the subcommands of [crates/tollgate-net/src/main.rs]: what every start does
    before its command, which command runs, and the commands of the older protocol that
    are sequences of steps of their own, [v1-consume], with tokens or with a payment
    channel, and [v1-auto]. What a gateway, a mint and the [cdk] wallet answer are
    arguments. Parsing the command line is [clap]'s. *)

From S2P Require Import Prelude F64 Wire Wallet Consume NetDriver Config Json Decimal Shell Text Serde V1Nostr V1Merchant.
From S2P Require Import V1Client V1Gateways V1Crowsnest V1Server V1Http V1Wallet Ssl Startup Spilman.

(** ** The choice of a command *)

Inductive Command : Set :=
| Serve (listen : option string)
| Connect (peer : string)
| Pay (peer mint : string) (amount : Z)
| Consume (peer mint : string) (amount topup interval polls understate_received_pct : Z)
    (meter_iface : option string) (meter_upstream : bool)
| V1Consume (gateway mint : string) (amount interval : Z) (spilman : bool)
| V1Auto (mint : string) (amount interval : Z) (scan_interfaces : option (list string))
| Ssl (subcommand : SslSubcommand).

(** The function that a command calls, and its arguments. *)
Inductive Call : Type :=
| CallServe (cfg : Config.t) (key : Identity.t) (listen : option string)
| CallConnect (cfg : Config.t) (key : Identity.t) (peer : string)
| CallPay (cfg : Config.t) (key : Identity.t) (peer mint : string) (amount : Z)
| CallConsume (cfg : Config.t) (key : Identity.t) (peer mint : string) (opts : ConsumeOpts.t)
| CallV1Consume (gateway mint : string) (amount interval : Z)
| CallV1ConsumeSpilman (gateway mint : string) (amount interval : Z)
| CallV1Auto (mint : string) (amount interval : Z) (scan_interfaces : option (list string))
| CallSsl (subcommand : SslSubcommand).

(** [spilman_feature]: whether the program is built with the feature. *)
Definition dispatch (spilman_feature : bool) (cfg : Config.t) (key : Identity.t) (c : Command) : Call :=
  match c with
  | Serve listen => CallServe cfg key listen
  | Connect peer => CallConnect cfg key peer
  | Pay peer mint amount => CallPay cfg key peer mint amount
  | Consume peer mint amount topup interval polls understate meter_iface meter_upstream =>
      CallConsume cfg key peer mint (consume_opts amount topup interval polls understate meter_iface meter_upstream)
  | V1Consume gateway mint amount interval spilman =>
      if spilman_feature && spilman then CallV1ConsumeSpilman gateway mint amount interval
      else CallV1Consume gateway mint amount interval
  | V1Auto mint amount interval scan_interfaces => CallV1Auto mint amount interval scan_interfaces
  | Ssl subcommand => CallSsl subcommand
  end.

Inductive StartError : Set := BadConfig (e : LoadError) | BadIdentity (e : Identity.KeyError).

(** [main], up to the call; [fresh] and [io] are as in [load_or_generate]. *)
Definition main `{SerdeYaml, Secp256k1, HexCodec} (spilman_feature : bool)
    (config config_dir : option PathBuf) (command : option Command) (fresh : bytes) (io : Identity.Io)
    (d : Disk.t) : Disk.t * result Call StartError :=
  match load config config_dir d with
  | Err e => (d, Err (BadConfig e))
  | Ok cfg =>
      let '(d, r) := Identity.load_or_generate cfg fresh io d in
      (d, match r with
          | Err e => Err (BadIdentity e)
          | Ok key => Ok (dispatch spilman_feature cfg key (unwrap_or command (Serve None)))
          end)
  end.

(** ** [v1-consume] with tokens *)

Section v1.
(** [CdkWallet::new] over an empty store in memory: the state it leaves. *)
Context {World : Type} `{Cdk World} (new_wallet : string -> bytes -> World -> World * result unit string).

Inductive V1Error : Set := WalletInitFailed (e : string) | V1ClientFailed (e : V1ClientError).

(** The answers of the gateway at a base URL, and of the wallet, to the connection and to
    the turns of the loop; [None] when a wait for an invoice does not end. *)
Definition v1_consume (gateway mint : string) (amount : Z) (answers : string -> Upstream.t)
    (rounds : list (Upstream.t * Upstream.t * Z)) (w : World)
    : World * option (list Effect * result unit V1Error) :=
  let '(w, r) := new_wallet mint ZERO_SEED w in
  match r with
  | Err e => (w, Some ([], Err (WalletInitFailed e)))
  | Ok _ =>
      let config := v1_consume_config gateway mint amount in
      (w, '(_, effects, r) ← V1Client.run (answers (base_url (V1ClientConfig.gateway_ip config))) rounds (V1Client.new config);
          Some (effects, V1Client.map_err V1ClientFailed r))
  end.

(** ** [v1-auto] *)

(** The session manager, the configuration of its trackers, and the scan's. *)
Definition v1_auto (mint : string) (amount interval : Z) (scan_interfaces : option (list string)) (w : World)
    : World * result (SessionManager.t * UsageTrackerConfig.t * CrowsnestConfig.t) V1Error :=
  let '(w, r) := new_wallet mint ZERO_SEED w in
  (w, match r with
      | Err e => Err (WalletInitFailed e)
      | Ok _ =>
          Ok (SessionManager.new (v1_auto_config mint amount),
              UsageTrackerConfig.mk (interval * 1000) (f64_ratio 4 5),
              CrowsnestConfig.mk (v1_auto_gateways scan_interfaces)
                (CrowsnestConfig.verify_signature CrowsnestConfig.default)
                (CrowsnestConfig.interface_name CrowsnestConfig.default)
                (CrowsnestConfig.mac_address CrowsnestConfig.default))
      end).
End v1.

(** ** [v1-consume --spilman] *)

Section spilman.
Context `{Nostr, JsonText, SerdeJson, SpilmanClientBridge, Cdk World}.
Context (new_wallet : string -> bytes -> World -> World * result unit string).
(** The messages of [serde_json] and of the HTTP client, a status code's text, and the
    keysets of the [cdk-spilman] crate, read and written. *)
Context (json_error : string -> string) (show : V1HttpError.t -> string) (status_text : Z -> string).
Context {KeysetInfo : Type} (parse_keyset_info_from_json : string -> result KeysetInfo string)
  (keyset_to_json : KeysetInfo -> result string string).

Definition context {A} (what : string) (r : result A string) : result A string :=
  match r with Ok a => Ok a | Err e => Err (what +:+ ": " +:+ e) end.

(** The terms of the channel: the gateway's key, and the mint's keyset; of three attempts
    there is always a last one. [ads] are the
    gateway's answers to the attempts at its base URL, [mint_answer] the mint's. *)
Definition channel_terms (mint_url : string) (ads : nat -> answer) (mint_answer : Request -> Answer)
    : result (string * string) string :=
  match (probe_advertisement ads).2 with
  | None => Err EmptyString
  | Some (Err e) => Err ("advertisement fetch failed: " +:+ show e)
  | Some (Ok ad) =>
      match context "keyset fetch failed"
              (fetch_active_keyset_info json_error parse_keyset_info_from_json mint_url mint_answer).2 with
      | Err e => Err e
      | Ok (_, info) =>
          match context "keyset serialization failed" (keyset_to_json info) with
          | Err e => Err e
          | Ok keyset_info_json => Ok (ev_pubkey ad, keyset_info_json)
          end
      end
  end.

(** The token that funds the channel, from a new wallet. *)
Definition funding_token (mint_url : string) (amount : Z) (w : World) : World * result string string :=
  let '(w, r) := new_wallet mint_url ZERO_SEED w in
  match context "wallet init failed" r with
  | Err e => (w, Err e)
  | Ok _ =>
      let '(w, r) := CdkWallet.create_token amount w in
      (w, match context "token creation failed" r with
          | Err e => Err e
          | Ok token => ok_or (from_utf8 (as_bytes token)) "token not UTF-8"%string
          end)
  end.

(** [now] is the time of the call to [open_channel]; [ads] takes the gateway's URL. *)
Definition v1_consume_spilman (gateway mint_url : string) (amount now : Z) (sender_secret : SecretKey)
    (ads : string -> nat -> answer) (mint_answer : Request -> Answer) (w : World)
    : World * result (option (SpilmanService.t * list PaymentEvent)) string :=
  match channel_terms mint_url (ads (gateway_url gateway)) mint_answer with
  | Err e => (w, Err e)
  | Ok (gateway_pubkey, keyset_info_json) =>
      let service := SpilmanService.new mint_url sender_secret in
      let '(w, r) := funding_token mint_url amount w in
      match r with
      | Err e => (w, Err e)
      | Ok token_str =>
          let '(service, r) := SpilmanService.open_channel now token_str gateway_pubkey 3600 keyset_info_json amount
            (ReqwestNetworking status_text mint_answer) service in
          (w, match context "channel open failed" r with
              | Err e => Err e
              | Ok channel_id => Ok (payments channel_id amount service)
              end)
      end
  end.
End spilman.

(** ** Properties *)

Section channel.
Context `{Nostr, JsonText, SerdeJson, SpilmanClientBridge, Cdk World}.
Context (new_wallet : string -> bytes -> World -> World * result unit string)
  (json_error : string -> string) (show : V1HttpError.t -> string) (status_text : Z -> string).
Context {KeysetInfo : Type} (parse : string -> result KeysetInfo string) (print : KeysetInfo -> result string string).

(** The terms of a channel come before its money. Unless the gateway's advertisement and
    the mint's keyset have been read, the wallet is not touched. A channel is opened
    with the token made then, for the amount asked, from a new key to the key of the
    advertisement, for an hour, under the mint's keyset; the payments of an opened
    channel come to an end. *)
Theorem channel_opened_on_terms gateway mint_url amount now secret ads mint_answer w :
  let '(w', r) := v1_consume_spilman new_wallet json_error show status_text parse print
    gateway mint_url amount now secret ads mint_answer w in
  match channel_terms json_error show parse print mint_url (ads (gateway_url gateway)) mint_answer with
  | Err e => w' = w /\ r = Err e
  | Ok (receiver, keyset) =>
      w' = (funding_token new_wallet mint_url amount w).1 /\
      match (funding_token new_wallet mint_url amount w).2 with
      | Err e => r = Err e
      | Ok token =>
          let opened := open_channel_from_token token receiver (public_key_hex secret) (expiry_timestamp now 3600)
            keyset amount (ReqwestNetworking status_text mint_answer)
            (new_bridge (add_key secret memory_host) DummySyncNetworking) in
          match opened.2 with
          | Err e => r = Err ("channel open failed: " +:+ e)
          | Ok channel =>
              exists s' n last, r = Ok (Some (s', ((fun k => Created (Z.of_nat k)) <$> seq 1 n) ++ [last])) /\
                (last = Refused (Z.of_nat n + 1) \/ last = CloseRequested (Z.of_nat n))
          end
      end
  end.
Proof.
  unfold v1_consume_spilman. destruct (channel_terms _ _ _ _ _ _ _) as [[receiver keyset]|e]; [|done].
  destruct (funding_token _ _ _ w) as [w1 [token|e]]; [|done]. cbn [fst snd].
  unfold SpilmanService.open_channel, SpilmanService.through. cbn [SpilmanService.client_bridge SpilmanService.new SpilmanService.sender_pubkey].
  cbv zeta. destruct (open_channel_from_token _ _ _ _ _ _ _ _) as [b [channel|e]]; [|done]. cbn [snd context]. split; [done|].
  match goal with |- context [payments channel amount ?s] =>
    destruct (payments_end channel amount s) as (s' & n & last & -> & _ & Hl) end.
  exists s', n, last. split; [done|]. destruct Hl as [?|(_ & ? & _)]; [by left|by right].
Qed.

(** ** Departures *)

(** The wallet that is to fund the channel is a new one, in memory. If such a wallet has
    nothing to send, as the [cdk] documents, no channel is ever opened. *)
Theorem channel_never_funded gateway mint_url amount now secret ads mint_answer w w' r :
  (forall w1 opts, (new_wallet mint_url ZERO_SEED w).1 = w1 -> is_ok (prepare_send amount opts w1).2 = false) ->
  v1_consume_spilman new_wallet json_error show status_text parse print
    gateway mint_url amount now secret ads mint_answer w = (w', r) ->
  is_ok r = false.
Proof.
  intros Hn. unfold v1_consume_spilman. destruct (channel_terms _ _ _ _ _ _ _) as [[receiver keyset]|e]; [|by intros [= _ <-]].
  unfold funding_token. destruct (new_wallet mint_url ZERO_SEED w) as [w1 [[]|e]] eqn:Ew; [|by intros [= _ <-]].
  cbn [context]. unfold CdkWallet.create_token, CdkWallet.send_token.
  specialize (Hn w1 SendOptions.default eq_refl).
  destruct (prepare_send amount SendOptions.default w1) as [w2 [p|e]]; [done|]. by intros [= _ <-].
Qed.
End channel.

(** [v1-consume] sets both price limits to zero, meaning none, and the client takes them
    at their word. Where a gateway has no session for it and charges, the command ends
    in an error before it has paid or asked for anything. *)
Theorem v1_consume_never_buys {World} (new_wallet : string -> bytes -> World -> World * result unit string)
    gateway mint amount answers rounds w w' ad pricing usage :
  let u := answers (base_url (gateway_url gateway)) in
  new_wallet mint ZERO_SEED w = (w', Ok tt) ->
  fetch_usage u = Ok (usage, 0) -> fetch_advertisement u = Ok ad ->
  V1Client.select (v1_consume_config gateway mint amount) ad = Ok pricing ->
  0 < PricingOption.price_per_step pricing <= U64_MAX -> 0 < V1Client.step_size_of ad <= U64_MAX ->
  exists e, v1_consume new_wallet gateway mint amount answers rounds w =
    (w', Some ([], Err (V1ClientFailed (Pricing e)))).
Proof.
  cbv zeta. intros Hw Hu Ha Hs Hp Hst. unfold v1_consume. rewrite Hw. cbn [V1ClientConfig.gateway_ip v1_consume_config cli_client].
  destruct (zero_limit_refuses (answers (base_url (gateway_url gateway))) (V1Client.new (v1_consume_config gateway mint amount)) ad pricing usage)
    as [e He]; [done..|].
  exists e. unfold V1Client.run. by rewrite He.
Qed.

(** ** Commands on a demonstration disk and market *)

Module CommandsDemo.
#[export] Instance yaml : SerdeYaml := fun _ => Some StartupDemo.cfg.
Definition disk : Disk.t := Disk.mk {["tollgate.yaml" := File.mk "" 420]} (fun _ => true).
Definition ssl_status : Disk.t * result Call StartError :=
  @main yaml StartupDemo.secp StartupDemo.hex true None None (Some (Ssl Status_)) (StartupDemo.draw 7) Identity.Written disk.
(** A gateway that asks 7 sats per minute, without a session for us. *)
Definition gateway (url : string) : Upstream.t :=
  Upstream.mk (Ok "0/0"%string) (fun _ => Ok BuyDemo.ad) (Ok 30) (fun _ _ => Ok "cashuB"%string)
    (fun _ => Err "offline"%string) (fun _ _ => Err "offline"%string)
    (fun i => (LN_POLL_MS * (Z.of_nat i + 1), Ok (LnInvoiceStatus.mk "UNPAID" None))).
End CommandsDemo.

(** Even [ssl status] reads the configuration first, and makes the node's key. *)
Example ssl_status_makes_key :
  CommandsDemo.ssl_status.2 = Ok (CallSsl Status_) /\
  is_some (Disk.files CommandsDemo.ssl_status.1 !! StartupDemo.key_path) = true.
Proof. split; by vm_compute. Qed.

Lemma v1_consume_never_buys_witness :
  exists e, v1_consume (fun _ _ w => (w, Ok tt)) "10.0.0.1:2121" "https://b" 8 CommandsDemo.gateway [] tt =
    (tt, Some ([], Err (V1ClientFailed (Pricing e)))).
Proof.
  eapply (v1_consume_never_buys (fun _ _ w => (w, Ok tt)) "10.0.0.1:2121" "https://b" 8 CommandsDemo.gateway [] tt tt
    BuyDemo.ad BuyDemo.price 0); [reflexivity|by vm_compute|reflexivity|by vm_compute|..];
    [change (PricingOption.price_per_step BuyDemo.price) with 7; ints|].
  assert (V1Client.step_size_of BuyDemo.ad = 60000) as -> by by vm_compute. ints.
Defined.

(** The gateway's URL is taken for its address: the requests of [v1-consume] go to a URL
    with two schemes and two ports. *)
Example v1_consume_url :
  base_url (V1ClientConfig.gateway_ip (v1_consume_config "10.0.0.1:2121" "https://b" 8)) =
    "http://http://10.0.0.1:2121:2121"%string.
Proof. by vm_compute. Qed.
